(* ===== verification/_CoqProject ===== *)
-Q . S2P
Prelude.v
GoStr.v
Regex.v
Json.v
JsonText.v
Geo.v
Exchange.v
Scenario.v
Accounts.v
Lights.v
Mac.v
World.v
Interleaving.v
Mail.v
AuditStore.v
Crypto.v
PortalStore.v
Polling.v
QueueRace.v
Inventory.v
LegacyStore.v
AccountStore.v
AccountTables.v
Config.v
Http.v
Newsletter.v
Sensitive.v
Portal.v
ScenarioApi.v
LightNames.v
Orders.v
Session.v
SyncStore.v
GatewayApi.v
Import.v
Middleware.v
Legacy.v
Support.v
Devices.v
Identity.v
OAuth.v
Admin.v
Credentials.v
ResetRace.v
Reports.v
Administration.v
AdminRace.v
Router.v
