(* ===== verification/Prelude.v ===== *)
(** * The user portal backend: a verification library

    The program (Go, under [src/]) is the backend of a home-automation portal.
    A user's cabinet ("armoire") holds an exchange table of indexed values; a
    gateway next to it, or the cabinet itself over the wide area network, polls
    the backend.  The portal queues orders as cloud actions, the gateway or the
    cabinet fetches them, applies them and reports them done; the gateway pushes
    its copy of the exchange table back, synchronises light names and runs sync
    profiles.  Around that stand the accounts (passwords, reset links, temporary
    passwords, remembered sessions, sign-in through Google and Apple, links
    between users and cabinets), the administration with its mail, newsletters
    and audit log, and the support reports that become GitHub issues.

    ** How the library is laid out

    Language and libraries:
    - [GoStr], [Regex], [Json], [JsonText]: the Go strings and numbers, the
      regular expressions, the JSON values with Go's decoding of them into
      structs, and the text of a JSON document;
    - [Crypto]: SHA-256, HMAC, base 64 and 32, and the packages built on them
      ([internal/pwreset/], [remember/], [temppass/], [support/pseudonym.go]).

    Pure parts, translated function by function:
    - [Exchange]: [internal/domain/order_expansion.go], [merge_params.go],
      [action_chunk.go] and the pure part of [internal/data/exchange.go] --
      the block 605..622 of light and shutter commands, its merge and the
      chunks of at most 30 parameters;
    - [Scenario], [Accounts], [Lights]: [internal/domain/];
    - [Mac]: [internal/data/mac.go] and [exchange_mac.go];
    - [Geo]: [internal/geo/ipapi.go] and [internal/turnstile/verify.go];
    - [Sensitive]: [internal/support/sensitive.go] and [render.go];
    - [Config]: [internal/config/config.go] and [observability/newrelic.go].

    Stores.  [World] holds the database (one field per table), the clock, the
    fault plan of the statements, the random bytes, the limiters, the outgoing
    mail and the requests sent to GitHub; a store method is a function [World ->
    res err A * World] ([MW A]), written with the statements in the order of the
    code, a [transaction] restoring the tables on an error:
    - [PortalStore] ([internal/data/store.go], [exchange.go]) and [Polling];
    - [AccountStore] ([user_store.go], [password_reset_store.go],
      [remember_session_store.go], a Module per store) and [AccountTables],
      the types of these tables;
    - [SyncStore]: [sync_profile_store.go], [sync_alert.go],
      [internal/syncprofile/], [internal/domain/sync_profile.go];
    - [Inventory], [AuditStore], [LegacyStore]: [admin_inventory.go],
      [audit_store.go], [legacy_iot_store.go] and [legacy_iot_geo.go];
    - [Mail], [Newsletter]: [email_template_store.go], [newsletter_store.go] with
      [internal/notify/], [internal/mailtpl/] and the handlers of newsletters;
    - [LightNames]: [light_names_store.go] with [internal/handlers/light_names.go].

    Handlers.  [Http] has requests, responses and the monad [HW] of a handler,
    in which an early [return] is a [throw] of the response.  [serve] runs one:
    - [Portal], [Session], [ScenarioApi], [Orders]: [internal/handlers/portal.go],
      [scenarios.go], [light_timers.go]; the eight handlers that send orders are
      seen together in [Orders];
    - [GatewayApi]: [gateway.go], [gateway_sync.go], [gateway_sync_profile.go];
    - [Middleware]: [internal/middleware/] -- tokens, account status, gateway
      identity, rate limits.  The user store is reached through the class
      [ActiveUserStore], as in the source;
    - [Identity], [OAuth]: [internal/identity/]; [Credentials] has the theorems;
    - [Admin]: [internal/admin/]; [Administration] has the theorems;
    - [Legacy]: [internal/legacyiot/] and [basic_auth.go]; theorems in [Devices];
    - [Support]: [internal/support/] and its store; theorems in [Reports].

    Processes.  [Router] is the server: the table of its routes behind their
    middlewares ([internal/api/router.go] and every [Mount]) and the wiring of
    [cmd/server/main.go]; [Import] is [cmd/import-machines/main.go].

    Interfaces between components are classes ([ActiveUserStore],
    [TemplateStore], [LegacyMachineStore], [Store] of the support service) or a
    record of operations with its laws ([GitHub]); the stores are instances.

    Simultaneous requests.  [Interleaving] cuts a call into its statements
    ([Proc]) and runs several under a schedule; each file proves that a call with
    no other beside it is the method or handler it was cut from:
    - [QueueRace]: enqueues, polls and completions of the action queue;
    - [ResetRace]: [ResetPassword];  [AdminRace]: [DeleteUser].

    ** What the theorems show

    - the exchange parameters: the merge keeps for every bit the last intent of
      the sequence; merging parts then merging the results is merging the whole;
    - the queue: coalescing preserves the final intents, a fetch hands out each
      pending action once and in order, repeated polls empty it, the life of an
      action only advances;
    - the queue under simultaneous calls: whatever the interleaving, no action is
      lost, changed or duplicated in the table, one that left the state pending
      was completed by name or is in the answer of a poll, and every call ends in
      a fixed number of its own turns.  What fails then is shown by an example:
      two polls may hand out the same actions;
    - simultaneous resets and deletions: of the requests that carry one reset
      token one at most succeeds; an account that is gone was deleted by somebody
      entitled to.  The last global administrator is only safe from requests one
      after the other (example);
    - the server: its routes are distinct and an anonymous request reaches only
      the listed public ones; in production no account is registered without a
      verified captcha; the configured limits are positive;
    - the routes: an order that is answered came from an authenticated, allowed,
      linked user and changed only that user's cabinet; the administration is
      closed to requests that are not admitted; a session shows a user its own
      gateway and cabinet; a device reaches actions once it is activated, and
      no request of a device activates one;
    - the gateway: the middleware lets only a valid identity through, its sync
      runs are isolated from the others'; light names: the merge is the newest of
      the stored and the received rows, and a second sync changes nothing;
    - credentials: who gets a token at login or through a provider, what a reset
      or a temporary password does, tokens single-use and superseded, a new
      password ends the remembered sessions, sessions capped, the forgotten
      password is no directory of accounts, the account tables stay well formed;
    - the administration: who may do what to whom, a local administrator is
      confined to its cabinet, the last global administrator stays;
    - reports: private text is refused, GitHub is sent a report's checked text in
      the repository of its kind and nothing else, the text of an issue is inert,
      an account files at most so many, a report starts waiting and moves one way;
    - mail and devices: rendering against a reference, newsletters against an
      abstract shelf, the round trip of a device's status, the fair rotation of
      its polls; an import repeated changes nothing;
    - the rate limiter is an exact sliding window.

    ** Conventions and bounds

    A Go [int] is a [Z]; [Atoi] answers within 64 bits, and where the code
    computes with unbounded inputs the wrap-around is written ([wrap64]).  The
    [INT] columns refuse what does not fit 32 bits ([int4]); a text with a NUL
    byte or invalid UTF-8 is refused by the database.  A [Time] counts
    nanoseconds from the zero [time.Time].  A floating-point number is the
    literal it was read from.  [ToLower] and [EqualFold] are those of ASCII,
    letters beyond it being written out in [Sensitive].  Where a
    loop does not follow a list (chunks, coalescing, the scan of a text) its fuel
    bounds the length of what is left.
    A [range] over a Go map is a list of its entries in some order, and results
    are proved independent of it; the members of a JSON answer are listed as the
    code lists them.  A nil dereference and a failed type assertion end the
    handler as [panicked].  A background task runs at once, where it is started.

    Parameters: bcrypt, the JWT library, the SMTP library, what ip-api,
    Cloudflare, GitHub, Google and Apple answer, the environment, the order of a
    [range].  A hypothesis on one of them is named where it is used.

    ** What is not modelled

    The matching of a path to a pattern (chi), CORS, the recovery of panics, the
    real address of a client behind a proxy, the HTTP and SQL connections and the
    SQL files of the migrations, the formatting of times in answers, headers of
    an answer such as [Retry-After], the collation of the database (byte order),
    the generation of UUIDs (numerals of a sequence), the exhaustion of a 32-bit
    sequence, rounding to microseconds, the metadata of some audit entries, log
    lines, the endless loop around the report worker.  Statement by statement
    interleaving is modelled for the calls of [QueueRace], [ResetRace] and
    [AdminRace]; every other theorem is about requests one after the other, a
    handler running on the world alone.  A transaction is one step when its first
    statement locks the row its rivals need. *)
From Stdlib Require Export ZArith Lia ZifyBool.
From stdpp Require Export base option gmap sets strings sorting numbers list_numbers list.

#[global] Open Scope Z_scope.
#[global] Set Default Proof Using "Type".

(** ** Results

    A Go function that returns [(T, error)] returns a [res E T]: the value or
    the error.  [E] is the error type of the layer: [err] in the stores, an
    HTTP response in a handler that has already answered. *)
Inductive res (E A : Type) : Type :=
  | Ok (a : A)
  | Fail (e : E).
Arguments Ok {E A} a.
Arguments Fail {E A} e.

#[export] Instance res_eq_dec {E A} `{EqDecision E, EqDecision A} : EqDecision (res E A).
Proof. solve_decision. Defined.

Definition is_Ok {E A} (r : res E A) : bool :=
  match r with Ok _ => true | Fail _ => false end.

Definition res_value {E A} (r : res E A) : option A :=
  match r with Ok a => Some a | Fail _ => None end.

Lemma res_value_Some {E A} (x : res E A) a : res_value x = Some a -> x = Ok a.
Proof. destruct x; [|done]. by intros [= ->]. Qed.

#[export] Instance res_ret {E} : MRet (res E) := fun A a => Ok a.
#[export] Instance res_bind {E} : MBind (res E) := fun A B f r =>
  match r with Ok a => f a | Fail e => Fail e end.
#[export] Instance res_fmap {E} : FMap (res E) := fun A B f r =>
  match r with Ok a => Ok (f a) | Fail e => Fail e end.

(** The error of an optional value that is absent. *)
Definition ok_or {E A} (o : option A) (e : E) : res E A :=
  match o with Some a => Ok a | None => Fail e end.

Lemma res_bind_Ok {E A B} (r : res E A) (f : A -> res E B) (b : B) :
  (r ≫= f) = Ok b <-> exists a, r = Ok a /\ f a = Ok b.
Proof. destruct r; simpl; split; [by eauto|by intros (? & [= ->] & ?)|done|by intros (? & ? & ?)]. Qed.

(** ** The state and error monad

    [M S E A] is a Go call over a shared state [S]: it reads and changes the
    state and then returns a value or an error.  The state reached before an
    error is kept, as in the code; a transaction restores it explicitly. *)
Definition M (S E A : Type) : Type := S -> res E A * S.

#[export] Instance M_ret {S E} : MRet (M S E) := fun A a s => (Ok a, s).
#[export] Instance M_bind {S E} : MBind (M S E) := fun A B f m s =>
  match m s with
  | (Ok a, s') => f a s'
  | (Fail e, s') => (Fail e, s')
  end.
#[export] Instance M_fmap {S E} : FMap (M S E) := fun A B f m s =>
  match m s with
  | (Ok a, s') => (Ok (f a), s')
  | (Fail e, s') => (Fail e, s')
  end.

(** The early return [return err]. *)
Definition throw {S E A} (e : E) : M S E A := fun s => (Fail e, s).
(** The two results of a call, looked at by the caller: [v, err := f()]. *)
Definition try {S E E' A} (m : M S E A) : M S E' (res E A) := fun s =>
  let '(r, s') := m s in (Ok r, s').
(** A pure result inside the monad. *)
Definition lift {S E A} (r : res E A) : M S E A := fun s => (r, s).
(** The error of a call, translated by the caller. *)
Definition map_err {S E E' A} (f : E -> E') (m : M S E A) : M S E' A := fun s =>
  match m s with
  | (Ok a, s') => (Ok a, s')
  | (Fail e, s') => (Fail (f e), s')
  end.
Definition gets {S E A} (f : S -> A) : M S E A := fun s => (Ok (f s), s).
Definition modify {S E} (f : S -> S) : M S E unit := fun s => (Ok tt, f s).
(** [if c { return e }] *)
Definition guard_err {S E} (c : bool) (e : E) : M S E unit :=
  if c then throw e else mret tt.
(** The state after a call and its result. *)
Definition run_st {S E A} (m : M S E A) (s : S) : S := (m s).2.
Definition run_res {S E A} (m : M S E A) (s : S) : res E A := (m s).1.

Lemma M_bind_run {S E A B} (m : M S E A) (f : A -> M S E B) s :
  (m ≫= f) s = match m s with
               | (Ok a, s') => f a s'
               | (Fail e, s') => (Fail e, s')
               end.
Proof. reflexivity. Qed.

Lemma guard_run {S E} (c : bool) (e : E) (s : S) : guard_err c e s = if c then (Fail e, s) else (Ok tt, s).
Proof. by destruct c. Qed.
Lemma M_bind_Ok {S E A B} (m : M S E A) (f : A -> M S E B) s b s' :
  (m ≫= f) s = (Ok b, s') <-> exists a s1, m s = (Ok a, s1) /\ f a s1 = (Ok b, s').
Proof.
  rewrite M_bind_run. destruct (m s) as [[a|e] s1]; split; try done.
  - by exists a, s1.
  - by intros (? & ? & [= <- <-] & ?).
  - by intros (? & ? & ? & ?).
Qed.

(** ** Preservation of an invariant by a call

    [preserves I m]: whatever [m] returns, it leaves the states of [I] in [I].
    The rules below make it a syntax-directed check of a monadic body. *)
Definition preserves {S E A} (I : S -> Prop) (m : M S E A) : Prop :=
  forall s, I s -> I (m s).2.

Section preserves.
Context {S E : Type} (I : S -> Prop).

Lemma preserves_ret {A} (a : A) : preserves I (mret a : M S E A).
Proof. intros s Hs; exact Hs. Qed.
Lemma preserves_throw {A} (e : E) : preserves I (throw e : M S E A).
Proof. intros s Hs; exact Hs. Qed.
Lemma preserves_bind {A B} (m : M S E A) (f : A -> M S E B) :
  preserves I m -> (forall a, preserves I (f a)) -> preserves I (m ≫= f).
Proof.
  intros Hm Hf s Hs. specialize (Hm s Hs). rewrite M_bind_run.
  destruct (m s) as [[a|e] s'] eqn:Hms; [apply (Hf a) in Hm|]; exact Hm.
Qed.
Lemma preserves_try {E' A} (m : M S E A) :
  preserves I m -> preserves I (try m : M S E' (res E A)).
Proof.
  intros Hm s Hs. specialize (Hm s Hs). unfold try. by destruct (m s).
Qed.
Lemma preserves_map_err {E' A} (f : E -> E') (m : M S E A) :
  preserves I m -> preserves I (map_err f m).
Proof.
  intros Hm s Hs. specialize (Hm s Hs). unfold map_err. by destruct (m s) as [[]].
Qed.
Lemma preserves_lift {A} (r : res E A) : preserves I (lift r).
Proof. intros s Hs; exact Hs. Qed.
Lemma preserves_gets {A} (f : S -> A) : preserves I (gets f : M S E A).
Proof. intros s Hs; exact Hs. Qed.
Lemma preserves_guard (c : bool) (e : E) : preserves I (guard_err c e).
Proof. destruct c; intros s Hs; exact Hs. Qed.
Lemma preserves_modify (f : S -> S) :
  (forall s, I s -> I (f s)) -> preserves I (modify f : M S E unit).
Proof. intros Hf s Hs. by apply Hf. Qed.
End preserves.

Create HintDb preserves.
#[export] Hint Resolve preserves_ret preserves_throw preserves_lift preserves_gets
  preserves_guard : preserves.

(** Walks through a monadic body: binds, tries, conditionals and matches. *)
Ltac preserves_step :=
  match goal with
  | |- preserves _ (_ ≫= _) => apply preserves_bind; [|intros]
  | |- preserves _ (try _) => apply preserves_try
  | |- preserves _ (map_err _ _) => apply preserves_map_err
  | |- preserves _ (match ?x with _ => _ end) => destruct x
  | |- preserves _ _ => solve [eauto with preserves]
  end.
Ltac preserves_tac := repeat preserves_step.

(** The condition of an [if] of the goal, with its equation. *)
Tactic Notation "destruct_if" ident(H) :=
  match goal with |- context [if ?c then _ else _] => destruct c eqn:H end.

(** ** Lists *)
Section lists.
Context {A : Type}.

Lemma Forall_snoc (P : A -> Prop) l x : Forall P (l ++ [x]) <-> Forall P l /\ P x.
Proof. rewrite Forall_app, Forall_singleton. done. Qed.

(** [for] loops over a slice that carry a value. *)
Lemma foldl_inv {B} (P : B -> Prop) (f : B -> A -> B) (l : list A) b :
  P b -> (forall b a, a ∈ l -> P b -> P (f b a)) -> P (foldl f b l).
Proof.
  revert b. induction l as [|a l IH]; intros b Hb Hf; simpl; [done|].
  apply IH; [apply Hf; [left|done]|]. intros b' a' Ha'. apply Hf. by right.
Qed.
End lists.

Lemma filter_none {A} (P : A -> Prop) `{!forall x, Decision (P x)} (l : list A) :
  (forall x, x ∈ l -> ~ P x) -> base.filter P l = [].
Proof.
  induction l as [|x l IH]; intros HP; [done|].
  rewrite filter_cons_False by (apply HP; left). apply IH. intros y Hy. apply HP. by right.
Qed.
Lemma filter_all {A} (P : A -> Prop) `{!forall x, Decision (P x)} (l : list A) :
  (forall x, x ∈ l -> P x) -> base.filter P l = l.
Proof.
  induction l as [|x l IH]; intros HP; [done|].
  rewrite filter_cons_True by (apply HP; left). f_equal. apply IH. intros y Hy. apply HP. by right.
Qed.

Lemma omap_ext_list {A B} (f g : A -> option B) (l : list A) :
  (forall a, f a = g a) -> omap f l = omap g l.
Proof.
  intros Hfg. induction l as [|a l IH]; [done|]. cbn. rewrite Hfg.
  destruct (g a) as [b|]; [exact (f_equal (cons b) IH)|exact IH].
Qed.

Lemma mjoin_cons {A} (x : list A) (xs : list (list A)) : mjoin (x :: xs) = x ++ mjoin xs.
Proof. reflexivity. Qed.

Lemma filter_app_list {A} (f : A -> bool) l1 l2 :
  List.filter f (l1 ++ l2) = List.filter f l1 ++ List.filter f l2.
Proof. induction l1 as [|x l1 IH]; [done|]. simpl. rewrite IH. by destruct (f x). Qed.
Lemma filter_all_false {A} (f : A -> bool) l :
  (forall x, x ∈ l -> f x = false) -> List.filter f l = [].
Proof.
  induction l as [|x l IH]; intros Hf; [done|]. simpl. rewrite Hf by left.
  apply IH. intros y Hy. apply Hf. by right.
Qed.
Lemma filter_all_true {A} (f : A -> bool) l :
  (forall x, x ∈ l -> f x = true) -> List.filter f l = l.
Proof.
  induction l as [|x l IH]; intros Hf; [done|]. simpl. rewrite Hf by left.
  f_equal. apply IH. intros y Hy. apply Hf. by right.
Qed.
Lemma sublist_elem_of {A} (x : A) l : x ∈ l -> sublist [x] l.
Proof.
  induction l as [|y l IH]; [by intros ?%elem_of_nil|].
  intros [->|Hx]%elem_of_cons; [apply sublist_skip, sublist_nil_l|apply sublist_cons; by apply IH].
Qed.

Lemma Forall2_impl_in {A B} (P Q : A -> B -> Prop) l k :
  Forall2 P l k -> (forall a b, a ∈ l -> P a b -> Q a b) -> Forall2 Q l k.
Proof.
  induction 1 as [|a b l k Hab H IH]; intros HPQ; constructor; [apply HPQ; [left|done]|].
  apply IH. intros x y Hx. apply HPQ. by right.
Qed.
Lemma Forall2_refl_on {A} (R : A -> A -> Prop) l : (forall a, a ∈ l -> R a a) -> Forall2 R l l.
Proof.
  induction l as [|a l IH]; intros HR; constructor; [apply HR; left|].
  apply IH. intros b Hb. apply HR. by right.
Qed.

Lemma Permutation_filter_list {A} (f : A -> bool) l1 l2 :
  Permutation l1 l2 -> Permutation (List.filter f l1) (List.filter f l2).
Proof.
  induction 1 as [|x l1 l2 H IH|x y l|l1 l2 l3 H1 IH1 H2 IH2]; simpl.
  - done.
  - destruct (f x); [by constructor|done].
  - destruct (f x), (f y); try done. constructor.
  - by etrans.
Qed.
(** In a list with distinct keys, a prefix is told from the rest by its keys. *)
Lemma filter_key_drop {A B} `{EqDecision B} (f : A -> B) n (l : list A) : NoDup (map f l) ->
  List.filter (fun r => negb (bool_decide (f r ∈ map f (take n l)))) l = drop n l.
Proof.
  intros Hnd. set (g := fun r => negb (bool_decide (f r ∈ map f (take n l)))).
  transitivity (List.filter g (take n l ++ drop n l)); [by rewrite take_drop|].
  rewrite filter_app_list.
  rewrite filter_all_false, filter_all_true; [done| |].
  - intros r Hr. unfold g. rewrite bool_decide_eq_false_2; [done|].
    rewrite <-(take_drop n l), map_app in Hnd. apply NoDup_app in Hnd as (_ & Hd & _).
    intros Hin. apply (Hd _ Hin). by apply list_elem_of_fmap_2.
  - intros r Hr. unfold g. rewrite bool_decide_eq_true_2; [done|]. by apply list_elem_of_fmap_2.
Qed.
Lemma filter_key_take {A B} `{EqDecision B} (f : A -> B) n (l : list A) : NoDup (map f l) ->
  List.filter (fun r => negb (bool_decide (f r ∈ map f (drop n l)))) l = take n l.
Proof.
  intros Hnd. set (g := fun r => negb (bool_decide (f r ∈ map f (drop n l)))).
  transitivity (List.filter g (take n l ++ drop n l)); [by rewrite take_drop|].
  rewrite filter_app_list.
  rewrite filter_all_true, filter_all_false; [by rewrite app_nil_r| |].
  - intros r Hr. unfold g. rewrite bool_decide_eq_true_2; [done|]. by apply list_elem_of_fmap_2.
  - intros r Hr. unfold g. rewrite bool_decide_eq_false_2; [done|].
    rewrite <-(take_drop n l), map_app in Hnd. apply NoDup_app in Hnd as (_ & Hd & _).
    intros Hin. apply (Hd (f r)); [by apply list_elem_of_fmap_2|done].
Qed.
Lemma NoDup_map_filter {A B} (f : A -> B) (p : A -> bool) l :
  NoDup (map f l) -> NoDup (map f (List.filter p l)).
Proof.
  induction l as [|r l IH]; [done|]. simpl. intros [Hr Hnd]%NoDup_cons.
  destruct (p r); [|by apply IH]. simpl. constructor; [|by apply IH].
  intros (x & Hx & Hin)%list_elem_of_fmap. apply Hr. rewrite Hx.
  apply list_elem_of_In, filter_In in Hin as [Hin _]. apply list_elem_of_fmap_2.
  by apply list_elem_of_In.
Qed.

Lemma NoDup_key_eq {A B} (f : A -> B) (l : list A) a b :
  NoDup (map f l) -> a ∈ l -> b ∈ l -> f a = f b -> a = b.
Proof.
  induction l as [|x l IH]; [by intros _ ?%elem_of_nil|]. simpl. intros [Hx Hnd]%NoDup_cons.
  rewrite !elem_of_cons. intros [-> |Ha] [-> |Hb] Hf; [done| | |by apply IH].
  - destruct Hx. rewrite Hf. by apply list_elem_of_fmap_2.
  - destruct Hx. rewrite <-Hf. by apply list_elem_of_fmap_2.
Qed.

(** The dual of [filter]: [existsb] and [forallb] as quantifiers. *)
Lemma existsb_elem {A} (f : A -> bool) l :
  existsb f l = true <-> exists x, x ∈ l /\ f x = true.
Proof.
  rewrite existsb_exists. setoid_rewrite list_elem_of_In. done.
Qed.
Lemma forallb_elem {A} (f : A -> bool) l :
  forallb f l = true <-> forall x, x ∈ l -> f x = true.
Proof.
  rewrite forallb_forall. setoid_rewrite list_elem_of_In. done.
Qed.
