(* ===== verification/GoStr.v ===== *)
(** * The Go strings the backend uses

    A Go string is its bytes: a Rocq [string].  This file translates what the
    source uses of [strings], [bytes], [strconv], [fmt.Sscanf("%d")] and
    [unicode/utf8], with the laws the components need.  [ToLower] and
    [ToUpper] map the ASCII letters and leave every other byte alone; the
    addresses, roles and MAC strings the source applies them to are ASCII. *)
From S2P Require Import Prelude.
From Stdlib Require Export Ascii.
From Stdlib Require String.
Export String.StringSyntax.
#[global] Open Scope Z_scope.

(** ** Bytes *)
Definition bytes (s : string) : list ascii := String.list_ascii_of_string s.
Definition str (l : list ascii) : string := String.string_of_list_ascii l.
Definition ord (c : ascii) : Z := Z.of_N (N_of_ascii c).
Definition chr (z : Z) : ascii := ascii_of_N (Z.to_N z).
Definition slen (s : string) : Z := Z.of_nat (String.length s).
(** Strings are compared with [=?] in the conditions of the code. *)
Definition seqb (a b : string) : bool := bool_decide (a = b).
Definition is_empty (s : string) : bool := match s with EmptyString => true | _ => false end.

Lemma str_bytes s : str (bytes s) = s.
Proof. apply String.string_of_list_ascii_of_string. Qed.
Lemma bytes_str l : bytes (str l) = l.
Proof. apply String.list_ascii_of_string_of_list_ascii. Qed.
Lemma bytes_inj a b : bytes a = bytes b -> a = b.
Proof. intros H. rewrite <-(str_bytes a), <-(str_bytes b). by f_equal. Qed.
Lemma str_inj a b : str a = str b -> a = b.
Proof. intros H. rewrite <-(bytes_str a), <-(bytes_str b). by f_equal. Qed.
Lemma bytes_app a b : bytes (a +:+ b) = bytes a ++ bytes b.
Proof. induction a as [|c a IH]; [done|]. simpl. by rewrite IH. Qed.
Lemma str_app a b : str (a ++ b) = str a +:+ str b.
Proof. apply bytes_inj. by rewrite bytes_app, !bytes_str. Qed.
Lemma is_empty_spec s : is_empty s = true <-> s = EmptyString.
Proof. by destruct s. Qed.
Lemma seqb_spec a b : seqb a b = true <-> a = b.
Proof. apply bool_decide_eq_true. Qed.
Lemma seqb_refl a : seqb a a = true.
Proof. by apply seqb_spec. Qed.
Lemma ord_range c : 0 <= ord c < 256.
Proof.
  unfold ord. pose proof (N_ascii_bounded c) as H. lia.
Qed.
Lemma ord_chr z : 0 <= z < 256 -> ord (chr z) = z.
Proof.
  intros Hz. unfold ord, chr. rewrite N_ascii_embedding by lia. lia.
Qed.
Lemma chr_ord c : chr (ord c) = c.
Proof. unfold ord, chr. by rewrite N2Z.id, ascii_N_embedding. Qed.
Lemma ord_inj a b : ord a = ord b -> a = b.
Proof. intros H. rewrite <-(chr_ord a), <-(chr_ord b). by f_equal. Qed.

(** ** White space: [strings.TrimSpace]

    The white space of [unicode.IsSpace]: one byte below U+0080, then U+0085
    and U+00A0 (two bytes), U+1680, U+2000..U+200A, U+2028, U+2029, U+202F,
    U+205F and U+3000 (three bytes).  A space encoding never occurs inside the
    encoding of another rune, so trimming bytes trims runes. *)
Definition space1 (a : ascii) : bool :=
  let x := ord a in (x =? 32) || ((9 <=? x) && (x <=? 13)).
Definition space2 (a b : ascii) : bool :=
  (ord a =? 194) && ((ord b =? 133) || (ord b =? 160)).
Definition space3 (a b c : ascii) : bool :=
  let '(x, y, z) := (ord a, ord b, ord c) in
  ((x =? 225) && (y =? 154) && (z =? 128))
  || ((x =? 226) && (y =? 128) &&
      (((128 <=? z) && (z <=? 138)) || (z =? 168) || (z =? 169) || (z =? 175)))
  || ((x =? 226) && (y =? 129) && (z =? 159))
  || ((x =? 227) && (y =? 128) && (z =? 128)).

Fixpoint trim_left (l : list ascii) : list ascii :=
  match l with
  | [] => []
  | a :: r1 =>
      if space1 a then trim_left r1 else
      match r1 with
      | [] => l
      | b :: r2 =>
          if space2 a b then trim_left r2 else
          match r2 with
          | [] => l
          | c :: r3 => if space3 a b c then trim_left r3 else l
          end
      end
  end.
(** The same on the reversed bytes: the last rune is read backwards. *)
Fixpoint trim_right_rev (l : list ascii) : list ascii :=
  match l with
  | [] => []
  | c :: r1 =>
      if space1 c then trim_right_rev r1 else
      match r1 with
      | [] => l
      | b :: r2 =>
          if space2 b c then trim_right_rev r2 else
          match r2 with
          | [] => l
          | a :: r3 => if space3 a b c then trim_right_rev r3 else l
          end
      end
  end.
Definition trim_right (l : list ascii) : list ascii := rev (trim_right_rev (rev l)).
Definition TrimSpace_bytes (l : list ascii) : list ascii := trim_right (trim_left l).
Definition TrimSpace (s : string) : string := str (TrimSpace_bytes (bytes s)).

(** A byte string that begins (ends, reversed) with no white space. *)
Definition no_lead (l : list ascii) : bool :=
  match l with
  | [] => true
  | a :: r1 => negb (space1 a) &&
      match r1 with
      | [] => true
      | b :: r2 => negb (space2 a b) &&
          match r2 with [] => true | c :: _ => negb (space3 a b c) end
      end
  end.
Definition no_trail_rev (l : list ascii) : bool :=
  match l with
  | [] => true
  | c :: r1 => negb (space1 c) &&
      match r1 with
      | [] => true
      | b :: r2 => negb (space2 b c) &&
          match r2 with [] => true | a :: _ => negb (space3 a b c) end
      end
  end.

Lemma trim_left_lead l : no_lead (trim_left l) = true.
Proof.
  induction l as [l IH] using (induction_ltof1 _ (@List.length ascii)).
  unfold ltof in IH. destruct l as [|a [|b [|c l]]]; simpl.
  - done.
  - destruct (space1 a) eqn:E; simpl; [done|by rewrite E].
  - destruct (space1 a) eqn:E; [by apply (IH [b]); simpl; lia|].
    destruct (space2 a b) eqn:E2; [done|]. simpl. by rewrite E, E2.
  - destruct (space1 a) eqn:E; [by apply (IH (b :: c :: l)); simpl; lia|].
    destruct (space2 a b) eqn:E2; [by apply (IH (c :: l)); simpl; lia|].
    destruct (space3 a b c) eqn:E3; [by apply IH; simpl; lia|].
    simpl. by rewrite E, E2, E3.
Qed.
Lemma trim_right_rev_trail l : no_trail_rev (trim_right_rev l) = true.
Proof.
  induction l as [l IH] using (induction_ltof1 _ (@List.length ascii)).
  unfold ltof in IH. destruct l as [|a [|b [|c l]]]; simpl.
  - done.
  - destruct (space1 a) eqn:E; simpl; [done|by rewrite E].
  - destruct (space1 a) eqn:E; [by apply (IH [b]); simpl; lia|].
    destruct (space2 b a) eqn:E2; [done|]. simpl. by rewrite E, E2.
  - destruct (space1 a) eqn:E; [by apply (IH (b :: c :: l)); simpl; lia|].
    destruct (space2 b a) eqn:E2; [by apply (IH (c :: l)); simpl; lia|].
    destruct (space3 c b a) eqn:E3; [by apply IH; simpl; lia|].
    simpl. by rewrite E, E2, E3.
Qed.
Lemma trim_left_id l : no_lead l = true -> trim_left l = l.
Proof.
  destruct l as [|a [|b [|c l]]]; simpl; [done| | |];
    repeat (rewrite andb_true_iff || rewrite negb_true_iff); intuition;
    repeat match goal with H : _ = false |- _ => rewrite H; clear H end; done.
Qed.
Lemma trim_right_rev_id l : no_trail_rev l = true -> trim_right_rev l = l.
Proof.
  destruct l as [|a [|b [|c l]]]; simpl; [done| | |];
    repeat (rewrite andb_true_iff || rewrite negb_true_iff); intuition;
    repeat match goal with H : _ = false |- _ => rewrite H; clear H end; done.
Qed.
Lemma trim_right_rev_suffix l : exists p, l = p ++ trim_right_rev l.
Proof.
  induction l as [l IH] using (induction_ltof1 _ (@List.length ascii)).
  unfold ltof in IH. destruct l as [|a [|b [|c l]]]; simpl.
  - by exists [].
  - destruct (space1 a); [by exists [a]|by exists []].
  - destruct (space1 a).
    + destruct (IH [b]) as [p Hp]; [simpl; lia|]. exists (a :: p).
      by apply (f_equal (cons a)) in Hp.
    + destruct (space2 b a); [by exists [a; b]|by exists []].
  - destruct (space1 a).
    { destruct (IH (b :: c :: l)) as [p Hp]; [simpl; lia|]. exists (a :: p).
      by apply (f_equal (cons a)) in Hp. }
    destruct (space2 b a).
    { destruct (IH (c :: l)) as [p Hp]; [simpl; lia|]. exists (a :: b :: p).
      by apply (f_equal (fun l => a :: b :: l)) in Hp. }
    destruct (space3 c b a); [|by exists []].
    destruct (IH l) as [p Hp]; [simpl; lia|]. exists (a :: b :: c :: p).
    by apply (f_equal (fun l => a :: b :: c :: l)) in Hp.
Qed.
Lemma no_lead_prefix l p : no_lead (l ++ p) = true -> no_lead l = true.
Proof.
  destruct l as [|a [|b [|c l]]]; simpl; [done| | |done];
    repeat rewrite andb_true_iff; try tauto.
Qed.
Lemma trim_right_prefix l : exists p, l = trim_right l ++ p.
Proof.
  destruct (trim_right_rev_suffix (rev l)) as [p Hp].
  exists (rev p). unfold trim_right. rewrite <-rev_app_distr, <-Hp. by rewrite rev_involutive.
Qed.
Lemma TrimSpace_bytes_idemp l : TrimSpace_bytes (TrimSpace_bytes l) = TrimSpace_bytes l.
Proof.
  unfold TrimSpace_bytes at 1 3.
  rewrite (trim_left_id (TrimSpace_bytes l)).
  - unfold TrimSpace_bytes, trim_right. rewrite rev_involutive.
    rewrite trim_right_rev_id; [done|apply trim_right_rev_trail].
  - destruct (trim_right_prefix (trim_left l)) as [p Hp].
    apply (no_lead_prefix _ p). unfold TrimSpace_bytes. rewrite <-Hp. apply trim_left_lead.
Qed.
Lemma TrimSpace_idemp s : TrimSpace (TrimSpace s) = TrimSpace s.
Proof. unfold TrimSpace. by rewrite bytes_str, TrimSpace_bytes_idemp. Qed.

(** ** Case, prefixes, splitting and joining *)
Definition lower_ascii (c : ascii) : ascii :=
  if (65 <=? ord c) && (ord c <=? 90) then chr (ord c + 32) else c.
Definition upper_ascii (c : ascii) : ascii :=
  if (97 <=? ord c) && (ord c <=? 122) then chr (ord c - 32) else c.
Definition ToLower (s : string) : string := str (map lower_ascii (bytes s)).
Definition ToUpper (s : string) : string := str (map upper_ascii (bytes s)).
Definition EqualFold (a b : string) : bool := seqb (ToLower a) (ToLower b).

Lemma lower_ascii_idemp c : lower_ascii (lower_ascii c) = lower_ascii c.
Proof.
  assert (forall d, (65 <=? ord d) && (ord d <=? 90) = false -> lower_ascii d = d) as Hid.
  { intros d Hd. unfold lower_ascii. by rewrite Hd. }
  destruct ((65 <=? ord c) && (ord c <=? 90)) eqn:E.
  - apply Hid. unfold lower_ascii. rewrite E.
    apply andb_true_iff in E as [E1%Z.leb_le E2%Z.leb_le].
    rewrite ord_chr by lia. apply andb_false_iff. right. apply Z.leb_gt. lia.
  - by rewrite !(Hid c E).
Qed.
Lemma ToLower_idemp s : ToLower (ToLower s) = ToLower s.
Proof.
  unfold ToLower. rewrite bytes_str, map_map. f_equal.
  apply map_ext. apply lower_ascii_idemp.
Qed.
Lemma ToLower_app a b : ToLower (a +:+ b) = ToLower a +:+ ToLower b.
Proof. unfold ToLower. by rewrite bytes_app, map_app, str_app. Qed.

Definition HasPrefix (s p : string) : bool := String.prefix p s.
Fixpoint drop_string (n : nat) (s : string) : string :=
  match n, s with
  | O, _ => s
  | _, EmptyString => EmptyString
  | S n, String _ s => drop_string n s
  end.
Definition TrimPrefix (s p : string) : string :=
  if HasPrefix s p then drop_string (String.length p) s else s.
(** [strings.Contains(s, sub)]. *)
Fixpoint Contains (s sub : string) : bool :=
  HasPrefix s sub || match s with EmptyString => false | String _ s' => Contains s' sub end.

Lemma HasPrefix_app p s : HasPrefix (p +:+ s) p = true.
Proof.
  unfold HasPrefix. induction p as [|c p IH]; simpl; [by destruct s|].
  destruct (ascii_dec c c); [apply IH|done].
Qed.
Lemma HasPrefix_true s p : HasPrefix s p = true -> s = p +:+ drop_string (String.length p) s.
Proof.
  unfold HasPrefix. revert s. induction p as [|c p IH]; intros s; [by destruct s|].
  destruct s as [|d s]; [done|]. simpl.
  destruct (ascii_dec c d) as [->|]; [|done]. intros H.
  rewrite (IH s H) at 1. by destruct p.
Qed.
Lemma drop_string_app p s : drop_string (String.length p) (p +:+ s) = s.
Proof. induction p as [|c p IH]; simpl; [by destruct s|apply IH]. Qed.
Lemma TrimPrefix_app p s : TrimPrefix (p +:+ s) p = s.
Proof. unfold TrimPrefix. by rewrite HasPrefix_app, drop_string_app. Qed.

(** [strings.Split(s, c)] for a one-byte separator. *)
Fixpoint split_bytes (c : ascii) (l : list ascii) : list (list ascii) :=
  match l with
  | [] => [[]]
  | a :: r =>
      if ascii_dec a c then [] :: split_bytes c r
      else match split_bytes c r with
           | w :: ws => (a :: w) :: ws
           | [] => [[a]]
           end
  end.
Definition Split (s : string) (c : ascii) : list string := map str (split_bytes c (bytes s)).
(** [strings.Join(parts, c)] for a one-byte separator. *)
Fixpoint join_bytes (c : ascii) (ps : list (list ascii)) : list ascii :=
  match ps with
  | [] => []
  | [p] => p
  | p :: ps => p ++ c :: join_bytes c ps
  end.
Definition Join (ps : list string) (c : ascii) : string := str (join_bytes c (map bytes ps)).
Definition replace_bytes (a b : ascii) (l : list ascii) : list ascii :=
  map (fun c => if ascii_dec c a then b else c) l.
Definition remove_bytes (a : ascii) (l : list ascii) : list ascii :=
  base.filter (fun c => c <> a) l.

Lemma split_bytes_nonempty c l : split_bytes c l <> [].
Proof. destruct l as [|a l]; simpl; [done|]. destruct (ascii_dec a c); [done|]. by destruct (split_bytes c l). Qed.
Lemma join_split c l : join_bytes c (split_bytes c l) = l.
Proof.
  induction l as [|a l IH]; simpl; [done|].
  pose proof (split_bytes_nonempty c l).
  destruct (ascii_dec a c) as [->|]; destruct (split_bytes c l) as [|w [|w' ws]];
    simpl in *; congruence.
Qed.
Lemma split_sep_free c w : c ∉ w -> split_bytes c w = [w].
Proof.
  induction w as [|a w IH]; intros Hc; simpl; [done|].
  apply not_elem_of_cons in Hc as [Ha Hw].
  destruct (ascii_dec a c); [congruence|]. by rewrite IH.
Qed.
Lemma split_cons_sep c w r : c ∉ w -> split_bytes c (w ++ c :: r) = w :: split_bytes c r.
Proof.
  induction w as [|a w IH]; intros Hc; simpl.
  - by destruct (ascii_dec c c).
  - apply not_elem_of_cons in Hc as [Ha Hw].
    destruct (ascii_dec a c); [congruence|]. by rewrite IH.
Qed.
Lemma split_join c ps : ps <> [] -> Forall (fun p => c ∉ p) ps -> split_bytes c (join_bytes c ps) = ps.
Proof.
  intros Hne Hf. induction Hf as [|p ps Hp Hf IH]; [done|].
  destruct ps as [|q ps]; [by apply split_sep_free|].
  change (join_bytes c (p :: q :: ps)) with (p ++ c :: join_bytes c (q :: ps)).
  rewrite split_cons_sep by done. by rewrite IH.
Qed.
Lemma split_no_sep c l w : w ∈ split_bytes c l -> c ∉ w.
Proof.
  revert w. induction l as [|a l IH]; intros w; simpl.
  { intros ->%list_elem_of_singleton. apply not_elem_of_nil. }
  destruct (ascii_dec a c) as [->|Hn].
  - intros [->|Hw]%elem_of_cons; [apply not_elem_of_nil|by apply IH].
  - destruct (split_bytes c l) as [|w0 ws].
    + intros ->%list_elem_of_singleton. by intros ->%list_elem_of_singleton.
    + intros [->|Hw]%elem_of_cons.
      * intros [->|Hc]%elem_of_cons; [done|]. eapply IH; [left|done].
      * apply IH. by right.
Qed.

(** ** Numbers: [strconv.Atoi], [strconv.Itoa] and [fmt.Sscanf("%d")] *)
Definition is_digit (c : ascii) : bool := (48 <=? ord c) && (ord c <=? 57).
Definition digit_val (c : ascii) : Z := ord c - 48.
Definition digits_val (l : list ascii) : Z := foldl (fun n c => 10 * n + digit_val c) 0 l.
Definition int64_min : Z := - 2 ^ 63.
Definition int64_max : Z := 2 ^ 63 - 1.
Definition in_int64 (z : Z) : bool := (int64_min <=? z) && (z <=? int64_max).
(** 64-bit wrap-around. *)
Definition wrap64 (z : Z) : Z := (z + 2 ^ 63) mod 2 ^ 64 - 2 ^ 63.

Definition parse_int (neg : bool) (l : list ascii) : option Z :=
  let n := if neg then - digits_val l else digits_val l in
  if forallb is_digit l && negb (bool_decide (l = [])) && in_int64 n then Some n else None.
(** An optional sign. *)
Definition strip_sign (l : list ascii) : bool * list ascii :=
  match l with
  | c :: r => if ord c =? 43 then (false, r)
              else if ord c =? 45 then (true, r) else (false, l)
  | [] => (false, [])
  end.
(** [None] is the error of [strconv.Atoi]: a syntax error or a value outside
    the 64-bit [int]. *)
Definition Atoi (s : string) : option Z :=
  let '(neg, l) := strip_sign (bytes s) in parse_int neg l.

Fixpoint digits_rev (fuel : nat) (n : Z) : list ascii :=
  match fuel with
  | O => []
  | S fuel =>
      chr (48 + n mod 10) :: (if n / 10 =? 0 then [] else digits_rev fuel (n / 10))
  end.
(** One digit per step: [log2 n + 1] steps are enough. *)
Definition digits_of (n : Z) : list ascii :=
  rev (digits_rev (S (Z.to_nat (Z.log2 n))) n).
Definition Itoa (z : Z) : string :=
  str (if z <? 0 then chr 45 :: digits_of (- z) else digits_of z).

Fixpoint take_digits (l : list ascii) : list ascii :=
  match l with
  | c :: r => if is_digit c then c :: take_digits r else []
  | [] => []
  end.
(** [fmt.Sscanf(s, "%d", &k)]: leading spaces are skipped (a newline is an
    error), a sign and at least one digit are read, and whatever follows the
    digits is ignored. *)
Fixpoint scan_spaces (l : list ascii) : option (list ascii) :=
  match l with
  | [] => Some []
  | a :: r1 =>
      if ord a =? 10 then None else
      if space1 a then scan_spaces r1 else
      match r1 with
      | [] => Some l
      | b :: r2 =>
          if space2 a b then scan_spaces r2 else
          match r2 with
          | [] => Some l
          | c :: r3 => if space3 a b c then scan_spaces r3 else Some l
          end
      end
  end.
Definition Sscanf_d (s : string) : option Z :=
  l ← scan_spaces (bytes s);
  let '(neg, l) := strip_sign l in
  parse_int neg (take_digits l).

#[local] Ltac Zify.zify_post_hook ::= Z.div_mod_to_equations.

Lemma digits_val_snoc l c : digits_val (l ++ [c]) = 10 * digits_val l + digit_val c.
Proof. unfold digits_val. by rewrite foldl_app. Qed.
Lemma digit_chr d : 0 <= d < 10 -> is_digit (chr (48 + d)) = true /\ digit_val (chr (48 + d)) = d.
Proof.
  intros Hd. unfold is_digit, digit_val. rewrite ord_chr by lia.
  split; [apply andb_true_iff; rewrite !Z.leb_le; lia|lia].
Qed.
Lemma digits_rev_val fuel n :
  0 <= n -> n < 2 ^ Z.of_nat fuel -> digits_val (rev (digits_rev fuel n)) = n /\
  forallb is_digit (digits_rev fuel n) = true.
Proof.
  revert n. induction fuel as [|fuel IH]; intros n Hn Hf.
  - simpl in *. change (2 ^ Z.of_nat 0) with 1 in Hf. unfold digits_val. simpl. split; [lia|done].
  - cbn [digits_rev]. cbn [rev]. rewrite digits_val_snoc.
    destruct (digit_chr (n mod 10)) as [Hd1 Hd2]; [lia|]. cbn [forallb]. rewrite Hd1, Hd2.
    destruct (n / 10 =? 0) eqn:E.
    + unfold digits_val; simpl. split; [lia|done].
    + rewrite Nat2Z.inj_succ, Z.pow_succ_r in Hf by lia.
      destruct (IH (n / 10)) as [H1 H2]; [lia|lia|]. rewrite H1. split; [lia|done].
Qed.
Lemma digits_rev_nonempty fuel n : digits_rev (S fuel) n <> [].
Proof. done. Qed.
Lemma digits_of_val n : 0 <= n -> digits_val (digits_of n) = n.
Proof.
  intros Hn. unfold digits_of. apply digits_rev_val; [done|].
  rewrite Nat2Z.inj_succ, Z2Nat.id by apply Z.log2_nonneg.
  destruct (decide (n = 0)) as [->|]; [done|]. apply Z.log2_spec. lia.
Qed.
Lemma digits_of_digits n : 0 <= n -> forallb is_digit (digits_of n) = true.
Proof.
  intros Hn. unfold digits_of. apply forallb_elem. intros c Hc.
  rewrite list_elem_of_In, <-in_rev, <-list_elem_of_In in Hc. revert c Hc. apply forallb_elem.
  apply digits_rev_val; [done|].
  rewrite Nat2Z.inj_succ, Z2Nat.id by apply Z.log2_nonneg.
  destruct (decide (n = 0)) as [->|]; [done|]. apply Z.log2_spec. lia.
Qed.
Lemma digits_of_nonempty n : digits_of n <> [].
Proof. unfold digits_of. cbn [digits_rev rev]. by destruct (rev _). Qed.
Lemma is_digit_range c : is_digit c = true <-> 48 <= ord c <= 57.
Proof. unfold is_digit. by rewrite andb_true_iff, !Z.leb_le. Qed.
Lemma strip_sign_digit l : forallb is_digit l = true -> strip_sign l = (false, l).
Proof.
  destruct l as [|c l]; [done|]. simpl. rewrite andb_true_iff, is_digit_range. intros [Hc _].
  destruct (ord c =? 43) eqn:E1; [lia|]. by destruct (ord c =? 45) eqn:E2; [lia|].
Qed.

(** Every 64-bit [int] reads back as itself. *)
Lemma Atoi_Itoa_id z : in_int64 z = true -> Atoi (Itoa z) = Some z.
Proof.
  intros Hz. unfold Atoi, Itoa. rewrite bytes_str.
  destruct (z <? 0) eqn:E.
  - apply Z.ltb_lt in E. change (strip_sign (chr 45 :: digits_of (- z))) with (true, digits_of (- z)).
    unfold parse_int. rewrite digits_of_val, digits_of_digits, Z.opp_involutive, Hz by lia.
    rewrite bool_decide_eq_false_2 by apply digits_of_nonempty. done.
  - apply Z.ltb_ge in E. rewrite strip_sign_digit by by apply digits_of_digits.
    unfold parse_int. rewrite digits_of_val, digits_of_digits, Hz by lia.
    rewrite bool_decide_eq_false_2 by apply digits_of_nonempty. done.
Qed.
Lemma Atoi_range s z : Atoi s = Some z -> int64_min <= z <= int64_max.
Proof.
  unfold Atoi. destruct (strip_sign (bytes s)) as [neg l]. unfold parse_int.
  destruct (forallb is_digit l && _ && _) eqn:E; [|done]. intros [= <-].
  apply andb_true_iff in E as [_ E]. unfold in_int64 in E.
  apply andb_true_iff in E as [E1%Z.leb_le E2%Z.leb_le]. lia.
Qed.
Lemma Itoa_inj a b : in_int64 a = true -> in_int64 b = true -> Itoa a = Itoa b -> a = b.
Proof.
  intros Ha Hb H. apply (f_equal Atoi) in H. rewrite !Atoi_Itoa_id in H by done. congruence.
Qed.

(** ** Runes: [for _, r := range s], [utf8.RuneCountInString], [utf8.ValidString] *)
Definition cont (c : ascii) (lo hi : Z) : bool := (lo <=? ord c) && (ord c <=? hi).
Definition rune_error : Z * nat := (65533, 1%nat).
(** The first rune of a byte string and its width, as [utf8.DecodeRune]. *)
Definition decode_rune (l : list ascii) : Z * nat :=
  match l with
  | [] => rune_error
  | a :: r =>
    let x := ord a in
    if x <? 128 then (x, 1%nat) else
    match r with
    | [] => rune_error
    | b :: r2 =>
      if (194 <=? x) && (x <=? 223) && cont b 128 191
      then (64 * (x - 192) + (ord b - 128), 2%nat) else
      match r2 with
      | [] => rune_error
      | c :: r3 =>
        let lo3 := if x =? 224 then 160 else 128 in
        let hi3 := if x =? 237 then 159 else 191 in
        if (224 <=? x) && (x <=? 239) && cont b lo3 hi3 && cont c 128 191
        then (4096 * (x - 224) + 64 * (ord b - 128) + (ord c - 128), 3%nat) else
        match r3 with
        | [] => rune_error
        | d :: _ =>
          let lo4 := if x =? 240 then 144 else 128 in
          let hi4 := if x =? 244 then 143 else 191 in
          if (240 <=? x) && (x <=? 244) && cont b lo4 hi4 && cont c 128 191 && cont d 128 191
          then (262144 * (x - 240) + 4096 * (ord b - 128) + 64 * (ord c - 128) + (ord d - 128), 4%nat)
          else rune_error
        end
      end
    end
  end.
Fixpoint runes_skip (skip : nat) (l : list ascii) : list (Z * nat) :=
  match l with
  | [] => []
  | _ :: r =>
      match skip with
      | S skip => runes_skip skip r
      | O => let rw := decode_rune l in rw :: runes_skip (rw.2 - 1) r
      end
  end.
Definition runes (s : string) : list (Z * nat) := runes_skip 0 (bytes s).
Definition RuneCountInString (s : string) : Z := Z.of_nat (length (runes s)).
Definition ValidString (s : string) : bool :=
  forallb (fun rw => negb (bool_decide (rw = rune_error))) (runes s).

Example runes_accent : RuneCountInString "Entrée" = 6.
Proof. reflexivity. Qed.

(** ** The byte order of Go strings ([<] and [>] on [string]) *)
Fixpoint bytes_ltb (a b : list ascii) : bool :=
  match a, b with
  | _, [] => false
  | [], _ :: _ => true
  | x :: a, y :: b => (ord x <? ord y) || ((ord x =? ord y) && bytes_ltb a b)
  end.
Definition str_ltb (a b : string) : bool := bytes_ltb (bytes a) (bytes b).

Lemma bytes_ltb_irrefl a : bytes_ltb a a = false.
Proof. induction a as [|x a IH]; simpl; [done|]. rewrite IH. lia. Qed.
Lemma bytes_ltb_trans a b c : bytes_ltb a b = true -> bytes_ltb b c = true -> bytes_ltb a c = true.
Proof.
  revert b c. induction a as [|x a IH]; intros [|y b] [|z c]; simpl; try done.
  rewrite !orb_true_iff, !andb_true_iff, !Z.ltb_lt, !Z.eqb_eq.
  intros [H1|[H1 H1']] [H2|[H2 H2']]; [left; lia..|right; split; [lia|by eapply IH]].
Qed.
Lemma bytes_ltb_total a b : bytes_ltb a b = true \/ a = b \/ bytes_ltb b a = true.
Proof.
  revert b. induction a as [|x a IH]; intros [|y b]; simpl; try (by auto).
  destruct (Z.lt_trichotomy (ord x) (ord y)) as [H|[H|H]].
  - left. lia.
  - apply ord_inj in H as ->. destruct (IH b) as [-> | [-> | ->] ]; [left; lia|by auto|right; right; lia].
  - right; right. lia.
Qed.
Lemma str_ltb_irrefl a : str_ltb a a = false.
Proof. apply bytes_ltb_irrefl. Qed.
Lemma str_ltb_trans a b c : str_ltb a b = true -> str_ltb b c = true -> str_ltb a c = true.
Proof. apply bytes_ltb_trans. Qed.
Lemma str_ltb_total a b : str_ltb a b = true \/ a = b \/ str_ltb b a = true.
Proof.
  destruct (bytes_ltb_total (bytes a) (bytes b)) as [H|[H|H]]; [auto| |auto].
  right; left. by apply bytes_inj.
Qed.

(** ** Hexadecimal ([hex.EncodeToString], [%02X]) *)
Definition hex_digit (d : Z) : ascii := if d <? 10 then chr (48 + d) else chr (87 + d).
Definition hex_byte (c : ascii) : list ascii := [hex_digit (ord c / 16); hex_digit (ord c mod 16)].
Definition hex_bytes (l : list ascii) : list ascii := mjoin (map hex_byte l).
(** [strings.Repeat], [fmt] zero padding: a decimal on at least [w] digits. *)
Definition pad_left (w : nat) (z : Z) : string :=
  let d := bytes (Itoa z) in str (replicate (w - length d) (chr 48) ++ d).

Lemma hex_digit_ord d : 0 <= d < 16 ->
  (48 <= ord (hex_digit d) <= 57) \/ (97 <= ord (hex_digit d) <= 102).
Proof. intros Hd. unfold hex_digit. destruct (d <? 10) eqn:E; rewrite ord_chr by lia; lia. Qed.
Lemma hex_digit_inj a b : 0 <= a < 16 -> 0 <= b < 16 -> hex_digit a = hex_digit b -> a = b.
Proof.
  intros Ha Hb H%(f_equal ord). unfold hex_digit in H.
  destruct (a <? 10) eqn:E1, (b <? 10) eqn:E2; rewrite !ord_chr in H by lia; lia.
Qed.
Lemma hex_byte_inj a b : hex_byte a = hex_byte b -> a = b.
Proof.
  unfold hex_byte. intros [= H1 H2]. pose proof (ord_range a). pose proof (ord_range b).
  apply hex_digit_inj in H1; [|lia..]. apply hex_digit_inj in H2; [|lia..].
  apply ord_inj. lia.
Qed.
Lemma hex_bytes_length l : length (hex_bytes l) = (2 * length l)%nat.
Proof. induction l as [|c l IH]; [done|]. simpl in *. fold (hex_bytes l). lia. Qed.

(** ** The characters of a printed integer *)
Definition num_char (c : ascii) : bool := is_digit c || (ord c =? 45).
Lemma Itoa_chars z : forallb num_char (bytes (Itoa z)) = true.
Proof.
  assert (forall n, 0 <= n -> forallb num_char (digits_of n) = true) as Hd.
  { intros n Hn. apply forallb_elem. intros c Hc. unfold num_char.
    pose proof (digits_of_digits n Hn) as H. rewrite forallb_elem in H. by rewrite H. }
  unfold Itoa. rewrite bytes_str. destruct (z <? 0) eqn:E; [|apply Hd; lia].
  simpl. apply Hd. lia.
Qed.
Lemma Itoa_nonempty z : bytes (Itoa z) <> [].
Proof.
  unfold Itoa. rewrite bytes_str. destruct (z <? 0); [done|]. apply digits_of_nonempty.
Qed.
Lemma num_char_not_space c : num_char c = true -> space1 c = false /\ ord c <> 10 /\ ord c < 128.
Proof. unfold num_char, is_digit, space1. lia. Qed.
Lemma num_char_no_lead l : forallb num_char l = true -> no_lead l = true.
Proof.
  destruct l as [|a l]; [done|]. simpl. intros [Ha _]%andb_true_iff.
  apply num_char_not_space in Ha as (H1 & H2 & H3). rewrite H1.
  assert (forall b, space2 a b = false) as Hs2 by (intros b; unfold space2; lia).
  assert (forall b c, space3 a b c = false) as Hs3 by (intros b c; unfold space3; lia).
  destruct l as [|b [|c l]]; [done| |]; rewrite Hs2; simpl; [done|]. by rewrite Hs3.
Qed.
Lemma scan_spaces_num l : forallb num_char l = true -> scan_spaces l = Some l.
Proof.
  intros Hl. pose proof (num_char_no_lead _ Hl) as H.
  destruct l as [|a l]; [done|]. simpl in Hl. apply andb_true_iff in Hl as [Ha _].
  apply num_char_not_space in Ha as (H1 & H2 & H3). simpl in *.
  rewrite (proj2 (Z.eqb_neq _ _)) by done. rewrite H1 in *. simpl in *.
  destruct l as [|b l]; [done|].
  apply andb_true_iff in H as [H4%negb_true_iff H5]. rewrite H4.
  destruct l as [|c l]; [done|]. apply negb_true_iff in H5. by rewrite H5.
Qed.
Lemma take_digits_all l : forallb is_digit l = true -> take_digits l = l.
Proof.
  induction l as [|c l IH]; [done|]. simpl. intros [Hc Hl]%andb_true_iff.
  rewrite Hc. by rewrite IH.
Qed.
Lemma Sscanf_d_Itoa z : in_int64 z = true -> Sscanf_d (Itoa z) = Some z.
Proof.
  intros Hz. pose proof (Atoi_Itoa_id z Hz) as HA. unfold Sscanf_d, Atoi in *.
  rewrite scan_spaces_num by apply Itoa_chars. simpl.
  destruct (strip_sign (bytes (Itoa z))) as [neg l]. rewrite take_digits_all; [done|].
  unfold parse_int in HA. by destruct (forallb is_digit l).
Qed.
(** [Sscanf] reads a number and ignores what follows it: it accepts more than
    [Atoi] does, and agrees with it where both read. *)
Lemma Sscanf_d_trailing : Sscanf_d "12ab" = Some 12 /\ Atoi "12ab" = None.
Proof. split; reflexivity. Qed.

(** ** Errors

    A Go [error]: the sentinels the code compares with, a failed statement,
    and [fmt.Errorf] with its format and operands ([%w] is [Wrapf]).  The text
    of an error is the rendering of its format, which is not modelled. *)
Inductive arg : Type := AInt (z : Z) | AStr (s : string).
Inductive err : Type :=
  | ErrNoRows                                  (* sql.ErrNoRows *)
  | ErrDB                                      (* a statement failed *)
  | ErrRand                                    (* crypto/rand failed *)
  | Sentinel (text : string)                   (* errors.New *)
  | Errorf (format : string) (args : list arg)
  | Wrapf (format : string) (e : err).
#[export] Instance arg_eq_dec : EqDecision arg.
Proof. solve_decision. Defined.
#[export] Instance err_eq_dec : EqDecision err.
Proof. solve_decision. Defined.
(** [errors.Is]: the error itself or one it wraps. *)
Fixpoint errors_Is (e target : err) : bool :=
  bool_decide (e = target) || match e with Wrapf _ e' => errors_Is e' target | _ => false end.
