(* ===== verification/Regex.v ===== *)
(** * Regular expressions

    The part of Go's [regexp] the program uses: the syntax of its patterns, a
    backtracking matcher with Go's leftmost-first choice and the submatches,
    and the searches built on it.  A text is a list of symbols, runes or
    bytes.  [matches] says what a pattern means; [mt_spec] that the matcher
    finds a match exactly when there is one. *)
From S2P Require Import Prelude GoStr.
#[global] Open Scope Z_scope.

(** ** Patterns *)
Inductive regex :=
  | REmpty
  | RSet (neg : bool) (ranges : list (Z * Z))
  | RSeq (a b : regex)
  | RAlt (a b : regex)
  | RStar (a : regex)
  | RBegin
  | RWordB
  | RGroup (n : nat) (a : regex).
Definition in_ranges (ranges : list (Z * Z)) (x : Z) : bool :=
  existsb (fun r => (r.1 <=? x) && (x <=? r.2)) ranges.
Definition in_set (neg : bool) (ranges : list (Z * Z)) (x : Z) : bool := xorb neg (in_ranges ranges x).

(** *** The syntax *)
Definition digit_ranges : list (Z * Z) := [(48, 57)].
Definition space_ranges : list (Z * Z) := [(9, 10); (12, 13); (32, 32)].
Definition single (c : Z) : regex := RSet false [(c, c)].
Fixpoint repeat_re (n : nat) (a : regex) : regex :=
  match n with O => REmpty | S n => RSeq a (repeat_re n a) end.
(** At most [n], as many as possible. *)
Fixpoint upto_re (n : nat) (a : regex) : regex :=
  match n with O => REmpty | S n => RAlt (RSeq a (upto_re n a)) REmpty end.
Definition number (l : list Z) : option (nat * list Z) :=
  let fix go l n := match l with
    | c :: r => if (48 <=? c) && (c <=? 57) then go r (10 * n + (c - 48)) else (n, l)
    | [] => (n, [])
    end in
  match l with
  | c :: _ => if (48 <=? c) && (c <=? 57) then let '(n, r) := go l 0 in Some (Z.to_nat n, r) else None
  | [] => None
  end.
(** The repetition after an atom: [?], [*], [+], [{n}], [{n,}] and [{n,m}]. *)
Definition quantify (a : regex) (l : list Z) : option (regex * list Z) :=
  match l with
  | 63 :: r => Some (RAlt a REmpty, r)
  | 42 :: r => Some (RStar a, r)
  | 43 :: r => Some (RSeq a (RStar a), r)
  | 123 :: r =>
      '(n, r) ← number r;
      match r with
      | 125 :: r => Some (repeat_re n a, r)
      | 44 :: 125 :: r => Some (RSeq (repeat_re n a) (RStar a), r)
      | 44 :: r =>
          '(m, r) ← number r;
          match r with 125 :: r => Some (RSeq (repeat_re n a) (upto_re (m - n) a), r) | _ => None end
      | _ => None
      end
  | _ => Some (a, l)
  end.
(** The ranges of a class up to its bracket. *)
Fixpoint class_ranges (fuel : nat) (l : list Z) : option (list (Z * Z) * list Z) :=
  match fuel with
  | O => None
  | S fuel =>
      match l with
      | 93 :: r => Some ([], r)
      | 92 :: c :: r =>
          '(rs, r) ← class_ranges fuel r;
          Some ((if c =? 100 then digit_ranges else if c =? 115 then space_ranges else [(c, c)]) ++ rs, r)
      | a :: 45 :: b :: r =>
          if b =? 93 then Some ([(a, a); (45, 45)], r)
          else '(rs, r) ← class_ranges fuel r; Some ((a, b) :: rs, r)
      | a :: r => '(rs, r) ← class_ranges fuel r; Some ((a, a) :: rs, r)
      | [] => None
      end
  end.
Definition escaped (c : Z) : regex :=
  if c =? 100 then RSet false digit_ranges
  else if c =? 115 then RSet false space_ranges
  else if c =? 83 then RSet true space_ranges
  else if c =? 98 then RWordB
  else single c.
(** An alternative, a sequence and an atom; groups are numbered by their
    opening parenthesis. *)
Fixpoint parse_alt (fuel : nat) (l : list Z) (g : nat) : option (regex * list Z * nat) :=
  match fuel with
  | O => None
  | S fuel =>
      '(a, l, g) ← parse_seq fuel l g;
      match l with
      | 124 :: l => '(b, l, g) ← parse_alt fuel l g; Some (RAlt a b, l, g)
      | _ => Some (a, l, g)
      end
  end
with parse_seq (fuel : nat) (l : list Z) (g : nat) : option (regex * list Z * nat) :=
  match fuel with
  | O => None
  | S fuel =>
      match l with
      | [] | 124 :: _ | 41 :: _ => Some (REmpty, l, g)
      | _ =>
          '(a, l, g) ← parse_atom fuel l g;
          '(a, l) ← quantify a l;
          '(b, l, g) ← parse_seq fuel l g;
          Some (RSeq a b, l, g)
      end
  end
with parse_atom (fuel : nat) (l : list Z) (g : nat) : option (regex * list Z * nat) :=
  match fuel with
  | O => None
  | S fuel =>
      match l with
      | 40 :: l =>
          '(a, l, g') ← parse_alt fuel l (S g);
          match l with 41 :: l => Some (RGroup g a, l, g') | _ => None end
      | 91 :: 94 :: l => '(rs, l) ← class_ranges (S (length l)) l; Some (RSet true rs, l, g)
      | 91 :: l => '(rs, l) ← class_ranges (S (length l)) l; Some (RSet false rs, l, g)
      | 92 :: c :: l => Some (escaped c, l, g)
      | 94 :: l => Some (RBegin, l, g)
      | c :: l => Some (single c, l, g)
      | [] => None
      end
  end.
(** [regexp.MustCompile]; a pattern that does not parse would panic at start:
    it matches nothing here, and every pattern of the program parses. *)
Definition compile (pattern : string) : option regex :=
  let l := map ord (bytes pattern) in
  match parse_alt (4 * length l + 4) l 1 with
  | Some (r, [], _) => Some r
  | _ => None
  end.
Definition MustCompile (pattern : string) : regex := default (RSet false []) (compile pattern).

(** ** Matching

    A position is the text read so far, last symbol first, and the rest. *)
Definition pos : Type := list Z * list Z.
Definition captures : Type := list (nat * list Z).
Definition word_symbol (x : Z) : bool :=
  ((48 <=? x) && (x <=? 57)) || ((65 <=? x) && (x <=? 90)) || ((97 <=? x) && (x <=? 122)) || (x =? 95).
Definition is_word (o : option Z) : bool := match o with Some x => word_symbol x | None => false end.
Definition word_boundary (p : pos) : bool := xorb (is_word (head p.1)) (is_word (head p.2)).
(** What was read from [p] to [q]. *)
Definition span (p q : pos) : list Z := rev (take (length q.1 - length p.1) q.1).
(** [mt r p c k]: the first way to match [r] at [p] that [k] accepts. *)
Fixpoint mt {A} (r : regex) (p : pos) (c : captures) (k : pos -> captures -> option A) : option A :=
  match r with
  | REmpty => k p c
  | RSet neg rs =>
      match p.2 with
      | x :: after => if in_set neg rs x then k (x :: p.1, after) c else None
      | [] => None
      end
  | RSeq a b => mt a p c (fun q d => mt b q d k)
  | RAlt a b => match mt a p c k with Some x => Some x | None => mt b p c k end
  | RStar a =>
      (fix loop (n : nat) (p : pos) (c : captures) : option A :=
         match n with
         | O => k p c
         | S n =>
             match mt a p c (fun q d => if (length q.2 <? length p.2)%nat then loop n q d else None) with
             | Some x => Some x
             | None => k p c
             end
         end) (length p.2) p c
  | RBegin => match p.1 with [] => k p c | _ => None end
  | RWordB => if word_boundary p then k p c else None
  | RGroup n a => mt a p c (fun q d => k q ((n, span p q) :: d))
  end.
(** The leftmost match from a position on: where it starts, where it ends, its
    groups. *)
Fixpoint search_from (r : regex) (before after : list Z) : option (pos * pos * captures) :=
  match mt r (before, after) [] (fun q d => Some ((before, after), q, d)) with
  | Some m => Some m
  | None => match after with [] => None | x :: after => search_from r (x :: before) after end
  end.
Definition MatchString (r : regex) (text : list Z) : bool :=
  match search_from r [] text with Some _ => true | None => false end.
Definition group (c : captures) (n : nat) : list Z :=
  match find (fun g => (g.1 =? n)%nat) c with Some g => g.2 | None => [] end.
(** [FindAllStringSubmatch], for patterns that match no empty text. *)
Fixpoint find_all (fuel : nat) (r : regex) (p : pos) : list (pos * pos * captures) :=
  match fuel with
  | O => []
  | S fuel =>
      match search_from r p.1 p.2 with
      | Some (s, q, c) => (s, q, c) :: find_all fuel r q
      | None => []
      end
  end.
Definition FindAll (r : regex) (text : list Z) : list (pos * pos * captures) :=
  find_all (S (length text)) r ([], text).
(** [ReplaceAllString] with a replacement without [$], same proviso. *)
Fixpoint replace_all (fuel : nat) (r : regex) (by_ : list Z) (p : pos) : list Z :=
  match fuel with
  | O => p.2
  | S fuel =>
      match search_from r p.1 p.2 with
      | Some (s, q, _) => take (length p.2 - length s.2) p.2 ++ by_ ++ replace_all fuel r by_ q
      | None => p.2
      end
  end.
Definition ReplaceAllString (r : regex) (text by_ : string) : string :=
  let l := map ord (bytes text) in
  str (map chr (replace_all (S (length l)) r (map ord (bytes by_)) ([], l))).

Example regex_sample1 : MatchString (MustCompile "\bmdp\s*[:=]\s*\S{4,}") (map ord (bytes "le mdp : azer")) = true.
Proof. reflexivity. Qed.
Example regex_sample2 : ReplaceAllString (MustCompile "\{\{[a-zA-Z0-9_]+\}\}") "a {{x_1}} b {{c" "" = "a  b {{c".
Proof. reflexivity. Qed.

(** ** What a pattern means *)
Inductive matches : regex -> pos -> captures -> pos -> captures -> Prop :=
  | m_empty p c : matches REmpty p c p c
  | m_set neg rs x before after c : in_set neg rs x = true ->
      matches (RSet neg rs) (before, x :: after) c (x :: before, after) c
  | m_seq a b p c q d q' d' : matches a p c q d -> matches b q d q' d' -> matches (RSeq a b) p c q' d'
  | m_alt_l a b p c q d : matches a p c q d -> matches (RAlt a b) p c q d
  | m_alt_r a b p c q d : matches b p c q d -> matches (RAlt a b) p c q d
  | m_star_nil a p c : matches (RStar a) p c p c
  | m_star_step a p c q d q' d' :
      matches a p c q d -> (length q.2 < length p.2)%nat -> matches (RStar a) q d q' d' ->
      matches (RStar a) p c q' d'
  | m_begin after c : matches RBegin ([], after) c ([], after) c
  | m_wordb p c : word_boundary p = true -> matches RWordB p c p c
  | m_group n a p c q d : matches a p c q d -> matches (RGroup n a) p c q ((n, span p q) :: d).
Create HintDb regex.
#[export] Hint Constructors matches : regex.

(** A result of the matcher comes from a match. *)
Lemma mt_sound {A} r p c (k : pos -> captures -> option A) x :
  mt r p c k = Some x -> exists q d, matches r p c q d /\ k q d = Some x.
Proof.
  revert p c k. induction r as [|neg rs|a IHa b IHb|a IHa b IHb|a IHa| | |n a IHa]; intros p c k H; cbn [mt] in H.
  - eauto with regex.
  - destruct p as [before [|y after] ]; simpl in H; [done|]. destruct (in_set neg rs y) eqn:E; [|done].
    eauto with regex.
  - apply IHa in H as (q & d & Ha & H). apply IHb in H as (q' & d' & Hb & H). eauto with regex.
  - destruct (mt a p c k) eqn:E.
    + injection H as ->. apply IHa in E as (q & d & Ha & E). eauto with regex.
    + apply IHb in H as (q & d & Hb & H). eauto with regex.
  - revert H. generalize (length p.2) as n. intros n. revert p c. induction n as [|n IH]; intros p c H.
    + eauto with regex.
    + destruct (mt a p c _) eqn:E; [|eauto with regex]. injection H as ->.
      apply IHa in E as (q & d & Ha & E). destruct (_ <? _)%nat eqn:El; [|done]. apply Nat.ltb_lt in El.
      apply IH in E as (q' & d' & Hs & E). eauto with regex.
  - destruct p as [ [|y before] after]; [|done]. eauto with regex.
  - destruct (word_boundary p) eqn:E; [|done]. eauto with regex.
  - apply IHa in H as (q & d & Ha & H). eauto with regex.
Qed.
(** A match the continuation accepts is not missed: backtracking is complete,
    and a repetition stops by itself. *)
Lemma mt_complete {A} r p c q d (k : pos -> captures -> option A) :
  matches r p c q d -> is_Some (k q d) -> is_Some (mt r p c k).
Proof.
  revert p c q d k. induction r as [|neg rs|a IHa b IHb|a IHa b IHb|a IHa| | |n a IHa];
    intros p c q d k Hm Hk; cbn [mt].
  - by inversion Hm; subst.
  - inversion Hm as [|neg' rs' y before after c' Hin| | | | | | | |]; subst. simpl. by rewrite Hin.
  - inversion Hm; subst. eapply IHa; [done|]. by eapply IHb.
  - inversion Hm; subst.
    + eapply IHa in Hk; [|done]. destruct (mt a p c k); [done|by destruct Hk].
    + destruct (mt a p c k); [by eexists|]. by eapply IHb.
  - remember (length p.2) as n eqn:Hn. assert (length p.2 <= n)%nat as Hle by lia. clear Hn.
    revert p c Hm Hle. induction n as [|n IH]; intros p c Hm Hle.
    + inversion Hm; subst; [done|]. lia.
    + destruct (mt a p c _) eqn:E; [by eexists|]. inversion Hm as [| | | | |a' p' c'|a' p' c' q1 d1 q2 d2 Ha Hlt Hs| | |]; subst; [done|].
      exfalso. assert (is_Some (mt a p c (fun q d => if (length q.2 <? length p.2)%nat then
        (fix loop (n : nat) (p : pos) (c : captures) : option A :=
         match n with
         | O => k p c
         | S n =>
             match mt a p c (fun q d => if (length q.2 <? length p.2)%nat then loop n q d else None) with
             | Some x => Some x
             | None => k p c
             end
         end) n q d else None))) as Hsome; [|rewrite E in Hsome; by destruct Hsome].
      eapply IHa; [exact Ha|]. rewrite (proj2 (Nat.ltb_lt _ _) Hlt). apply IH; [done|lia].
  - inversion Hm; subst. done.
  - inversion Hm as [| | | | | | | |p0 c0 Hw|]; subst. by rewrite Hw.
  - inversion Hm; subst. by eapply IHa.
Qed.
Lemma mt_spec {A} r p c (k : pos -> captures -> option A) :
  is_Some (mt r p c k) <-> exists q d, matches r p c q d /\ is_Some (k q d).
Proof.
  split; [|intros (q & d & Hm & Hk); by eapply mt_complete].
  intros [x Hx]. apply mt_sound in Hx as (q & d & Hm & Hk). exists q, d. rewrite Hk. eauto.
Qed.

(** A match starts somewhere in a text. *)
Definition occurs (r : regex) (before after : list Z) : Prop :=
  exists skip rest q d, after = skip ++ rest /\ matches r (rev skip ++ before, rest) [] q d.
Lemma search_sound r before after s q c : search_from r before after = Some (s, q, c) ->
  exists skip, after = skip ++ s.2 /\ s.1 = rev skip ++ before /\ matches r s [] q c.
Proof.
  revert before. induction after as [|x after IH]; intros before H; cbn [search_from] in H.
  - destruct (mt r _ _ _) as [m|] eqn:E; [|done]. injection H as ->.
    apply mt_sound in E as (q' & d' & Hm & [= <- <- <-]). exists []. by split_and!.
  - destruct (mt r _ _ _) as [m|] eqn:E.
    + injection H as ->. apply mt_sound in E as (q' & d' & Hm & [= <- <- <-]). exists []. by split_and!.
    + apply IH in H as (skip & -> & Hs & Hm). exists (x :: skip). split_and!; [done| |done].
      rewrite Hs. simpl. by rewrite <-(assoc_L (++)).
Qed.
Lemma search_None r before after : search_from r before after = None <-> ~ occurs r before after.
Proof.
  split.
  - revert before. induction after as [|x after IH]; intros before H (skip & rest & q & d & Ha & Hm); cbn [search_from] in H.
    + destruct (mt r _ _ _) as [m|] eqn:E; [done|]. symmetry in Ha. apply app_nil in Ha as [-> ->].
      eapply (mt_complete _ _ _ _ _ (fun q d => Some ((before, [] : list Z), q, d))) in Hm; [|by eexists].
      simpl in Hm. rewrite E in Hm. by destruct Hm.
    + destruct (mt r _ _ _) as [m|] eqn:E; [done|]. destruct skip as [|y skip].
      * simpl in Ha. subst rest.
        eapply (mt_complete _ _ _ _ _ (fun q d => Some ((before, x :: after), q, d))) in Hm; [|by eexists].
        simpl in Hm. rewrite E in Hm. by destruct Hm.
      * injection Ha as <- ->. apply (IH (x :: before) H). exists skip, rest, q, d. split; [done|].
        simpl in Hm. by rewrite <-(assoc_L (++)) in Hm.
  - intros H. destruct (search_from r before after) as [ [ [s q] c] |] eqn:E; [|done]. exfalso. apply H.
    apply search_sound in E as (skip & -> & Hs & Hm). exists skip, s.2, q, c. split; [done|].
    destruct s as [s1 s2]. simpl in *. by rewrite <-Hs.
Qed.
Lemma MatchString_spec r text : MatchString r text = true <-> occurs r [] text.
Proof.
  unfold MatchString. destruct (search_from r [] text) as [ [ [s q] c] |] eqn:E.
  - split; [intros _|done]. apply search_sound in E as (skip & -> & Hs & Hm). exists skip, s.2, q, c.
    split; [done|]. destruct s as [s1 s2]. simpl in *. by rewrite <-Hs.
  - split; [done|]. intros H. by apply search_None in E.
Qed.
(** A match reads on: what is left is a suffix. *)
Lemma matches_suffix r p c q d : matches r p c q d -> exists l, p.2 = l ++ q.2 /\ q.1 = rev l ++ p.1.
Proof.
  induction 1; simpl; try (by exists []); try done.
  - exists [x]. done.
  - destruct IHmatches1 as (l1 & H1 & H2), IHmatches2 as (l2 & H3 & H4). exists (l1 ++ l2).
    rewrite H1, H3, H4, H2, rev_app_distr, <-!(assoc_L (++)). done.
  - destruct IHmatches1 as (l1 & H1' & H2), IHmatches2 as (l2 & H3 & H4). exists (l1 ++ l2).
    rewrite H1', H3, H4, H2, rev_app_distr, <-!(assoc_L (++)). done.
Qed.

(** ** Searching on stops *)
(** Patterns that match no empty text. *)
Fixpoint consumes (r : regex) : bool :=
  match r with
  | RSet _ _ => true
  | RSeq a b => consumes a || consumes b
  | RAlt a b => consumes a && consumes b
  | RGroup _ a => consumes a
  | REmpty | RStar _ | RBegin | RWordB => false
  end.
Lemma matches_le r p c q d : matches r p c q d -> (length q.2 <= length p.2)%nat.
Proof. intros (l & Hl & _)%matches_suffix. rewrite Hl, length_app. lia. Qed.
Lemma consumes_lt r p c q d : matches r p c q d -> consumes r = true -> (length q.2 < length p.2)%nat.
Proof.
  induction 1 as [|neg rs x before after c Hin|a b p c q d q' d' Ha IHa Hb IHb|a b p c q d Ha IHa
    |a b p c q d Hb IHb| | | | |n a p c q d Ha IHa]; cbn [consumes]; intros Hc; try done.
  - simpl. lia.
  - apply matches_le in Ha as Hla, Hb as Hlb. apply orb_true_iff in Hc as [Hc|Hc]; [specialize (IHa Hc)|specialize (IHb Hc)]; lia.
  - apply andb_true_iff in Hc as [Hc _]. auto.
  - apply andb_true_iff in Hc as [_ Hc]. auto.
  - auto.
Qed.
Lemma search_lt r p s q c : consumes r = true -> search_from r p.1 p.2 = Some (s, q, c) ->
  (length q.2 < length p.2)%nat /\ (length s.2 <= length p.2)%nat.
Proof.
  intros Hc (skip & Hp & _ & Hm)%search_sound. apply consumes_lt in Hm; [|done].
  rewrite Hp, length_app. lia.
Qed.
(** Where the successive matches end. *)
Fixpoint last_end (p : pos) (found : list (pos * pos * captures)) : pos :=
  match found with [] => p | (_, q, _) :: found => last_end q found end.

(** The search for all matches stops and misses none: for a pattern that
    matches no empty text, as many rounds as the text has symbols are enough,
    more find nothing else, and after the last match the pattern matches
    nowhere in what is left. *)
Lemma find_all_total (r : regex) (p : pos) (n : nat) :
  consumes r = true -> (length p.2 < n)%nat ->
  find_all n r p = find_all (S (length p.2)) r p /\
  (let q := last_end p (find_all (S (length p.2)) r p) in ~ occurs r q.1 q.2).
Proof.
  intros Hc Hn. split.
  - assert (forall m, (length p.2 < m)%nat -> find_all n r p = find_all m r p) as H; [|apply H; lia].
    revert p Hn. induction n as [|n IH]; intros p Hn [|m] Hm; try lia. cbn [find_all].
    destruct (search_from r p.1 p.2) as [ [ [s q] c] |] eqn:E; [|done]. f_equal.
    apply search_lt in E as [E _]; [|done]. apply IH; lia.
  - assert (forall m p, (length p.2 < m)%nat -> let q := last_end p (find_all m r p) in ~ occurs r q.1 q.2) as H; [|apply H; lia].
    clear p n Hn. induction m as [|m IH]; intros p Hm; [lia|]. cbn [find_all].
    destruct (search_from r p.1 p.2) as [ [ [s q] c] |] eqn:E; cbn [last_end].
    + apply IH. apply search_lt in E as [E _]; [|done]. lia.
    + by apply search_None.
Qed.
Lemma replace_all_fuel r by_ p n : consumes r = true -> (length p.2 < n)%nat ->
  replace_all n r by_ p = replace_all (S (length p.2)) r by_ p.
Proof.
  intros Hc Hn. assert (forall m, (length p.2 < m)%nat -> replace_all n r by_ p = replace_all m r by_ p) as H; [|apply H; lia].
  revert p Hn. induction n as [|n IH]; intros p Hn [|m] Hm; try lia. cbn [replace_all].
  destruct (search_from r p.1 p.2) as [ [ [s q] c] |] eqn:E; [|done]. do 2 f_equal.
  apply search_lt in E as [E _]; [|done]. apply IH; lia.
Qed.

(** ** Replacing a fixed text *)
Definition quote (s : string) : list Z := map ord (bytes s).
Fixpoint has_prefix (p l : list Z) : bool :=
  match p, l with
  | [], _ => true
  | a :: p, b :: l => (a =? b) && has_prefix p l
  | _ :: _, [] => false
  end.
(** [strings.ReplaceAll] of a text that is not empty. *)
Fixpoint replace_skip (old new : list Z) (skip : nat) (l : list Z) : list Z :=
  match l with
  | [] => []
  | x :: r =>
      match skip with
      | S skip => replace_skip old new skip r
      | O => if has_prefix old l then new ++ replace_skip old new (length old - 1) r
             else x :: replace_skip old new 0 r
      end
  end.
Definition ReplaceAll (l old new : list Z) : list Z := replace_skip old new 0 l.
Lemma has_prefix_spec p l : has_prefix p l = true <-> exists r, l = p ++ r.
Proof.
  revert l. induction p as [|a p IH]; intros l; [split; [by exists l|done] |].
  destruct l as [|b l]; cbn [has_prefix]; [split; [done|by intros [r [=] ] ] |].
  rewrite andb_true_iff, Z.eqb_eq, IH. split.
  - intros [-> [r ->] ]. by exists r.
  - intros [r [= -> ->] ]. eauto.
Qed.
Lemma has_prefix_app p l : has_prefix p (p ++ l) = true.
Proof. apply has_prefix_spec. by exists l. Qed.
Lemma replace_skips old new p l : replace_skip old new (length p) (p ++ l) = replace_skip old new 0 l.
Proof. induction p as [|x p IH]; [done|]. exact IH. Qed.
Lemma replace_no old new x l : has_prefix old (x :: l) = false ->
  replace_skip old new 0 (x :: l) = x :: replace_skip old new 0 l.
Proof. cbn [replace_skip]. by intros ->. Qed.
(** A stretch without the first symbol is left as it is. *)
Lemma replace_passes c old new p l : c ∉ p ->
  replace_skip (c :: old) new 0 (p ++ l) = p ++ replace_skip (c :: old) new 0 l.
Proof.
  induction p as [|x p IH]; [done|]. intros Hp. cbn [app replace_skip has_prefix].
  assert (c =? x = false) as -> by (apply Z.eqb_neq; intros ->; apply Hp; left). f_equal.
  apply IH. intros H. apply Hp. by right.
Qed.

(** *** A pattern that is a fixed text *)
Definition literal_re (p : list Z) : regex := foldr (fun c r => RSeq (single c) r) REmpty p.
Lemma literal_mt {A} p b l c (k : pos -> captures -> option A) :
  mt (literal_re p) (b, l) c k = if has_prefix p l then k (rev p ++ b, drop (length p) l) c else None.
Proof.
  revert b l. induction p as [|a p IH]; intros b l; [done|]. cbn [literal_re foldr mt single fst snd].
  fold (literal_re p). destruct l as [|x l]; [done|]. cbn [has_prefix].
  assert (in_set false [(a, a)] x = (a =? x)) as -> by (unfold in_set, in_ranges; simpl; lia).
  destruct (a =? x) eqn:E; [|done]. apply Z.eqb_eq in E as <-. rewrite IH. simpl. by rewrite <-(assoc_L (++)).
Qed.
Lemma literal_replace p by_ fuel b l : p <> [] -> (length l < fuel)%nat ->
  replace_all fuel (literal_re p) by_ (b, l) = ReplaceAll l p by_.
Proof.
  intros Hp. unfold ReplaceAll. revert b l. induction fuel as [|fuel IH]; intros b l Hl; [lia|].
  cbn [replace_all fst snd].
  assert (forall l b, match search_from (literal_re p) b l with
    | Some (s, q, _) => exists pre, l = pre ++ p ++ q.2 /\ s.2 = p ++ q.2 /\
        replace_skip p by_ 0 l = pre ++ by_ ++ replace_skip p by_ 0 q.2
    | None => replace_skip p by_ 0 l = l end) as Hs.
  { clear l b Hl. induction l as [|x l IHl]; intros b; cbn [search_from]; rewrite literal_mt.
    - destruct p; [done|]. done.
    - destruct (has_prefix p (x :: l)) eqn:E.
      + apply has_prefix_spec in E as [r E]. exists []. simpl fst. simpl snd. rewrite E, drop_app_length. split_and!; try done.
        destruct p as [|a p]; [done|]. change ((a :: p) ++ r) with (a :: (p ++ r)). cbn [replace_skip].
        change (a :: (p ++ r)) with ((a :: p) ++ r). rewrite has_prefix_app. simpl. by rewrite Nat.sub_0_r, replace_skips.
      + specialize (IHl (x :: b)). cbn [replace_skip]. rewrite E.
        destruct (search_from _ _ l) as [ [ [s q] c] |]; [|by f_equal].
        destruct IHl as (pre & -> & Hs & Hr). exists (x :: pre). rewrite Hr. by split_and!. }
  specialize (Hs l b). destruct (search_from _ _ _) as [ [ [s q] c] |]; [|done].
  destruct Hs as (pre & -> & Hq & ->). rewrite Hq, !length_app in *. destruct q as [q1 q2]. simpl in *.
  assert (0 < length p)%nat by (destruct p; [done|simpl; lia]).
  rewrite IH by lia. replace (_ - _)%nat with (length pre) by lia. by rewrite take_app_length.
Qed.
