(* ===== verification/Json.v ===== *)
(** * JSON values and their decoding

    What the program uses of [encoding/json]: the tree of a value and Go's
    decoding of it into a value that already exists.  The text of a document
    is not parsed: a request or a column carries the tree. *)
From S2P Require Import Prelude GoStr.
#[global] Open Scope Z_scope.

(** ** JSON values

    A number keeps its literal, an object its members in order, duplicates
    included. *)
Inductive json :=
  | JNull
  | JBool (b : bool)
  | JNum (lit : string)
  | JStr (s : string)
  | JArr (l : list json)
  | JObj (members : list (string * json)).

(** ** encoding/json: decoding into a Go value

    [json.Unmarshal] stores into a value that already exists: a decoder takes
    the value before and gives the value after, or [None] for the error of a
    JSON value of the wrong type.  [null] leaves the value as it is. *)
Definition decoder (A : Type) : Type := json -> A -> option A.
Definition dec_string : decoder string := fun j old =>
  match j with JStr s => Some s | JNull => Some old | _ => None end.
Definition dec_int : decoder Z := fun j old =>
  match j with JNum lit => Atoi lit | JNull => Some old | _ => None end.
Definition dec_bool : decoder bool := fun j old =>
  match j with JBool b => Some b | JNull => Some old | _ => None end.
(** A pointer: [null] is [nil]. *)
Definition dec_ptr {A} (d : decoder A) (zero : A) : decoder (option A) := fun j old =>
  match j with JNull => Some None | _ => Some <$> d j (default zero old) end.
(** A slice; [null] is [nil]. *)
Definition dec_slice {A} (d : decoder A) (zero : A) : decoder (list A) := fun j _ =>
  match j with
  | JArr l => mapM (fun x => d x zero) l
  | JNull => Some []
  | _ => None
  end.
(** [[2]int]: missing elements are zero, elements beyond the second dropped. *)
Definition dec_pair : decoder (Z * Z) := fun j old =>
  match j with
  | JArr [] => Some (0, 0)
  | JArr [a] => x ← dec_int a old.1; Some (x, 0)
  | JArr (a :: b :: _) => x ← dec_int a old.1; y ← dec_int b old.2; Some (x, y)
  | JNull => Some old
  | _ => None
  end.
(** [map[int]string]: a key is an integer, a later member replaces an earlier one. *)
Definition dec_int_map : decoder (gmap Z string) := fun j old =>
  match j with
  | JObj kvs => foldl (fun m '(k, v) =>
      m ← m; k ← Atoi k; s ← dec_string v ""; Some (<[k := s]> m)) (Some old) kvs
  | JNull => Some ∅
  | _ => None
  end.
(** [map[string]T]: the value of a member starts from the zero value, a later
    member replaces an earlier one. *)
Definition dec_str_map {A} (d : decoder A) (zero : A) : decoder (gmap string A) := fun j old =>
  match j with
  | JObj kvs => foldl (fun m '(k, v) => m ← m; x ← d v zero; Some (<[k := x]> m)) (Some old) kvs
  | JNull => Some ∅
  | _ => None
  end.
(** [json.RawMessage] keeps the value undecoded. *)
Definition dec_raw : decoder (option json) := fun j _ => Some (Some j).

(** The folding of member names: ASCII case, and the two letters whose case
    folding is ASCII (U+017F and U+212A). *)
Fixpoint fold_bytes (l : list ascii) : list ascii :=
  match l with
  | [] => []
  | a :: r1 =>
      match r1 with
      | [] => [lower_ascii a]
      | b :: r2 =>
          if (ord a =? 197) && (ord b =? 191) then chr 115 :: fold_bytes r2 else
          match r2 with
          | c :: r3 =>
              if (ord a =? 226) && (ord b =? 132) && (ord c =? 170) then chr 107 :: fold_bytes r3
              else lower_ascii a :: fold_bytes r1
          | [] => lower_ascii a :: fold_bytes r1
          end
      end
  end.
Definition foldName (s : string) : string := str (fold_bytes (bytes s)).
(** The fields of a struct: the name in its tag and how a value is stored. *)
Definition fields (A : Type) : Type := list (string * decoder A).
Definition find_field {A} (fs : fields A) (name : string) : option (decoder A) :=
  match find (fun f => seqb f.1 name) fs with
  | Some f => Some f.2
  | None => snd <$> find (fun f => seqb (foldName f.1) (foldName name)) fs
  end.
Definition dec_struct {A} (fs : fields A) : decoder A := fun j old =>
  match j with
  | JObj kvs => foldl (fun acc '(k, v) =>
      acc ← acc;
      match find_field fs k with Some d => d v acc | None => Some acc end) (Some old) kvs
  | JNull => Some old
  | _ => None
  end.
(** The decoder of one field. *)
Definition set_field {A B} (get : A -> B) (set : B -> A -> A) (d : decoder B) : decoder A :=
  fun j a => (fun b => set b a) <$> d j (get a).
(** The text a [json.RawMessage] holds, for the values the code looks at as
    text: numbers and [null] (a string, an array and an object start with
    their delimiter, their content is not rendered). *)
Definition raw_text (j : json) : string :=
  match j with
  | JNull => "null"
  | JBool true => "true"
  | JBool false => "false"
  | JNum lit => lit
  | JStr _ => str [chr 34]
  | JArr _ => "["
  | JObj _ => "{"
  end.
