(* ===== verification/JsonText.v ===== *)
(** * The text of a JSON document

    The grammar of [encoding/json]'s scanner, for the bodies the program reads
    as text: white space, the escapes of a string with their surrogates,
    invalid UTF-8 replaced, the syntax of a number, and at most 10000 nested
    values.  [parse_json] gives the tree of [Json]. *)
From S2P Require Import Prelude GoStr Regex Json.
#[global] Open Scope Z_scope.

Definition is_ws (c : Z) : bool := (c =? 32) || (c =? 9) || (c =? 10) || (c =? 13).
Fixpoint skip_ws (l : list Z) : list Z :=
  match l with c :: r => if is_ws c then skip_ws r else l | [] => [] end.

(** ** Strings *)
Definition hex_value (c : Z) : option Z :=
  if (48 <=? c) && (c <=? 57) then Some (c - 48)
  else if (97 <=? c) && (c <=? 102) then Some (c - 87)
  else if (65 <=? c) && (c <=? 70) then Some (c - 55)
  else None.
Definition hex4 (l : list Z) : option (Z * list Z) :=
  match l with
  | a :: b :: c :: d :: r =>
      a ← hex_value a; b ← hex_value b; c ← hex_value c; d ← hex_value d;
      Some (((a * 16 + b) * 16 + c) * 16 + d, r)
  | _ => None
  end.
(** [utf8.EncodeRune] of a valid rune. *)
Definition encode_rune (r : Z) : list Z :=
  if r <? 128 then [r]
  else if r <? 2048 then [192 + r / 64; 128 + r mod 64]
  else if r <? 65536 then [224 + r / 4096; 128 + (r / 64) mod 64; 128 + r mod 64]
  else [240 + r / 262144; 128 + (r / 4096) mod 64; 128 + (r / 64) mod 64; 128 + r mod 64].
Definition replacement : list Z := [239; 191; 189].
(** What [json.Marshal] writes of a string: its invalid bytes replaced. *)
Definition ToValidUTF8 (s : string) : string :=
  str (map chr (mjoin (map (fun rw => if bool_decide (rw = rune_error) then replacement else encode_rune rw.1) (runes s)))).
Definition is_surrogate (r : Z) : bool := (55296 <=? r) && (r <? 57344).
(** [\u] followed by four digits, a pair of surrogates read together. *)
Definition unicode_escape (l : list Z) : option (list Z * list Z) :=
  '(r, l) ← hex4 l;
  if negb (is_surrogate r) then Some (encode_rune r, l)
  else
    match l with
    | 92 :: 117 :: l' =>
        match hex4 l' with
        | Some (r2, l') =>
            if (r <? 56320) && (56320 <=? r2) && (r2 <? 57344)
            then Some (encode_rune ((r - 55296) * 1024 + (r2 - 56320) + 65536), l')
            else Some (replacement, l)
        | None => Some (replacement, l)
        end
    | _ => Some (replacement, l)
    end.
Definition simple_escape (c : Z) : option Z :=
  if c =? 34 then Some 34 else if c =? 92 then Some 92 else if c =? 47 then Some 47
  else if c =? 98 then Some 8 else if c =? 102 then Some 12 else if c =? 110 then Some 10
  else if c =? 114 then Some 13 else if c =? 116 then Some 9 else None.
(** The bytes of a string up to its closing quote. *)
Fixpoint string_body (fuel : nat) (l : list Z) : option (list Z * list Z) :=
  match fuel with
  | O => None
  | S fuel =>
      match l with
      | [] => None
      | c :: r =>
          if c =? 34 then Some ([], r)
          else if c =? 92 then
            match r with
            | [] => None
            | e :: r' =>
                '(out, rest) ← (if e =? 117 then unicode_escape r'
                                else x ← simple_escape e; Some ([x], r'));
                '(s, rest) ← string_body fuel rest;
                Some (out ++ s, rest)
            end
          else if c <? 32 then None
          else if c <? 128 then '(s, rest) ← string_body fuel r; Some (c :: s, rest)
          else
            let '(_, n) := decode_rune (map chr l) in
            '(s, rest) ← string_body fuel (drop n l);
            Some ((if (n =? 1)%nat then replacement else take n l) ++ s, rest)
      end
  end.

(** ** Numbers *)
Definition digit (c : Z) : bool := (48 <=? c) && (c <=? 57).
Fixpoint digits_prefix (l : list Z) : list Z * list Z :=
  match l with
  | c :: r => if digit c then let '(ds, rest) := digits_prefix r in (c :: ds, rest) else ([], l)
  | [] => ([], [])
  end.
(** At least one digit. *)
Definition digits1 (l : list Z) : option (list Z * list Z) :=
  match digits_prefix l with ([], _) => None | p => Some p end.
Definition integer_part (l : list Z) : option (list Z * list Z) :=
  match l with
  | 48 :: r => Some ([48], r)
  | _ => digits1 l
  end.
Definition fraction_part (l : list Z) : option (list Z * list Z) :=
  match l with
  | 46 :: r => '(ds, rest) ← digits1 r; Some (46 :: ds, rest)
  | _ => Some ([], l)
  end.
Definition exponent_part (l : list Z) : option (list Z * list Z) :=
  match l with
  | e :: r =>
      if (e =? 101) || (e =? 69) then
        match r with
        | s :: r' => if (s =? 43) || (s =? 45)
                     then '(ds, rest) ← digits1 r'; Some (e :: s :: ds, rest)
                     else '(ds, rest) ← digits1 r; Some (e :: ds, rest)
        | [] => None
        end
      else Some ([], l)
  | [] => Some ([], l)
  end.
Definition number_text (l : list Z) : option (list Z * list Z) :=
  let '(sign, l) := match l with 45 :: r => ([45], r) | _ => ([], l) end in
  '(a, l) ← integer_part l;
  '(b, l) ← fraction_part l;
  '(c, l) ← exponent_part l;
  Some (sign ++ a ++ b ++ c, l).

(** ** Values *)
Definition text (l : list Z) : string := str (map chr l).
Definition true_text : list Z := [116; 114; 117; 101].
Definition false_text : list Z := [102; 97; 108; 115; 101].
Definition null_text : list Z := [110; 117; 108; 108].
Definition maxNestingDepth : Z := 10000.
(** A value, the elements of an array after the first bracket or comma, the
    members of an object likewise. *)
Fixpoint value (fuel : nat) (depth : Z) (l : list Z) : option (json * list Z) :=
  match fuel with
  | O => None
  | S fuel =>
      let l := skip_ws l in
      match l with
      | [] => None
      | c :: r =>
          if c =? 34 then '(s, rest) ← string_body (S (length r)) r; Some (JStr (text s), rest)
          else if c =? 123 then
            if maxNestingDepth <=? depth then None else
            match skip_ws r with
            | 125 :: rest => Some (JObj [], rest)
            | r => '(ms, rest) ← members fuel (depth + 1) r; Some (JObj ms, rest)
            end
          else if c =? 91 then
            if maxNestingDepth <=? depth then None else
            match skip_ws r with
            | 93 :: rest => Some (JArr [], rest)
            | r => '(vs, rest) ← elements fuel (depth + 1) r; Some (JArr vs, rest)
            end
          else if has_prefix true_text l then Some (JBool true, drop 4 l)
          else if has_prefix false_text l then Some (JBool false, drop 5 l)
          else if has_prefix null_text l then Some (JNull, drop 4 l)
          else '(n, rest) ← number_text l; Some (JNum (text n), rest)
      end
  end
with elements (fuel : nat) (depth : Z) (l : list Z) : option (list json * list Z) :=
  match fuel with
  | O => None
  | S fuel =>
      '(v, rest) ← value fuel depth l;
      match skip_ws rest with
      | c :: rest =>
          if c =? 44 then '(vs, rest) ← elements fuel depth rest; Some (v :: vs, rest)
          else if c =? 93 then Some ([v], rest) else None
      | [] => None
      end
  end
with members (fuel : nat) (depth : Z) (l : list Z) : option (list (string * json) * list Z) :=
  match fuel with
  | O => None
  | S fuel =>
      match skip_ws l with
      | q :: r =>
          if q =? 34 then
            '(k, rest) ← string_body (S (length r)) r;
            match skip_ws rest with
            | c :: rest =>
                if c =? 58 then
                  '(v, rest) ← value fuel depth rest;
                  match skip_ws rest with
                  | c :: rest =>
                      if c =? 44 then '(ms, rest) ← members fuel depth rest; Some ((text k, v) :: ms, rest)
                      else if c =? 125 then Some ([(text k, v)], rest) else None
                  | [] => None
                  end
                else None
            | [] => None
            end
          else None
      | [] => None
      end
  end.
(** [json.Unmarshal] into [any]: one value and white space. *)
Definition parse_json (l : list Z) : option json :=
  '(v, rest) ← value (2 * length l + 2) 0 l;
  match skip_ws rest with [] => Some v | _ => None end.
Definition qt : string := str [chr 34].
Example parse_sample :
  parse_json (quote ("{" ++ qt ++ "k" ++ qt ++ ": [1.5e3, true ,null], " ++ qt ++ "s" ++ qt ++ ":" ++ qt ++ "a\u00e9\n" ++ qt ++ "} ")%string)
  = Some (JObj [("k", JArr [JNum "1.5e3"; JBool true; JNull]); ("s", JStr (text (quote "aé" ++ [10])))]).
Proof. vm_compute. reflexivity. Qed.

(** ** Reading back what was written

    The parser on a text laid out by a printer: plain strings, integers,
    arrays and objects. *)
Definition quoted (s : string) : list Z := 34 :: quote s ++ [34].
(** A text that stands for itself between quotes: printable ASCII without
    quote and backslash. *)
Definition self_char (c : Z) : bool := (32 <=? c) && (c <? 128) && negb (c =? 34) && negb (c =? 92).
Lemma text_quote s : text (quote s) = s.
Proof.
  unfold text, quote. rewrite map_map, (map_ext (fun x => chr (ord x)) (fun x => x)), map_id by apply chr_ord. apply str_bytes.
Qed.
Lemma string_body_self l rest fuel : forallb self_char l = true -> (length l < fuel)%nat ->
  string_body fuel (l ++ 34 :: rest) = Some (l, rest).
Proof.
  revert fuel. induction l as [|c l IH]; intros [|fuel] Hl Hf; cbn [length] in Hf; try lia; cbn [string_body app]; [done|].
  cbn [forallb] in Hl. apply andb_true_iff in Hl as [Hc Hl]. unfold self_char in Hc.
  destruct (c =? 34) eqn:E1; [lia|]. destruct (c =? 92) eqn:E2; [lia|].
  destruct (c <? 32) eqn:E3; [lia|]. destruct (c <? 128) eqn:E4; [|lia]. rewrite IH by (done || lia). done.
Qed.
Lemma quoted_body s rest : forallb self_char (quote s) = true ->
  string_body (S (length (quote s ++ [34] ++ rest))) (quote s ++ [34] ++ rest) = Some (quote s, rest).
Proof. intros H. apply string_body_self; [done|]. rewrite length_app. lia. Qed.
Lemma value_string fuel d s rest : forallb self_char (quote s) = true ->
  value (S fuel) d (quoted s ++ rest) = Some (JStr s, rest).
Proof.
  intros H. unfold quoted. cbn [app value skip_ws]. rewrite <-(assoc_L (++)).
  change (is_ws 34) with false. cbn iota. change (34 =? 34) with true. cbn iota.
  rewrite quoted_body by done. cbn [mbind option_bind]. by rewrite text_quote.
Qed.

(** *** Integers *)
Lemma digits_rev_head fuel n : 0 <= n < 2 ^ Z.of_nat fuel -> fuel <> O ->
  exists pre x, digits_rev fuel n = pre ++ [chr (48 + x)] /\ 0 <= x < 10 /\ (x = 0 -> n = 0 /\ pre = []).
Proof.
  revert n. induction fuel as [|fuel IH]; intros n Hn Hf; [done|]. cbn [digits_rev].
  destruct (n / 10 =? 0) eqn:E.
  - apply Z.eqb_eq in E. pose proof (Z.div_mod n 10 ltac:(lia)). pose proof (Z.mod_pos_bound n 10 ltac:(lia)).
    exists [], (n mod 10). split_and!; [done|lia..|]. intros. split; [lia|done].
  - rewrite Nat2Z.inj_succ, Z.pow_succ_r in Hn by lia. apply Z.eqb_neq in E.
    pose proof (Z.div_mod n 10 ltac:(lia)). pose proof (Z.mod_pos_bound n 10 ltac:(lia)).
    destruct (IH (n / 10)) as (pre & x & -> & Hx & Hp); [lia|by intros ->; change (2 ^ Z.of_nat 0) with 1 in Hn; lia|].
    exists (chr (48 + n mod 10) :: pre), x. split_and!; [done|lia..|]. intros Hz%Hp. lia.
Qed.
(** The digits of a number: one zero, or a first digit that is not zero. *)
Lemma digits_of_head n : 0 <= n ->
  exists x r, map ord (digits_of n) = x :: r /\ 48 <= x <= 57 /\ (x = 48 -> r = []) /\ forallb digit r = true.
Proof.
  intros Hn. destruct (digits_rev_head (S (Z.to_nat (Z.log2 n))) n) as (pre & x & Hd & Hx & H0); [|done|].
  { rewrite Nat2Z.inj_succ, Z2Nat.id by apply Z.log2_nonneg.
    destruct (decide (n = 0)) as [->|]; [done|]. split; [lia|]. apply Z.log2_spec. lia. }
  pose proof (digits_of_digits n Hn) as Hds. unfold digits_of in *. rewrite Hd, rev_app_distr in *.
  cbn [rev app map forallb] in *. apply andb_true_iff in Hds as [_ Hds].
  exists (48 + x), (map ord (rev pre)). rewrite ord_chr by lia. split_and!; [done|lia..| |].
  - intros H. destruct H0 as [_ ->]; [lia|done].
  - clear -Hds. induction (rev pre) as [|c l IH]; [done|]. cbn [map forallb] in *. apply andb_true_iff in Hds as [H1 H2].
    rewrite IH by done. unfold is_digit, digit in *. lia.
Qed.
(** What may follow a number: not a digit, a point or an exponent. *)
Definition num_end (l : list Z) : Prop :=
  match l with [] => True | c :: _ => digit c = false /\ c <> 46 /\ c <> 101 /\ c <> 69 end.
Lemma digits_prefix_app l rest : forallb digit l = true -> num_end rest -> digits_prefix (l ++ rest) = (l, rest).
Proof.
  intros Hl Hr. induction l as [|c l IH]; cbn [app].
  - destruct rest as [|c rest]; [done|]. destruct Hr as [Hr _]. cbn [digits_prefix]. by rewrite Hr.
  - cbn [forallb] in Hl. apply andb_true_iff in Hl as [Hc Hl]. cbn [digits_prefix]. by rewrite Hc, IH.
Qed.
Lemma fraction_none rest : num_end rest -> fraction_part rest = Some ([], rest).
Proof.
  destruct rest as [|c rest]; [done|]. intros (H1 & H2 & _). unfold fraction_part.
  destruct c as [|p|p]; try done. repeat (destruct p as [p|p|]; try done).
Qed.
Lemma exponent_none rest : num_end rest -> exponent_part rest = Some ([], rest).
Proof.
  destruct rest as [|c rest]; [done|]. intros (H1 & H2 & H3 & H4). unfold exponent_part.
  destruct ((c =? 101) || (c =? 69)) eqn:E; [lia|done].
Qed.
Lemma integer_digits n rest : 0 <= n -> num_end rest ->
  integer_part (map ord (digits_of n) ++ rest) = Some (map ord (digits_of n), rest).
Proof.
  intros Hn Hr. destruct (digits_of_head n Hn) as (x & r & -> & Hx & H0 & Hd).
  assert (digits1 ((x :: r) ++ rest) = Some (x :: r, rest)) as H1.
  { unfold digits1. rewrite digits_prefix_app; [done| |done]. cbn [forallb]. rewrite Hd. unfold digit. lia. }
  destruct (decide (x = 48)) as [->|Hx0]; [by rewrite H0|]. unfold integer_part. rewrite H1. cbn [app].
  destruct x as [|p|p]; try done. repeat (destruct p as [p|p|]; try done).
Qed.
Lemma number_itoa z rest : num_end rest -> number_text (quote (Itoa z) ++ rest) = Some (quote (Itoa z), rest).
Proof.
  intros Hr. unfold Itoa, quote. rewrite bytes_str. destruct (z <? 0) eqn:E.
  - cbn [map app]. change (ord (chr 45)) with 45. unfold number_text.
    rewrite integer_digits by (lia || done). cbn [mbind option_bind].
    rewrite fraction_none by done. cbn [mbind option_bind]. rewrite exponent_none by done. cbn [mbind option_bind].
    by rewrite !app_nil_r.
  - destruct (digits_of_head z) as (x & r & Hz & Hx & _); [lia|].
    assert (number_text (map ord (digits_of z) ++ rest) =
      '(a, l) ← integer_part (map ord (digits_of z) ++ rest); '(b, l) ← fraction_part l; '(c, l) ← exponent_part l;
      Some ([] ++ a ++ b ++ c, l)) as ->.
    { unfold number_text. rewrite Hz. cbn [app]. clear -Hx. destruct x as [|p|p]; try done. repeat (destruct p as [p|p|]; try (done || lia)). }
    rewrite integer_digits by (lia || done). cbn [mbind option_bind].
    rewrite fraction_none by done. cbn [mbind option_bind]. rewrite exponent_none by done. cbn [mbind option_bind].
    by rewrite !app_nil_r.
Qed.
Lemma value_int fuel d z rest : num_end rest ->
  value (S fuel) d (quote (Itoa z) ++ rest) = Some (JNum (Itoa z), rest).
Proof.
  intros Hr. assert (exists x r, quote (Itoa z) ++ rest = x :: r /\ (x = 45 \/ 48 <= x <= 57)) as (x & r & Hx & Hc).
  { unfold Itoa, quote. rewrite bytes_str. destruct (z <? 0) eqn:E.
    - cbn [map app]. eexists _, _. split; [done|]. left. done.
    - destruct (digits_of_head z) as (x & r & -> & Hx & _); [lia|]. eexists _, _. split; [done|]. by right. }
  pose proof (number_itoa z rest Hr) as Hn. rewrite Hx in *. cbn [value skip_ws].
  assert (is_ws x = false) as -> by (unfold is_ws; lia). cbn iota.
  assert ((x =? 34) = false) as -> by lia. assert ((x =? 123) = false) as -> by lia. assert ((x =? 91) = false) as -> by lia.
  unfold true_text, false_text, null_text. cbn [has_prefix].
  assert ((116 =? x) = false) as -> by lia. assert ((102 =? x) = false) as -> by lia. assert ((110 =? x) = false) as -> by lia.
  cbn [andb]. rewrite Hn. cbn [mbind option_bind]. by rewrite text_quote.
Qed.

(** *** Objects and arrays *)
Lemma value_object fuel d l ms rest : d < maxNestingDepth ->
  members fuel (d + 1) (34 :: l) = Some (ms, rest) -> value (S fuel) d (123 :: 34 :: l) = Some (JObj ms, rest).
Proof.
  intros Hd Hm. cbn [value skip_ws]. change (is_ws 123) with false. cbn iota. change (123 =? 34) with false.
  change (123 =? 123) with true. cbn iota. assert ((maxNestingDepth <=? d) = false) as -> by lia.
  cbn [skip_ws]. change (is_ws 34) with false. cbn iota. by rewrite Hm.
Qed.
Lemma value_array fuel d c l vs rest : d < maxNestingDepth -> is_ws c = false -> c <> 93 ->
  elements fuel (d + 1) (c :: l) = Some (vs, rest) -> value (S fuel) d (91 :: c :: l) = Some (JArr vs, rest).
Proof.
  intros Hd Hw Hc Hm. cbn [value skip_ws]. change (is_ws 91) with false. cbn iota. change (91 =? 34) with false.
  change (91 =? 123) with false. change (91 =? 91) with true. cbn iota.
  assert ((maxNestingDepth <=? d) = false) as -> by lia. cbn [skip_ws]. rewrite Hw.
  destruct c as [|p|p]; try by rewrite Hm. repeat (destruct p as [p|p|]; try lia; try by rewrite Hm).
Qed.
Lemma value_empty_array fuel d rest : d < maxNestingDepth -> value (S fuel) d (91 :: 93 :: rest) = Some (JArr [], rest).
Proof.
  intros Hd. cbn [value skip_ws]. change (is_ws 91) with false. cbn iota. change (91 =? 34) with false.
  change (91 =? 123) with false. change (91 =? 91) with true. cbn iota.
  assert ((maxNestingDepth <=? d) = false) as -> by lia. done.
Qed.
Lemma elements_last fuel d l v rest : value fuel d l = Some (v, 93 :: rest) -> elements (S fuel) d l = Some ([v], rest).
Proof. intros H. cbn [elements]. rewrite H. done. Qed.
Lemma elements_more fuel d l v rest vs rest' : value fuel d l = Some (v, 44 :: rest) ->
  elements fuel d rest = Some (vs, rest') -> elements (S fuel) d l = Some (v :: vs, rest').
Proof. intros H H'. cbn [elements]. rewrite H. cbn [mbind option_bind skip_ws]. change (is_ws 44) with false. cbn iota. 
  change (44 =? 44) with true. cbn iota. by rewrite H'. Qed.
Lemma members_head fuel d k l : forallb self_char (quote k) = true ->
  members (S fuel) d (quoted k ++ 58 :: l) =
  '(v, rest) ← value fuel d l;
  match skip_ws rest with
  | c :: rest =>
      if c =? 44 then '(ms, rest) ← members fuel d rest; Some ((k, v) :: ms, rest)
      else if c =? 125 then Some ([(k, v)], rest) else None
  | [] => None
  end.
Proof.
  intros H. unfold quoted. cbn [members app skip_ws]. rewrite <-(assoc_L (++)). change (is_ws 34) with false. cbn iota.
  change (34 =? 34) with true. cbn iota. rewrite quoted_body by done. cbn [mbind option_bind skip_ws].
  change (is_ws 58) with false. cbn iota. change (58 =? 58) with true. cbn iota. by rewrite text_quote.
Qed.
Lemma members_last fuel d k l v rest : forallb self_char (quote k) = true ->
  value fuel d l = Some (v, 125 :: rest) -> members (S fuel) d (quoted k ++ 58 :: l) = Some ([(k, v)], rest).
Proof. intros H Hv. rewrite members_head by done. rewrite Hv. done. Qed.
Lemma members_more fuel d k l v rest ms rest' : forallb self_char (quote k) = true ->
  value fuel d l = Some (v, 44 :: rest) -> members fuel d rest = Some (ms, rest') ->
  members (S fuel) d (quoted k ++ 58 :: l) = Some ((k, v) :: ms, rest').
Proof.
  intros H Hv Hm. rewrite members_head by done. rewrite Hv. cbn [mbind option_bind skip_ws].
  change (is_ws 44) with false. cbn iota. change (44 =? 44) with true. cbn iota. by rewrite Hm.
Qed.
