(* ===== verification/Geo.v ===== *)
(** * Addresses, geolocation and the bot check

    Models [internal/geo/ipapi.go] and [internal/turnstile/verify.go], with
    what they use of [net]: [SplitHostPort], [ParseIP] and the classes of an
    address.  The two remote services are parameters: what an HTTP call
    answers, or nothing when it fails.  A floating-point number is the literal
    of its JSON number. *)
From S2P Require Import Prelude GoStr Regex Json JsonText.
#[global] Open Scope Z_scope.

(** ** net: host and port *)
Fixpoint index_of (c : ascii) (l : list ascii) : option nat :=
  match l with [] => None | x :: r => if bool_decide (x = c) then Some O else S <$> index_of c r end.
Definition last_index (c : ascii) (l : list ascii) : option nat :=
  match index_of c (rev l) with Some i => Some (length l - 1 - i)%nat | None => None end.
Definition bracket_open : ascii := chr 91.
Definition bracket_close : ascii := chr 93.
Definition colon_char : ascii := chr 58.
Definition has_char (c : ascii) (l : list ascii) : bool := bool_decide (c ∈ l).
(** Nothing for an error. *)
Definition SplitHostPort (hostport : string) : option (string * string) :=
  let l := bytes hostport in
  i ← last_index colon_char l;
  let port := str (drop (S i) l) in
  '(host, j, k) ← (match l with
    | c :: _ =>
        if bool_decide (c = bracket_open) then
          close ← index_of bracket_close l;
          if (S close =? i)%nat then Some (take (close - 1) (drop 1 l), 1%nat, S close) else None
        else if has_char colon_char (take i l) then None
        else Some (take i l, O, O)
    | [] => None
    end);
  if has_char bracket_open (drop j l) || has_char bracket_close (drop k l) then None
  else Some (str host, port).
Example split_host_port : map SplitHostPort ["10.0.0.1:80"; "[::1]:443"; "::1"; "10.0.0.1"; "[::1]"; "a:"] =
  [Some ("10.0.0.1", "80"); Some ("::1", "443"); None; None; None; Some ("a", "")].
Proof. reflexivity. Qed.

(** ** net: addresses

    Sixteen bytes, an IPv4 address with the prefix of its mapping. *)
Definition v4_prefix : list Z := [0; 0; 0; 0; 0; 0; 0; 0; 0; 0; 255; 255].
Definition octet (p : list ascii) : option Z :=
  if forallb is_digit p && (1 <=? length p)%nat && (length p <=? 3)%nat
     && ((length p =? 1)%nat || negb (bool_decide (head p = Some (chr 48)))) && (digits_val p <=? 255)
  then Some (digits_val p) else None.
Definition parse_v4 (l : list ascii) : option (list Z) :=
  let parts := split_bytes (chr 46) l in
  if (length parts =? 4)%nat then mapM octet parts else None.
Definition hextet (p : list ascii) : option (list Z) :=
  if (1 <=? length p)%nat && (length p <=? 4)%nat then
    ds ← mapM (fun c => hex_value (ord c)) p;
    let z := foldl (fun n d => 16 * n + d) 0 ds in Some [z / 256; z mod 256]
  else None.
(** The fields of a run between colons; the last one may be an IPv4 address. *)
Fixpoint parse_fields (last_v4 : bool) (ps : list (list ascii)) : option (list Z) :=
  match ps with
  | [] => Some []
  | [p] => match hextet p with
           | Some h => Some h
           | None => if last_v4 then parse_v4 p else None
           end
  | p :: ps => h ← hextet p; r ← parse_fields last_v4 ps; Some (h ++ r)
  end.
Definition fields_of (l : list ascii) : list (list ascii) :=
  match l with [] => [] | _ => split_bytes colon_char l end.
(** The first [::], with the text on both sides. *)
Fixpoint find_ellipsis (l : list ascii) : option (list ascii * list ascii) :=
  match l with
  | a :: (b :: r) as r1 =>
      if bool_decide (a = colon_char) && bool_decide (b = colon_char) then Some ([], r)
      else '(x, y) ← find_ellipsis r1; Some (a :: x, y)
  | _ => None
  end.
Definition parse_v6 (l : list ascii) : option (list Z) :=
  match find_ellipsis l with
  | Some (a, b) =>
      x ← parse_fields false (fields_of a);
      y ← parse_fields true (fields_of b);
      let n := (length x + length y)%nat in
      if (n <? 16)%nat then Some (x ++ replicate (16 - n) 0 ++ y) else None
  | None =>
      x ← parse_fields true (fields_of l);
      if (length x =? 16)%nat then Some x else None
  end.
(** [net.ParseIP]: no zone. *)
Definition ParseIP (s : string) : option (list Z) :=
  let l := bytes s in
  if has_char colon_char l then parse_v6 l
  else v4 ← parse_v4 l; Some (v4_prefix ++ v4).
Definition To4 (ip : list Z) : option (list Z) :=
  if bool_decide (take 12 ip = v4_prefix) then Some (drop 12 ip) else None.
Definition IsPrivate (ip : list Z) : bool :=
  match To4 ip with
  | Some (a :: b :: _) => (a =? 10) || ((a =? 172) && (Z.land b 240 =? 16)) || ((a =? 192) && (b =? 168))
  | Some _ => false
  | None => match ip with a :: _ => Z.land a 254 =? 252 | [] => false end
  end.
Definition IsLoopback (ip : list Z) : bool :=
  match To4 ip with
  | Some (a :: _) => a =? 127
  | Some _ => false
  | None => bool_decide (ip = replicate 15 0 ++ [1])
  end.
Definition IsLinkLocalUnicast (ip : list Z) : bool :=
  match To4 ip with
  | Some (a :: b :: _) => (a =? 169) && (b =? 254)
  | Some _ => false
  | None => match ip with a :: b :: _ => (a =? 254) && (Z.land b 192 =? 128) | _ => false end
  end.

(** ** ipapi.go *)
Record GeoResult := mkGeoResult { GR_Location : string; GR_Lat : string; GR_Lon : string }.
Record geoAPIResponse := mkGeoAPI {
  GA_Status : string; GA_Country : string; GA_City : string; GA_ISP : string; GA_Lat : string; GA_Lon : string }.
Definition cut_zone (l : list ascii) : list ascii :=
  match index_of (chr 37) l with Some (S i) => take (S i) l | _ => l end.
Definition normalizeHost (ip : string) : string :=
  let ip := TrimSpace ip in
  if is_empty ip then ""
  else match SplitHostPort ip with
       | Some (host, _) => host
       | None => str (cut_zone (bytes ip))
       end.
Definition IsLookupable (ip : string) : bool :=
  let host := normalizeHost ip in
  if is_empty host || seqb host "127.0.0.1" || seqb host "::1" then false
  else match ParseIP host with
       | None => false
       | Some p => negb (IsPrivate p) && negb (IsLoopback p) && negb (IsLinkLocalUnicast p)
       end.
(** The answer of the service for a host, decoded. *)
Definition LookupIP (ip_api : string -> option geoAPIResponse) (ip : string) : res err GeoResult :=
  let host := normalizeHost ip in
  if negb (IsLookupable host) then Fail (Errorf "geo: skip lookup for %q" [AStr ip])
  else match ip_api host with
       | None => Fail (Sentinel "ip-api")
       | Some p =>
           if negb (seqb (GA_Status p) "success")
           then Fail (Errorf "geo: ip-api status %q for %s" [AStr (GA_Status p); AStr host])
           else Ok (mkGeoResult (GA_City p ++ ", " ++ GA_Country p ++ " (" ++ GA_ISP p ++ ")") (GA_Lat p) (GA_Lon p))
       end.
Example lookupable : map IsLookupable
  ["8.8.8.8"; "8.8.8.8:5000"; "10.1.2.3"; "172.31.0.1"; "172.32.0.1"; "192.168.1.1"; "::1"; "fe80::1%eth0"; "fd00::1";
   "2a01:e0a::1"; "::ffff:10.0.0.1"; "01.2.3.4"; "x"] =
  [true; true; false; false; true; false; false; false; false; true; false; false; false].
Proof. vm_compute. reflexivity. Qed.

(** ** turnstile/verify.go *)
Record siteVerifyResponse := mkSiteVerify { SV_Success : bool; SV_ErrorCodes : list string }.
Definition site_verify_fields : fields siteVerifyResponse :=
  [("success", set_field SV_Success (fun x q => mkSiteVerify x (SV_ErrorCodes q)) dec_bool);
   ("error-codes", set_field SV_ErrorCodes (fun x q => mkSiteVerify (SV_Success q) x) (dec_slice dec_string ""))].
(** The post of secret, token and address: the status and the body of the
    answer, or nothing. *)
Definition Verify (siteverify : string -> string -> string -> option (Z * list Z)) (secret token remoteIP : string)
    : res err unit :=
  if is_empty (TrimSpace secret) then Fail (Errorf "turnstile secret not configured" [])
  else
    let token := TrimSpace token in
    if is_empty token then Fail (Errorf "turnstile token missing" [])
    else match siteverify secret token remoteIP with
         | None => Fail (Wrapf "turnstile siteverify: %w" (Sentinel "transport"))
         | Some (status, body) =>
             if negb (status =? 200) then Fail (Errorf "turnstile siteverify HTTP %d" [AInt status])
             else match (j ← parse_json body; dec_struct site_verify_fields j (mkSiteVerify false [])) with
                  | None => Fail (Wrapf "turnstile decode: %w" (Sentinel "json"))
                  | Some parsed =>
                      if SV_Success parsed then Ok tt
                      else match SV_ErrorCodes parsed with
                           | [] => Fail (Errorf "turnstile rejected" [])
                           | codes => Fail (Errorf "turnstile rejected: %s" [AStr (Join codes (chr 44))])
                           end
                  end
         end.
