(* ===== verification/Exchange.v ===== *)
(** * The exchange table: block expansion, merging, chunking and key lists

    Models [internal/domain/order_expansion.go], [merge_params.go],
    [action_chunk.go] and the pure functions of [internal/data/exchange.go].
    A Go map is a [gmap]; a [range] over it is a list of its entries in some
    order, and the theorems show that the sorted result does not depend on it. *)
From S2P Require Import Prelude GoStr.
#[global] Open Scope Z_scope.

Definition IndexScenario : Z := 590.
Definition IndexLightStart : Z := 605.
Definition IndexLightEnd : Z := 622.
Definition IndexSecurityOutlets : Z := 623.

Record ExchangeKV := mkKV { K : Z; V : string }.
#[export] Instance ExchangeKV_eq_dec : EqDecision ExchangeKV.
Proof. solve_decision. Defined.

(** [sort.Slice(out, func(i, j int) bool { return out[i].K < out[j].K })] *)
Definition kv_le (a b : ExchangeKV) : Prop := K a <= K b.
#[export] Instance kv_le_dec a b : Decision (kv_le a b).
Proof. unfold kv_le. apply _. Defined.
#[export] Instance kv_le_total : Total kv_le.
Proof. intros a b. unfold kv_le. lia. Qed.
#[export] Instance kv_le_trans : Transitive kv_le.
Proof. intros a b c. unfold kv_le. lia. Qed.
Definition sort_by_K (l : list ExchangeKV) : list ExchangeKV := merge_sort kv_le l.

Lemma sorted_unique (l1 l2 : list ExchangeKV) :
  NoDup (map K l1) -> Permutation l1 l2 ->
  StronglySorted kv_le l1 -> StronglySorted kv_le l2 -> l1 = l2.
Proof.
  intros Hnd Hp H1. revert l2 Hp. induction H1 as [|a l1 H1 IH Ha]; intros l2 Hp H2.
  { by apply Permutation_nil in Hp. }
  destruct l2 as [|b l2]; [by symmetry in Hp; apply Permutation_nil in Hp|].
  apply StronglySorted_inv in H2 as [H2 Hb].
  assert (a = b) as ->.
  { assert (a ∈ b :: l2) as Hin by (rewrite <-Hp; left).
    assert (b ∈ a :: l1) as Hin' by (rewrite Hp; left).
    apply elem_of_cons in Hin as [|Hin]; [done|].
    apply elem_of_cons in Hin' as [|Hin']; [done|].
    rewrite Forall_forall in Ha, Hb. specialize (Ha b Hin'). specialize (Hb a Hin).
    unfold kv_le in *. assert (K a = K b) as HK by lia.
    simpl in Hnd. apply NoDup_cons in Hnd as [Hni _]. exfalso. apply Hni.
    rewrite HK. by apply list_elem_of_fmap_2. }
  f_equal. apply IH; [by apply NoDup_cons in Hnd as [_ ?]| |done].
  by apply (Permutation_cons_inv (a := b)).
Qed.
Lemma sort_by_K_unique l l' :
  NoDup (map K l) -> Permutation l l' -> StronglySorted kv_le l' -> sort_by_K l = l'.
Proof.
  intros Hnd Hp Hs. apply sorted_unique.
  - unfold sort_by_K. by rewrite merge_sort_Permutation.
  - unfold sort_by_K. by rewrite merge_sort_Permutation.
  - apply StronglySorted_merge_sort; apply _.
  - done.
Qed.

(** ** domain/order_expansion.go *)

(** The fields of a map entry. *)
Definition kv_of (p : Z * string) : ExchangeKV := mkKV p.1 p.2.
Definition index_of (params : list ExchangeKV) : gmap Z string :=
  foldl (fun m p => <[K p := V p]> m) ∅ params.
(** [if _, ok := m[k]; !ok { m[k] = v }] *)
Definition set_missing (m : gmap Z string) (k : Z) (v : string) : gmap Z string :=
  match m !! k with Some _ => m | None => <[k := v]> m end.
Definition is_light_shutter (p : ExchangeKV) : bool :=
  (IndexLightStart <=? K p) && (K p <=? IndexSecurityOutlets).
Definition expanded_index (params : list ExchangeKV) : gmap Z string :=
  foldl (fun m i => set_missing m i "0")
        (set_missing (index_of params) IndexScenario "1")
        (seqZ IndexLightStart 19).
#[global] Arguments expanded_index : simpl never.
Definition ExpandLegacyScenarioBlock (params : list ExchangeKV) : list ExchangeKV :=
  if negb (existsb is_light_shutter params) then params
  else sort_by_K (map kv_of (map_to_list (expanded_index params))).

(** ** domain/merge_params.go *)
Definition blockOpposite : gmap Z Z :=
  let pair m a b := <[b := a]> (<[a := b]> m) in
  let m := foldl (fun m i => pair m (605 + i) (611 + i)) ∅ (seqZ 0 6) in
  foldl (fun m i => pair m (617 + i) (620 + i)) m (seqZ 0 3).
#[global] Arguments blockOpposite : simpl never.
Definition OppositeBlockIndex (k : Z) : option Z := blockOpposite !! k.
Definition isBlockIndex (k : Z) : bool := (IndexLightStart <=? k) && (k <=? IndexLightEnd).

(** The body of the loop: [None] is [return false]. *)
Definition pure_step (hasBlock : option bool) (p : ExchangeKV) : option bool :=
  b ← hasBlock;
  if isBlockIndex (K p) then Some true
  else if K p =? IndexScenario then Some b
  else if (K p =? IndexSecurityOutlets) && seqb (V p) "0" then Some b
  else None.
Definition IsPureBlockAction (params : list ExchangeKV) : bool :=
  default false (foldl pure_step (Some false) params).

Record MergeState := mkMerge { masks : gmap Z Z; raw : gmap Z string }.
(** [masks[k]]: the zero value of an absent key is 0. *)
Definition mask_at (m : gmap Z Z) (k : Z) : Z := default 0 (m !! k).
Definition merge_step (st : MergeState) (p : ExchangeKV) : MergeState :=
  if negb (isBlockIndex (K p)) then st else
  match Atoi (V p) with
  | None => mkMerge (delete (K p) (masks st)) (<[K p := V p]> (raw st))
  | Some m =>
      if m =? 0 then st else
      let raw' := delete (K p) (raw st) in
      let masks' := <[K p := Z.lor (mask_at (masks st) (K p)) m]> (masks st) in
      match blockOpposite !! K p with
      | Some o =>
          match raw' !! o with
          | None => mkMerge (<[o := Z.ldiff (mask_at masks' o) m]> masks') raw'
          | Some _ => mkMerge masks' raw'
          end
      | None => mkMerge masks' raw'
      end
  end.
Definition replay (params : list ExchangeKV) : MergeState :=
  foldl merge_step (mkMerge ∅ ∅) params.
Definition merged_value (st : MergeState) (k : Z) : string :=
  match raw st !! k with
  | Some v => v
  | None => Itoa (mask_at (masks st) k)
  end.
Definition merged_out (st : MergeState) : list ExchangeKV :=
  sort_by_K (mkKV IndexScenario "1"
    :: map (fun k => mkKV k (merged_value st k)) (seqZ IndexLightStart 18)
    ++ [mkKV IndexSecurityOutlets "0"]).
Definition MergeBlockActions (chunks : list (list ExchangeKV)) : list ExchangeKV :=
  merged_out (replay (mjoin chunks)).

(** ** domain/action_chunk.go *)
Definition MaxFirmwareParamsPerAction : Z := 30.

(** The loop [for i := 0; i < len(params); i += max]. *)
Fixpoint chunk_loop {A} (fuel : nat) (params : list A) (max i : nat) : list (list A) :=
  match fuel with
  | O => []
  | S fuel =>
      if (i <? length params)%nat then
        let e := Nat.min (i + max) (length params) in
        take (e - i) (drop i params) :: chunk_loop fuel params max (i + max)
      else []
  end.
(** With [max > 0] the loop ends after at most [len(params)] rounds. *)
Definition ChunkExchangeParams (params : list ExchangeKV) (max : Z) : list (list ExchangeKV) :=
  if (max <=? 0) || (Z.of_nat (length params) <=? max) then
    if (length params =? 0)%nat then [] else [params]
  else chunk_loop (length params) params (Z.to_nat max) 0.

(** ** data/exchange.go: the pure functions *)
Definition FilterExchangeKeys (all : list ExchangeKV) (requested : list Z) : list ExchangeKV :=
  if (length requested =? 0)%nat then all
  else base.filter (fun kv => K kv ∈ (list_to_set requested : gset Z)) all.
Definition MergeExchangeKeys (primary secondary : list ExchangeKV) (requested : list Z)
    : list ExchangeKV :=
  if (length requested =? 0)%nat then FilterExchangeKeys (secondary ++ primary) requested
  else
    let byKey := foldl (fun m kv => <[K kv := V kv]> m)
                   (foldl (fun m kv => <[K kv := V kv]> m) (∅ : gmap Z string) secondary) primary in
    omap (fun k => v ← byKey !! k; Some (mkKV k v)) requested.

(** [trimSpace] of exchange.go: blanks and tabs only. *)
Definition is_blank (c : ascii) : bool := (ord c =? 32) || (ord c =? 9).
Fixpoint trim_blank_left (l : list ascii) : list ascii :=
  match l with
  | c :: r => if is_blank c then trim_blank_left r else l
  | [] => []
  end.
Definition trimSpace (l : list ascii) : list ascii :=
  rev (trim_blank_left (rev (trim_blank_left l))).
Definition comma : ascii := chr 44.
Definition splitComma (s : string) : list string :=
  map str (base.filter (fun p => p <> []) (map trimSpace (split_bytes comma (bytes s)))).
Definition ParseKeyList (keysParam : string) : res string (list Z) :=
  if is_empty keysParam then Fail "empty keys"
  else foldr (fun p acc =>
         match Sscanf_d p with
         | Some k => ks ← acc; Ok (k :: ks)
         | None => Fail ("invalid key " +:+ p)
         end) (Ok []) (splitComma keysParam).

(** ** Expansion of a light block *)

Lemma index_of_snoc l p : index_of (l ++ [p]) = <[K p := V p]> (index_of l).
Proof. unfold index_of. by rewrite foldl_app. Qed.
(** The last value given to a key. *)
Definition last_value (params : list ExchangeKV) (k : Z) : option string :=
  last (map V (base.filter (fun p => K p = k) params)).
Lemma index_of_last l k : index_of l !! k = last_value l k.
Proof.
  unfold last_value. induction l as [|p l IH] using rev_ind; [done|].
  rewrite index_of_snoc, filter_app, map_app. destruct (decide (K p = k)) as [<-|Hn].
  - rewrite lookup_insert_eq, filter_cons_True by done. rewrite filter_nil.
    simpl. by rewrite last_snoc.
  - rewrite lookup_insert_ne, filter_cons_False by done.
    rewrite filter_nil. simpl. by rewrite app_nil_r.
Qed.
Lemma last_value_None l k : last_value l k = None <-> k ∉ map K l.
Proof.
  unfold last_value. rewrite last_None. split.
  - intros H (p & -> & Hp)%list_elem_of_fmap. apply map_eq_nil in H.
    by apply (filter_nil_not_elem_of (fun q => K q = K p) l p) in H.
  - intros H. rewrite filter_none; [done|]. intros p Hp <-. apply H. by apply list_elem_of_fmap_2.
Qed.
Lemma set_missing_lookup m k v i :
  set_missing m k v !! i = if decide (i = k) then Some (default v (m !! k)) else m !! i.
Proof.
  unfold set_missing. destruct (m !! k) eqn:E; case_decide; subst; simpl; try done.
  - by rewrite lookup_insert_eq.
  - by rewrite lookup_insert_ne.
Qed.
Lemma set_missing_range m ks v i :
  foldl (fun m i => set_missing m i v) m ks !! i =
  if decide (i ∈ ks) then Some (default v (m !! i)) else m !! i.
Proof.
  revert m. induction ks as [|k ks IH]; intros m; simpl; [done|].
  rewrite IH. destruct (decide (i = k)) as [->|Hn].
  - rewrite set_missing_lookup, (decide_True (P := k = k)) by done.
    rewrite (decide_True (P := k ∈ k :: ks)) by left. by case_decide.
  - rewrite set_missing_lookup, (decide_False (P := i = k)) by done.
    destruct (decide (i ∈ ks)).
    + by rewrite decide_True by by right.
    + rewrite decide_False; [done|]. by intros [|]%elem_of_cons.
Qed.
(** The contents of the expanded block: what the command gave last, and the
    default of the missing indices of the block. *)
Definition expanded_value (params : list ExchangeKV) (k : Z) : option string :=
  match last_value params k with
  | Some v => Some v
  | None => if k =? IndexScenario then Some "1"
            else if (IndexLightStart <=? k) && (k <=? IndexSecurityOutlets) then Some "0"
            else None
  end.
Lemma expanded_index_lookup params k : expanded_index params !! k = expanded_value params k.
Proof.
  unfold expanded_index, expanded_value. rewrite set_missing_range, !set_missing_lookup.
  rewrite !index_of_last. unfold IndexScenario, IndexLightStart, IndexSecurityOutlets.
  destruct (decide (k ∈ seqZ 605 19)) as [Hk|Hk].
  - apply elem_of_seqZ in Hk. rewrite decide_False by lia.
    destruct (last_value params k); [done|]. simpl.
    rewrite (proj2 (Z.eqb_neq k 590)) by lia.
    rewrite (proj2 (andb_true_iff _ _)); [done|lia].
  - rewrite elem_of_seqZ in Hk. destruct (decide (k = 590)) as [->|Hn].
    + by destruct (last_value params 590).
    + destruct (last_value params k); [done|].
      rewrite (proj2 (Z.eqb_neq k 590)) by lia.
      destruct (_ && _) eqn:E; [|done]. lia.
Qed.
Lemma map_K_kv_of (l : list (Z * string)) : map K (map kv_of l) = l.*1.
Proof. rewrite map_map. by apply map_ext. Qed.
Lemma map_to_list_NoDup_K (m : gmap Z string) : NoDup (map K (map kv_of (map_to_list m))).
Proof. rewrite map_K_kv_of. apply NoDup_fst_map_to_list. Qed.
Lemma elem_of_sort_map (m : gmap Z string) p :
  p ∈ sort_by_K (map kv_of (map_to_list m)) <-> m !! K p = Some (V p).
Proof.
  unfold sort_by_K. rewrite merge_sort_Permutation. rewrite list_elem_of_fmap. split.
  - intros ([k v] & -> & H). by apply elem_of_map_to_list in H.
  - intros H. exists (K p, V p). split; [by destruct p|]. by apply elem_of_map_to_list.
Qed.
Lemma sort_by_K_sorted l : StronglySorted kv_le (sort_by_K l).
Proof. apply StronglySorted_merge_sort; apply _. Qed.
(** A sorted block of distinct keys is determined by its contents. *)
Lemma block_ext l1 l2 :
  NoDup (map K l1) -> NoDup (map K l2) -> StronglySorted kv_le l1 -> StronglySorted kv_le l2 ->
  (forall p, p ∈ l1 <-> p ∈ l2) -> l1 = l2.
Proof.
  intros N1 N2 S1 S2 H. apply sorted_unique; [done| |done|done].
  apply NoDup_Permutation; [by eapply NoDup_fmap_1|by eapply NoDup_fmap_1|done].
Qed.
Lemma last_value_NoDup l p : NoDup (map K l) -> p ∈ l -> last_value l (K p) = Some (V p).
Proof.
  unfold last_value. induction l as [|q l IH]; [by intros _ ?%elem_of_nil|].
  simpl. intros [Hq Hnd]%NoDup_cons Hp. apply elem_of_cons in Hp as [<-|Hp].
  - rewrite filter_cons_True by done. simpl.
    assert (base.filter (fun x => K x = K p) l = []) as ->; [|done].
    apply filter_none. intros x Hx HK. apply Hq. rewrite <-HK. by apply list_elem_of_fmap_2.
  - rewrite filter_cons_False; [by apply IH|].
    intros HK. apply Hq. rewrite HK. by apply list_elem_of_fmap_2.
Qed.

Lemma expanded_in_block params p :
  p ∈ params -> is_light_shutter p = true ->
  existsb is_light_shutter (sort_by_K (map kv_of (map_to_list (expanded_index params)))) = true.
Proof.
  intros Hp Hl. apply existsb_elem.
  assert (exists v, expanded_value params (K p) = Some v) as [v Hv].
  { unfold expanded_value. destruct (last_value params (K p)) eqn:E; [by eexists|].
    apply last_value_None in E. exfalso. apply E. by apply list_elem_of_fmap_2. }
  exists (mkKV (K p) v). split; [|exact Hl].
  apply elem_of_sort_map. simpl. by rewrite expanded_index_lookup.
Qed.

(** A light, shutter or outlet command is expanded to a block sorted by
    index, without duplicates, that holds at each index the last value the
    command gave it, "1" for a missing 590 and "0" for a missing 605..623;
    any other command is unchanged.  The result does not depend on the order
    in which the Go map is ranged over, nor on the sorting algorithm. *)
Lemma expand_block_spec (params : list ExchangeKV) :
  (existsb is_light_shutter params = false -> ExpandLegacyScenarioBlock params = params) /\
  (existsb is_light_shutter params = true ->
    let out := ExpandLegacyScenarioBlock params in
    StronglySorted kv_le out /\ NoDup (map K out) /\
    (forall p, p ∈ out <-> expanded_value params (K p) = Some (V p)) /\
    (forall range out', Permutation range (map_to_list (expanded_index params)) ->
       Permutation out' (map kv_of range) -> StronglySorted kv_le out' -> out' = out)).
Proof.
  unfold ExpandLegacyScenarioBlock. split; intros E; rewrite E; cbn [negb]; cbv zeta; [done|].
  split; [apply sort_by_K_sorted|]. split.
  { unfold sort_by_K. rewrite merge_sort_Permutation. apply map_to_list_NoDup_K. }
  split.
  { intros p. by rewrite elem_of_sort_map, expanded_index_lookup. }
  intros range out' Hr Ho Hs. symmetry. apply sort_by_K_unique; [|by rewrite Ho, Hr|done].
  apply map_to_list_NoDup_K.
Qed.

(** Expanding an expanded block changes nothing: the server may expand
    on injection, on merging and on delivery without altering a command. *)
Lemma expand_block_idempotent (params : list ExchangeKV) :
  ExpandLegacyScenarioBlock (ExpandLegacyScenarioBlock params) = ExpandLegacyScenarioBlock params.
Proof.
  unfold ExpandLegacyScenarioBlock at 2 3.
  destruct (existsb is_light_shutter params) eqn:E; cbn [negb];
    [|unfold ExpandLegacyScenarioBlock; by rewrite E].
  apply existsb_elem in E as (p & Hp & Hl).
  unfold ExpandLegacyScenarioBlock. rewrite (expanded_in_block params p) by done. cbn [negb].
  apply sort_by_K_unique; [apply map_to_list_NoDup_K| |apply sort_by_K_sorted].
  set (out := sort_by_K (map kv_of (map_to_list (expanded_index params)))).
  assert (NoDup (map K out)) as Hnd.
  { unfold out, sort_by_K. rewrite merge_sort_Permutation. apply map_to_list_NoDup_K. }
  unfold out at 2, sort_by_K. rewrite merge_sort_Permutation.
  assert (expanded_index out = expanded_index params) as ->; [|done].
  apply map_eq. intros k. rewrite (expanded_index_lookup out). unfold expanded_value.
  destruct (last_value out k) as [v|] eqn:Ev.
  - destruct (decide (k ∈ map K out)) as [(q & -> & Hq)%list_elem_of_fmap|Hn].
    + rewrite (last_value_NoDup _ _ Hnd Hq) in Ev. injection Ev as <-.
      symmetry. by apply elem_of_sort_map.
    + apply last_value_None in Hn. congruence.
  - apply last_value_None in Ev.
    destruct (expanded_index params !! k) as [v|] eqn:E.
    { exfalso. apply Ev. apply (list_elem_of_fmap_2 K _ (mkKV k v)). by apply elem_of_sort_map. }
    rewrite expanded_index_lookup in E. unfold expanded_value in E.
    by destruct (last_value params k).
Qed.

(** ** Merging: the abstract specification

    Each bit of a mask of the block is a lamp or a shutter.  A command carries
    an intent for it: to set it, to clear it (a bit set on the opposite index,
    or a non-numeric value), or none.  Merging keeps the last intent. *)
Definition intent (k n : Z) (p : ExchangeKV) : option bool :=
  if negb (isBlockIndex (K p)) then None
  else if K p =? k then
    match Atoi (V p) with
    | None => Some false
    | Some m => if Z.testbit m n then Some true else None
    end
  else if bool_decide (blockOpposite !! K p = Some k) then
    match Atoi (V p) with
    | Some m => if Z.testbit m n then Some false else None
    | None => None
    end
  else None.
Definition last_intent (k n : Z) (ps : list ExchangeKV) : bool :=
  default false (last (omap (intent k n) ps)).
(** A non-numeric value replaces the mask until a non-zero number arrives. *)
Definition raw_intent (k : Z) (p : ExchangeKV) : option (option string) :=
  if negb (isBlockIndex (K p)) then None
  else if K p =? k then
    match Atoi (V p) with
    | None => Some (Some (V p))
    | Some m => if m =? 0 then None else Some None
    end
  else None.
Definition last_raw (k : Z) (ps : list ExchangeKV) : option string :=
  mjoin (last (omap (raw_intent k) ps)).

Definition opposite_of (k : Z) : option Z :=
  if (605 <=? k) && (k <=? 610) then Some (k + 6)
  else if (611 <=? k) && (k <=? 616) then Some (k - 6)
  else if (617 <=? k) && (k <=? 619) then Some (k + 3)
  else if (620 <=? k) && (k <=? 622) then Some (k - 3) else None.
Lemma blockOpposite_eq k : blockOpposite !! k = opposite_of k.
Proof.
  destruct (blockOpposite !! k) as [o|] eqn:E.
  - assert (map_Forall (fun k o => opposite_of k = Some o) blockOpposite) as H.
    { apply (bool_decide_unpack _). vm_compute. exact I. }
    symmetry. by apply H.
  - destruct (opposite_of k) as [o|] eqn:E2; [|done]. exfalso.
    assert (k ∈ seqZ 605 18) as Hk.
    { apply elem_of_seqZ. unfold opposite_of in E2.
      repeat (destruct (_ && _) eqn:? in E2; [lia|]). done. }
    assert (Forall (fun k => blockOpposite !! k <> None) (seqZ 605 18)) as H.
    { apply (bool_decide_unpack _). vm_compute. exact I. }
    rewrite Forall_forall in H. by apply (H k).
Qed.
Ltac solve_opp := unfold opposite_of, isBlockIndex, IndexLightStart, IndexLightEnd;
  intros; repeat match goal with
  | H : context [if ?b then _ else _] |- _ => destruct b eqn:?
  | H : Some _ = Some _ |- _ => injection H as <-
  | H : None = Some _ |- _ => discriminate H
  end; repeat match goal with
  | |- context [if ?b then _ else _] => destruct b eqn:?
  end; try (f_equal; lia); try lia.
Lemma opposite_sym k o : opposite_of k = Some o -> opposite_of o = Some k.
Proof. solve_opp. Qed.
Lemma opposite_block k o :
  opposite_of k = Some o -> isBlockIndex k = true /\ isBlockIndex o = true /\ o <> k.
Proof. solve_opp. Qed.
Lemma opposite_total k : isBlockIndex k = true -> exists o, opposite_of k = Some o.
Proof. solve_opp; eauto. Qed.
Lemma blockOpposite_None_block k : isBlockIndex k = true -> blockOpposite !! k <> None.
Proof. rewrite blockOpposite_eq. intros [o ->]%opposite_total. done. Qed.

Lemma last_omap_snoc {A B} (f : A -> option B) l a :
  last (omap f (l ++ [a])) = match f a with Some b => Some b | None => last (omap f l) end.
Proof.
  rewrite omap_app. simpl. destruct (f a) as [b|]; simpl; [by rewrite last_snoc|by rewrite app_nil_r].
Qed.
Lemma last_intent_snoc k n ps p :
  last_intent k n (ps ++ [p]) = default (last_intent k n ps) (intent k n p).
Proof. unfold last_intent. rewrite last_omap_snoc. by destruct (intent k n p). Qed.
Lemma last_raw_snoc k ps p :
  last_raw k (ps ++ [p]) = default (last_raw k ps) (raw_intent k p).
Proof. unfold last_raw. rewrite last_omap_snoc. by destruct (raw_intent k p). Qed.

(** The state of the replay after the commands [ps]. *)
Definition replay_spec (ps : list ExchangeKV) (st : MergeState) : Prop :=
  forall k, isBlockIndex k = true ->
    raw st !! k = last_raw k ps /\
    (is_Some (raw st !! k) -> masks st !! k = None) /\
    forall n, 0 <= n -> Z.testbit (mask_at (masks st) k) n = last_intent k n ps.

Lemma mask_at_insert m k v i : mask_at (<[k := v]> m) i = if decide (i = k) then v else mask_at m i.
Proof. unfold mask_at. case_decide; [subst; by rewrite lookup_insert_eq|by rewrite lookup_insert_ne]. Qed.
Lemma mask_at_delete m k i : mask_at (delete k m) i = if decide (i = k) then 0 else mask_at m i.
Proof. unfold mask_at. case_decide; [subst; by rewrite lookup_delete_eq|by rewrite lookup_delete_ne]. Qed.

Lemma intent_own k n p m :
  isBlockIndex k = true -> K p = k -> Atoi (V p) = Some m ->
  intent k n p = if Z.testbit m n then Some true else None.
Proof. intros Hk <- Hm. unfold intent. by rewrite Hk, Z.eqb_refl, Hm. Qed.
Lemma intent_raw k n p : isBlockIndex (K p) = true -> Atoi (V p) = None ->
  intent k n p = if K p =? k then Some false else None.
Proof.
  intros Hk Hm. unfold intent. rewrite Hk, Hm. cbn [negb].
  destruct (K p =? k); [done|]. by case_bool_decide.
Qed.
Lemma intent_other k o n p m :
  isBlockIndex (K p) = true -> K p <> k -> opposite_of (K p) = Some o -> Atoi (V p) = Some m ->
  intent k n p = if bool_decide (o = k) && Z.testbit m n then Some false else None.
Proof.
  intros Hk Hne Ho Hm. unfold intent. rewrite Hk, Hm, blockOpposite_eq, Ho. simpl.
  rewrite (proj2 (Z.eqb_neq _ _)) by done.
  repeat case_bool_decide; simpl; try congruence; by destruct (Z.testbit m n).
Qed.
Lemma raw_intent_num k p m : isBlockIndex (K p) = true -> Atoi (V p) = Some m ->
  raw_intent k p = if (K p =? k) && negb (m =? 0) then Some None else None.
Proof.
  intros Hk Hm. unfold raw_intent. rewrite Hk, Hm. simpl.
  destruct (K p =? k); [|done]. by destruct (m =? 0).
Qed.
Lemma raw_intent_raw k p : isBlockIndex (K p) = true -> Atoi (V p) = None ->
  raw_intent k p = if K p =? k then Some (Some (V p)) else None.
Proof. intros Hk Hm. unfold raw_intent. by rewrite Hk, Hm. Qed.

Lemma replay_step_raw ps st p :
  replay_spec ps st -> isBlockIndex (K p) = true -> Atoi (V p) = None ->
  replay_spec (ps ++ [p]) (merge_step st p).
Proof.
  intros H Hp Hv k Hk. destruct (H k Hk) as (H1 & H2 & H3).
  unfold merge_step. rewrite Hp, Hv. simpl.
  rewrite last_raw_snoc, raw_intent_raw by done.
  setoid_rewrite last_intent_snoc. setoid_rewrite intent_raw; [|done..].
  destruct (K p =? k) eqn:E; simpl.
  - apply Z.eqb_eq in E as <-. rewrite lookup_insert_eq, lookup_delete_eq.
    split_and!; [done|done|]. intros n Hn. rewrite mask_at_delete, decide_True by done.
    apply Z.testbit_0_l.
  - apply Z.eqb_neq in E. rewrite lookup_insert_ne, lookup_delete_ne by done.
    split_and!; [done|done|]. intros n Hn. rewrite mask_at_delete, decide_False by done. by apply H3.
Qed.
Lemma replay_step_num ps st p m :
  replay_spec ps st -> isBlockIndex (K p) = true -> Atoi (V p) = Some m -> m <> 0 ->
  replay_spec (ps ++ [p]) (merge_step st p).
Proof.
  intros H Hp Hv Hm k Hk. destruct (H k Hk) as (H1 & H2 & H3).
  destruct (opposite_total _ Hp) as [o Ho].
  destruct (opposite_block _ _ Ho) as (_ & Hbo & Hne).
  unfold merge_step. rewrite Hp, Hv, blockOpposite_eq, Ho. simpl.
  rewrite (proj2 (Z.eqb_neq m 0)) by done.
  rewrite last_raw_snoc, (raw_intent_num _ _ m) by done.
  rewrite (proj2 (Z.eqb_neq m 0)) by done. rewrite andb_true_r.
  rewrite lookup_delete_ne by done.
  setoid_rewrite last_intent_snoc.
  destruct (decide (K p = k)) as [<-|Hk'].
  - rewrite Z.eqb_refl.
    assert (forall n, 0 <= n ->
      Z.testbit (Z.lor (mask_at (masks st) (K p)) m) n =
      default (last_intent (K p) n ps) (intent (K p) n p)) as Hbits.
    { intros n Hn. rewrite Z.lor_spec, H3, (intent_own _ _ _ m) by done.
      destruct (Z.testbit m n); simpl; [apply orb_true_r|apply orb_false_r]. }
    destruct (raw st !! o); simpl; rewrite lookup_delete_eq; split_and!; try (by intros []); try done.
    + intros n Hn. rewrite mask_at_insert, decide_True by done. by apply Hbits.
    + intros n Hn. rewrite !mask_at_insert, decide_False, decide_True by done. by apply Hbits.
  - rewrite (proj2 (Z.eqb_neq (K p) k)) by done. simpl.
    setoid_rewrite (intent_other k o _ p m); [|done..].
    destruct (raw st !! o) eqn:Eo; simpl; rewrite lookup_delete_ne by done.
    + rewrite lookup_insert_ne by done. split_and!; [done|done|].
      intros n Hn. rewrite mask_at_insert, decide_False by done.
      destruct (bool_decide (o = k)) eqn:Ek; simpl; [|by apply H3].
      apply bool_decide_eq_true in Ek as <-. rewrite H3 by done.
      destruct (Z.testbit m n); [|done]. simpl. rewrite <-H3 by done.
      unfold mask_at. rewrite H2 by done. apply Z.testbit_0_l.
    + destruct (decide (o = k)) as [<-|Hok].
      * split_and!; [done|by rewrite Eo; intros []|].
        intros n Hn. rewrite !mask_at_insert, decide_True, decide_False by done.
        rewrite Z.ldiff_spec, H3, bool_decide_eq_true_2 by done. simpl.
        destruct (Z.testbit m n); simpl; [apply andb_false_r|apply andb_true_r].
      * rewrite !lookup_insert_ne by done. split_and!; [done|done|].
        intros n Hn. rewrite !mask_at_insert, !decide_False by done.
        rewrite bool_decide_eq_false_2 by done. by apply H3.
Qed.
Lemma replay_snoc ps p : replay (ps ++ [p]) = merge_step (replay ps) p.
Proof. unfold replay. by rewrite foldl_app. Qed.
Lemma replay_correct ps : replay_spec ps (replay ps).
Proof.
  induction ps as [|p ps IH] using rev_ind.
  { intros k _. split_and!; [done|by intros []|]. intros n Hn. apply Z.testbit_0_l. }
  rewrite replay_snoc. destruct (isBlockIndex (K p)) eqn:Hp.
  2:{ intros k Hk. rewrite last_raw_snoc. setoid_rewrite last_intent_snoc.
      unfold raw_intent, intent, merge_step. rewrite Hp. simpl. by apply IH. }
  destruct (Atoi (V p)) as [m|] eqn:Hv; [|by apply replay_step_raw].
  destruct (decide (m = 0)) as [->|Hm]; [|by eapply replay_step_num].
  intros k Hk. rewrite last_raw_snoc. setoid_rewrite last_intent_snoc.
  rewrite (raw_intent_num _ _ 0) by done. rewrite Z.eqb_refl, andb_false_r.
  assert (forall n, intent k n p = None) as Hi.
  { intros n. unfold intent. rewrite Hp, Hv, Z.testbit_0_l. cbn [negb].
    destruct (K p =? k); [done|]. by case_bool_decide. }
  setoid_rewrite Hi. unfold merge_step. rewrite Hp, Hv. simpl. by apply IH.
Qed.

(** ** The merged block *)
Lemma StronglySorted_map_K l : StronglySorted Z.le (map K l) -> StronglySorted kv_le l.
Proof.
  induction l as [|p l IH]; [by constructor|]. simpl. intros [H1 H2]%StronglySorted_inv.
  constructor; [by apply IH|]. rewrite Forall_map in H2. exact H2.
Qed.
Definition block_keys : list Z := IndexScenario :: seqZ IndexLightStart 18 ++ [IndexSecurityOutlets].
Definition merged_list (st : MergeState) : list ExchangeKV :=
  mkKV IndexScenario "1"
    :: map (fun k => mkKV k (merged_value st k)) (seqZ IndexLightStart 18)
    ++ [mkKV IndexSecurityOutlets "0"].
Lemma merged_list_keys st : map K (merged_list st) = block_keys.
Proof. reflexivity. Qed.
Lemma block_keys_NoDup : NoDup block_keys.
Proof. apply (bool_decide_unpack _). vm_compute. exact I. Qed.
Lemma block_keys_sorted : StronglySorted Z.le block_keys.
Proof.
  unfold block_keys, IndexScenario, IndexLightStart, IndexSecurityOutlets.
  cbn [seqZ seq fmap list_fmap app Z.to_nat]. vm_compute seqZ. cbn [app].
  repeat (apply SSorted_cons; [|repeat (apply Forall_cons; split; [lia|]); by apply Forall_nil]).
  apply SSorted_nil.
Qed.
Lemma merged_out_eq st : merged_out st = merged_list st.
Proof.
  apply sort_by_K_unique; [|done|].
  - fold (merged_list st). rewrite merged_list_keys. apply block_keys_NoDup.
  - fold (merged_list st). apply StronglySorted_map_K. rewrite merged_list_keys. apply block_keys_sorted.
Qed.
Lemma block_index_elem k : isBlockIndex k = true <-> k ∈ seqZ IndexLightStart 18.
Proof. rewrite elem_of_seqZ. unfold isBlockIndex, IndexLightStart, IndexLightEnd. lia. Qed.

(** The masks stay 64-bit integers: the bitwise operations act within the width. *)
Lemma in_int64_shiftr z : in_int64 z = true <-> Z.shiftr z 63 = 0 \/ Z.shiftr z 63 = -1.
Proof.
  rewrite Z.shiftr_div_pow2 by lia. unfold in_int64, int64_min, int64_max.
  rewrite andb_true_iff, !Z.leb_le. change (2 ^ 63) with 9223372036854775808.
  split; intros H.
  - destruct (Z.le_gt_cases 0 z); [left; apply Z.div_small; lia|].
    right. symmetry. apply (Z.div_unique z _ (-1) (z + 9223372036854775808)); lia.
  - destruct H as [H|H].
    + apply Z.div_small_iff in H; lia.
    + pose proof (Z.div_mod z 9223372036854775808 ltac:(lia)).
      pose proof (Z.mod_pos_bound z 9223372036854775808 ltac:(lia)). lia.
Qed.
Lemma in_int64_lor a b : in_int64 a = true -> in_int64 b = true -> in_int64 (Z.lor a b) = true.
Proof.
  rewrite !in_int64_shiftr, Z.shiftr_lor. intros [-> | ->] [-> | ->]; by auto.
Qed.
Lemma in_int64_ldiff a b : in_int64 a = true -> in_int64 b = true -> in_int64 (Z.ldiff a b) = true.
Proof.
  rewrite !in_int64_shiftr, Z.shiftr_ldiff. intros [-> | ->] [-> | ->]; by auto.
Qed.
Lemma Atoi_int64 s m : Atoi s = Some m -> in_int64 m = true.
Proof. intros H%Atoi_range. unfold in_int64. lia. Qed.
Lemma merge_step_range st p :
  (forall k, in_int64 (mask_at (masks st) k) = true) ->
  forall k, in_int64 (mask_at (masks (merge_step st p)) k) = true.
Proof.
  intros H k. unfold merge_step. destruct (negb _); [done|].
  destruct (Atoi (V p)) as [m|] eqn:Em.
  2:{ simpl. rewrite mask_at_delete. by case_decide. }
  apply Atoi_int64 in Em. destruct (m =? 0); [done|].
  assert (forall i, in_int64 (mask_at (<[K p := Z.lor (mask_at (masks st) (K p)) m]> (masks st)) i) = true) as H1.
  { intros i. rewrite mask_at_insert. case_decide; [by apply in_int64_lor|done]. }
  destruct (blockOpposite !! K p) as [o|]; [|apply H1].
  destruct (delete (K p) (raw st) !! o); [apply H1|]. cbn [masks].
  rewrite (mask_at_insert _ o). case_decide; [by apply in_int64_ldiff|apply H1].
Qed.
Lemma replay_range ps k : in_int64 (mask_at (masks (replay ps)) k) = true.
Proof.
  revert k. induction ps as [|p ps IH] using rev_ind; [done|].
  rewrite replay_snoc. by apply merge_step_range.
Qed.
Lemma last_raw_not_number k ps v : last_raw k ps = Some v -> Atoi v = None.
Proof.
  induction ps as [|p ps IH] using rev_ind; [done|].
  rewrite last_raw_snoc. unfold raw_intent.
  destruct (negb _); [done|]. destruct (K p =? k); [|done].
  destruct (Atoi (V p)) as [m|] eqn:E; [by destruct (m =? 0)|]. simpl. by intros [= <-].
Qed.
(** Two opposite bits are never both set. *)
Lemma last_intent_opposite k o n ps :
  opposite_of k = Some o -> last_intent k n ps = true -> last_intent o n ps = false.
Proof.
  intros Ho. pose proof (opposite_sym _ _ Ho) as Ho'.
  destruct (opposite_block _ _ Ho) as (Hbk & Hbo & Hne).
  induction ps as [|p ps IH] using rev_ind; [done|].
  rewrite !last_intent_snoc. destruct (isBlockIndex (K p)) eqn:Hp.
  2:{ unfold intent. rewrite Hp. done. }
  destruct (Atoi (V p)) as [m|] eqn:Hv.
  2:{ rewrite !intent_raw by done.
      destruct (K p =? k), (K p =? o); done. }
  destruct (decide (K p = k)) as [E|E]; [|destruct (decide (K p = o)) as [E'|E']].
  - rewrite (intent_own _ _ _ m), (intent_other o o _ _ m) by congruence.
    rewrite bool_decide_eq_true_2 by done. simpl.
    destruct (Z.testbit m n); simpl; auto.
  - rewrite (intent_own o _ _ m), (intent_other k k _ _ m) by congruence.
    rewrite bool_decide_eq_true_2 by done. simpl.
    destruct (Z.testbit m n); simpl; auto.
  - destruct (opposite_total _ Hp) as [q Hq].
    rewrite !(intent_other _ q _ _ m) by congruence.
    assert (q <> k). { intros ->. apply opposite_sym in Hq. congruence. }
    assert (q <> o). { intros ->. apply opposite_sym in Hq. congruence. }
    rewrite !bool_decide_eq_false_2 by done. done.
Qed.

Lemma merged_in_block chunks k :
  isBlockIndex k = true ->
  mkKV k (merged_value (replay (mjoin chunks)) k) ∈ MergeBlockActions chunks.
Proof.
  intros Hk. unfold MergeBlockActions. rewrite merged_out_eq. right.
  apply elem_of_app. left. apply (list_elem_of_fmap_2 (fun k => mkKV k (merged_value _ k))).
  by apply block_index_elem.
Qed.
(** What the merged block says about one key. *)
Lemma merged_elem st p : p ∈ merged_list st -> isBlockIndex (K p) = true -> V p = merged_value st (K p).
Proof.
  unfold merged_list. intros [->|[(k & -> & _)%list_elem_of_fmap|Hp]%elem_of_app]%elem_of_cons Hk;
    [done|done|]. by apply list_elem_of_singleton in Hp as ->.
Qed.
Lemma merged_value_num ps k :
  last_raw k ps = None -> isBlockIndex k = true ->
  Atoi (merged_value (replay ps) k) = Some (mask_at (masks (replay ps)) k).
Proof.
  intros Hr Hk. unfold merged_value. rewrite (proj1 (replay_correct ps k Hk)), Hr.
  apply Atoi_Itoa_id, replay_range.
Qed.
Lemma merged_value_raw ps k v :
  last_raw k ps = Some v -> isBlockIndex k = true ->
  merged_value (replay ps) k = v /\ Atoi v = None.
Proof.
  intros Hr Hk. unfold merged_value. rewrite (proj1 (replay_correct ps k Hk)), Hr.
  split; [done|by eapply last_raw_not_number].
Qed.

(** The last intent of a list in which only one intent occurs. *)
Lemma last_omap_const {A B} (f : A -> option B) (b : B) l :
  (forall a c, a ∈ l -> f a = Some c -> c = b) -> (exists a, a ∈ l /\ f a = Some b) ->
  last (omap f l) = Some b.
Proof.
  intros Hall (a & Ha & Hfa). destruct (last (omap f l)) as [c|] eqn:E.
  - apply last_Some_elem_of, list_elem_of_omap in E as (a' & Ha' & Hf'). by f_equal; eapply Hall.
  - apply last_None in E. exfalso.
    assert (b ∈ omap f l) as Hb by (apply list_elem_of_omap; eauto).
    rewrite E in Hb. by apply elem_of_nil in Hb.
Qed.
Lemma last_intent_true k n l :
  (exists p, p ∈ l /\ intent k n p = Some true) ->
  (forall p, p ∈ l -> intent k n p <> Some false) -> last_intent k n l = true.
Proof.
  intros Hex Hall. unfold last_intent.
  rewrite (last_omap_const _ true); [done| |done].
  intros p [] Hp Hi; [done|]. by apply Hall in Hp.
Qed.
Lemma last_intent_false k n l :
  (forall p, p ∈ l -> intent k n p <> Some true) -> last_intent k n l = false.
Proof.
  intros Hall. unfold last_intent. destruct (last (omap (intent k n) l)) as [[]|] eqn:E; [|done..].
  apply last_Some_elem_of, list_elem_of_omap in E as (p & Hp & Hi). by apply Hall in Hp.
Qed.

(** Replaying a merged block gives back the intents it was merged from. *)
Lemma last_raw_merged k ps : isBlockIndex k = true ->
  last_raw k (merged_list (replay ps)) = last_raw k ps.
Proof.
  intros Hk. unfold last_raw at 1.
  destruct (last_raw k ps) as [v|] eqn:Hr.
  - destruct (merged_value_raw _ _ _ Hr Hk) as [Hv Hn].
    rewrite (last_omap_const _ (Some v)); [done| |].
    + intros p c Hp. unfold raw_intent. destruct (isBlockIndex (K p)) eqn:Hb; [|done]. simpl.
      destruct (K p =? k) eqn:E; [|done]. apply Z.eqb_eq in E as <-.
      rewrite (merged_elem _ _ Hp Hb), Hv, Hn. by intros [= <-].
    + exists (mkKV k v). split.
      * right. apply elem_of_app. left. rewrite <-Hv.
        apply (list_elem_of_fmap_2 (fun k => mkKV k (merged_value _ k))). by apply block_index_elem.
      * unfold raw_intent. cbn [K V]. by rewrite Hk, Z.eqb_refl, Hn.
  - destruct (last (omap (raw_intent k) (merged_list (replay ps)))) as [[v|]|] eqn:E; [|done..].
    apply last_Some_elem_of, list_elem_of_omap in E as (p & Hp & Hi).
    unfold raw_intent in Hi. destruct (isBlockIndex (K p)) eqn:Hb; [|done]. simpl in Hi.
    destruct (K p =? k) eqn:E; [|done]. apply Z.eqb_eq in E as <-.
    rewrite (merged_elem _ _ Hp Hb), merged_value_num in Hi by done.
    by destruct (_ =? 0).
Qed.
Lemma last_intent_merged k n ps : isBlockIndex k = true -> 0 <= n ->
  last_intent k n (merged_list (replay ps)) = last_intent k n ps.
Proof.
  intros Hk Hn. destruct (replay_correct ps k Hk) as (H1 & H2 & H3).
  destruct (opposite_total _ Hk) as [o Ho]. destruct (opposite_block _ _ Ho) as (_ & Hbo & Hne).
  assert (forall p, p ∈ merged_list (replay ps) -> intent k n p = Some false ->
            last_intent k n ps = false) as Hfalse.
  { intros p Hp. destruct (isBlockIndex (K p)) eqn:Hb; [|unfold intent; by rewrite Hb].
    pose proof (merged_elem _ _ Hp Hb) as Hv.
    destruct (last_raw (K p) ps) as [v|] eqn:Hr.
    - destruct (merged_value_raw _ _ _ Hr Hb) as [Hv' Hv'']. rewrite Hv' in Hv.
      rewrite intent_raw by congruence. destruct (K p =? k) eqn:E; [|done].
      apply Z.eqb_eq in E. intros _. rewrite <-H3 by done. unfold mask_at.
      rewrite H2; [apply Z.testbit_0_l|]. rewrite H1, <-E, Hr. by eexists.
    - pose proof (merged_value_num _ _ Hr Hb) as Hm. rewrite <-Hv in Hm.
      destruct (decide (K p = k)) as [E|E].
      { rewrite (intent_own _ _ _ _ Hk E Hm). by destruct (Z.testbit _ n). }
      destruct (opposite_total _ Hb) as [q Hq].
      rewrite (intent_other _ _ _ _ _ Hb E Hq Hm). case_bool_decide as Eq; [|done]. subst q.
      simpl. rewrite (proj2 (proj2 (replay_correct ps _ Hb))) by done.
      destruct (last_intent (K p) n ps) eqn:El; [|done]. intros _.
      by eapply last_intent_opposite. }
  destruct (last_intent k n ps) eqn:El.
  - apply last_intent_true.
    + assert (last_raw k ps = None) as Hr.
      { rewrite <-H1. destruct (raw (replay ps) !! k) eqn:Er; [|done]. exfalso.
        rewrite <-H3 in El by done. unfold mask_at in El.
        rewrite H2, Z.testbit_0_l in El by by eexists. done. }
      exists (mkKV k (merged_value (replay ps) k)). split.
      * pose proof (merged_in_block [ps] k Hk) as Hin. unfold MergeBlockActions in Hin.
        rewrite merged_out_eq in Hin. simpl in Hin. by rewrite app_nil_r in Hin.
      * rewrite (intent_own k n (mkKV k _) (mask_at (masks (replay ps)) k) Hk eq_refl);
          [|by apply merged_value_num]. by rewrite H3, El.
    + intros p Hp Hi. specialize (Hfalse p Hp Hi). done.
  - apply last_intent_false. intros p Hp Hi.
    destruct (isBlockIndex (K p)) eqn:Hb; [|unfold intent in Hi; by rewrite Hb in Hi].
    pose proof (merged_elem _ _ Hp Hb) as Hv. unfold intent in Hi. rewrite Hb in Hi. cbn [negb] in Hi.
    destruct (K p =? k) eqn:E.
    2:{ by case_bool_decide; destruct (Atoi (V p)) as [m|]; try destruct (Z.testbit m n). }
    apply Z.eqb_eq in E. rewrite E in *. destruct (last_raw k ps) as [v|] eqn:Hr.
    + destruct (merged_value_raw _ _ _ Hr Hk) as [Hv' Hv'']. by rewrite Hv, Hv', Hv'' in Hi.
    + rewrite Hv, merged_value_num, H3, El in Hi by done. done.
Qed.
Lemma last_intent_app k n l1 l2 :
  last_intent k n (l1 ++ l2) = default (last_intent k n l1) (last (omap (intent k n) l2)).
Proof.
  unfold last_intent. rewrite omap_app, last_app. by destruct (last (omap (intent k n) l2)).
Qed.
Lemma last_raw_app k l1 l2 :
  last_raw k (l1 ++ l2) = default (last_raw k l1) (last (omap (raw_intent k) l2)).
Proof.
  unfold last_raw. rewrite omap_app, last_app. by destruct (last (omap (raw_intent k) l2)).
Qed.
(** Two replays with the same last intents give the same block. *)
Lemma merged_list_ext ps qs :
  (forall k, isBlockIndex k = true -> last_raw k ps = last_raw k qs) ->
  (forall k n, isBlockIndex k = true -> 0 <= n -> last_intent k n ps = last_intent k n qs) ->
  merged_list (replay ps) = merged_list (replay qs).
Proof.
  intros Hr Hi. unfold merged_list. f_equal. f_equal. apply map_ext_in.
  intros k Hk%list_elem_of_In%block_index_elem. f_equal.
  destruct (replay_correct ps k Hk) as (P1 & P2 & P3), (replay_correct qs k Hk) as (Q1 & Q2 & Q3).
  unfold merged_value. rewrite P1, Q1, Hr by done. destruct (last_raw k qs); [done|].
  f_equal. apply Z.bits_inj'. intros n Hn. rewrite P3, Q3 by done. by apply Hi.
Qed.

(** ** The merging theorems *)

(** C1. [MergeBlockActions] is the replay of the commands in order: the result
    is the complete block 590, 605..623 in index order, 590 is "1" and 623 is
    "0"; every index holds the last non-numeric value that no later non-zero
    number replaced, or else the mask whose bits are exactly the last intents
    (the last command wins for each lamp and shutter); opposite masks never
    share a bit, and every mask is a 64-bit integer. *)
Theorem merge_block_spec (chunks : list (list ExchangeKV)) :
  exists mask : Z -> Z,
    MergeBlockActions chunks =
      mkKV IndexScenario "1"
      :: map (fun k => mkKV k (default (Itoa (mask k)) (last_raw k (mjoin chunks))))
           (seqZ IndexLightStart 18)
      ++ [mkKV IndexSecurityOutlets "0"] /\
    (forall k n, isBlockIndex k = true -> 0 <= n ->
       Z.testbit (mask k) n = last_intent k n (mjoin chunks)) /\
    (forall k o, blockOpposite !! k = Some o -> Z.land (mask k) (mask o) = 0) /\
    (forall k, in_int64 (mask k) = true).
Proof.
  pose proof (replay_correct (mjoin chunks)) as HR.
  exists (mask_at (masks (replay (mjoin chunks)))). split_and!.
  - unfold MergeBlockActions. rewrite merged_out_eq. unfold merged_list. f_equal. f_equal.
    apply map_ext_in. intros k Hk%list_elem_of_In%block_index_elem. f_equal.
    unfold merged_value. rewrite (proj1 (HR k Hk)). by destruct (last_raw k _).
  - intros k n Hk Hn. by apply HR.
  - intros k o Ho. rewrite blockOpposite_eq in Ho.
    destruct (opposite_block _ _ Ho) as (Hk & Hbo & _).
    apply Z.bits_inj'. intros n Hn. rewrite Z.land_spec, Z.testbit_0_l.
    rewrite (proj2 (proj2 (HR k Hk))), (proj2 (proj2 (HR o Hbo))) by done.
    destruct (last_intent k n (mjoin chunks)) eqn:E; [|done]. simpl.
    by eapply last_intent_opposite.
  - apply replay_range.
Qed.

(** Merging is incremental: merging the first actions and then the merged
    block with the rest is merging them all, so a queue that was coalesced on
    an earlier poll has the same effect as one coalesced once. *)
Lemma merge_block_incremental (xs ys : list (list ExchangeKV)) :
  MergeBlockActions (MergeBlockActions xs :: ys) = MergeBlockActions (xs ++ ys).
Proof.
  unfold MergeBlockActions. rewrite !merged_out_eq. cbn [mjoin list_join]. rewrite join_app.
  apply merged_list_ext.
  - intros k Hk. by rewrite !last_raw_app, last_raw_merged.
  - intros k n Hk Hn. by rewrite !last_intent_app, last_intent_merged.
Qed.

Lemma pure_foldl_true l :
  forallb (fun p => isBlockIndex (K p)) l = true -> l <> [] ->
  forall b, foldl pure_step (Some b) l = Some true.
Proof.
  induction l as [|p l IH]; [done|]. simpl. intros [Hp Hl]%andb_true_iff _ b. rewrite Hp.
  destruct l as [|q l]; [done|]. by apply IH.
Qed.
Lemma merged_out_keys chunks : map K (MergeBlockActions chunks) = block_keys.
Proof. unfold MergeBlockActions. by rewrite merged_out_eq, merged_list_keys. Qed.
Lemma block_keys_spec k :
  k ∈ block_keys <-> k = IndexScenario \/ (IndexLightStart <= k <= IndexSecurityOutlets).
Proof.
  unfold block_keys. rewrite elem_of_cons, elem_of_app, elem_of_seqZ, list_elem_of_singleton.
  unfold IndexLightStart, IndexSecurityOutlets. lia.
Qed.
Lemma last_value_elem l k v : last_value l k = Some v -> mkKV k v ∈ l.
Proof.
  unfold last_value. intros (p & -> & Hp)%last_Some_elem_of%list_elem_of_fmap.
  apply list_elem_of_filter in Hp as [<- Hp]. by destruct p.
Qed.

(** A merged action is again a pure light block, the only kind that is
    coalesced, and is already complete: expanding it on delivery leaves it as
    it is. *)
Lemma merge_block_closed (chunks : list (list ExchangeKV)) :
  IsPureBlockAction (MergeBlockActions chunks) = true /\
  ExpandLegacyScenarioBlock (MergeBlockActions chunks) = MergeBlockActions chunks.
Proof.
  split.
  - unfold MergeBlockActions, IsPureBlockAction. rewrite merged_out_eq. unfold merged_list.
    cbn [foldl]. change (pure_step (Some false) (mkKV IndexScenario "1")) with (Some false).
    rewrite foldl_app, pure_foldl_true; [reflexivity| |done].
    apply forallb_elem. intros p (k & -> & Hk)%list_elem_of_fmap. by apply block_index_elem.
  - pose proof (merged_out_keys chunks) as HK. pose proof block_keys_NoDup as Hnd.
    set (out := MergeBlockActions chunks) in *.
    assert (existsb is_light_shutter out = true) as HE.
    { apply existsb_elem. assert (605 ∈ map K out) as (p & Hp & Hin)%list_elem_of_fmap.
      { rewrite HK. apply block_keys_spec. unfold IndexLightStart, IndexSecurityOutlets. lia. }
      exists p. split; [done|]. unfold is_light_shutter. by rewrite <-Hp. }
    unfold ExpandLegacyScenarioBlock. rewrite HE. cbn [negb]. apply block_ext.
    + unfold sort_by_K. rewrite merge_sort_Permutation. apply map_to_list_NoDup_K.
    + by rewrite HK.
    + apply sort_by_K_sorted.
    + apply StronglySorted_map_K. rewrite HK. apply block_keys_sorted.
    + intros p. rewrite elem_of_sort_map, expanded_index_lookup. unfold expanded_value. split.
      * destruct (last_value out (K p)) as [v|] eqn:E.
        { intros [= ->]. apply last_value_elem in E. by destruct p. }
        apply last_value_None in E. rewrite HK, block_keys_spec in E.
        destruct (K p =? IndexScenario) eqn:E1; [lia|].
        destruct (_ && _) eqn:E2; [lia|done].
      * intros Hp. rewrite (last_value_NoDup _ _); [done|by rewrite HK|done].
Qed.

(** ** Chunking, filtering and key lists *)

Lemma chunk_loop_spec {A} (params : list A) max fuel i :
  (0 < max)%nat -> (length params - i <= fuel)%nat -> (i <= length params)%nat ->
  mjoin (chunk_loop fuel params max i) = drop i params /\
  Forall (fun c => 0 < length c <= max)%nat (chunk_loop fuel params max i).
Proof.
  intros Hmax. revert i. induction fuel as [|fuel IH]; intros i Hf Hi.
  - simpl. rewrite drop_ge by lia. done.
  - cbn [chunk_loop]. destruct (Nat.ltb_spec i (length params)) as [Hlt|].
    2:{ rewrite drop_ge by lia. done. }
    destruct (decide (i + max <= length params)%nat) as [Hle|Hgt].
    + rewrite Nat.min_l by done. destruct (IH (i + max)%nat) as [H1 H2]; [lia..|].
      replace (i + max - i)%nat with max by lia. split.
      * change (take max (drop i params) ++ mjoin (chunk_loop fuel params max (i + max))
          = drop i params). rewrite H1.
        rewrite <-drop_drop. apply take_drop.
      * constructor; [|done]. rewrite length_take, length_drop. lia.
    + rewrite Nat.min_r by lia.
      assert (chunk_loop fuel params max (i + max) = []) as ->.
      { destruct fuel; [done|]. simpl. by destruct (Nat.ltb_spec (i + max) (length params)); [lia|]. }
      simpl. rewrite app_nil_r, take_ge by (rewrite length_drop; lia). split; [done|].
      constructor; [rewrite length_drop; lia|done].
Qed.

(** [ChunkExchangeParams] is total and loses nothing: the chunks put back
    together are the parameters in their order, no chunk is empty, and with a
    positive limit no chunk is longer than the limit (30 for the firmware). *)
Lemma chunk_params_spec (params : list ExchangeKV) (max : Z) :
  mjoin (ChunkExchangeParams params max) = params /\
  Forall (fun c => c <> [] /\ (0 < max -> Z.of_nat (length c) <= max))
    (ChunkExchangeParams params max).
Proof.
  unfold ChunkExchangeParams.
  destruct ((max <=? 0) || (Z.of_nat (length params) <=? max)) eqn:E.
  - destruct params as [|p params]; [done|]. cbn [length Nat.eqb]. split; [apply app_nil_r|].
    constructor; [|done]. split; [done|]. intros Hm. cbn [length] in *. lia.
  - destruct (chunk_loop_spec params (Z.to_nat max) (length params) 0) as [H1 H2]; [lia..|].
    rewrite H1. split; [done|]. eapply Forall_impl; [exact H2|]. simpl. intros c Hc.
    split; [|lia]. intros ->. simpl in Hc. lia.
Qed.

Lemma index_of_from (m : gmap Z string) l k :
  foldl (fun m p => <[K p := V p]> m) m l !! k =
  match last_value l k with Some v => Some v | None => m !! k end.
Proof.
  unfold last_value. induction l as [|p l IH] using rev_ind; [done|].
  rewrite foldl_app, filter_app, map_app. cbn [foldl].
  destruct (decide (K p = k)) as [<-|Hn].
  - rewrite lookup_insert_eq, filter_cons_True, filter_nil by done. simpl. by rewrite last_snoc.
  - rewrite lookup_insert_ne, filter_cons_False, filter_nil by done. simpl.
    by rewrite app_nil_r.
Qed.

Lemma merge_keys_eq (primary secondary : list ExchangeKV) (requested : list Z) :
  requested <> [] ->
  MergeExchangeKeys primary secondary requested =
  omap (fun k =>
    v ← (match last_value primary k with Some v => Some v | None => last_value secondary k end);
    Some (mkKV k v)) requested.
Proof.
  destruct requested as [|k ks]; [done|]. intros _. unfold MergeExchangeKeys. cbn [length Nat.eqb].
  apply omap_ext_list. intros i. rewrite !index_of_from.
  by destruct (last_value primary i), (last_value secondary i).
Qed.
Lemma last_filter_const (v : string) l k :
  (forall p, p ∈ l -> K p = k -> V p = v) -> (exists p, p ∈ l /\ K p = k) ->
  last (map V (base.filter (fun p => K p = k) l)) = Some v.
Proof.
  intros Hall (p & Hp & HK). destruct (last (map V (base.filter (fun p => K p = k) l))) as [u|] eqn:E.
  - apply last_Some_elem_of in E as (q & -> & Hq)%list_elem_of_fmap.
    apply list_elem_of_filter in Hq as [HKq Hq]. f_equal. by apply Hall.
  - apply last_None, map_eq_nil in E.
    by apply (filter_nil_not_elem_of (fun q => K q = k) l p) in E.
Qed.

(** [MergeExchangeKeys] answers the requested keys in the requested order:
    the last value of the primary list, or else the last value of the
    secondary list; a key in neither is left out, and nothing else is
    returned.  With no request both lists are returned whole. *)
Lemma merge_exchange_keys_spec (primary secondary : list ExchangeKV) (requested : list Z) :
  MergeExchangeKeys primary secondary requested =
  match requested with
  | [] => secondary ++ primary
  | _ => omap (fun k =>
           v ← (match last_value primary k with Some v => Some v | None => last_value secondary k end);
           Some (mkKV k v)) requested
  end.
Proof.
  destruct requested as [|k ks]; [done|]. by apply merge_keys_eq.
Qed.

Lemma trim_blank_num l : forallb num_char l = true -> trim_blank_left l = l.
Proof.
  destruct l as [|c l]; [done|]. simpl. intros [Hc _]%andb_true_iff.
  destruct (is_blank c) eqn:E; [|done]. unfold num_char, is_digit, is_blank in *. lia.
Qed.
Lemma forallb_rev {A} (f : A -> bool) l : forallb f (rev l) = forallb f l.
Proof.
  induction l as [|a l IH]; [done|]. simpl. rewrite forallb_app, IH. simpl.
  rewrite andb_true_r. apply andb_comm.
Qed.
Lemma trimSpace_num l : forallb num_char l = true -> trimSpace l = l.
Proof.
  intros Hl. unfold trimSpace. rewrite (trim_blank_num l), trim_blank_num, rev_involutive; [done| |done].
  by rewrite forallb_rev.
Qed.
Lemma num_char_comma l : forallb num_char l = true -> comma ∉ l.
Proof. rewrite forallb_elem. intros H Hc. by apply H in Hc. Qed.
Lemma splitComma_nums ks : ks <> [] ->
  splitComma (Join (map Itoa ks) comma) = map Itoa ks.
Proof.
  intros Hne. unfold splitComma, Join. rewrite bytes_str.
  rewrite split_join.
  - rewrite !map_map. rewrite (map_ext_in _ (fun z => bytes (Itoa z))).
    2:{ intros z _. apply trimSpace_num, Itoa_chars. }
    rewrite filter_all.
    + rewrite map_map. apply map_ext. intros z. apply str_bytes.
    + intros l (z & -> & _)%list_elem_of_fmap. apply Itoa_nonempty.
  - by destruct ks.
  - rewrite map_map. apply Forall_forall. intros l (z & -> & _)%list_elem_of_fmap.
    apply num_char_comma, Itoa_chars.
Qed.

(** The [keys] query parameter round-trips: a comma-separated list of
    printed indices is read back as the same indices, in order. *)
Lemma parse_key_list_roundtrip (ks : list Z) :
  ks <> [] -> Forall (fun k => in_int64 k = true) ks ->
  ParseKeyList (Join (map Itoa ks) comma) = Ok ks.
Proof.
  intros Hne Hks. unfold ParseKeyList. rewrite splitComma_nums by done.
  destruct (is_empty _) eqn:E.
  { apply is_empty_spec in E. exfalso. pose proof (splitComma_nums ks Hne) as H. rewrite E in H.
    by destruct ks. }
  clear Hne E. induction Hks as [|k ks Hk Hks IH]; [done|]. simpl.
  rewrite Sscanf_d_Itoa by done. by rewrite IH.
Qed.

(** ** Commands without raw values

    [final_intent] also tells an untouched lamp ([None]) from one switched off. *)
Definition final_intent (k n : Z) (ps : list ExchangeKV) : option bool :=
  last (omap (intent k n) ps).
Definition numeric_kv (p : ExchangeKV) : bool :=
  negb (isBlockIndex (K p)) || match Atoi (V p) with Some _ => true | None => false end.
Definition numeric_block (ps : list ExchangeKV) : bool := forallb numeric_kv ps.

Lemma intent_opposite k o n p : opposite_of k = Some o -> numeric_kv p = true ->
  intent o n p = negb <$> intent k n p.
Proof.
  intros Ho Hn. destruct (opposite_block _ _ Ho) as (Hk & Hbo & Hne).
  pose proof (opposite_sym _ _ Ho) as Ho'.
  destruct (isBlockIndex (K p)) eqn:Hb.
  2:{ unfold intent. by rewrite Hb. }
  unfold numeric_kv in Hn. rewrite Hb in Hn. simpl in Hn.
  destruct (Atoi (V p)) as [m|] eqn:Hv; [|done].
  destruct (decide (K p = k)) as [E|E]; [|destruct (decide (K p = o)) as [E'|E']].
  - rewrite (intent_own k _ _ m), (intent_other o o _ _ m) by congruence.
    rewrite bool_decide_eq_true_2 by done. by destruct (Z.testbit m n).
  - rewrite (intent_own o _ _ m), (intent_other k k _ _ m) by congruence.
    rewrite bool_decide_eq_true_2 by done. by destruct (Z.testbit m n).
  - destruct (opposite_total _ Hb) as [q Hq].
    rewrite !(intent_other _ q _ _ m) by congruence.
    assert (q <> k). { intros ->. apply opposite_sym in Hq. congruence. }
    assert (q <> o). { intros ->. apply opposite_sym in Hq. congruence. }
    by rewrite !bool_decide_eq_false_2 by done.
Qed.
Lemma final_intent_snoc k n ps p :
  final_intent k n (ps ++ [p]) =
  match intent k n p with Some b => Some b | None => final_intent k n ps end.
Proof. apply last_omap_snoc. Qed.
Lemma numeric_block_app l1 l2 : numeric_block (l1 ++ l2) = numeric_block l1 && numeric_block l2.
Proof. apply forallb_app. Qed.
Lemma final_intent_cases k o n ps : opposite_of k = Some o -> numeric_block ps = true ->
  final_intent k n ps =
  if last_intent k n ps then Some true else if last_intent o n ps then Some false else None.
Proof.
  intros Ho Hn. assert (final_intent o n ps = negb <$> final_intent k n ps) as Hneg.
  { induction ps as [|p ps IH] using rev_ind; [done|].
    rewrite numeric_block_app in Hn. apply andb_true_iff in Hn as [Hn Hp].
    simpl in Hp. rewrite andb_true_r in Hp.
    rewrite !final_intent_snoc, (intent_opposite k o) by done.
    destruct (intent k n p); [done|]. by apply IH. }
  unfold last_intent. fold (final_intent k n ps). fold (final_intent o n ps). rewrite Hneg.
  by destruct (final_intent k n ps) as [[]|].
Qed.
Lemma last_raw_numeric k ps : numeric_block ps = true -> last_raw k ps = None.
Proof.
  induction ps as [|p ps IH] using rev_ind; [done|]. rewrite numeric_block_app.
  intros [Hn Hp]%andb_true_iff. simpl in Hp. rewrite andb_true_r in Hp.
  rewrite last_raw_snoc, IH by done. unfold raw_intent, numeric_kv in *.
  destruct (isBlockIndex (K p)); [|done]. simpl in *. destruct (K p =? k); [|done].
  destruct (Atoi (V p)) as [m|]; [|done]. by destruct (m =? 0).
Qed.
Lemma merged_numeric ps : numeric_block ps = true -> numeric_block (merged_list (replay ps)) = true.
Proof.
  intros Hn. apply forallb_elem. intros p Hp. unfold numeric_kv.
  destruct (isBlockIndex (K p)) eqn:Hb; [|done]. simpl.
  rewrite (merged_elem _ _ Hp Hb), merged_value_num; [done|by apply last_raw_numeric|done].
Qed.
Lemma final_intent_merged k n ps : isBlockIndex k = true -> 0 <= n -> numeric_block ps = true ->
  final_intent k n (merged_list (replay ps)) = final_intent k n ps.
Proof.
  intros Hk Hn Hnum. destruct (opposite_total _ Hk) as [o Ho].
  destruct (opposite_block _ _ Ho) as (_ & Hbo & _).
  rewrite !(final_intent_cases k o) by (done || by apply merged_numeric).
  by rewrite !last_intent_merged.
Qed.
Lemma final_intent_app k n l1 l2 :
  final_intent k n (l1 ++ l2) =
  match final_intent k n l2 with Some b => Some b | None => final_intent k n l1 end.
Proof. unfold final_intent. rewrite omap_app, last_app. by destruct (last (omap (intent k n) l2)). Qed.
