(* ===== verification/Scenario.v ===== *)
(** * Scenarios: slots, definitions, launch and presets

    Models [internal/domain/scenario/]: eight slots of 41 parameters in the
    exchange table from index 592, slot 1 reserved for the server. *)
From S2P Require Import Prelude GoStr Exchange.
#[global] Open Scope Z_scope.

Definition IndexTrigger : Z := 590.
Definition IndexLastLaunched : Z := 591.
Definition Scenario1Base : Z := 592.
Definition ParamCount : Z := 41.
Definition SlotCount : Z := 8.
Definition SlotLastEnd : Z := 919.
Definition OffsetEfface : Z := 40.
Definition ErrSlot1ServerReserved : err := Sentinel "scenario: slot 1 is server-reserved".
Definition DefaultSlotLabels : gmap Z string :=
  list_to_map [(1, "Réservé serveur"); (2, "Je sors"); (3, "Je pars en vacances");
    (4, "Je rentre"); (5, "Je vais me coucher"); (6, "Je me lève");
    (7, "Personnalisé 1"); (8, "Personnalisé 2")].
Definition PresetEffaceValue : gmap Z string :=
  list_to_map [(2, "2"); (3, "3"); (4, "4"); (5, "5"); (6, "6")].

(** ** slot.go *)
Definition SlotBaseIndex (slot : Z) : res err Z :=
  if (slot <? 1) || (slot >? SlotCount)
  then Fail (Errorf "scenario: slot out of range: %d" [AInt slot])
  else Ok (Scenario1Base + (slot - 1) * ParamCount).
Definition SlotRange (slot : Z) : res err (Z * Z) :=
  base ← SlotBaseIndex slot; Ok (base, base + ParamCount - 1).
Definition SlotFromIndex (index : Z) : option Z :=
  if (index <? Scenario1Base) || (index >? SlotLastEnd) then None
  else
    let offset := index - Scenario1Base in
    let slot := Z.quot offset ParamCount + 1 in
    if (slot <? 1) || (slot >? SlotCount) then None
    else
      let base := default 0 (res_value (SlotBaseIndex slot)) in
      if (index <? base) || (index >=? base + ParamCount) then None else Some slot.
Definition AbsoluteIndex (slot offset : Z) : res err Z :=
  if (offset <? 0) || (offset >=? ParamCount)
  then Fail (Errorf "scenario: offset out of range: %d" [AInt offset])
  else base ← SlotBaseIndex slot; Ok (base + offset).

(** ** actions.go *)
Definition LaunchParams (slot : Z) : res err (list ExchangeKV) :=
  if (slot <? 2) || (slot >? SlotCount)
  then Fail (Errorf "scenario: launch slot must be 2–8, got %d" [AInt slot])
  else Ok [mkKV IndexTrigger (Itoa slot)].
Definition RestorePresetParams (slot : Z) : res err (list ExchangeKV) :=
  if (slot <? 2) || (slot >? 6)
  then Fail (Errorf "scenario: restore preset supported for slots 2–6, got %d" [AInt slot])
  else match PresetEffaceValue !! slot with
       | None => Fail (Errorf "scenario: no preset efface value for slot %d" [AInt slot])
       | Some efface => idx ← AbsoluteIndex slot OffsetEfface; Ok [mkKV idx efface]
       end.
(** One round of the loop of [ValidateDefinition]. *)
Definition validate_param (slot first last : Z) (p : Z * string) : res err unit :=
  let '(k, v) := p in
  if (k <? first) || (k >? last)
  then Fail (Errorf "scenario: index %d outside slot %d range [%d-%d]"
               [AInt k; AInt slot; AInt first; AInt last])
  else match Atoi v with
       | None => Fail (Errorf "scenario: index %d value not numeric: %q" [AInt k; AStr v])
       | Some n => if (n <? 0) || (n >? 255)
                   then Fail (Errorf "scenario: index %d value out of byte range: %d" [AInt k; AInt n])
                   else Ok tt
       end.
Fixpoint validate_params (slot first last : Z) (ps : list (Z * string)) : res err unit :=
  match ps with
  | [] => Ok tt
  | p :: ps => _ ← validate_param slot first last p; validate_params slot first last ps
  end.
(** The order of the [range] over the map only chooses which error is reported. *)
Definition ValidateDefinition (slot : Z) (params : gmap Z string) : res err unit :=
  '(first, last) ← SlotRange slot;
  validate_params slot first last (map_to_list params).
Definition WriteDefinitionChunks (slot : Z) (params : gmap Z string)
    : res err (list (list ExchangeKV)) :=
  _ ← ValidateDefinition slot params;
  if slot =? 1 then Fail ErrSlot1ServerReserved else
  '(first, last) ← SlotRange slot;
  let kvs := map (fun i => mkKV i (default "0" (params !! i))) (seqZ first (last - first + 1)) in
  Ok (ChunkExchangeParams kvs MaxFirmwareParamsPerAction).

(** ** bitmasks.go *)
Record BitmaskBit := mkBit { Bit : Z; Value : Z; BitLabel : string }.
Record BitmaskField := mkBitmask { BM_Index : Z; BM_Name : string; BM_Bits : list BitmaskBit }.
Definition chambers : list BitmaskBit :=
  [mkBit 0 1 "Escalier"; mkBit 1 2 "Gr. chambre 1"; mkBit 2 4 "Gr. chambre 2";
   mkBit 3 8 "Pet. chambre 1-1"; mkBit 4 16 "Pet. chambre 1-2";
   mkBit 5 32 "Pet. chambre 2"; mkBit 6 64 "Pet. chambre 3"].
Definition shutters_PDV : list BitmaskBit :=
  [mkBit 0 1 "Salon 1"; mkBit 1 2 "Salon 2"; mkBit 2 4 "Salon 3";
   mkBit 3 8 "SAM 1"; mkBit 4 16 "SAM 2"; mkBit 5 32 "Bureau"].
Definition BitmaskMeta : list BitmaskField :=
  [mkBitmask 605 "Eteindre_PDV_LSB"
     [mkBit 0 1 "Entrée"; mkBit 1 2 "Salon 1"; mkBit 2 4 "Salon 2";
      mkBit 3 8 "Dressing 1"; mkBit 4 16 "Dressing 2"];
   mkBitmask 606 "Eteindre_PDV_MSB"
     [mkBit 5 32 "Var. bureau"; mkBit 6 64 "Var. salle à manger"; mkBit 7 128 "Var. salon"];
   mkBitmask 607 "Eteindre_CHB_LSB" chambers;
   mkBitmask 613 "Allumer_CHB_LSB" chambers;
   mkBitmask 617 "OuvrirVolets_PDV" shutters_PDV;
   mkBitmask 620 "FermerVolets_PDV" shutters_PDV].

(** ** Lemmas *)
Lemma SlotBaseIndex_Ok slot b :
  SlotBaseIndex slot = Ok b <-> 1 <= slot <= 8 /\ b = 592 + (slot - 1) * 41.
Proof.
  unfold SlotBaseIndex, SlotCount, Scenario1Base, ParamCount.
  destruct (_ || _) eqn:E; split.
  - done.
  - lia.
  - intros [= <-]. lia.
  - intros [_ ->]. done.
Qed.
Lemma SlotRange_Ok slot a b :
  SlotRange slot = Ok (a, b) <-> 1 <= slot <= 8 /\ a = 592 + (slot - 1) * 41 /\ b = a + 40.
Proof.
  unfold SlotRange. rewrite res_bind_Ok. setoid_rewrite SlotBaseIndex_Ok. unfold ParamCount. split.
  - intros (base & [Hs ->] & [= <- <-]). lia.
  - intros (Hs & -> & ->). eexists. split; [split; [done|reflexivity]|]. f_equal. f_equal. lia.
Qed.
Lemma SlotFromIndex_Some i s :
  SlotFromIndex i = Some s <-> 1 <= s <= 8 /\ 592 + (s - 1) * 41 <= i <= 592 + (s - 1) * 41 + 40.
Proof.
  unfold SlotFromIndex, Scenario1Base, SlotLastEnd, ParamCount, SlotCount.
  destruct ((i <? 592) || (i >? 919)) eqn:E1; [split; [done|lia]|].
  assert (0 <= i - 592) as Hi by lia. rewrite Z.quot_div_nonneg by lia.
  pose proof (Z.div_mod (i - 592) 41 ltac:(lia)) as Hdm.
  pose proof (Z.mod_pos_bound (i - 592) 41 ltac:(lia)) as Hmb.
  set (q := (i - 592) / 41) in *.
  destruct ((q + 1 <? 1) || (q + 1 >? 8)) eqn:E2; [lia|].
  assert (SlotBaseIndex (q + 1) = Ok (592 + q * 41)) as ->.
  { apply SlotBaseIndex_Ok. lia. }
  cbn [res_value default from_option id].
  destruct_if E3; [lia|].
  split; [intros [= Hs]; lia|]. intros H. f_equal. lia.
Qed.
Lemma validate_params_Ok slot a b ps :
  validate_params slot a b ps = Ok tt <-> Forall (fun p => validate_param slot a b p = Ok tt) ps.
Proof.
  induction ps as [|p ps IH]; simpl; [by rewrite Forall_nil|].
  rewrite res_bind_Ok, Forall_cons, <-IH. split.
  - by intros ([] & ? & ?).
  - intros [? ?]. by exists tt.
Qed.
Lemma validate_param_Ok slot a b k v :
  validate_param slot a b (k, v) = Ok tt <->
  a <= k <= b /\ exists n, Atoi v = Some n /\ 0 <= n <= 255.
Proof.
  unfold validate_param. destruct ((k <? a) || (k >? b)) eqn:E.
  { split; [done|lia]. }
  destruct (Atoi v) as [n|]; [|split; [done|by intros (_ & ? & ? & _)]].
  destruct ((n <? 0) || (n >? 255)) eqn:E2; split; try done.
  - intros (_ & m & [= ->] & ?). lia.
  - intros _. split; [lia|]. exists n. split; [done|lia].
Qed.
Lemma ValidateDefinition_Ok slot params :
  ValidateDefinition slot params = Ok tt <->
  1 <= slot <= 8 /\
  forall k v, params !! k = Some v ->
    592 + (slot - 1) * 41 <= k <= 592 + (slot - 1) * 41 + 40 /\
    exists n, Atoi v = Some n /\ 0 <= n <= 255.
Proof.
  unfold ValidateDefinition. rewrite res_bind_Ok. split.
  - intros ([a b] & [Hs [-> ->]]%SlotRange_Ok & Hv). split; [done|].
    intros k v Hk%elem_of_map_to_list. apply validate_params_Ok in Hv.
    rewrite Forall_forall in Hv. by apply Hv, validate_param_Ok in Hk.
  - intros [Hs Hv]. eexists (_, _). split; [by apply SlotRange_Ok|].
    apply validate_params_Ok, Forall_forall. intros [k v] Hk%elem_of_map_to_list.
    by apply validate_param_Ok, Hv.
Qed.

Lemma RestorePresetParams_preset slot : 2 <= slot <= 6 ->
  RestorePresetParams slot = Ok [mkKV (592 + (slot - 1) * 41 + OffsetEfface) (Itoa slot)].
Proof.
  intros Hs. assert (slot = 2 \/ slot = 3 \/ slot = 4 \/ slot = 5 \/ slot = 6) as Hc by lia.
  by destruct Hc as [-> | [-> | [-> | [-> | ->] ] ] ].
Qed.

(** ** Theorems *)

(** The slots partition the scenario table: an index lies in exactly the
    range of the slot [SlotFromIndex] answers, the eight ranges are disjoint,
    and together they are 592..919. *)
Lemma slot_partition :
  (forall i s, SlotFromIndex i = Some s <->
     exists a b, SlotRange s = Ok (a, b) /\ a <= i <= b) /\
  (forall i, is_Some (SlotFromIndex i) <-> Scenario1Base <= i <= SlotLastEnd) /\
  (forall slot offset i, AbsoluteIndex slot offset = Ok i <->
     SlotFromIndex i = Some slot /\ SlotBaseIndex slot = Ok (i - offset)).
Proof.
  split_and!.
  - intros i s. rewrite SlotFromIndex_Some. split.
    + intros [Hs Hi]. eexists _, _. split; [by apply SlotRange_Ok|]. lia.
    + intros (a & b & (Hs & -> & ->)%SlotRange_Ok & Hi). lia.
  - intros i. unfold Scenario1Base, SlotLastEnd. split.
    + intros [s Hs%SlotFromIndex_Some]. lia.
    + intros Hi. exists ((i - 592) / 41 + 1). apply SlotFromIndex_Some.
      pose proof (Z.div_mod (i - 592) 41 ltac:(lia)).
      pose proof (Z.mod_pos_bound (i - 592) 41 ltac:(lia)). lia.
  - intros slot offset i. unfold AbsoluteIndex, ParamCount.
    rewrite SlotFromIndex_Some, SlotBaseIndex_Ok.
    destruct ((offset <? 0) || (offset >=? 41)) eqn:E; [split; [done|lia]|].
    rewrite res_bind_Ok. setoid_rewrite SlotBaseIndex_Ok. split.
    + intros (base & [Hs ->] & [= <-]). lia.
    + intros [[Hs Hi] [_ Hb]]. exists (i - offset). split; [lia|]. f_equal. lia.
Qed.

(** Writing a scenario definition succeeds exactly for the slots 2..8 and
    parameters inside the slot with byte values; the 41 consecutive indices of
    the slot are then written, missing ones as "0", in two actions of 30 and 11
    parameters.  A valid definition of slot 1 is refused as server-reserved. *)
Lemma write_definition_spec (slot : Z) (params : gmap Z string) :
  let ok := 1 <= slot <= 8 /\
    forall k v, params !! k = Some v ->
      SlotFromIndex k = Some slot /\ exists n, Atoi v = Some n /\ 0 <= n <= 255 in
  (ok -> slot = 1 -> WriteDefinitionChunks slot params = Fail ErrSlot1ServerReserved) /\
  (ok -> slot <> 1 ->
     exists c1 c2, WriteDefinitionChunks slot params = Ok [c1; c2] /\
       length c1 = 30%nat /\ length c2 = 11%nat /\
       c1 ++ c2 = map (fun i => mkKV i (default "0" (params !! i)))
                    (seqZ (592 + (slot - 1) * 41) 41)) /\
  (~ ok -> exists e, WriteDefinitionChunks slot params = Fail e).
Proof.
  cbv zeta. setoid_rewrite SlotFromIndex_Some.
  assert ((1 <= slot <= 8 /\ (forall k v, params !! k = Some v ->
    (1 <= slot <= 8 /\ 592 + (slot - 1) * 41 <= k <= 592 + (slot - 1) * 41 + 40) /\
    exists n, Atoi v = Some n /\ 0 <= n <= 255)) <-> ValidateDefinition slot params = Ok tt) as ->.
  { rewrite ValidateDefinition_Ok. split; intros [Hs Hp]; (split; [exact Hs|]); intros k v Hk;
      [by destruct (Hp k v Hk) as [[_ ?] ?]|by destruct (Hp k v Hk) as [? ?] ]. }
  unfold WriteDefinitionChunks. split_and!.
  - intros -> ->. done.
  - intros Hv Hs. rewrite Hv. cbn [mbind res_bind]. rewrite (proj2 (Z.eqb_neq _ _)) by done.
    apply ValidateDefinition_Ok in Hv as [Hr _].
    rewrite (proj2 (SlotRange_Ok slot (592 + (slot - 1) * 41) (592 + (slot - 1) * 41 + 40))) by lia.
    cbn [mbind res_bind]. set (b := 592 + (slot - 1) * 41).
    replace (b + 40 - b + 1) with 41 by lia.
    set (kvs := map _ _). assert (length kvs = 41%nat) as Hlen.
    { unfold kvs. rewrite length_map, length_seqZ. done. }
    eexists (take 30 kvs), (drop 30 kvs).
    assert (ChunkExchangeParams kvs MaxFirmwareParamsPerAction = [take 30 kvs; drop 30 kvs]) as ->.
    { unfold ChunkExchangeParams. rewrite Hlen. unfold MaxFirmwareParamsPerAction. simpl Z.leb.
      change (Z.to_nat 30) with 30%nat. cbn [chunk_loop orb]. rewrite Hlen. cbn.
      change (Z.of_nat 41 <=? 30) with false. cbv iota.
      rewrite drop_0, (take_ge (drop 30 kvs)); [done|]. rewrite length_drop. lia. }
    split; [done|]. rewrite length_take, length_drop, Hlen. split_and!; [done..|]. apply take_drop.
  - intros Hn. destruct (ValidateDefinition slot params) as [[]|e]; [done|]. by exists e.
Qed.

(** Launching writes only the trigger 590 with the slot number, and only
    for slots 2..8; restoring writes only the [Efface] parameter inside the
    slot itself, and only for the presets 2..6; every other slot is an error. *)
Lemma launch_restore_spec (slot : Z) :
  (LaunchParams slot = if (2 <=? slot) && (slot <=? 8) then Ok [mkKV 590 (Itoa slot)]
    else Fail (Errorf "scenario: launch slot must be 2–8, got %d" [AInt slot])) /\
  (match RestorePresetParams slot with
   | Ok ps => 2 <= slot <= 6 /\
       exists i, ps = [mkKV i (Itoa slot)] /\ SlotFromIndex i = Some slot /\
         SlotBaseIndex slot = Ok (i - OffsetEfface)
   | Fail _ => ~ 2 <= slot <= 6
   end).
Proof.
  split.
  - unfold LaunchParams, SlotCount. destruct (_ || _) eqn:E, (_ && _) eqn:E2; try lia; done.
  - destruct (decide (2 <= slot <= 6)) as [Hs|Hs].
    + rewrite RestorePresetParams_preset by done. split; [done|].
      eexists; split; [reflexivity|]. rewrite SlotFromIndex_Some, SlotBaseIndex_Ok.
      unfold OffsetEfface. lia.
    + unfold RestorePresetParams. destruct_if E; [done|lia].
Qed.

(** The bit-mask metadata of the user interface is consistent: each value
    is the power of two of its bit, fits a byte, and belongs to an index of the
    light and shutter block whose opposite exists. *)
Lemma bitmask_meta_consistent :
  forall f b, f ∈ BitmaskMeta -> b ∈ BM_Bits f ->
    Value b = Z.shiftl 1 (Bit b) /\ 0 < Value b <= 128 /\
    isBlockIndex (BM_Index f) = true /\ is_Some (OppositeBlockIndex (BM_Index f)).
Proof.
  assert (Forall (fun f => isBlockIndex (BM_Index f) = true /\
      Forall (fun b => Value b = Z.shiftl 1 (Bit b) /\ 0 < Value b <= 128) (BM_Bits f)) BitmaskMeta)
    as HF by (apply (bool_decide_unpack _); vm_compute; exact I).
  intros f b Hf Hb. rewrite Forall_forall in HF. destruct (HF f Hf) as [H1 H2].
  rewrite Forall_forall in H2. destruct (H2 b Hb) as [H3 H4]. split_and!; [done|lia|lia|done|].
  unfold OppositeBlockIndex. rewrite blockOpposite_eq. destruct (opposite_total _ H1) as [o ->]. eauto.
Qed.
