(* ===== verification/Accounts.v ===== *)
(** * Accounts, links, tokens and remembered sessions: the domain types

    Models [internal/domain/]: [user.go], [auth.go], [user_links.go],
    [gateway.go], [password_reset.go], [remember_session.go],
    [portal_session.go] and the records of [models.go].  A time is its number
    of nanoseconds since the zero [time.Time]; a duration is in nanoseconds. *)
From S2P Require Import Prelude GoStr Exchange.
#[global] Open Scope Z_scope.

(** ** Time *)
Definition Time := Z.
Definition Duration := Z.
Definition Millisecond : Duration := 1000000.
Definition Second : Duration := 1000 * Millisecond.
Definition Minute : Duration := 60 * Second.
Definition Hour : Duration := 60 * Minute.
Definition IsZero (t : Time) : bool := t =? 0.
Definition After (t u : Time) : bool := u <? t.
Definition Before (t u : Time) : bool := t <? u.
(** [t.Sub(u)] saturates at the bounds of a 64-bit duration. *)
Definition Sub (t u : Time) : Duration := Z.max int64_min (Z.min int64_max (t - u)).
Definition Truncate (t : Time) (d : Duration) : Time := t - t mod d.

(** ** Roles and users: domain/user.go *)
Definition RoleAdminGlobal : string := "admin_global".
Definition RoleAdminLocal : string := "admin_local".
Definition RoleUser : string := "user".
Definition RoleGuestLocal : string := "guest_local".
Definition RoleSupport : string := "support".
Definition ProviderEmail : string := "email".
Definition ProviderGoogle : string := "google".
Definition ProviderApple : string := "apple".

Record User := mkUser {
  U_ID : Z; U_Email : string; U_PasswordHash : string; U_Role : string;
  U_FirstName : string; U_LastName : string;
  U_Provider : string; U_ProviderID : string;
  U_CreatedAt : Time; U_LastLogin : Time; U_ForbiddenAt : option Time;
  U_LinkedMachineID : option Z; U_LinkedGatewayID : option string; U_LinkedArmoireID : option Z;
  U_PasswordChangeRequiredAt : option Time; U_TempPasswordExpiresAt : option Time;
  U_TempPasswordIssuedBy : option Z }.

Record UserResponse := mkUserResponse {
  UR_ID : Z; UR_Email : string; UR_Role : string; UR_FirstName : string; UR_LastName : string;
  UR_Provider : string; UR_LinkedMachineID : option Z; UR_LinkedGatewayID : option string;
  UR_LinkedArmoireID : option Z }.
Definition UserToResponse (u : option User) : UserResponse :=
  match u with
  | None => mkUserResponse 0 "" "" "" "" "" None None None
  | Some u => mkUserResponse (U_ID u) (U_Email u) (U_Role u) (U_FirstName u) (U_LastName u)
                (U_Provider u) (U_LinkedMachineID u) (U_LinkedGatewayID u) (U_LinkedArmoireID u)
  end.

(** ** domain/auth.go *)
Definition ForbiddenRedirectPath : string := "/maintenance/".
Definition ChangePasswordRedirectPath : string := "/change-password".
Definition IsUserForbidden (u : option User) : bool :=
  match u with Some u => bool_decide (U_ForbiddenAt u <> None) | None => false end.
Definition PasswordChangeRequired (u : option User) : bool :=
  match u with Some u => bool_decide (U_PasswordChangeRequiredAt u <> None) | None => false end.
Definition TempPasswordExpired (u : option User) (now : Time) : bool :=
  match u with
  | Some u => match U_TempPasswordExpiresAt u with Some t => After now t | None => false end
  | None => false
  end.

(** ** domain/gateway.go and domain/user_links.go *)
Definition RemoteIneligibleGatewayHost : string := "essensys-server".
Definition NormalizeGatewayHost (gatewayID : string) : string :=
  TrimPrefix (TrimSpace (ToLower gatewayID)) "gw-".
Definition IsRemoteEligibleGateway (gatewayID : option string) : bool :=
  match gatewayID with
  | None => false
  | Some g => if is_empty g then false
              else negb (seqb (NormalizeGatewayHost g) RemoteIneligibleGatewayHost)
  end.
Definition RemoteBlockedMessage : string :=
  "essensys-server ne supporte pas le portail distant mon.essensys.fr — liaison armoire et serveur cloud interdites".

Definition LinkModeArmoireDirect : string := "armoire".
Definition LinkModeGateway : string := "gateway".
Definition LinkModeServerLegacy : string := "server".
Definition has_gateway (gatewayID : option string) : bool :=
  match gatewayID with Some g => negb (is_empty (TrimSpace g)) | None => false end.
Definition is_some {A} (o : option A) : bool := match o with Some _ => true | None => false end.

Definition ResolveUserLinkMode (machineID : option Z) (gatewayID : option string)
    (armoireID : option Z) : string :=
  if has_gateway gatewayID then
    if negb (IsRemoteEligibleGateway gatewayID) then LinkModeServerLegacy else LinkModeGateway
  else if is_some machineID || is_some armoireID then LinkModeArmoireDirect
  else "".
Definition UserPortalAccessEligible (machineID : option Z) (gatewayID : option string)
    (armoireID : option Z) : bool :=
  let mode := ResolveUserLinkMode machineID gatewayID armoireID in
  if seqb mode LinkModeServerLegacy then false
  else if seqb mode LinkModeGateway || seqb mode LinkModeArmoireDirect then is_some machineID
  else false.
Definition ValidateAdminUserLinks (machineID : option Z) (gatewayID : option string)
    (armoireID : option Z) : res err unit :=
  let hasGW := has_gateway gatewayID in
  let hasMachine := is_some machineID in
  let hasArmoire := is_some armoireID in
  if negb hasGW && negb hasMachine && negb hasArmoire then Ok tt
  else if hasGW && negb (IsRemoteEligibleGateway gatewayID) then
    if hasMachine || hasArmoire then Fail (Sentinel RemoteBlockedMessage) else Ok tt
  else if hasGW then
    if negb hasMachine
    then Fail (Sentinel "serveur cloud (machine_id) requis avec une gateway CM5") else Ok tt
  else if negb hasArmoire && negb hasMachine
  then Fail (Sentinel "sélectionnez une armoire (inventaire OVH) pour le mode armoire seule")
  else Ok tt.

(** ** domain/password_reset.go *)
Inductive PasswordResetTokenState :=
  | PasswordResetTokenValid | PasswordResetTokenExpired
  | PasswordResetTokenUsed | PasswordResetTokenInvalidated.
#[export] Instance PasswordResetTokenState_eq_dec : EqDecision PasswordResetTokenState.
Proof. solve_decision. Defined.
Record PasswordResetToken := mkResetToken {
  T_ID : Z; T_UserID : Z; T_TokenHash : string; T_ExpiresAt : Time;
  T_ConsumedAt : option Time; T_InvalidatedAt : option Time;
  T_RequestIP : option string; T_ConsumedIP : option string; T_CreatedAt : Time }.
Definition TokenState (t : option PasswordResetToken) (now : Time) : PasswordResetTokenState :=
  match t with
  | None => PasswordResetTokenInvalidated
  | Some t =>
      if is_some (T_ConsumedAt t) then PasswordResetTokenUsed
      else if is_some (T_InvalidatedAt t) then PasswordResetTokenInvalidated
      else if negb (After (T_ExpiresAt t) now) then PasswordResetTokenExpired
      else PasswordResetTokenValid
  end.
Definition TokenUsable (t : option PasswordResetToken) (now : Time) : bool :=
  bool_decide (TokenState t now = PasswordResetTokenValid).

(** ** domain/remember_session.go *)
Record RememberSession := mkRemember {
  RS_ID : Z; RS_UserID : Z; RS_TokenHash : string; RS_CreatedAt : Time; RS_ExpiresAt : Time;
  RS_LastUsedAt : option Time; RS_RevokedAt : option Time; RS_UserAgent : option string }.
Definition RememberUsable (s : option RememberSession) (now : Time) : bool :=
  match s with
  | Some s => negb (is_some (RS_RevokedAt s)) && Before now (RS_ExpiresAt s)
  | None => false
  end.

(** ** domain/portal_session.go *)
Definition OnlineTimeout : Duration := 2 * Minute.
Definition IsOnline (lastSeen now : Time) (timeout : Duration) : bool :=
  if IsZero lastSeen then false else Sub now lastSeen <=? timeout.
Record PortalUserInfo := mkPortalUser {
  PU_ID : Z; PU_Email : string; PU_FirstName : string; PU_LastName : string; PU_Role : string;
  PU_LinkedMachineID : option Z; PU_LinkedGatewayID : option string; PU_LinkedArmoireID : option Z }.
Record PortalGatewayInfo := mkPortalGateway {
  PG_ID : string; PG_Hostname : string; PG_IP : string; PG_Online : bool; PG_LastSeen : Time }.
Record PortalArmoireInfo := mkPortalArmoire {
  PA_ID : Z; PA_NoSerie : string; PA_IP : string; PA_LastSeen : Time; PA_GeoLocation : string;
  PA_Remote : bool; PA_Online : bool }.
Record PortalSessionResponse := mkPortalSession {
  PS_User : PortalUserInfo; PS_PortalAccess : bool;
  PS_Gateway : option PortalGatewayInfo; PS_Armoire : option PortalArmoireInfo }.
(** The fields of [domain.MachineDetail] the session uses. *)
Record MachineDetail := mkMachineDetail {
  MD_ID : Z; MD_NoSerie : string; MD_IP : string; MD_LastSeen : Time; MD_GeoLocation : string }.
Definition NewPortalSessionResponse (user : PortalUserInfo) (portalAccess : bool)
    (gateway : option PortalGatewayInfo) (armoire : option MachineDetail) (now : Time)
    : PortalSessionResponse :=
  mkPortalSession user portalAccess gateway
    (match armoire with
     | Some a =>
         if portalAccess then
           Some (mkPortalArmoire (MD_ID a) (MD_NoSerie a) (MD_IP a) (MD_LastSeen a)
                   (MD_GeoLocation a) true (IsOnline (MD_LastSeen a) now OnlineTimeout))
         else None
     | None => None
     end).

(** ** domain/models.go *)
Record LinkRequest := mkLinkRequest {
  LR_ID : Z; LR_UserID : Z; LR_MachineSerial : string; LR_Message : option string;
  LR_Status : string; LR_ReviewedBy : option string; LR_ReviewedAt : option Time;
  LR_CreatedAt : Time }.
Record CloudAction := mkCloudAction {
  CA_GUID : string; CA_UserID : Z; CA_MachineID : option Z; CA_Params : list ExchangeKV;
  CA_Status : string; CA_CreatedAt : Time }.
Record GatewaySession := mkGatewaySession {
  GS_GatewayID : string; GS_TokenHash : string; GS_MachineID : option Z;
  GS_Eth0MAC : option string; GS_Eth1MAC : option string; GS_LastSeen : option Time }.
Record UserProfile := mkUserProfile {
  UP_ID : Z; UP_Email : string; UP_Role : string; UP_FirstName : string; UP_LastName : string;
  UP_LinkedMachineID : option Z; UP_LinkedGatewayID : option string; UP_LinkedArmoireID : option Z }.
Definition LinkStatusPending : string := "pending".
Definition LinkStatusApproved : string := "approved".
Definition LinkStatusRejected : string := "rejected".
Definition ActionStatusPending : string := "pending".
Definition ActionStatusDelivered : string := "delivered".
Definition ActionStatusDone : string := "done".

(** ** Lemmas *)
Lemma is_some_spec {A} (o : option A) : is_some o = true <-> is_Some o.
Proof. destruct o; simpl; split; [eauto|done|done|by intros []]. Qed.
Lemma is_some_false {A} (o : option A) : is_some o = false <-> o = None.
Proof. by destruct o. Qed.
Lemma TokenUsable_spec t now :
  TokenUsable (Some t) now = true <->
  T_ConsumedAt t = None /\ T_InvalidatedAt t = None /\ now < T_ExpiresAt t.
Proof.
  unfold TokenUsable, TokenState, After. rewrite bool_decide_eq_true.
  destruct (T_ConsumedAt t), (T_InvalidatedAt t); simpl;
    [by split; [|intros (? & ? & ?)]..|].
  destruct (now <? T_ExpiresAt t) eqn:E; simpl; split.
  - intros _. split_and!; [done..|lia].
  - done.
  - done.
  - intros (_ & _ & ?). lia.
Qed.
Lemma RememberUsable_spec s now :
  RememberUsable (Some s) now = true <-> RS_RevokedAt s = None /\ now < RS_ExpiresAt s.
Proof.
  unfold RememberUsable, Before. destruct (RS_RevokedAt s); simpl.
  - by split; [|intros [? ?]].
  - rewrite Z.ltb_lt. by split; [|intros [? ?]].
Qed.

(** ** Theorems *)

(** The token states are exclusive and final in time order: a token is
    usable exactly while it is neither consumed nor invalidated and the clock
    is strictly before its expiry; once it is not usable it never becomes
    usable again as time passes. *)
Lemma reset_token_usable_window (t : PasswordResetToken) (now later : Time) :
  (TokenUsable (Some t) now = true <->
     T_ConsumedAt t = None /\ T_InvalidatedAt t = None /\ now < T_ExpiresAt t) /\
  (now <= later -> TokenUsable (Some t) now = false -> TokenUsable (Some t) later = false).
Proof.
  split; [apply TokenUsable_spec|]. intros Hle Hn.
  destruct (TokenUsable (Some t) later) eqn:E; [|done].
  apply TokenUsable_spec in E as (? & ? & ?).
  assert (TokenUsable (Some t) now = true); [|congruence].
  apply TokenUsable_spec. split_and!; [done..|lia].
Qed.

(** The links an administrator may save are exactly those that agree with
    portal access: an accepted link to the legacy server carries no cabinet
    and never opens the portal, an accepted gateway link always carries its
    machine and therefore opens the portal, and without a gateway the portal
    is open exactly when a machine is linked. *)
Lemma admin_links_portal_access (machineID : option Z) (gatewayID : option string)
    (armoireID : option Z) :
  ValidateAdminUserLinks machineID gatewayID armoireID = Ok tt ->
  let access := UserPortalAccessEligible machineID gatewayID armoireID in
  (has_gateway gatewayID = true -> IsRemoteEligibleGateway gatewayID = false ->
     machineID = None /\ armoireID = None /\ access = false) /\
  (has_gateway gatewayID = true -> IsRemoteEligibleGateway gatewayID = true ->
     is_Some machineID /\ access = true) /\
  (has_gateway gatewayID = false -> access = is_some machineID).
Proof.
  unfold ValidateAdminUserLinks, UserPortalAccessEligible, ResolveUserLinkMode.
  destruct (has_gateway gatewayID), (IsRemoteEligibleGateway gatewayID),
    machineID, armoireID; simpl; intros; split_and!; intros; try done; eauto.
Qed.
