(* ===== verification/Lights.v ===== *)
(** * Lights: custom names and automatic switch-off timers

    Models [internal/domain/lights_names.go] and [lights_timers.go]. *)
From S2P Require Import Prelude GoStr Exchange Accounts.
#[global] Open Scope Z_scope.

(** ** lights_names.go *)
Record LightNameEntry := mkLightName { LN_ID : string; LN_Default : string }.
Definition LightNameMaxRunes : Z := 40.
Definition LightNameMaxFuture : Duration := 5 * Minute.
Definition lightNameCatalog : list LightNameEntry :=
  [mkLightName "terrasse" "Terrasse";
   mkLightName "entree" "Entrée";
   mkLightName "escalier" "Escalier";
   mkLightName "deg1" "Dégagement 1";
   mkLightName "deg2" "Dégagement 2";
   mkLightName "pieceserv" "Pièce de service";
   mkLightName "ann1" "Annexe 1";
   mkLightName "ann2" "Annexe 2";
   mkLightName "salon" "Salon";
   mkLightName "sam" "Salle à Manger";
   mkLightName "cuisine" "Cuisine";
   mkLightName "sdb1" "Salle de Bain 1";
   mkLightName "sdb2" "Salle de Bain 2";
   mkLightName "wc1" "WC 1";
   mkLightName "wc2" "WC 2";
   mkLightName "bureau" "Bureau";
   mkLightName "gdchamb" "Grande Chambre";
   mkLightName "ptchamb1" "Petite Chambre 1";
   mkLightName "ptchamb2" "Petite Chambre 2";
   mkLightName "ptchamb3" "Petite Chambre 3";
   mkLightName "dressing" "Dressing";
   mkLightName "isalonind" "Salon (indirect 1)";
   mkLightName "isalonind2" "Salon (indirect 2)";
   mkLightName "icuisine" "Cuisine (plans de travail)";
   mkLightName "isdb1" "Salle de Bain 1 (miroir)";
   mkLightName "isdb2" "Salle de Bain 2 (miroir)";
   mkLightName "igdchamb1" "Grande Chambre (chevet 1)";
   mkLightName "igdchamb2" "Grande Chambre (chevet 2)";
   mkLightName "iptchamb1" "Petite Chambre 1 (chevet 1)";
   mkLightName "iptchamb2" "Petite Chambre 1 (chevet 2)";
   mkLightName "iptchamb22" "Petite Chambre 2 (chevet)";
   mkLightName "iptchamb3" "Petite Chambre 3 (chevet)";
   mkLightName "idressing" "Dressing (placards)"].
Definition LightNameCatalog : list LightNameEntry := lightNameCatalog.
Definition LightNameByID (id : string) : option LightNameEntry :=
  find (fun l => seqb (LN_ID l) id) lightNameCatalog.
Definition ErrLightName : err :=
  Sentinel "light name must be 1 to 40 characters, without control characters, '<' or '>'".
(** [Ok None] is the reset to the original name. *)
Definition NormalizeLightName (raw : string) : res err (option string) :=
  let s := TrimSpace raw in
  if is_empty s then Ok None
  else if (RuneCountInString s >? LightNameMaxRunes) || negb (ValidString s) then Fail ErrLightName
  else if existsb (fun rw => let r := rw.1 in
            (r <? 32) || (r =? 127) || (r =? 60) || (r =? 62)) (runes s)
  then Fail ErrLightName
  else Ok (Some s).
Record LightNameState := mkLightNameState {
  LS_Name : option string; LS_Version : Z; LS_UpdatedAt : Time; LS_UpdatedBy : string }.
Definition LightNameNewer (a b : LightNameState) : bool :=
  let at_ := Truncate (LS_UpdatedAt a) Millisecond in
  let bt := Truncate (LS_UpdatedAt b) Millisecond in
  if negb (at_ =? bt) then After at_ bt
  else if negb (LS_Version a =? LS_Version b) then LS_Version a >? LS_Version b
  else str_ltb (LS_UpdatedBy b) (LS_UpdatedBy a).
Definition ClampLightNameTime (t now : Time) : Time :=
  if After t (now + LightNameMaxFuture) then now else t.

(** ** lights_timers.go *)
Record LightTimer := mkLightTimer { LT_ID : string; LT_Label : string; LT_Key : Z }.
Definition LightTimerMinMinutes : Z := 0.
Definition LightTimerMaxMinutes : Z := 255.
Definition lightTimers : list LightTimer :=
  [mkLightTimer "dressing" "Dressing" 521; mkLightTimer "wc1" "WC 1" 555;
   mkLightTimer "wc2" "WC 2" 556; mkLightTimer "pieceserv" "Service" 557;
   mkLightTimer "ann1" "Annexe 1" 561; mkLightTimer "ann2" "Annexe 2" 562].
Definition LightTimers : list LightTimer := lightTimers.
Definition LightTimerByID (id : string) : option LightTimer :=
  find (fun lt => seqb (LT_ID lt) id) lightTimers.
Definition ErrLightTimerMinutes : err := Sentinel "minutes must be an integer between 0 and 255".
Definition ParseLightTimerMinutes (raw : string) : res err Z :=
  let s := TrimSpace_bytes (bytes raw) in
  if (length s =? 0)%nat || (3 <? length s)%nat then Fail ErrLightTimerMinutes
  else if negb (forallb is_digit s) then Fail ErrLightTimerMinutes
  else match Atoi (str s) with
       | None => Fail ErrLightTimerMinutes
       | Some n => if (n <? LightTimerMinMinutes) || (n >? LightTimerMaxMinutes)
                   then Fail ErrLightTimerMinutes else Ok n
       end.
Definition CanWriteLightTimers (role : string) (linkedMachineID : option Z) : bool :=
  match linkedMachineID with
  | None => false
  | Some _ => seqb role RoleAdminLocal || seqb role RoleAdminGlobal
  end.
Definition CanWriteLightNames (role : string) (linkedMachineID : option Z) : bool :=
  CanWriteLightTimers role linkedMachineID.
Fixpoint LightTimerMinutesFromCache (cache : list ExchangeKV) (key : Z) : option Z :=
  match cache with
  | [] => None
  | kv :: cache =>
      if negb (K kv =? key) then LightTimerMinutesFromCache cache key
      else res_value (ParseLightTimerMinutes (V kv))
  end.

(** ** Lemmas *)
Lemma LightNameNewer_lex a b :
  LightNameNewer a b = true <->
  let ta := LS_UpdatedAt a / Millisecond in let tb := LS_UpdatedAt b / Millisecond in
  tb < ta \/ (ta = tb /\ (LS_Version b < LS_Version a \/
     (LS_Version a = LS_Version b /\ str_ltb (LS_UpdatedBy b) (LS_UpdatedBy a) = true))).
Proof.
  cbv zeta. unfold LightNameNewer, Truncate, After.
  pose proof (Z.div_mod (LS_UpdatedAt a) Millisecond ltac:(done)) as Ha.
  pose proof (Z.div_mod (LS_UpdatedAt b) Millisecond ltac:(done)) as Hb.
  unfold Millisecond in *. set (qa := LS_UpdatedAt a / _) in *. set (qb := LS_UpdatedAt b / _) in *.
  destruct_if E1; [lia|]. destruct_if E2; [|destruct (str_ltb _ _)]; lia.
Qed.
Lemma LightNameNewer_trans a b c :
  LightNameNewer a b = true -> LightNameNewer b c = true -> LightNameNewer a c = true.
Proof.
  rewrite !LightNameNewer_lex. cbv zeta.
  intros [H1|[E1 [V1|[V1 S1]]]] [H2|[E2 [V2|[V2 S2]]]];
    try (left; lia); try (right; split; [lia|left; lia]).
  right. split; [lia|]. right. split; [lia|]. by eapply str_ltb_trans.
Qed.
Lemma LightNameNewer_irrefl a : LightNameNewer a a = false.
Proof.
  destruct (LightNameNewer a a) eqn:E; [|done]. apply LightNameNewer_lex in E. cbv zeta in E.
  rewrite str_ltb_irrefl in E. destruct E as [?|[_ [?|[_ ?] ] ] ]; [lia|lia|done].
Qed.
Lemma LightNameNewer_total a b :
  LightNameNewer a b = true \/ LightNameNewer b a = true \/
  (LS_UpdatedAt a / Millisecond = LS_UpdatedAt b / Millisecond /\
   LS_Version a = LS_Version b /\ LS_UpdatedBy a = LS_UpdatedBy b).
Proof.
  rewrite !LightNameNewer_lex. cbv zeta.
  destruct (Z.lt_trichotomy (LS_UpdatedAt a / Millisecond) (LS_UpdatedAt b / Millisecond))
    as [H|[H|H] ]; [by auto| |by auto].
  destruct (Z.lt_trichotomy (LS_Version a) (LS_Version b)) as [HV|[HV|HV] ]; [by auto 6| |by auto 6].
  destruct (str_ltb_total (LS_UpdatedBy a) (LS_UpdatedBy b)) as [HS|[HS|HS] ]; [by auto 9|by auto|by auto 9].
Qed.
Lemma digits_val_bound l :
  forallb is_digit l = true -> 0 <= digits_val l < 10 ^ Z.of_nat (length l).
Proof.
  induction l as [|c l IH] using rev_ind; [done|].
  rewrite forallb_app, digits_val_snoc, length_app. intros [Hl Hc]%andb_true_iff.
  simpl in Hc. rewrite andb_true_r in Hc. apply is_digit_range in Hc. specialize (IH Hl).
  simpl. rewrite Nat.add_comm, Nat2Z.inj_add, Z.pow_add_r by lia.
  unfold digit_val. change (10 ^ Z.of_nat 1) with 10. lia.
Qed.
Lemma parse_int_digits l : l <> [] -> forallb is_digit l = true -> (length l <= 18)%nat ->
  Atoi (str l) = Some (digits_val l).
Proof.
  intros Hne Hd Hlen. unfold Atoi. rewrite bytes_str, strip_sign_digit by done.
  unfold parse_int. rewrite Hd, bool_decide_eq_false_2 by done.
  pose proof (digits_val_bound l Hd) as Hb.
  assert (10 ^ Z.of_nat (length l) <= 10 ^ 18) by (apply Z.pow_le_mono_r; lia).
  unfold in_int64, int64_min, int64_max. simpl.
  destruct_if E; [done|]. change (10 ^ 18) with 1000000000000000000 in *. lia.
Qed.

(** ** Theorems *)

(** The conflict rule of the light names is a strict order of (date in
    milliseconds, version, author): irreflexive, transitive, and total up to a
    perfect tie, which leaves the stored name in place.  Merging two states by
    it is therefore commutative, whatever side they arrive from. *)
Lemma light_name_newer_strict_order :
  (forall a, LightNameNewer a a = false) /\
  (forall a b, LightNameNewer a b = true -> LightNameNewer b a = false) /\
  (forall a b c, LightNameNewer a b = true -> LightNameNewer b c = true ->
     LightNameNewer a c = true) /\
  (forall a b, LightNameNewer a b = false -> LightNameNewer b a = false ->
     LS_UpdatedAt a / Millisecond = LS_UpdatedAt b / Millisecond /\
     LS_Version a = LS_Version b /\ LS_UpdatedBy a = LS_UpdatedBy b).
Proof.
  split_and!.
  - apply LightNameNewer_irrefl.
  - intros a b Hab. destruct (LightNameNewer b a) eqn:Hba; [|done].
    pose proof (LightNameNewer_trans _ _ _ Hab Hba) as H. by rewrite LightNameNewer_irrefl in H.
  - apply LightNameNewer_trans.
  - intros a b H1 H2. destruct (LightNameNewer_total a b) as [?|[?|?] ]; [congruence..|done].
Qed.

(** A gateway cannot push a date into the future beyond five minutes:
    the clamped date is never more than [LightNameMaxFuture] ahead of the
    cloud clock, clamping is idempotent, and dates within the bound are kept. *)
Lemma clamp_light_name_time (t now : Time) :
  ClampLightNameTime t now <= now + LightNameMaxFuture /\
  ClampLightNameTime (ClampLightNameTime t now) now = ClampLightNameTime t now /\
  (t <= now + LightNameMaxFuture -> ClampLightNameTime t now = t).
Proof.
  assert (0 < LightNameMaxFuture) as Hp by done.
  unfold ClampLightNameTime, After. destruct (now + LightNameMaxFuture <? t) eqn:E.
  - split; [lia|]. split; [|lia]. destruct_if E2; [lia|done].
  - rewrite E. split; [lia|]. split; [done|]. done.
Qed.

(** [ParseLightTimerMinutes] accepts exactly an unsigned decimal literal
    of at most three digits whose value fits a byte, between white space; the
    value it returns is the number written and lies in 0..255. *)
Lemma parse_light_timer_spec (raw : string) (n : Z) :
  ParseLightTimerMinutes raw = Ok n <->
  let s := TrimSpace_bytes (bytes raw) in
  s <> [] /\ (length s <= 3)%nat /\ forallb is_digit s = true /\ digits_val s = n /\ 0 <= n <= 255.
Proof.
  unfold ParseLightTimerMinutes, LightTimerMinMinutes, LightTimerMaxMinutes. cbv zeta.
  set (s := TrimSpace_bytes (bytes raw)).
  destruct ((length s =? 0)%nat || (3 <? length s)%nat) eqn:E1.
  { split; [done|]. intros (Hne & Hl & _). destruct s; [done|]. simpl in *. lia. }
  assert (s <> []) as Hne by (intros ->; simpl in E1; lia).
  destruct (forallb is_digit s) eqn:Hd; simpl; [|split; [done|by intros (_ & _ & ? & _)] ].
  rewrite parse_int_digits by (done || lia).
  destruct_if E2; split; try done.
  - intros (_ & _ & _ & <- & ?). lia.
  - intros [= <-]. split_and!; [done|lia|done|done|lia..].
  - by intros (_ & _ & _ & <- & _).
Qed.

(** A light name is stored trimmed, with 1 to 40 characters of valid
    UTF-8 and none of the refused characters, and normalising a stored name
    gives it back; blank input is the reset. *)
Lemma normalize_light_name_spec (raw : string) :
  match NormalizeLightName raw with
  | Ok None => TrimSpace raw = ""
  | Ok (Some s) => s = TrimSpace raw /\ s <> "" /\ RuneCountInString s <= 40 /\
      ValidString s = true /\
      (forall rw, rw ∈ runes s -> 32 <= rw.1 /\ rw.1 <> 127 /\ rw.1 <> 60 /\ rw.1 <> 62) /\
      NormalizeLightName s = Ok (Some s)
  | Fail e => e = ErrLightName /\ TrimSpace raw <> ""
  end.
Proof.
  destruct (NormalizeLightName raw) as [[s|]|e] eqn:H; unfold NormalizeLightName in H.
  - destruct (is_empty (TrimSpace raw)) eqn:E1; [done|].
    destruct (_ || negb _) eqn:E2 in H; [done|].
    destruct (existsb _ _) eqn:E3 in H; [done|]. injection H as <-.
    apply orb_false_iff in E2 as [E2 E2'%negb_false_iff]. unfold LightNameMaxRunes in *.
    split; [done|]. split; [by intros H%is_empty_spec; congruence|]. split; [lia|]. split; [done|].
    split.
    + intros rw Hrw. destruct (decide (32 <= rw.1 /\ rw.1 <> 127 /\ rw.1 <> 60 /\ rw.1 <> 62)) as [|Hn];
        [done|]. exfalso. apply not_true_iff_false in E3. apply E3, existsb_elem.
      exists rw. split; [done|]. lia.
    + unfold NormalizeLightName. rewrite TrimSpace_idemp, E1, E2', E3. unfold LightNameMaxRunes.
      rewrite E2. done.
  - destruct (is_empty (TrimSpace raw)) eqn:E1; [by apply is_empty_spec|].
    destruct (_ || negb _) in H; [done|]. by destruct (existsb _ _) in H.
  - destruct (is_empty (TrimSpace raw)) eqn:E1; [done|].
    assert (TrimSpace raw <> "") by (intros Hx%is_empty_spec; congruence).
    destruct (_ || negb _) in H; [by simplify_eq|].
    by destruct (existsb _ _) in H; simplify_eq.
Qed.

(** The catalogues are consistent: the 33 light ids and the 6 timer ids
    are distinct, every lookup finds the entry of its id, every timer is the
    timer of a light of the catalogue, and every default name is one the
    validation would accept. *)
Lemma light_catalogues_consistent :
  length LightNameCatalog = 33%nat /\ NoDup (map LN_ID LightNameCatalog) /\
  NoDup (map LT_ID LightTimers) /\ NoDup (map LT_Key LightTimers) /\
  Forall (fun l => LightNameByID (LN_ID l) = Some l /\
            NormalizeLightName (LN_Default l) = Ok (Some (LN_Default l))) LightNameCatalog /\
  Forall (fun t => LightTimerByID (LT_ID t) = Some t /\ is_Some (LightNameByID (LT_ID t))) LightTimers.
Proof.
  split_and!; try reflexivity; try (apply (bool_decide_unpack _); vm_compute; exact I).
  - repeat constructor.
  - repeat constructor; eexists; reflexivity.
Qed.
