(* ===== verification/Mac.v ===== *)
(** * Hardware addresses and gateway identities

    Models [internal/data/mac.go] and [exchange_mac.go]. *)
From S2P Require Import Prelude GoStr Exchange.
#[global] Open Scope Z_scope.

(** ** mac.go *)
Definition colon : ascii := chr 58.
Definition dash : ascii := chr 45.
(** Lower-case hexadecimal digits. *)
Definition mac_char (c : ascii) : bool :=
  ((48 <=? ord c) && (ord c <=? 57)) || ((97 <=? ord c) && (ord c <=? 102)).
(** The part of a MAC: two such bytes (a rune outside ASCII is refused as well
    as its bytes). *)
Definition mac_part (p : list ascii) : bool := (length p =? 2)%nat && forallb mac_char p.
(** [s[i:i+2]] for i = 0, 2, .., 10. *)
Fixpoint pairs_of (l : list ascii) : list (list ascii) :=
  match l with
  | a :: b :: r => [a; b] :: pairs_of r
  | _ => []
  end.
Definition mac_colons (s : list ascii) : list ascii :=
  if negb (bool_decide (colon ∈ s)) && (length s =? 12)%nat
  then join_bytes colon (pairs_of s) else s.
Definition NormalizeMAC (raw : string) : res err string :=
  let s := map lower_ascii (TrimSpace_bytes (bytes raw)) in
  if (length s =? 0)%nat then Fail (Errorf "empty MAC" []) else
  let parts := split_bytes colon (mac_colons (replace_bytes dash colon s)) in
  if negb (length parts =? 6)%nat then Fail (Errorf "invalid MAC %q" [AStr raw])
  else if negb (forallb mac_part parts) then Fail (Errorf "invalid MAC %q" [AStr raw])
  else Ok (str (join_bytes colon parts)).
Definition GatewayIDFromEth0MAC (eth0 : string) : res err string :=
  norm ← NormalizeMAC eth0;
  Ok ("gw-" +:+ str (remove_bytes colon (bytes norm))).

(** ** exchange_mac.go *)
Definition macExchangeIndices : list Z := [947; 948; 949; 950; 951; 952].
Definition parseExchangeByte (v : string) : option Z :=
  let v := TrimSpace v in
  if is_empty v then None
  else n ← Sscanf_d v; if (n <? 0) || (n >? 255) then None else Some n.
(** [fmt.Sprintf("%02X", b)] lowered by the caller. *)
Definition ParseMACFromEK (ek : list ExchangeKV) : string :=
  if (length ek =? 0)%nat then "" else
  let vals := index_of ek in
  match mapM (fun k => parseExchangeByte (default "" (vals !! k))) macExchangeIndices with
  | None => ""
  | Some bs => str (join_bytes colon (map (fun b => hex_byte (chr b)) bs))
  end.
Definition unknownHashPrefix (clientID : string) : string :=
  if negb (HasPrefix clientID "UNKNOWN-") then "" else TrimPrefix clientID "UNKNOWN-".
(** The stored column is [None] when it does not decode. *)
Definition ParseMACFromTelemetryJSON (ek : option (list ExchangeKV)) : string :=
  match ek with None => "" | Some ek => ParseMACFromEK ek end.

(** ** Lemmas *)
Lemma mac_char_facts c : mac_char c = true ->
  space1 c = false /\ ord c < 128 /\ lower_ascii c = c /\ c <> colon /\ c <> dash.
Proof.
  unfold mac_char, space1, lower_ascii. intros H.
  assert (48 <= ord c <= 57 \/ 97 <= ord c <= 102) as Hr by lia.
  split_and!; [lia|lia| | |].
  - destruct_if E; [lia|done].
  - intros ->. change (ord colon) with 58 in Hr. lia.
  - intros ->. change (ord dash) with 45 in Hr. lia.
Qed.
Definition mac_or_colon (c : ascii) : bool := mac_char c || bool_decide (c = colon).
Lemma mac_or_colon_facts c : mac_or_colon c = true ->
  space1 c = false /\ ord c < 128 /\ lower_ascii c = c /\ c <> dash.
Proof.
  unfold mac_or_colon. intros [H|H]%orb_true_iff.
  - apply mac_char_facts in H. tauto.
  - apply bool_decide_eq_true in H as ->. by vm_compute.
Qed.
Lemma no_lead_ascii l :
  (forall c, c ∈ l -> space1 c = false /\ ord c < 128) -> no_lead l = true.
Proof.
  intros H. destruct l as [|a l]; [done|]. destruct (H a) as [H1 H2]; [left|].
  simpl. rewrite H1.
  assert (forall b, space2 a b = false) as Hs2 by (intros b; unfold space2; lia).
  assert (forall b c, space3 a b c = false) as Hs3 by (intros b c; unfold space3; lia).
  destruct l as [|b [|c l]]; [done| |]; rewrite Hs2; simpl; [done|]. by rewrite Hs3.
Qed.
Lemma no_trail_rev_ascii l :
  (forall c, c ∈ l -> space1 c = false /\ ord c < 128) -> no_trail_rev l = true.
Proof.
  intros H. destruct l as [|c l]; [done|]. destruct (H c) as [H1 H2]; [left|].
  simpl. rewrite H1.
  assert (forall b, space2 b c = false) as Hs2 by (intros b; unfold space2; lia).
  assert (forall a b, space3 a b c = false) as Hs3 by (intros a b; unfold space3; lia).
  destruct l as [|b [|a l]]; [done| |]; rewrite Hs2; simpl; [done|]. by rewrite Hs3.
Qed.
Lemma TrimSpace_bytes_ascii l :
  (forall c, c ∈ l -> space1 c = false /\ ord c < 128) -> TrimSpace_bytes l = l.
Proof.
  intros H. unfold TrimSpace_bytes. rewrite trim_left_id by by apply no_lead_ascii.
  unfold trim_right. rewrite trim_right_rev_id, rev_involutive; [done|].
  apply no_trail_rev_ascii. intros c. rewrite list_elem_of_In, <-in_rev, <-list_elem_of_In. apply H.
Qed.
Lemma replace_bytes_id a b l : a ∉ l -> replace_bytes a b l = l.
Proof.
  intros H. unfold replace_bytes. rewrite (map_ext_in _ (fun c => c)); [apply map_id|].
  intros c Hc%list_elem_of_In. destruct (ascii_dec c a) as [->|]; [done|done].
Qed.
Lemma map_lower_id l : (forall c, c ∈ l -> lower_ascii c = c) -> map lower_ascii l = l.
Proof.
  intros H. rewrite (map_ext_in _ (fun c => c)); [apply map_id|].
  intros c Hc%list_elem_of_In. by apply H.
Qed.
(** The canonical form: six parts of two lower-case hexadecimal digits. *)
Definition canonical_parts (parts : list (list ascii)) : Prop :=
  length parts = 6%nat /\ Forall (fun p => mac_part p = true) parts.
Lemma mac_part_chars p : mac_part p = true -> length p = 2%nat /\ forall c, c ∈ p -> mac_char c = true.
Proof.
  unfold mac_part. intros [H1 H2]%andb_true_iff. split; [by apply Nat.eqb_eq|].
  by apply forallb_elem.
Qed.
Lemma canonical_no_colon parts : canonical_parts parts -> Forall (fun p => colon ∉ p) parts.
Proof.
  intros [_ H]. eapply Forall_impl; [exact H|]. intros p [_ Hp]%mac_part_chars Hc.
  by apply Hp, mac_char_facts in Hc as (_ & _ & _ & ? & _).
Qed.
Lemma elem_of_join c sep ps : c ∈ join_bytes sep ps -> c = sep \/ exists p, p ∈ ps /\ c ∈ p.
Proof.
  induction ps as [|p ps IH]; [by intros ?%elem_of_nil|].
  destruct ps as [|q ps]; [intros H; right; exists p; split; [left|done]|].
  change (join_bytes sep (p :: q :: ps)) with (p ++ sep :: join_bytes sep (q :: ps)).
  intros [H|[->|H]%elem_of_cons]%elem_of_app; [right; exists p; split; [left|done]|by left|].
  destruct (IH H) as [->|(p' & ? & ?)]; [by left|]. right. exists p'. split; [by right|done].
Qed.
Lemma canonical_chars parts c : canonical_parts parts -> c ∈ join_bytes colon parts -> mac_or_colon c = true.
Proof.
  intros [_ H] [->|(p & Hp & Hc)]%elem_of_join; [done|].
  rewrite Forall_forall in H. apply H, mac_part_chars in Hp as [_ Hp]. unfold mac_or_colon.
  by rewrite Hp.
Qed.
Lemma NormalizeMAC_Ok raw m : NormalizeMAC raw = Ok m ->
  exists parts, canonical_parts parts /\ m = str (join_bytes colon parts).
Proof.
  unfold NormalizeMAC. destruct (length _ =? 0)%nat; [done|].
  set (parts := split_bytes _ _). destruct (length parts =? 6)%nat eqn:E1; [|done].
  destruct (forallb mac_part parts) eqn:E2; [|done]. simpl. intros [= <-].
  exists parts. split; [|done]. split; [by apply Nat.eqb_eq|].
  apply Forall_forall. by apply forallb_elem.
Qed.
(** The canonical form of six parts is accepted, with or without separators. *)
Lemma NormalizeMAC_canonical parts : canonical_parts parts ->
  NormalizeMAC (str (join_bytes colon parts)) = Ok (str (join_bytes colon parts)).
Proof.
  intros Hc. pose proof Hc as [Hl Hf]. unfold NormalizeMAC. rewrite bytes_str.
  set (l := join_bytes colon parts).
  assert (forall c, c ∈ l -> mac_or_colon c = true) as Hch by (intros c; by apply canonical_chars).
  rewrite TrimSpace_bytes_ascii by (intros c Hx%Hch%mac_or_colon_facts; tauto).
  rewrite map_lower_id by (intros c Hx%Hch%mac_or_colon_facts; tauto).
  rewrite replace_bytes_id by (intros Hx%Hch%mac_or_colon_facts; tauto).
  assert (exists p q ps, parts = p :: q :: ps) as (p & q & ps & Hp)
    by (destruct parts as [|? [|? ?]]; [done..|eauto]).
  assert (colon ∈ l) as Hin.
  { unfold l. rewrite Hp. apply elem_of_app. right. left. }
  assert ((length l =? 0)%nat = false) as -> by (destruct l; [by apply elem_of_nil in Hin|done]).
  unfold mac_colons. rewrite bool_decide_eq_true_2 by done. cbn [negb andb].
  unfold l. rewrite split_join; [|by rewrite Hp|by apply canonical_no_colon].
  rewrite Hl. cbn [Nat.eqb negb].
  assert (forallb mac_part parts = true) as ->; [|done].
  apply forallb_elem. by rewrite Forall_forall in Hf.
Qed.
Lemma remove_colon_join parts : Forall (fun p => colon ∉ p) parts ->
  remove_bytes colon (join_bytes colon parts) = mjoin parts.
Proof.
  unfold remove_bytes. intros H. induction H as [|p ps Hp H IH]; [done|].
  assert (base.filter (fun c => c <> colon) p = p) as Hid.
  { apply filter_all. intros c Hc ->. done. }
  destruct ps as [|q ps].
  - simpl. by rewrite app_nil_r.
  - change (join_bytes colon (p :: q :: ps)) with (p ++ colon :: join_bytes colon (q :: ps)).
    rewrite filter_app, filter_cons_False, IH by (by intros []). by rewrite Hid.
Qed.
Lemma canonical_mjoin_inj p q : canonical_parts p -> canonical_parts q -> mjoin p = mjoin q -> p = q.
Proof.
  intros [Hlp Hfp] [Hlq Hfq]. assert (length p = length q) as Hl by congruence. clear Hlp Hlq.
  revert q Hfq Hl. induction Hfp as [|a p Ha Hfp IH]; intros q Hfq Hl HJ; destruct Hfq as [|b q Hb Hfq];
    [done..|]. simpl in HJ. apply mac_part_chars in Ha as [Ha _], Hb as [Hb _].
  apply app_inj_1 in HJ as [-> HJ]; [|congruence]. f_equal. apply IH; [done|simpl in Hl; lia|done].
Qed.

(** ** Theorems *)

(** [NormalizeMAC] is a normal form: what it answers is six pairs of
    lower-case hexadecimal digits joined by colons, and normalising that again
    changes nothing. *)
Lemma normalize_mac_idempotent (raw m : string) :
  NormalizeMAC raw = Ok m ->
  NormalizeMAC m = Ok m /\
  exists parts, canonical_parts parts /\ bytes m = join_bytes colon parts.
Proof.
  intros (parts & Hp & ->)%NormalizeMAC_Ok. split; [by apply NormalizeMAC_canonical|].
  exists parts. by rewrite bytes_str.
Qed.

(** A gateway identity names one address: two Ethernet addresses give the
    same [gateway_id] exactly when they normalise to the same MAC, and an
    address that does not normalise gives no identity. *)
Lemma gateway_id_injective (a b ga gb : string) :
  GatewayIDFromEth0MAC a = Ok ga -> GatewayIDFromEth0MAC b = Ok gb ->
  (ga = gb <-> NormalizeMAC a = NormalizeMAC b).
Proof.
  unfold GatewayIDFromEth0MAC. rewrite !res_bind_Ok.
  intros (ma & Ha & [= <-]) (mb & Hb & [= <-]). rewrite Ha, Hb.
  apply NormalizeMAC_Ok in Ha as (pa & Hpa & ->), Hb as (pb & Hpb & ->).
  rewrite !bytes_str, !remove_colon_join by by apply canonical_no_colon.
  split.
  - intros H. apply (f_equal (fun s => TrimPrefix s "gw-")) in H. rewrite !TrimPrefix_app in H.
    apply str_inj, canonical_mjoin_inj in H as ->; done.
  - intros [= H%str_inj]. apply (f_equal (split_bytes colon)) in H.
    destruct Hpa as [Hla Hfa], Hpb as [Hlb Hfb].
    rewrite !split_join in H; [by rewrite H|..];
      solve [by apply canonical_no_colon | by intros ->].
Qed.
