(* ===== verification/World.v ===== *)
(** * The world of the server: database, clock, faults and randomness

    The stores of [internal/data/] run SQL statements over a PostgreSQL
    database.  The database is a record of tables, each a list of rows in
    insertion order or a map on its primary key, with the columns the code
    reads and writes; a JSON column is [None] when it does not decode.  A
    statement may fail ([faults]); the clock of the server and of the database
    are one clock that never goes back; a transaction that fails restores the
    tables.  Times are not rounded to the microseconds of the database. *)
From S2P Require Import Prelude GoStr Json Exchange Accounts Lights.
#[global] Open Scope Z_scope.

(** ** Rows *)

(** [cloud_actions] (migration 001). *)
Record ActionRow := mkAction {
  A_GUID : string; A_UserID : Z; A_MachineID : option Z;
  A_Params : option (list ExchangeKV); A_Status : string; A_CreatedAt : Time;
  A_DeliveredAt : option Time; A_DoneAt : option Time }.
(** [machines] (migrations 003, 011, 012). *)
Record MachineRow := mkMachine {
  M_HashedPkey : string; M_ClientID : option string; M_ID : Z; M_IP : option string;
  M_LastSeen : option Time; M_IsActive : bool; M_MAC : option string;
  M_Geo : option json; M_AuthDecoded : option json }.
(** The report of a gateway and [gateway_push_status] (migration 003), whose
    JSON column is kept as the report it encodes.  A floating-point number is
    the literal of its JSON number. *)
Record GatewayStatus := mkGatewayStatus {
  GT_Hostname : string; GT_Timestamp : string; GT_CPU : string; GT_Memory : option json; GT_Disk : option json;
  GT_Services : option (gmap string bool); GT_ClientCount : Z; GT_IP : string; GT_LastSeen : Time;
  GT_GeoLocation : string; GT_Lat : string; GT_Lon : string }.
Record GatewayPushRow := mkGatewayPush { GP_Hostname : string; GP_Payload : GatewayStatus; GP_UpdatedAt : Time }.
(** [audit_logs]. *)
Record AuditLog := mkAuditLog {
  AL_ID : Z; AL_UserID : Z; AL_Username : string; AL_Action : string; AL_ResourceType : string;
  AL_ResourceID : string; AL_IPAddress : string; AL_Details : string; AL_CreatedAt : Time }.
(** [sync_profiles] (migrations 007, 008, 009); ids are UUIDs of the database. *)
Record SyncProfileRow := mkSyncProfile {
  SP_ID : string; SP_GatewayID : string; SP_Name : string;
  SP_IndexRanges : option (list (Z * Z)); SP_IntervalHours : Z; SP_CronExpression : option string;
  SP_PullFromArmoire : bool; SP_PushToCloud : bool; SP_Enabled : bool;
  SP_ExcludeIndices : option (list Z); SP_LastRunAt : option Time;
  SP_CreatedAt : Time; SP_UpdatedAt : Time }.
(** [sync_runs] (migration 007). *)
Record SyncLogLine := mkSyncLog { SL_Time : Time; SL_Level : string; SL_Message : string }.
Record SyncRunRow := mkSyncRun {
  SR_ID : string; SR_ProfileID : string; SR_GatewayID : string; SR_Status : string;
  SR_ExpectedCount : Z; SR_ReceivedCount : Z; SR_PushedCount : Z;
  SR_ErrorMessage : option string; SR_LogLines : option (list SyncLogLine);
  SR_StartedAt : option Time; SR_FinishedAt : option Time; SR_CreatedAt : Time }.
(** [support_reports] (migration 015). *)
Record SupportReport := mkSupport {
  SU_ID : Z; SU_PublicRef : string; SU_UserID : Z; SU_Kind : string; SU_Title : string;
  SU_Payload : json; SU_Status : string; SU_Repo : option string;
  SU_IssueNumber : option Z; SU_IssueURL : option string; SU_Attempts : Z;
  SU_LastError : option string; SU_CreatedAt : Time; SU_UpdatedAt : Time;
  SU_SyncedAt : option Time }.
(** [email_templates] and [email_send_log] (migration 006). *)
Record EmailTemplate := mkEmailTemplate {
  ET_Slug : string; ET_Name : string; ET_Subject : string; ET_BodyHTML : string; ET_BodyText : string;
  ET_Enabled : bool; ET_AutoSend : bool; ET_CreatedAt : Time; ET_UpdatedAt : Time }.
Record EmailSendLog := mkEmailSendLog {
  EL_ID : Z; EL_Recipient : string; EL_TemplateSlug : string; EL_Status : string;
  EL_ErrorMessage : option err; EL_AdminID : option Z; EL_CreatedAt : Time }.
(** [newsletter_subscribers] and [newsletters] (migration 005). *)
Record Subscriber := mkSubscriber { SB_Email : string; SB_DateJoined : Time }.
Record Newsletter := mkNewsletter {
  NL_ID : string; NL_Subject : string; NL_Content : string; NL_Status : string; NL_Version : Z;
  NL_CreatedAt : Time; NL_UpdatedAt : Time; NL_SentAt : option Time }.
(** A request of the GitHub client, its body before encoding. *)
Record GHRequest := mkGHRequest { GH_Method : string; GH_URL : string; GH_Bearer : string; GH_Body : option json }.
(** A message the SMTP relay accepted. *)
Record Mail := mkMail { ML_To : string; ML_Subject : string; ML_Body : string }.

(** ** The database *)
Record DB := mkDB {
  users : list User;
  password_reset_tokens : list PasswordResetToken;
  remember_sessions : list RememberSession;
  link_requests : list LinkRequest;
  cloud_actions : list ActionRow;
  gateway_sessions : list GatewaySession;
  gateway_exchange_cache : gmap Z (option (list ExchangeKV) * Time);
  machine_telemetry : gmap string (string * option (list ExchangeKV) * Time);
  machines : list MachineRow;
  portal_audit_log : list (string * string);
  audit_logs : list AuditLog;
  light_names : gmap (Z * string) LightNameState;
  sync_profiles : list SyncProfileRow;
  sync_runs : list SyncRunRow;
  support_reports : list SupportReport;
  gateway_push_status : list GatewayPushRow;
  email_templates : list EmailTemplate;
  email_send_log : list EmailSendLog;
  newsletter_subscribers : list Subscriber;
  newsletters : list Newsletter }.
(** One function per table: the change of that table alone. *)
Definition on_users (f : list User -> list User) (s : DB) : DB :=
  mkDB (f (users s)) (password_reset_tokens s) (remember_sessions s) (link_requests s) (cloud_actions s) (gateway_sessions s) (gateway_exchange_cache s) (machine_telemetry s) (machines s) (portal_audit_log s) (audit_logs s) (light_names s) (sync_profiles s) (sync_runs s) (support_reports s) (gateway_push_status s) (email_templates s) (email_send_log s) (newsletter_subscribers s) (newsletters s).
Definition on_password_reset_tokens (f : list PasswordResetToken -> list PasswordResetToken) (s : DB) : DB :=
  mkDB (users s) (f (password_reset_tokens s)) (remember_sessions s) (link_requests s) (cloud_actions s) (gateway_sessions s) (gateway_exchange_cache s) (machine_telemetry s) (machines s) (portal_audit_log s) (audit_logs s) (light_names s) (sync_profiles s) (sync_runs s) (support_reports s) (gateway_push_status s) (email_templates s) (email_send_log s) (newsletter_subscribers s) (newsletters s).
Definition on_remember_sessions (f : list RememberSession -> list RememberSession) (s : DB) : DB :=
  mkDB (users s) (password_reset_tokens s) (f (remember_sessions s)) (link_requests s) (cloud_actions s) (gateway_sessions s) (gateway_exchange_cache s) (machine_telemetry s) (machines s) (portal_audit_log s) (audit_logs s) (light_names s) (sync_profiles s) (sync_runs s) (support_reports s) (gateway_push_status s) (email_templates s) (email_send_log s) (newsletter_subscribers s) (newsletters s).
Definition on_link_requests (f : list LinkRequest -> list LinkRequest) (s : DB) : DB :=
  mkDB (users s) (password_reset_tokens s) (remember_sessions s) (f (link_requests s)) (cloud_actions s) (gateway_sessions s) (gateway_exchange_cache s) (machine_telemetry s) (machines s) (portal_audit_log s) (audit_logs s) (light_names s) (sync_profiles s) (sync_runs s) (support_reports s) (gateway_push_status s) (email_templates s) (email_send_log s) (newsletter_subscribers s) (newsletters s).
Definition on_cloud_actions (f : list ActionRow -> list ActionRow) (s : DB) : DB :=
  mkDB (users s) (password_reset_tokens s) (remember_sessions s) (link_requests s) (f (cloud_actions s)) (gateway_sessions s) (gateway_exchange_cache s) (machine_telemetry s) (machines s) (portal_audit_log s) (audit_logs s) (light_names s) (sync_profiles s) (sync_runs s) (support_reports s) (gateway_push_status s) (email_templates s) (email_send_log s) (newsletter_subscribers s) (newsletters s).
Definition on_gateway_sessions (f : list GatewaySession -> list GatewaySession) (s : DB) : DB :=
  mkDB (users s) (password_reset_tokens s) (remember_sessions s) (link_requests s) (cloud_actions s) (f (gateway_sessions s)) (gateway_exchange_cache s) (machine_telemetry s) (machines s) (portal_audit_log s) (audit_logs s) (light_names s) (sync_profiles s) (sync_runs s) (support_reports s) (gateway_push_status s) (email_templates s) (email_send_log s) (newsletter_subscribers s) (newsletters s).
Definition on_gateway_exchange_cache (f : gmap Z (option (list ExchangeKV) * Time) -> gmap Z (option (list ExchangeKV) * Time)) (s : DB) : DB :=
  mkDB (users s) (password_reset_tokens s) (remember_sessions s) (link_requests s) (cloud_actions s) (gateway_sessions s) (f (gateway_exchange_cache s)) (machine_telemetry s) (machines s) (portal_audit_log s) (audit_logs s) (light_names s) (sync_profiles s) (sync_runs s) (support_reports s) (gateway_push_status s) (email_templates s) (email_send_log s) (newsletter_subscribers s) (newsletters s).
Definition on_machine_telemetry (f : gmap string (string * option (list ExchangeKV) * Time) -> gmap string (string * option (list ExchangeKV) * Time)) (s : DB) : DB :=
  mkDB (users s) (password_reset_tokens s) (remember_sessions s) (link_requests s) (cloud_actions s) (gateway_sessions s) (gateway_exchange_cache s) (f (machine_telemetry s)) (machines s) (portal_audit_log s) (audit_logs s) (light_names s) (sync_profiles s) (sync_runs s) (support_reports s) (gateway_push_status s) (email_templates s) (email_send_log s) (newsletter_subscribers s) (newsletters s).
Definition on_machines (f : list MachineRow -> list MachineRow) (s : DB) : DB :=
  mkDB (users s) (password_reset_tokens s) (remember_sessions s) (link_requests s) (cloud_actions s) (gateway_sessions s) (gateway_exchange_cache s) (machine_telemetry s) (f (machines s)) (portal_audit_log s) (audit_logs s) (light_names s) (sync_profiles s) (sync_runs s) (support_reports s) (gateway_push_status s) (email_templates s) (email_send_log s) (newsletter_subscribers s) (newsletters s).
Definition on_portal_audit_log (f : list (string * string) -> list (string * string)) (s : DB) : DB :=
  mkDB (users s) (password_reset_tokens s) (remember_sessions s) (link_requests s) (cloud_actions s) (gateway_sessions s) (gateway_exchange_cache s) (machine_telemetry s) (machines s) (f (portal_audit_log s)) (audit_logs s) (light_names s) (sync_profiles s) (sync_runs s) (support_reports s) (gateway_push_status s) (email_templates s) (email_send_log s) (newsletter_subscribers s) (newsletters s).
Definition on_audit_logs (f : list AuditLog -> list AuditLog) (s : DB) : DB :=
  mkDB (users s) (password_reset_tokens s) (remember_sessions s) (link_requests s) (cloud_actions s) (gateway_sessions s) (gateway_exchange_cache s) (machine_telemetry s) (machines s) (portal_audit_log s) (f (audit_logs s)) (light_names s) (sync_profiles s) (sync_runs s) (support_reports s) (gateway_push_status s) (email_templates s) (email_send_log s) (newsletter_subscribers s) (newsletters s).
Definition on_light_names (f : gmap (Z * string) LightNameState -> gmap (Z * string) LightNameState) (s : DB) : DB :=
  mkDB (users s) (password_reset_tokens s) (remember_sessions s) (link_requests s) (cloud_actions s) (gateway_sessions s) (gateway_exchange_cache s) (machine_telemetry s) (machines s) (portal_audit_log s) (audit_logs s) (f (light_names s)) (sync_profiles s) (sync_runs s) (support_reports s) (gateway_push_status s) (email_templates s) (email_send_log s) (newsletter_subscribers s) (newsletters s).
Definition on_sync_profiles (f : list SyncProfileRow -> list SyncProfileRow) (s : DB) : DB :=
  mkDB (users s) (password_reset_tokens s) (remember_sessions s) (link_requests s) (cloud_actions s) (gateway_sessions s) (gateway_exchange_cache s) (machine_telemetry s) (machines s) (portal_audit_log s) (audit_logs s) (light_names s) (f (sync_profiles s)) (sync_runs s) (support_reports s) (gateway_push_status s) (email_templates s) (email_send_log s) (newsletter_subscribers s) (newsletters s).
Definition on_sync_runs (f : list SyncRunRow -> list SyncRunRow) (s : DB) : DB :=
  mkDB (users s) (password_reset_tokens s) (remember_sessions s) (link_requests s) (cloud_actions s) (gateway_sessions s) (gateway_exchange_cache s) (machine_telemetry s) (machines s) (portal_audit_log s) (audit_logs s) (light_names s) (sync_profiles s) (f (sync_runs s)) (support_reports s) (gateway_push_status s) (email_templates s) (email_send_log s) (newsletter_subscribers s) (newsletters s).
Definition on_support_reports (f : list SupportReport -> list SupportReport) (s : DB) : DB :=
  mkDB (users s) (password_reset_tokens s) (remember_sessions s) (link_requests s) (cloud_actions s) (gateway_sessions s) (gateway_exchange_cache s) (machine_telemetry s) (machines s) (portal_audit_log s) (audit_logs s) (light_names s) (sync_profiles s) (sync_runs s) (f (support_reports s)) (gateway_push_status s) (email_templates s) (email_send_log s) (newsletter_subscribers s) (newsletters s).
Definition on_gateway_push_status (f : list GatewayPushRow -> list GatewayPushRow) (s : DB) : DB :=
  mkDB (users s) (password_reset_tokens s) (remember_sessions s) (link_requests s) (cloud_actions s) (gateway_sessions s) (gateway_exchange_cache s) (machine_telemetry s) (machines s) (portal_audit_log s) (audit_logs s) (light_names s) (sync_profiles s) (sync_runs s) (support_reports s) (f (gateway_push_status s)) (email_templates s) (email_send_log s) (newsletter_subscribers s) (newsletters s).
Definition on_email_templates (f : list EmailTemplate -> list EmailTemplate) (s : DB) : DB :=
  mkDB (users s) (password_reset_tokens s) (remember_sessions s) (link_requests s) (cloud_actions s) (gateway_sessions s) (gateway_exchange_cache s) (machine_telemetry s) (machines s) (portal_audit_log s) (audit_logs s) (light_names s) (sync_profiles s) (sync_runs s) (support_reports s) (gateway_push_status s) (f (email_templates s)) (email_send_log s) (newsletter_subscribers s) (newsletters s).
Definition on_email_send_log (f : list EmailSendLog -> list EmailSendLog) (s : DB) : DB :=
  mkDB (users s) (password_reset_tokens s) (remember_sessions s) (link_requests s) (cloud_actions s) (gateway_sessions s) (gateway_exchange_cache s) (machine_telemetry s) (machines s) (portal_audit_log s) (audit_logs s) (light_names s) (sync_profiles s) (sync_runs s) (support_reports s) (gateway_push_status s) (email_templates s) (f (email_send_log s)) (newsletter_subscribers s) (newsletters s).
Definition on_newsletter_subscribers (f : list Subscriber -> list Subscriber) (s : DB) : DB :=
  mkDB (users s) (password_reset_tokens s) (remember_sessions s) (link_requests s) (cloud_actions s) (gateway_sessions s) (gateway_exchange_cache s) (machine_telemetry s) (machines s) (portal_audit_log s) (audit_logs s) (light_names s) (sync_profiles s) (sync_runs s) (support_reports s) (gateway_push_status s) (email_templates s) (email_send_log s) (f (newsletter_subscribers s)) (newsletters s).
Definition on_newsletters (f : list Newsletter -> list Newsletter) (s : DB) : DB :=
  mkDB (users s) (password_reset_tokens s) (remember_sessions s) (link_requests s) (cloud_actions s) (gateway_sessions s) (gateway_exchange_cache s) (machine_telemetry s) (machines s) (portal_audit_log s) (audit_logs s) (light_names s) (sync_profiles s) (sync_runs s) (support_reports s) (gateway_push_status s) (email_templates s) (email_send_log s) (newsletter_subscribers s) (f (newsletters s)).
Definition empty_db : DB := mkDB [] [] [] [] [] [] ∅ ∅ [] [] [] ∅ [] [] [] [] [] [] [] [].

(** The process and its surroundings: the database, the clock with the advances
    it will make, the fault plan of the statements, the bytes [crypto/rand] will
    give, the sequences of the serial columns (a rollback does not give their
    numbers back), the rate limiters, the mail the relay accepted, whether another
    instance holds the advisory lock of the support worker, the position of the
    rotation of the device polls, the installation token of the GitHub client
    with its expiry, and the requests it sent, oldest first. *)
Record World := mkWorld {
  db : DB;
  clock : Time;
  ticks : list N;
  faults : list bool;
  entropy : list ascii;
  sequences : gmap string Z;
  limiters : gmap string (gmap string (list Time));
  outbox : list Mail;
  sync_lock : bool;
  info_slot : Z;
  gh_token : string * Time;
  gh_log : list GHRequest }.
Definition on_db (f : DB -> DB) (s : World) : World :=
  mkWorld (f (db s)) (clock s) (ticks s) (faults s) (entropy s) (sequences s) (limiters s) (outbox s) (sync_lock s) (info_slot s) (gh_token s) (gh_log s).
Definition on_clock (f : Time -> Time) (s : World) : World :=
  mkWorld (db s) (f (clock s)) (ticks s) (faults s) (entropy s) (sequences s) (limiters s) (outbox s) (sync_lock s) (info_slot s) (gh_token s) (gh_log s).
Definition on_ticks (f : list N -> list N) (s : World) : World :=
  mkWorld (db s) (clock s) (f (ticks s)) (faults s) (entropy s) (sequences s) (limiters s) (outbox s) (sync_lock s) (info_slot s) (gh_token s) (gh_log s).
Definition on_faults (f : list bool -> list bool) (s : World) : World :=
  mkWorld (db s) (clock s) (ticks s) (f (faults s)) (entropy s) (sequences s) (limiters s) (outbox s) (sync_lock s) (info_slot s) (gh_token s) (gh_log s).
Definition on_entropy (f : list ascii -> list ascii) (s : World) : World :=
  mkWorld (db s) (clock s) (ticks s) (faults s) (f (entropy s)) (sequences s) (limiters s) (outbox s) (sync_lock s) (info_slot s) (gh_token s) (gh_log s).
Definition on_sequences (f : gmap string Z -> gmap string Z) (s : World) : World :=
  mkWorld (db s) (clock s) (ticks s) (faults s) (entropy s) (f (sequences s)) (limiters s) (outbox s) (sync_lock s) (info_slot s) (gh_token s) (gh_log s).
Definition on_limiters (f : gmap string (gmap string (list Time)) -> gmap string (gmap string (list Time))) (s : World) : World :=
  mkWorld (db s) (clock s) (ticks s) (faults s) (entropy s) (sequences s) (f (limiters s)) (outbox s) (sync_lock s) (info_slot s) (gh_token s) (gh_log s).
Definition on_outbox (f : list Mail -> list Mail) (s : World) : World :=
  mkWorld (db s) (clock s) (ticks s) (faults s) (entropy s) (sequences s) (limiters s) (f (outbox s)) (sync_lock s) (info_slot s) (gh_token s) (gh_log s).
Definition on_sync_lock (f : bool -> bool) (s : World) : World :=
  mkWorld (db s) (clock s) (ticks s) (faults s) (entropy s) (sequences s) (limiters s) (outbox s) (f (sync_lock s)) (info_slot s) (gh_token s) (gh_log s).
Definition on_info_slot (f : Z -> Z) (s : World) : World :=
  mkWorld (db s) (clock s) (ticks s) (faults s) (entropy s) (sequences s) (limiters s) (outbox s) (sync_lock s) (f (info_slot s)) (gh_token s) (gh_log s).
Definition on_gh_token (f : string * Time -> string * Time) (s : World) : World :=
  mkWorld (db s) (clock s) (ticks s) (faults s) (entropy s) (sequences s) (limiters s) (outbox s) (sync_lock s) (info_slot s) (f (gh_token s)) (gh_log s).
Definition on_gh_log (f : list GHRequest -> list GHRequest) (s : World) : World :=
  mkWorld (db s) (clock s) (ticks s) (faults s) (entropy s) (sequences s) (limiters s) (outbox s) (sync_lock s) (info_slot s) (gh_token s) (f (gh_log s)).
(** A world with nothing stored, every statement succeeding. *)
Definition empty_world (t0 : Time) (rnd : list ascii) : World :=
  mkWorld empty_db t0 [] [] rnd ∅ ∅ [] false 0 (EmptyString, 0) [].

(** ** Statements *)
Abbreviation MW := (M World err).

(** Every statement first meets the fault plan. *)
Definition stmt : MW unit := fun w =>
  match faults w with
  | true :: fs => (Fail ErrDB, on_faults (fun _ => fs) w)
  | false :: fs => (Ok tt, on_faults (fun _ => fs) w)
  | [] => (Ok tt, w)
  end.
Definition query {A} (f : DB -> A) : MW A := _ ← stmt; gets (fun w => f (db w)).
Definition exec (f : DB -> DB) : MW unit := _ ← stmt; modify (on_db f).
(** [time.Now()] and [NOW()]: the clock moves by the next advance. *)
Definition now {E} : M World E Time := fun w =>
  match ticks w with
  | d :: ds => let t := clock w + Z.of_N d in
               (Ok t, on_clock (fun _ => t) (on_ticks (fun _ => ds) w))
  | [] => (Ok (clock w), w)
  end.
(** [nextval] of a serial column. *)
Definition nextval (table : string) : MW Z := fun w =>
  let n := default 1 (sequences w !! table) in
  (Ok n, on_sequences (<[table := n + 1]>) w).
(** A transaction: [BEGIN], the body with the time of the transaction (what
    [NOW()] answers inside it), [COMMIT]; any error restores the tables. *)
Definition transaction {A} (body : Time -> MW A) : MW A := fun w =>
  let m := (_ ← stmt; t ← now; r ← body t; _ ← stmt; mret r) in
  match m w with
  | (Ok a, w') => (Ok a, w')
  | (Fail e, w') => (Fail e, on_db (fun _ => db w) w')
  end.
(** [n] bytes of [crypto/rand]. *)
Definition rand_read (n : nat) : MW (list ascii) := fun w =>
  let l := take n (entropy w) in
  if (length l =? n)%nat then (Ok l, on_entropy (drop n) w) else (Fail ErrRand, w).

(** ** Rows of a table *)
Definition update_where {R} (p : R -> bool) (f : R -> R) (rows : list R) : list R :=
  map (fun r => if p r then f r else r) rows.
Definition delete_where {R} (p : R -> bool) (rows : list R) : list R :=
  List.filter (fun r => negb (p r)) rows.
Definition select {R} (p : R -> bool) (rows : list R) : list R := List.filter p rows.
Definition count_where {R} (p : R -> bool) (rows : list R) : Z :=
  Z.of_nat (length (select p rows)).
(** [GetContext]: the first row, or [sql.ErrNoRows]. *)
Definition get_row {R} (p : R -> bool) (rows : list R) : res err R :=
  ok_or (head (select p rows)) ErrNoRows.
(** [ORDER BY key ASC] and [DESC]. *)
Definition key_le {R} (key : R -> Z) (a b : R) : Prop := key a <= key b.
Definition key_ge {R} (key : R -> Z) (a b : R) : Prop := key b <= key a.
#[export] Instance key_le_dec {R} (key : R -> Z) a b : Decision (key_le key a b).
Proof. unfold key_le. apply _. Defined.
#[export] Instance key_ge_dec {R} (key : R -> Z) a b : Decision (key_ge key a b).
Proof. unfold key_ge. apply _. Defined.
#[export] Instance key_le_total {R} (key : R -> Z) : Total (key_le key).
Proof. intros a b. unfold key_le. lia. Qed.
#[export] Instance key_ge_total {R} (key : R -> Z) : Total (key_ge key).
Proof. intros a b. unfold key_ge. lia. Qed.
#[export] Instance key_le_trans {R} (key : R -> Z) : Transitive (key_le key).
Proof. intros a b c. unfold key_le. lia. Qed.
#[export] Instance key_ge_trans {R} (key : R -> Z) : Transitive (key_ge key).
Proof. intros a b c. unfold key_ge. lia. Qed.
Definition order_asc {R} (key : R -> Z) (rows : list R) : list R := merge_sort (key_le key) rows.
Definition order_desc {R} (key : R -> Z) (rows : list R) : list R := merge_sort (key_ge key) rows.
(** A text of the database: UTF-8 without the NUL character; [VARCHAR(n)]
    holds at most [n] characters. *)
Definition text_ok (s : string) : bool := ValidString s && negb (Contains s (str [chr 0])).
Definition varchar (n : Z) (s : string) : bool := text_ok s && (RuneCountInString s <=? n).
(** A query with a text: one that the database does not take makes it fail. *)
Definition query_text {A} (s : string) (f : DB -> A) : MW A :=
  _ ← stmt; _ ← guard_err (negb (text_ok s)) ErrDB; gets (fun w => f (db w)).
(** The range of a 4-byte [INT] column. *)
Definition int4_max : Z := 2 ^ 31 - 1.
Definition int4 (z : Z) : bool := (- 2 ^ 31 <=? z) && (z <=? int4_max).
(** [LIMIT n]. *)
Definition limit {R} (n : Z) (rows : list R) : list R := take (Z.to_nat n) rows.

Lemma elem_of_select {R} (p : R -> bool) rows r : r ∈ select p rows <-> r ∈ rows /\ p r = true.
Proof. unfold select. rewrite !list_elem_of_In, filter_In. done. Qed.
Lemma elem_of_update_where {R} (p : R -> bool) f rows r :
  r ∈ update_where p f rows <-> exists r0, r0 ∈ rows /\ r = if p r0 then f r0 else r0.
Proof. unfold update_where. rewrite list_elem_of_fmap. split; intros (r0 & ? & ?); eauto. Qed.
Lemma count_update {R} (p q : R -> bool) f rows : (forall r, p (f r) = p r) -> count_where p (update_where q f rows) = count_where p rows.
Proof.
  intros Hf. unfold count_where, select, update_where. induction rows as [|r rows IH]; [done|]. cbn [map List.filter].
  destruct (q r); [rewrite Hf|]; destruct (p r); cbn [length]; lia.
Qed.
Lemma get_row_Ok {R} (p : R -> bool) rows r : get_row p rows = Ok r -> r ∈ rows /\ p r = true.
Proof.
  unfold get_row. destruct (select p rows) as [|r0 l] eqn:E; [done|]. simpl. intros [= <-].
  apply elem_of_select. rewrite E. left.
Qed.
Lemma get_row_Fail {R} (p : R -> bool) rows e :
  get_row p rows = Fail e <-> e = ErrNoRows /\ forall r, r ∈ rows -> p r = false.
Proof.
  unfold get_row. destruct (select p rows) as [|r0 l] eqn:E; simpl; split.
  - intros [= <-]. split; [done|]. intros r Hr. destruct (p r) eqn:Hp; [|done].
    assert (r ∈ select p rows) as H by by apply elem_of_select. rewrite E in H.
    by apply elem_of_nil in H.
  - by intros [-> _].
  - done.
  - intros [_ H]. assert (r0 ∈ select p rows) as Hr by (rewrite E; left).
    apply elem_of_select in Hr as [Hr Hp]. by rewrite H in Hp.
Qed.
Lemma elem_of_order_asc {R} (key : R -> Z) rows r : r ∈ order_asc key rows <-> r ∈ rows.
Proof. unfold order_asc. by rewrite merge_sort_Permutation. Qed.
Lemma elem_of_order_desc {R} (key : R -> Z) rows r : r ∈ order_desc key rows <-> r ∈ rows.
Proof. unfold order_desc. by rewrite merge_sort_Permutation. Qed.
Lemma order_asc_sorted {R} (key : R -> Z) rows : StronglySorted (key_le key) (order_asc key rows).
Proof. apply StronglySorted_merge_sort; apply _. Qed.

(** ** What the primitives change *)

(** [keeps_db m]: the call reads the database only. *)
Definition keeps_db {E A} (m : M World E A) : Prop := forall w, db (m w).2 = db w.

Lemma stmt_db w : db (stmt w).2 = db w.
Proof. unfold stmt. by destruct (faults w) as [|[] ?]. Qed.
Lemma stmt_clock w : clock (stmt w).2 = clock w.
Proof. unfold stmt. by destruct (faults w) as [|[] ?]. Qed.
Lemma now_db {E} w : db (@now E w).2 = db w.
Proof. unfold now. by destruct (ticks w). Qed.
Lemma now_Ok {E} w : exists t, (@now E w).1 = Ok t /\ clock w <= t /\ clock (@now E w).2 = t.
Proof.
  unfold now. destruct (ticks w) as [|d ds]; simpl.
  - exists (clock w). split_and!; [done|lia|done].
  - exists (clock w + Z.of_N d). split_and!; [done|lia|done].
Qed.

(** An invariant of the tables. *)
Definition db_inv (I : DB -> Prop) (w : World) : Prop := I (db w).

Lemma preserves_stmt I : preserves (db_inv I) stmt.
Proof. intros w Hw. unfold db_inv. by rewrite stmt_db. Qed.
Lemma preserves_now {E} I : preserves (db_inv I) (@now E).
Proof. intros w Hw. unfold db_inv. by rewrite now_db. Qed.
Lemma preserves_nextval I t : preserves (db_inv I) (nextval t).
Proof. by intros w Hw. Qed.
Lemma preserves_rand I n : preserves (db_inv I) (rand_read n).
Proof. intros w Hw. unfold rand_read. by destruct (_ =? _)%nat. Qed.
Lemma preserves_query {A} I (f : DB -> A) : preserves (db_inv I) (query f).
Proof. apply preserves_bind; [apply preserves_stmt|]. intros _. apply preserves_gets. Qed.
Lemma preserves_query_text {A} I s (f : DB -> A) : preserves (db_inv I) (query_text s f).
Proof.
  apply preserves_bind; [apply preserves_stmt|]. intros _. apply preserves_bind; [|intros _; apply preserves_gets].
  unfold guard_err. destruct (negb _); intros w Hw; exact Hw.
Qed.
Lemma preserves_exec I f : (forall d, I d -> I (f d)) -> preserves (db_inv I) (exec f).
Proof.
  intros Hf. apply preserves_bind; [apply preserves_stmt|]. intros _.
  apply preserves_modify. intros w Hw. by apply Hf.
Qed.
Lemma preserves_transaction {A} I (body : Time -> MW A) :
  (forall t, preserves (db_inv I) (body t)) -> preserves (db_inv I) (transaction body).
Proof.
  intros Hb w Hw. unfold transaction.
  set (m := (_ ← stmt; t ← now; r ← body t; _ ← stmt; mret r) : MW A).
  assert (preserves (db_inv I) m) as Hm.
  { apply preserves_bind; [apply preserves_stmt|]. intros _.
    apply preserves_bind; [apply preserves_now|]. intros t.
    apply preserves_bind; [apply Hb|]. intros r.
    apply preserves_bind; [apply preserves_stmt|]. intros _. apply preserves_ret. }
  specialize (Hm w Hw). by destruct (m w) as [[a|e] w'].
Qed.
#[export] Hint Resolve preserves_stmt preserves_now preserves_nextval preserves_rand
  preserves_query preserves_query_text : preserves.
(** A transaction that returns an error leaves the tables as they were. *)
Lemma transaction_rollback {A} (body : Time -> MW A) w e w' :
  transaction body w = (Fail e, w') -> db w' = db w.
Proof.
  unfold transaction. match goal with |- context [match ?x with _ => _ end] => destruct x as [[a|e0] w0] end;
    [done|]. by intros [= _ <-].
Qed.

(** ** Calls that succeed *)
Lemma stmt_Ok_inv w u w' : stmt w = (Ok u, w') -> db w' = db w.
Proof. intros H. by rewrite <-(stmt_db w), H. Qed.
Lemma now_Ok_inv {E} w t w' : @now E w = (Ok t, w') -> db w' = db w /\ clock w <= t /\ clock w' = t.
Proof.
  intros H. destruct (@now_Ok E w) as (t0 & H1 & H2 & H3). rewrite H in H1, H3. simpl in H1, H3.
  injection H1 as <-. split; [|done]. by rewrite <-(@now_db E w), H.
Qed.
Lemma query_Ok_inv {A} (f : DB -> A) w a w' : query f w = (Ok a, w') -> a = f (db w) /\ db w' = db w.
Proof.
  unfold query. rewrite M_bind_Ok. intros (u & w1 & Hs%stmt_Ok_inv & [= <- <-]). by rewrite Hs.
Qed.
Lemma exec_Ok_inv f w u w' : exec f w = (Ok u, w') -> db w' = f (db w).
Proof.
  unfold exec. rewrite M_bind_Ok. intros (v & w1 & Hs%stmt_Ok_inv & [= _ <-]). simpl. by rewrite Hs.
Qed.
Lemma nextval_Ok_inv t w n w' : nextval t w = (Ok n, w') -> db w' = db w.
Proof. unfold nextval. by intros [= _ <-]. Qed.
Lemma gets_Ok_inv {E A} (f : World -> A) w a w' : (gets f : M World E A) w = (Ok a, w') -> a = f w /\ w' = w.
Proof. unfold gets. by intros [= <- <-]. Qed.
Lemma guard_Ok_inv {E} c (e : E) w u w' : guard_err c e w = (Ok u, w' : World) -> c = false /\ w' = w.
Proof. destruct c; [done|]. by intros [= _ <-]. Qed.
Lemma lift_Ok_inv {E A} (r : res E A) w a w' : lift r w = (Ok a, w' : World) -> r = Ok a /\ w' = w.
Proof. unfold lift. by intros [= -> <-]. Qed.
Lemma mret_Ok_inv {E A} (a : A) w b w' : (mret a : M World E A) w = (Ok b, w') -> b = a /\ w' = w.
Proof. by intros [= <- <-]. Qed.
Lemma query_text_Ok_inv {A} t (f : DB -> A) w a w' : query_text t f w = (Ok a, w') -> a = f (db w) /\ db w' = db w.
Proof.
  unfold query_text. rewrite M_bind_Ok. intros (u & w1 & Hs%stmt_Ok_inv & H).
  apply M_bind_Ok in H as (v & w2 & [_ ->]%guard_Ok_inv & [= <- <-]). by rewrite Hs.
Qed.
Lemma query_text_valid {A} t (f : DB -> A) w a w' : query_text t f w = (Ok a, w') -> text_ok t = true.
Proof.
  unfold query_text. rewrite M_bind_Ok. intros (u & w1 & _ & H).
  apply M_bind_Ok in H as (v & w2 & [Hv _]%guard_Ok_inv & _). by destruct (text_ok t).
Qed.
Lemma modify_Ok_inv {E} f w u w' : (modify f : M World E unit) w = (Ok u, w') -> w' = f w.
Proof. by intros [= _ <-]. Qed.
Lemma rand_Ok_inv n w l w' : rand_read n w = (Ok l, w') -> db w' = db w /\ length l = n.
Proof.
  unfold rand_read. destruct (_ =? _)%nat eqn:E; [|done]. intros [= <- <-]. by apply Nat.eqb_eq in E.
Qed.
Lemma transaction_Ok_inv {A} (body : Time -> MW A) w a w' :
  transaction body w = (Ok a, w') ->
  exists t w0 w1, (db w0 = db w /\ clock w <= t /\ clock w0 = t) /\
    body t w0 = (Ok a, w1) /\ db w' = db w1 /\ clock w' = clock w1.
Proof.
  unfold transaction. set (m := (_ ← stmt; t ← now; r ← body t; _ ← stmt; mret r) : MW A).
  destruct (m w) as [[a0|e] w0] eqn:Hm; [|done]. intros [= <- <-]. unfold m in Hm.
  apply M_bind_Ok in Hm as (u & w1 & Hs & Hm). apply M_bind_Ok in Hm as (t & w2 & Ht & Hm).
  apply M_bind_Ok in Hm as (r & w3 & Hr & Hm). apply M_bind_Ok in Hm as (v & w4 & Hs' & Hm).
  apply mret_Ok_inv in Hm as [-> ->].
  assert (clock w1 = clock w) as Hc by by rewrite <-(stmt_clock w), Hs.
  assert (clock w4 = clock w3) as Hc' by by rewrite <-(stmt_clock w3), Hs'.
  apply stmt_Ok_inv in Hs, Hs'. apply now_Ok_inv in Ht as (Hd & Hle & Hct).
  exists t, w2, w3. split_and!; [congruence|lia|done|done|done|done].
Qed.

(** The sequences are not touched before the body. *)
Lemma transaction_Ok_seq {A} (body : Time -> MW A) w a w' :
  transaction body w = (Ok a, w') ->
  exists t w0 w1, db w0 = db w /\ sequences w0 = sequences w /\ body t w0 = (Ok a, w1) /\ db w' = db w1.
Proof.
  unfold transaction. set (m := (_ ← stmt; t ← now; r ← body t; _ ← stmt; mret r) : MW A).
  destruct (m w) as [[a0|e] w0] eqn:Hm; [|done]. intros [= <- <-]. unfold m in Hm.
  apply M_bind_Ok in Hm as (u & w1 & Hs & Hm). apply M_bind_Ok in Hm as (t & w2 & Ht & Hm).
  apply M_bind_Ok in Hm as (r & w3 & Hr & Hm). apply M_bind_Ok in Hm as (v & w4 & Hs' & Hm).
  apply mret_Ok_inv in Hm as [-> ->]. exists t, w2, w3.
  assert (sequences w1 = sequences w) as Hq1.
  { revert Hs. unfold stmt. by destruct (faults w) as [|[] ?]; intros [= _ <-]. }
  assert (sequences w2 = sequences w1) as Hq2.
  { revert Ht. unfold now. by destruct (ticks w1); intros [= _ <-]. }
  apply stmt_Ok_inv in Hs, Hs'. apply now_Ok_inv in Ht as (Hd & _).
  split_and!; congruence.
Qed.

(** Inverts a run that ended with [Ok], one bind at a time. *)
Ltac mrun :=
  repeat match goal with
  | H : (_ ≫= _) _ = (Ok _, _) |- _ => apply M_bind_Ok in H as (? & ? & ? & H)
  | H : stmt _ = (Ok _, _) |- _ => apply stmt_Ok_inv in H
  | H : query _ _ = (Ok _, _) |- _ => apply query_Ok_inv in H as [? ?]
  | H : query_text _ _ _ = (Ok _, _) |- _ => apply query_text_Ok_inv in H as [? ?]
  | H : exec _ _ = (Ok _, _) |- _ => apply exec_Ok_inv in H
  | H : now _ = (Ok _, _) |- _ => apply now_Ok_inv in H as (? & ? & ?)
  | H : nextval _ _ = (Ok _, _) |- _ => apply nextval_Ok_inv in H
  | H : gets _ _ = (Ok _, _) |- _ => apply gets_Ok_inv in H as [? ?]
  | H : guard_err _ _ _ = (Ok _, _) |- _ => apply guard_Ok_inv in H as [? ?]
  | H : lift _ _ = (Ok _, _) |- _ => apply lift_Ok_inv in H as [? ?]
  | H : modify _ _ = (Ok _, _) |- _ => apply modify_Ok_inv in H
  | H : (mret _) _ = (Ok _, _) |- _ => apply mret_Ok_inv in H as [? ?]
  | H : rand_read _ _ = (Ok _, _) |- _ => apply rand_Ok_inv in H as [? ?]
  | H : transaction _ _ = (Ok _, _) |- _ => apply transaction_Ok_inv in H as (? & ? & ? & (? & ? & ?) & ? & ? & ?)
  end.

(** ** Invariants of the tables that also bound the clock from below *)
Definition since (t0 : Time) (P : DB -> Prop) (w : World) : Prop := t0 <= clock w /\ P (db w).
Section since.
Context (t0 : Time) (P : DB -> Prop).

Lemma since_stmt : preserves (since t0 P) stmt.
Proof. intros w Hw. unfold since. by rewrite stmt_db, stmt_clock. Qed.
Lemma since_now {E} : preserves (since t0 P) (@now E).
Proof.
  intros w [H1 H2]. unfold since. rewrite now_db. destruct (@now_Ok E w) as (t & _ & Hle & ->).
  split; [lia|done].
Qed.
Lemma since_nextval t : preserves (since t0 P) (nextval t).
Proof. by intros w Hw. Qed.
Lemma since_rand n : preserves (since t0 P) (rand_read n).
Proof. intros w Hw. unfold rand_read. by destruct (_ =? _)%nat. Qed.
Lemma since_query {A} (f : DB -> A) : preserves (since t0 P) (query f).
Proof. apply preserves_bind; [apply since_stmt|]. intros _. apply preserves_gets. Qed.
Lemma since_query_text {A} t (f : DB -> A) : preserves (since t0 P) (query_text t f).
Proof.
  apply preserves_bind; [apply since_stmt|]. intros _. apply preserves_bind; [|intros _; apply preserves_gets].
  unfold guard_err. destruct (negb _); intros w Hw; exact Hw.
Qed.
Lemma since_modify {E} f :
  (forall d, P d -> P (f d)) -> preserves (since t0 P) (modify (on_db f) : M World E unit).
Proof. intros Hf. apply preserves_modify. intros w [H1 H2]. split; [done|by apply Hf]. Qed.
Lemma since_exec f : (forall d, P d -> P (f d)) -> preserves (since t0 P) (exec f).
Proof.
  intros Hf. apply preserves_bind; [apply since_stmt|]. intros _. by apply since_modify.
Qed.
Lemma since_transaction {A} (body : Time -> MW A) :
  (forall t, preserves (since t0 P) (body t)) -> preserves (since t0 P) (transaction body).
Proof.
  intros Hb w Hw. unfold transaction.
  set (m := (_ ← stmt; t ← now; r ← body t; _ ← stmt; mret r) : MW A).
  assert (preserves (since t0 P) m) as Hm.
  { apply preserves_bind; [apply since_stmt|]. intros _.
    apply preserves_bind; [apply since_now|]. intros t.
    apply preserves_bind; [apply Hb|]. intros r.
    apply preserves_bind; [apply since_stmt|]. intros _. apply preserves_ret. }
  specialize (Hm w Hw). destruct (m w) as [[a|e] w']; [exact Hm|].
  split; [apply Hm|apply Hw].
Qed.
End since.
#[export] Hint Resolve since_stmt since_now since_nextval since_rand since_query since_query_text : preserves.
(** The changes of a body are left as goals on the tables. *)
Ltac since_tac :=
  repeat match goal with
  | |- preserves (since _ _) (transaction _) => apply since_transaction; intros ?
  | |- preserves (since _ _) (exec _) => apply since_exec; intros ? ?
  | |- preserves (since _ _) (modify (on_db _)) => apply since_modify; intros ? ?
  | |- preserves _ (let '(_, _) := ?x in _) => destruct x
  | |- preserves _ _ => preserves_step
  end.

(** ** Runs and their errors *)
(** A call that only reads. *)
Lemma keeps_run {E A} (m : M World E A) w r w' :
  preserves (db_inv (eq (db w))) m -> m w = (r, w') -> db w' = db w.
Proof. intros Hp H. specialize (Hp w eq_refl). by rewrite H in Hp. Qed.
(** The clock does not go back. *)
Lemma clock_run {E A} (m : M World E A) w r w' :
  preserves (since (clock w) (fun _ => True)) m -> m w = (r, w') -> clock w <= clock w'.
Proof.
  intros Hp H. assert (since (clock w) (fun _ => True) w) as Hw by (split; [lia|done]).
  specialize (Hp w Hw). rewrite H in Hp. apply Hp.
Qed.
(** A component of the tables that a call keeps. *)
Lemma run_keeps {E A B} (f : DB -> B) (m : M World E A) w r w' :
  preserves (db_inv (fun d => f d = f (db w))) m -> m w = (r, w') -> f (db w') = f (db w).
Proof. intros Hp H. specialize (Hp w eq_refl). by rewrite H in Hp. Qed.
(** Calls that cannot fail, and calls whose errors come before any write. *)
Definition never_fails {E A} (m : M World E A) : Prop := forall w e w', m w <> (Fail e, w').
Definition fails_clean {E A} (m : M World E A) : Prop := forall w e w', m w = (Fail e, w') -> db w' = db w.
Lemma never_bind {E A B} (m : M World E A) (f : A -> M World E B) :
  never_fails m -> (forall a, never_fails (f a)) -> never_fails (m ≫= f).
Proof.
  intros Hm Hf w e w'. rewrite M_bind_run. destruct (m w) as [[a|e0] w0] eqn:H; [apply Hf|].
  by apply Hm in H.
Qed.
Lemma never_ret {E A} (a : A) : never_fails (mret a : M World E A).
Proof. by intros w e w'. Qed.
Lemma never_try {E E' A} (m : M World E A) : never_fails (try m : M World E' (res E A)).
Proof. intros w e w'. unfold try. by destruct (m w). Qed.
Lemma never_now {E} : never_fails (@now E).
Proof. intros w e w'. unfold now. by destruct (ticks w). Qed.
Lemma never_modify {E} f : never_fails (modify f : M World E unit).
Proof. by intros w e w'. Qed.
Lemma clean_never {E A} (m : M World E A) : never_fails m -> fails_clean m.
Proof. intros Hm w e w' H. by apply Hm in H. Qed.
Lemma clean_read {E A} (m : M World E A) : (forall I, preserves (db_inv I) m) -> fails_clean m.
Proof. intros Hm w e w' H. by eapply keeps_run. Qed.
Lemma clean_bind {E A B} (m : M World E A) (f : A -> M World E B) :
  (forall I, preserves (db_inv I) m) -> (forall a, fails_clean (f a)) -> fails_clean (m ≫= f).
Proof.
  intros Hm Hf w e w'. rewrite M_bind_run. destruct (m w) as [[a|e0] w0] eqn:H.
  - intros ->%Hf. by eapply keeps_run.
  - intros [= _ <-]. by eapply keeps_run.
Qed.
Lemma clean_last {E A B} (m : M World E A) (f : A -> M World E B) :
  fails_clean m -> (forall a, never_fails (f a)) -> fails_clean (m ≫= f).
Proof.
  intros Hm Hf w e w'. rewrite M_bind_run. destruct (m w) as [[a|e0] w1] eqn:H; [intros H'; by apply Hf in H'|].
  intros [= _ <-]. by eapply Hm.
Qed.
Lemma exec_clean f : fails_clean (exec f).
Proof. apply clean_bind; [intros; auto with preserves|]. intros _. apply clean_never, never_modify. Qed.
Create HintDb never.
#[export] Hint Resolve never_bind never_ret never_try never_now never_modify : never.
(** A call that writes at most once, with one of the changes [F]. *)
Definition writes_once {E A} (F : (DB -> DB) -> Prop) (m : M World E A) : Prop :=
  forall w r w', m w = (r, w') -> db w' = db w \/ exists f, F f /\ db w' = f (db w).
Lemma once_read {E A B} F (m : M World E A) (k : A -> M World E B) :
  (forall I, preserves (db_inv I) m) -> (forall a, writes_once F (k a)) -> writes_once F (m ≫= k).
Proof.
  intros Hm Hk w r w'. rewrite M_bind_run. destruct (m w) as [[a|e] w0] eqn:H.
  - apply keeps_run in H; [|apply Hm]. intros [H'|H']%Hk; rewrite H in H'; [by left|by right].
  - intros [= _ <-]. left. by eapply keeps_run.
Qed.
Lemma once_write {E B} (F : (DB -> DB) -> Prop) f (k : M World E B) :
  F f -> (forall I, preserves (db_inv I) k) -> writes_once F (modify (on_db f) ≫= fun _ => k).
Proof.
  intros Hf Hk w r w' H. right. exists f. split; [done|]. change (k (on_db f w) = (r, w')) in H.
  eapply keeps_run in H; [exact H|apply Hk].
Qed.

(** ** Calls that leave a part of the world alone *)
Definition fixed {B E A} (f : World -> B) (m : M World E A) : Prop := forall w, f (m w).2 = f w.
(** A part that reading the clock, a statement and the random source do not touch. *)
Class Steady {B} (f : World -> B) := {
  steady_faults g w : f (on_faults g w) = f w;
  steady_clock g w : f (on_clock g w) = f w;
  steady_ticks g w : f (on_ticks g w) = f w;
  steady_entropy g w : f (on_entropy g w) = f w }.
Section fixed.
Context {B : Type} (f : World -> B).
Lemma fixed_ret {E A} (a : A) : fixed f (mret a : M World E A).
Proof. by intros w. Qed.
Lemma fixed_throw {E A} (e : E) : fixed f (throw e : M World E A).
Proof. by intros w. Qed.
Lemma fixed_lift {E A} (r : res E A) : fixed f (lift r : M World E A).
Proof. by intros w. Qed.
Lemma fixed_gets {E A} (g : World -> A) : fixed f (gets g : M World E A).
Proof. by intros w. Qed.
Lemma fixed_guard {E} c (e : E) : fixed f (guard_err c e : M World E unit).
Proof. by intros w; destruct c. Qed.
Lemma fixed_bind {E A C} (m : M World E A) (k : A -> M World E C) :
  fixed f m -> (forall a, fixed f (k a)) -> fixed f (m ≫= k).
Proof.
  intros Hm Hk w. rewrite M_bind_run. specialize (Hm w). destruct (m w) as [[a|e] w1]; [|exact Hm].
  rewrite <-Hm. apply Hk.
Qed.
Lemma fixed_try {E E' A} (m : M World E A) : fixed f m -> fixed f (try m : M World E' (res E A)).
Proof. intros Hm w. specialize (Hm w). unfold try. by destruct (m w). Qed.
Lemma fixed_map_err {E E' A} (g : E -> E') (m : M World E A) : fixed f m -> fixed f (map_err g m).
Proof. intros Hm w. specialize (Hm w). unfold map_err. by destruct (m w) as [[]]. Qed.
Lemma fixed_run {E A} (m : M World E A) w r w' : fixed f m -> m w = (r, w') -> f w' = f w.
Proof. intros Hm H. specialize (Hm w). by rewrite H in Hm. Qed.
Context `{!Steady f}.
Lemma fixed_stmt : fixed f stmt.
Proof using All. intros w. unfold stmt. destruct (faults w) as [|[] ?]; [done|apply steady_faults..]. Qed.
Lemma fixed_now {E} : fixed f (@now E).
Proof using All. intros w. unfold now. destruct (ticks w); [done|]. cbn [snd]. by rewrite steady_clock, steady_ticks. Qed.
Lemma fixed_rand n : fixed f (rand_read n).
Proof using All. intros w. unfold rand_read. destruct (_ =? _)%nat; [apply steady_entropy|done]. Qed.
Lemma fixed_query {A} (g : DB -> A) : fixed f (query g).
Proof using All. apply fixed_bind; [apply fixed_stmt|intros; apply fixed_gets]. Qed.
Lemma fixed_query_text {A} t (g : DB -> A) : fixed f (query_text t g).
Proof using All. apply fixed_bind; [apply fixed_stmt|]. intros _. apply fixed_bind; [apply fixed_guard|intros; apply fixed_gets]. Qed.
End fixed.
Create HintDb fixed.
#[export] Hint Resolve fixed_stmt fixed_now fixed_rand fixed_ret fixed_throw fixed_lift fixed_gets fixed_guard fixed_query fixed_query_text : fixed.
Ltac fixed_step :=
  match goal with
  | |- fixed _ (_ ≫= _) => apply fixed_bind; [|intros]
  | |- fixed _ (try _) => apply fixed_try
  | |- fixed _ (map_err _ _) => apply fixed_map_err
  | |- fixed _ (let '(_, _) := ?x in _) => destruct x
  | |- fixed _ (match ?x with _ => _ end) => destruct x
  | |- fixed _ _ => solve [eauto with fixed typeclass_instances]
  end.
Ltac fixed_tac := repeat fixed_step.
Lemma M_bind_any {E A B} (m : M World E A) (f : A -> M World E B) w r w' : (m ≫= f) w = (r, w') ->
  (exists e, r = Fail e /\ m w = (Fail e, w')) \/ exists a w1, m w = (Ok a, w1) /\ f a w1 = (r, w').
Proof. rewrite M_bind_run. destruct (m w) as [[a|e] w1]; [by eauto|]. intros [= <- <-]. eauto. Qed.

(** *** The tables and their sequences; the requests to GitHub *)
Definition tables (w : World) : DB * gmap string Z := (db w, sequences w).
#[export] Instance tables_steady : Steady tables.
Proof. by split. Qed.
#[export] Instance gh_log_steady : Steady gh_log.
Proof. by split. Qed.
Definition quiet (w w' : World) : Prop := db w' = db w /\ sequences w' = sequences w.
Abbreviation quiets := (fixed tables).
Lemma quiet_trans w1 w2 w3 : quiet w1 w2 -> quiet w2 w3 -> quiet w1 w3.
Proof. unfold quiet. intros [H1 H2] [H3 H4]. split; congruence. Qed.
Lemma quiets_at {E A} (m : M World E A) w : quiets m -> quiet w (m w).2.
Proof. intros Hm. specialize (Hm w). by injection Hm as H1 H2. Qed.
Lemma quiets_run {E A} (m : M World E A) w r w' : quiets m -> m w = (r, w') -> quiet w w'.
Proof. intros Hm H. pose proof (quiets_at m w Hm) as Hq. by rewrite H in Hq. Qed.
