(* ===== verification/Interleaving.v ===== *)
(** * Requests served at the same time

    The server runs a goroutine per request: between two statements of one
    request those of the others take place.  A call is cut into its statements
    ([Proc]), several calls form a [Pool], and a schedule, a list of numbers of
    calls, says whose turn it is; a turn of a call that is over, or of none,
    does nothing.  A statement of PostgreSQL is atomic; so is a transaction whose
    first statement takes the lock of the only row that the others contend for. *)
From S2P Require Import Prelude World.
#[global] Open Scope Z_scope.

(** ** Calls cut into statements *)
Inductive Proc (E A : Type) : Type :=
  | Return (r : res E A)
  | Call {E' B : Type} (m : M World E' B) (k : res E' B -> Proc E A).
Arguments Return {E A} r.
Arguments Call {E A E' B} m k.
Fixpoint proc_bind {E A B} (f : A -> Proc E B) (p : Proc E A) : Proc E B :=
  match p with
  | Return (Ok a) => f a
  | Return (Fail e) => Return (Fail e)
  | Call m k => Call m (fun r => proc_bind f (k r))
  end.
#[export] Instance Proc_ret {E} : MRet (Proc E) := fun A a => Return (Ok a).
#[export] Instance Proc_bind {E} : MBind (Proc E) := fun A B f p => proc_bind f p.
(** One atomic call; one whose error is looked at by the caller; a pure result. *)
Definition call {E A} (m : M World E A) : Proc E A := Call m Return.
Definition tried {E E' A} (m : M World E A) : Proc E' (res E A) := Call m (fun r => Return (Ok r)).
Definition pure {E A} (r : res E A) : Proc E A := Return r.
(** The call with no other beside it. *)
Fixpoint alone {E A} (p : Proc E A) : M World E A :=
  match p with
  | Return r => lift r
  | Call m k => fun w => let '(r, w') := m w in alone (k r) w'
  end.
Lemma alone_bind {E A B} (p : Proc E A) (f : A -> Proc E B) w :
  alone (p ≫= f) w = (a ← alone p; alone (f a)) w.
Proof.
  revert w. induction p as [[a|e]|E' B' m k IH]; intros w; [done|done|]. rewrite M_bind_run. cbn [alone].
  change (Call m k ≫= f) with (Call m (fun r => k r ≫= f)). cbn [alone]. destruct (m w) as [r w']. rewrite (IH r).
  by rewrite M_bind_run.
Qed.
Lemma alone_call {E A} (m : M World E A) w : alone (call m) w = m w.
Proof. cbn. by destruct (m w). Qed.
Lemma alone_tried {E E' A} (m : M World E A) w : alone (tried (E' := E') m) w = try m w.
Proof. done. Qed.

(** The errors of a part, as the whole answers them. *)
Fixpoint proc_map_err {E E' A} (f : E -> E') (p : Proc E A) : Proc E' A :=
  match p with
  | Return (Ok a) => Return (Ok a)
  | Return (Fail e) => Return (Fail (f e))
  | Call m k => Call m (fun r => proc_map_err f (k r))
  end.
Lemma alone_map_err {E E' A} (f : E -> E') (p : Proc E A) w : alone (proc_map_err f p) w = map_err f (alone p) w.
Proof.
  revert w. induction p as [ [a|e]|E1 B m k IH]; intros w; [done|done|]. unfold map_err. cbn [proc_map_err alone].
  destruct (m w) as [r w1]. by rewrite (IH r w1).
Qed.
Lemma alone_step {E A B} (m : M World E A) (f : A -> Proc E B) (g : A -> M World E B) w :
  (forall a w, alone (f a) w = g a w) -> alone (call m ≫= f) w = (m ≫= g) w.
Proof. intros H. rewrite alone_bind, !M_bind_run, alone_call. destruct (m w) as [ [a|e] w1]; [apply H|done]. Qed.

(** ** Pools and schedules *)
Abbreviation Pool E A := (list (Proc E A)).
(** The next statement of a call. *)
Definition advance {E A} (p : Proc E A) (w : World) : Proc E A * World :=
  match p with
  | Return r => (Return r, w)
  | Call m k => let '(r, w') := m w in (k r, w')
  end.
Definition turn {E A} (s : Pool E A * World) (i : nat) : Pool E A * World :=
  match s.1 !! i with
  | Some p => let '(p', w') := advance p s.2 in (<[i := p']> s.1, w')
  | None => s
  end.
Definition interleave {E A} (schedule : list nat) (s : Pool E A * World) : Pool E A * World := foldl turn s schedule.
(** A turn for each of [n] calls, [k] times over. *)
Definition round_robin (n k : nat) : list nat := flat_map (fun _ => seq 0 n) (seq 0 k).

(** An invariant of every turn holds at the end of every schedule. *)
Lemma interleave_inv {E A} (J : Pool E A -> World -> Prop) schedule ps w :
  J ps w ->
  (forall ps w i p p' w', J ps w -> ps !! i = Some p -> advance p w = (p', w') -> J (<[i := p']> ps) w') ->
  J (interleave schedule (ps, w)).1 (interleave schedule (ps, w)).2.
Proof.
  intros Hs Ht. unfold interleave. apply (foldl_inv (fun s => J s.1 s.2)); [exact Hs|]. intros [ps' w'] i _ HJ.
  unfold turn. cbn [fst snd] in *. destruct (ps' !! i) as [p|] eqn:Ei; [|done]. destruct (advance p w') eqn:Ea. by eapply Ht.
Qed.
Lemma interleave_length {E A} schedule (ps : Pool E A) w : length (interleave schedule (ps, w)).1 = length ps.
Proof.
  apply (interleave_inv (fun ps' _ => length ps' = length ps)); [done|]. intros ps' w' i p p' w'' <- _ _. apply length_insert.
Qed.

(** ** What every statement maintains *)
(** Each statement of the call keeps [I], wherever [I] holds when its turn comes. *)
Fixpoint maintains {E A} (I : World -> Prop) (p : Proc E A) : Prop :=
  match p with
  | Return _ => True
  | Call m k => forall w, I w -> I (m w).2 /\ maintains I (k (m w).1)
  end.
Lemma maintains_call {E A B} I (m : M World E A) (f : A -> Proc E B) :
  (forall w r w', I w -> m w = (r, w') -> I w' /\ forall a, r = Ok a -> maintains I (f a)) -> maintains I (call m ≫= f).
Proof.
  intros H w Hw. destruct (m w) as [r w'] eqn:E1. destruct (H w r w' Hw E1) as [H1 H2]. split; [done|].
  destruct r as [a|e]; [by apply H2|done].
Qed.
(** The rule of consequence: what holds of each value the first part returns. *)
Fixpoint returns {E A} (I : World -> Prop) (Q : A -> Prop) (p : Proc E A) : Prop :=
  match p with
  | Return (Ok a) => Q a
  | Return (Fail _) => True
  | Call m k => forall w, I w -> I (m w).2 /\ returns I Q (k (m w).1)
  end.
Lemma maintains_bind {E A B} I (Q : A -> Prop) (p : Proc E A) (f : A -> Proc E B) :
  returns I Q p -> (forall a, Q a -> maintains I (f a)) -> maintains I (p ≫= f).
Proof.
  intros Hp Hf. induction p as [ [a|e]|E1 B1 m k IH]; [by apply Hf|done|]. intros w Hw. destruct (Hp w Hw) as [H1 H2]. split; [done|].
  by apply IH.
Qed.
Lemma returns_map_err {E E' A} I Q (f : E -> E') (p : Proc E A) : returns I Q p -> returns I Q (proc_map_err f p).
Proof.
  intros Hp. induction p as [ [a|e]|E1 B1 m k IH]; [done|done|]. intros w Hw. destruct (Hp w Hw) as [H1 H2]. split; [done|].
  by apply IH.
Qed.
Lemma returns_call {E A B} I Q (m : M World E A) (f : A -> Proc E B) :
  (forall w r w', I w -> m w = (r, w') -> I w' /\ forall a, r = Ok a -> returns I Q (f a)) -> returns I Q (call m ≫= f).
Proof.
  intros H w Hw. destruct (m w) as [r w'] eqn:E1. destruct (H w r w' Hw E1) as [H1 H2]. split; [done|].
  destruct r as [a|e]; [by apply H2|done].
Qed.
(** A check between two statements. *)
Lemma returns_guard {E A} I (Q : A -> Prop) (b : bool) (e : E) f : (b = false -> returns I Q (f tt)) ->
  returns I Q (pure (if b then Fail e else Ok tt) ≫= f).
Proof. destruct b; [done|]. intros H. exact (H eq_refl). Qed.
(** What every call maintains holds at the end of every schedule. *)
Lemma interleave_maintains {E A} (I : World -> Prop) schedule (ps : Pool E A) w :
  Forall (maintains I) ps -> I w -> I (interleave schedule (ps, w)).2.
Proof.
  intros Hps Hw. apply (interleave_inv (fun ps w => Forall (maintains I) ps /\ I w)); [done|]. clear.
  intros ps w i p p' w' [Hps Hw] Hp Ha. pose proof (proj1 (Forall_lookup _ _) Hps _ _ Hp) as Hm.
  destruct p as [r|E1 B1 m k]; cbn in Ha; [injection Ha as <- <-; by rewrite list_insert_id|]. destruct (Hm w Hw) as [H1 H2].
  destruct (m w) as [r w1]. injection Ha as <- <-. split; [|done]. by apply Forall_insert.
Qed.

(** ** What a call is bound to *)
(** Every run of what is left answers [a], whatever the statements answer. *)
Fixpoint bound_to {E A} (a : A) (p : Proc E A) : Prop :=
  match p with Return r => r = Ok a | Call m k => forall r, bound_to a (k r) end.
(** At most [n] statements are left, whatever the tables are at each of them. *)
Fixpoint within {E A} (n : nat) (p : Proc E A) : Prop :=
  match p, n with
  | Return _, _ => True
  | Call m k, S n => forall w, within n (k (m w).1)
  | Call _ _, O => False
  end.
Lemma within_weaken {E A} n n' (p : Proc E A) : (n <= n')%nat -> within n p -> within n' p.
Proof.
  revert n n'. induction p as [r|E' B m k IH]; intros n n' Hle H; [by destruct n'|].
  destruct n as [|n]; [done|]. destruct n' as [|n']; [lia|]. intros w. apply (IH _ n); [lia|apply H].
Qed.
Lemma within_bind {E A B} n n' (p : Proc E A) (f : A -> Proc E B) :
  within n p -> (forall a, within n' (f a)) -> within (n + n') (p ≫= f).
Proof.
  revert n. induction p as [ [a|e]|E' B' m k IH]; intros n Hp Hf.
  - eapply within_weaken; [|apply Hf]. lia.
  - by destruct (n + n')%nat.
  - destruct n as [|n]; [done|]. intros w. by apply IH.
Qed.
Lemma within_call1 {E A} (m : M World E A) : within 1 (call m).
Proof. done. Qed.
Lemma within_tried {E E' A} (m : M World E A) : within 1 (tried (E' := E') m).
Proof. done. Qed.

Lemma bound_advance {E A} (a : A) (p : Proc E A) w : bound_to a p -> bound_to a (advance p w).1.
Proof. destruct p as [r|E' B m k]; [done|]. intros H. cbn. destruct (m w). apply H. Qed.
Lemma within_advance {E A} n (p : Proc E A) w : within (S n) p -> within n (advance p w).1.
Proof. destruct p as [r|E' B m k]; intros H; cbn; [by destruct n|]. specialize (H w). by destruct (m w). Qed.
Lemma within_0 {E A} (p : Proc E A) : within 0 p -> exists r, p = Return r.
Proof. destruct p as [r|]; [by exists r|done]. Qed.
Lemma turn_lookup {E A} (s : Pool E A * World) i j :
  (turn s i).1 !! j = (if decide (i = j) then (fun p => (advance p s.2).1) <$> s.1 !! j else s.1 !! j).
Proof.
  unfold turn. destruct (s.1 !! i) as [p|] eqn:Ei.
  - destruct (advance p s.2) as [p' w'] eqn:Ea. cbn [fst]. destruct (decide (i = j)) as [<-|Hij].
    + rewrite list_lookup_insert_eq by (by eapply lookup_lt_Some). rewrite Ei. cbn. by rewrite Ea.
    + by rewrite list_lookup_insert_ne.
  - destruct (decide (i = j)) as [<-|Hij]; [by rewrite Ei|done].
Qed.
(** A call is over after as many turns of its own as it has statements, whatever
    the others do: no call waits for another. *)
Lemma own_turns {E A} schedule (s : Pool E A * World) i n p : s.1 !! i = Some p -> within n p ->
  (n <= length (List.filter (Nat.eqb i) schedule))%nat -> exists r, (interleave schedule s).1 !! i = Some (Return r).
Proof.
  revert s n p. induction schedule as [|j schedule IH]; intros s n p Hp Hn Hle; cbn [List.filter] in *.
  { assert (n = 0%nat) as -> by (cbn in Hle; lia). apply within_0 in Hn as [r ->]. by exists r. }
  cbn [interleave foldl]. destruct (Nat.eqb_spec i j) as [<-|Hij].
  - apply (IH (turn s i) (pred n) (advance p s.2).1).
    + rewrite turn_lookup, decide_True, Hp by done. done.
    + apply within_advance. eapply within_weaken; [|exact Hn]. lia.
    + cbn [length] in Hle. lia.
  - apply (IH (turn s j) n p); [|done|done]. by rewrite turn_lookup, decide_False.
Qed.
(** A call whose turns all come is the call alone. *)
Lemma alone_in_pool {E A} (p : Proc E A) w : exists n r w', alone p w = (r, w') /\
  interleave (replicate n 0%nat) ([p], w) = ([Return r], w').
Proof.
  revert w. induction p as [r|E' B m k IH]; intros w; [by exists 0%nat, r, w|]. cbn [alone]. destruct (m w) as [r w1] eqn:Em.
  destruct (IH r w1) as (n & r' & w' & H1 & H2). exists (S n), r', w'. split; [done|]. cbn [replicate interleave foldl].
  unfold turn at 2. cbn [fst snd lookup list_lookup advance]. by rewrite Em.
Qed.
