(* ===== verification/Mail.v ===== *)
(** * Transactional mail

    Models [internal/notify/template.go] and [mailer.go],
    [internal/data/email_template_store.go], [internal/domain/email.go] and
    [internal/mailtpl/sender.go].  The SMTP library is a parameter: a message
    is delivered or refused.  A Go map is ranged over in an order of its own at
    every run: that order is a parameter too.  The text of an error is kept as
    the error. *)
From S2P Require Import Prelude GoStr Regex Json Exchange Accounts Lights World.
#[global] Open Scope Z_scope.

(** ** template.go *)
Definition TemplateVars : Type := gmap string string.
Definition placeholderPattern : regex := MustCompile "\{\{[a-zA-Z0-9_]+\}\}".
Definition marker (key : list Z) : list Z := [123; 123] ++ key ++ [125; 125].
(** One round of the loop over the map. *)
Definition render_var (out : list Z) (kv : string * string) : list Z :=
  ReplaceAll out (marker (quote kv.1)) (quote kv.2).
(** The rendering with the variables in the order of one run. *)
Definition render_in (order : list (string * string)) (text : string) : string :=
  let out := foldl render_var (quote text) order in
  str (map chr (replace_all (S (length out)) placeholderPattern [] ([], out))).
Definition SampleTemplateVars : TemplateVars :=
  list_to_map [("first_name", "Jean"); ("last_name", "Dupont"); ("email", "jean.dupont@example.com");
    ("role", "guest_local"); ("portal_url", "https://mon.essensys.fr/"); ("temporary_password", "MotDePasseExemple");
    ("gateway_name", "essensys-gateway"); ("gateway_ip", "82.67.136.197"); ("armoire_label", "ARM-001");
    ("armoire_ip", "10.0.1.42"); ("support_email", "noreply@essensys.fr")].

(** ** email.go *)
Definition EmailSlugUserWelcome : string := "user_welcome".
Definition EmailSlugDeviceAllocation : string := "device_allocation".
Definition EmailSlugPasswordReset : string := "password_reset".
Definition EmailSlugTemporaryPassword : string := "temporary_password".

(** ** email_template_store.go *)
Module EmailTemplateStore.
Definition is_slug (slug : string) (t : EmailTemplate) : bool := seqb (ET_Slug t) slug.
(** [ORDER BY slug], in byte order. *)
Definition slug_le (a b : EmailTemplate) : Prop := str_ltb (ET_Slug b) (ET_Slug a) = false.
Global Instance slug_le_dec a b : Decision (slug_le a b).
Proof. unfold slug_le. apply _. Defined.
Definition List : MW (list EmailTemplate) := query (fun d => merge_sort slug_le (email_templates d)).
Definition Get (slug : string) : MW EmailTemplate :=
  r ← query (fun d => get_row (is_slug slug) (email_templates d));
  lift (match r with
        | Ok t => Ok t
        | Fail e => if bool_decide (e = ErrNoRows) then Fail (Sentinel "template not found") else Fail e
        end).
(** The columns of the table hold at most so many characters. *)
Definition columns_fit (t : EmailTemplate) : bool :=
  varchar 64 (ET_Slug t) && varchar 128 (ET_Name t) && text_ok (ET_Subject t)
  && text_ok (ET_BodyHTML t) && text_ok (ET_BodyText t).
Definition upsert_row (t : EmailTemplate) (rows : list EmailTemplate) : list EmailTemplate :=
  if existsb (is_slug (ET_Slug t)) rows then
    update_where (is_slug (ET_Slug t)) (fun old =>
      mkEmailTemplate (ET_Slug old) (ET_Name t) (ET_Subject t) (ET_BodyHTML t) (ET_BodyText t)
        (ET_Enabled t) (ET_AutoSend t) (ET_CreatedAt old) (ET_UpdatedAt t)) rows
  else rows ++ [t].
Definition Upsert (t : EmailTemplate) : MW unit :=
  clock ← now;
  let row := mkEmailTemplate (ET_Slug t) (ET_Name t) (ET_Subject t) (ET_BodyHTML t) (ET_BodyText t)
               (ET_Enabled t) (ET_AutoSend t) clock clock in
  _ ← stmt;
  _ ← guard_err (negb (columns_fit t)) ErrDB;
  modify (on_db (on_email_templates (upsert_row row))).
(** No message at all for a send that succeeded. *)
Definition LogSend (recipient slug status : string) (e : option err) (adminID : option Z) : MW unit :=
  t ← now;
  _ ← stmt;
  id ← nextval "email_send_log";
  _ ← guard_err (negb (varchar 255 recipient && varchar 64 slug && varchar 32 status)) ErrDB;
  modify (on_db (on_email_send_log (fun rows => rows ++
    [mkEmailSendLog id recipient slug status e adminID t]))).
End EmailTemplateStore.

(** ** mailer.go and sender.go *)
(** The environment of the process, the SMTP library ([gomail]'s dialer given
    host, port, user, password, sender and message), and the order of a range. *)
Record MailService := mkMailService {
  Getenv : string -> string;
  DialAndSend : string -> Z -> string -> string -> string -> Mail -> option err;
  range_order : TemplateVars -> list (string * string) }.
(** What the sender asks of a template store. *)
Class TemplateStore := {
  template_get : string -> MW EmailTemplate;
  template_log : string -> string -> string -> option err -> option Z -> MW unit }.
#[export] Instance template_store : TemplateStore :=
  {| template_get := EmailTemplateStore.Get; template_log := EmailTemplateStore.LogSend |}.
Section mail.
Context (mail : MailService).
Definition Render (text : string) (vars : TemplateVars) : string := render_in (range_order mail vars) text.
Definition set_env (name : string) : bool := negb (is_empty (Getenv mail name)).
Definition Configured : bool :=
  set_env "SMTP_HOST" && set_env "SMTP_PORT" && set_env "SMTP_USER" && set_env "SMTP_PASS".
Definition SMTP_missing : err := Errorf "SMTP configuration missing in environment variables" [].
Definition Send (to subject bodyHTML : string) : MW unit :=
  _ ← guard_err (negb Configured) SMTP_missing;
  port ← lift (ok_or (Atoi (Getenv mail "SMTP_PORT")) (Errorf "invalid SMTP port: %v" []));
  let user := Getenv mail "SMTP_USER" in
  let from := if is_empty (Getenv mail "SMTP_FROM") then user else Getenv mail "SMTP_FROM" in
  let m := mkMail to subject bodyHTML in
  match DialAndSend mail (Getenv mail "SMTP_HOST") port user (Getenv mail "SMTP_PASS") from m with
  | Some e => throw e
  | None => modify (on_outbox (fun l => l ++ [m]))
  end.
(** [Result]: what was sent, or why not. *)
Record Result := mkResult { Sent : bool; Err : option err }.
Definition failed (e : err) : Result := mkResult false (Some e).
Context `{templates : TemplateStore}.
Definition logFailure (recipient slug : string) (e : err) (actorID : option Z) : MW unit :=
  _ ← try (E := err) (E' := err) (template_log recipient slug "failed" (Some e) actorID); mret tt.
Definition mail_body (tpl : EmailTemplate) (vars : TemplateVars) : string :=
  let body := Render (ET_BodyHTML tpl) vars in
  if is_empty body && negb (is_empty (ET_BodyText tpl))
  then ("<pre>" ++ Render (ET_BodyText tpl) vars ++ "</pre>")%string else body.
Definition SendTemplate (slug recipient : string) (vars : TemplateVars) (actorID : option Z)
    (requireEnabled : bool) : MW Result :=
  if is_empty (TrimSpace recipient) then mret (failed (Errorf "no recipient" [])) else
  found ← try (template_get slug);
  match found with
  | Fail e => mret (failed e)
  | Ok tpl =>
      if requireEnabled && negb (ET_Enabled tpl) then mret (failed (Errorf "template %s is disabled" [AStr slug]))
      else if negb Configured then
        let e := Errorf "SMTP configuration missing" [] in
        _ ← logFailure recipient slug e actorID; mret (failed e)
      else
        let subject := Render (ET_Subject tpl) vars in
        let body := mail_body tpl vars in
        sent ← try (Send recipient subject body);
        match sent with
        | Fail e => _ ← logFailure recipient slug e actorID; mret (failed e)
        | Ok _ => _ ← try (E := err) (E' := err) (template_log recipient slug "sent" None actorID); mret (mkResult true None)
        end
  end.
(** The variables of every template. *)
Definition env_or (name other : string) : string :=
  let v := TrimSpace (Getenv mail name) in if is_empty v then other else v.
Definition PortalURL : string := env_or "FRONTEND_URL" "https://www.essensys.fr/".
Definition SupportEmail : string := env_or "SMTP_FROM" "support@essensys.fr".
Definition BaseUserVars (user : User) : TemplateVars :=
  let vars := list_to_map [("first_name", U_FirstName user); ("last_name", U_LastName user); ("email", U_Email user);
                ("role", U_Role user); ("portal_url", PortalURL); ("support_email", SupportEmail)] in
  if is_empty (U_FirstName user) then <["first_name" := U_Email user]> vars else vars.
End mail.

(** ** What a template renders to *)
(** A template read once, from left to right: symbols and markers. *)
Inductive token := Lit (x : Z) | Mark (name : list Z).
Definition token_text (t : token) : list Z := match t with Lit x => [x] | Mark name => marker name end.
Definition text_of (ts : list token) : list Z := mjoin (map token_text ts).
Definition name_symbol (x : Z) : bool := in_ranges [(97, 122); (65, 90); (48, 57); (95, 95)] x.
Definition name_ok (name : list Z) : bool := negb (bool_decide (name = [])) && forallb name_symbol name.
(** Outside the markers an opening brace stands alone. *)
Fixpoint stable (ts : list token) : bool :=
  match ts with
  | [] => true
  | Lit x :: r =>
      (if x =? 123 then match r with Lit y :: _ => negb (y =? 123) | _ => false end else true) && stable r
  | Mark name :: r => name_ok name && stable r
  end.
(** The reference: every marker replaced at once. *)
Definition expand (value : list Z -> list Z) (ts : list token) : list Z :=
  mjoin (map (fun t => match t with Lit x => [x] | Mark name => value name end) ts).
Definition value_of (vars : TemplateVars) (name : list Z) : list Z :=
  default [] (quote <$> vars !! str (map chr name)).
Definition subst (key value : list Z) (ts : list token) : list token :=
  mjoin (map (fun t => match t with
                       | Lit x => [Lit x]
                       | Mark name => if bool_decide (name = key) then map Lit value else [Mark name]
                       end) ts).

Lemma text_of_app a b : text_of (a ++ b) = text_of a ++ text_of b.
Proof. unfold text_of. by rewrite map_app, join_app. Qed.
Lemma text_of_lits l : text_of (map Lit l) = l.
Proof. induction l as [|x l IH]; [done|]. cbn. by f_equal. Qed.
Lemma name_ok_spec name : name_ok name = true <-> name <> [] /\ forallb name_symbol name = true.
Proof. unfold name_ok. rewrite andb_true_iff, negb_true_iff, bool_decide_eq_false. done. Qed.
Lemma name_symbol_brace name x : forallb name_symbol name = true -> x ∈ name -> x <> 123 /\ x <> 125.
Proof.
  rewrite forallb_elem. intros H Hx. apply H in Hx. unfold name_symbol, in_ranges in Hx. simpl in Hx. lia.
Qed.

(** *** One round of replacement *)
Section replace.
Context (key new : list Z).
Lemma no_prefix x l : x <> 123 -> has_prefix (marker key) (x :: l) = false.
Proof. intros Hx. change ((123 =? x) && has_prefix (123 :: key ++ [125; 125]) l = false). by rewrite (proj2 (Z.eqb_neq _ _) (not_eq_sym Hx)). Qed.
Lemma no_prefix_brace y l : y <> 123 -> has_prefix (marker key) (123 :: y :: l) = false.
Proof. intros Hy. change ((123 =? y) && has_prefix (key ++ [125; 125]) l = false). by rewrite (proj2 (Z.eqb_neq _ _) (not_eq_sym Hy)). Qed.
Lemma name_split (m n r s : list Z) : forallb name_symbol m = true -> forallb name_symbol n = true ->
  m ++ 125 :: r = n ++ 125 :: s -> m = n /\ r = s.
Proof.
  revert n. induction m as [|x m IH]; intros [|y n] Hm Hn H; simpl in *.
  - by injection H as ->.
  - injection H as <- _. apply andb_true_iff in Hn as [Hn _]. discriminate Hn.
  - injection H as -> _. apply andb_true_iff in Hm as [Hm _]. discriminate Hm.
  - injection H as -> H. apply andb_true_iff in Hm as [_ Hm], Hn as [_ Hn].
    apply IH in H as [-> ->]; [done|done|done].
Qed.
Lemma prefix_other name l : name_ok name = true -> name_ok key = true -> name <> key ->
  has_prefix (marker key) (marker name ++ l) = false.
Proof.
  intros [_ Hn]%name_ok_spec [_ Hk]%name_ok_spec Hne. apply not_true_iff_false. intros [rest E]%has_prefix_spec.
  unfold marker in E. rewrite <-!(assoc_L (++)) in E. simpl in E. injection E as E.
  by apply name_split in E as [E _].
Qed.
Lemma replace_tokens ts : name_ok key = true -> stable ts = true ->
  ReplaceAll (text_of ts) (marker key) new = text_of (subst key new ts).
Proof.
  intros Hk. unfold ReplaceAll. induction ts as [|[x|name] ts IH]; intros Hs; cbn [stable] in Hs; [done| |].
  - apply andb_true_iff in Hs as [Hx Hs]. change (text_of (Lit x :: ts)) with (x :: text_of ts).
    change (text_of (subst key new (Lit x :: ts))) with (x :: text_of (subst key new ts)). cbn [replace_skip].
    rewrite <-IH by done. destruct (x =? 123) eqn:E; [|rewrite no_prefix by lia; done].
    destruct ts as [|[y|] ts]; try done. apply Z.eqb_eq in E as ->.
    change (text_of (Lit y :: ts)) with (y :: text_of ts). rewrite no_prefix_brace by lia. done.
  - apply andb_true_iff in Hs as [Hn Hs]. change (text_of (Mark name :: ts)) with (marker name ++ text_of ts).
    unfold subst. cbn [map]. rewrite mjoin_cons, text_of_app. fold (subst key new ts). rewrite <-IH by done.
    destruct (bool_decide (name = key)) eqn:E.
    + apply bool_decide_eq_true in E as ->. rewrite text_of_lits.
      change (marker key ++ text_of ts) with (123 :: (([123] ++ key ++ [125; 125]) ++ text_of ts)).
      cbn [replace_skip]. change (123 :: (([123] ++ key ++ [125; 125]) ++ text_of ts)) with (marker key ++ text_of ts).
      rewrite has_prefix_app. f_equal. change (length (marker key) - 1)%nat with (length ([123] ++ key ++ [125; 125])).
      apply replace_skips.
    + apply bool_decide_eq_false in E. pose proof (prefix_other name (text_of ts) Hn Hk E) as Hp.
      apply name_ok_spec in Hn as [Hne Hn]. cbn [map mjoin list_join]. unfold text_of at 2. cbn [map]. rewrite mjoin_cons.
      change (marker name ++ text_of ts) with (123 :: 123 :: ((name ++ [125; 125]) ++ text_of ts)) in *.
      rewrite replace_no by done.
      change (token_text (Mark name) ++ []) with (123 :: 123 :: (name ++ [125; 125]) ++ []). rewrite app_nil_r.
      cbn [app]. f_equal.
      destruct name as [|y name]; [done|]. assert (y <> 123) as Hy.
      { eapply name_symbol_brace; [exact Hn|left]. }
      rewrite (replace_no _ _ 123) by (apply no_prefix_brace; exact Hy). f_equal.
      change (marker key) with (123 :: (123 :: key ++ [125; 125])).
      rewrite (replace_passes 123 _ new); [done|]. rewrite elem_of_app. intros [H|H].
      * by eapply name_symbol_brace in H as [H _].
      * rewrite !elem_of_cons, elem_of_nil in H. lia.
Qed.
End replace.

(** *** The markers that are left *)
Lemma star_set_inv neg rs p c q d : matches (RStar (RSet neg rs)) p c q d ->
  exists m, p.2 = m ++ q.2 /\ q.1 = rev m ++ p.1 /\ d = c /\ forallb (in_set neg rs) m = true.
Proof.
  remember (RStar (RSet neg rs)) as r eqn:Hr. induction 1 as [| | | | |a p c|a p c q d q' d' Ha _ Hlt _ IH| | |]; try done.
  - by exists [].
  - injection Hr as ->. specialize (IH eq_refl) as (m & H1 & H2 & -> & Hm).
    inversion Ha as [|neg' rs' x before after c' Hin| | | | | | | |]; subst. simpl in *. exists (x :: m).
    rewrite H1, H2. simpl. rewrite Hin, <-(assoc_L (++)). done.
Qed.
Lemma placeholder_inv p c q d : matches placeholderPattern p c q d ->
  exists name, name_ok name = true /\ p.2 = marker name ++ q.2 /\ q.1 = rev (marker name) ++ p.1 /\ d = c.
Proof.
  assert (placeholderPattern = ltac:(let r := eval vm_compute in placeholderPattern in exact r)) as -> by reflexivity.
  intros H.
  repeat match goal with
  | H : matches (RSeq _ _) _ _ _ _ |- _ => inversion H; subst; clear H
  | H : matches (RSet _ _) _ _ _ _ |- _ => inversion H; subst; clear H
  | H : matches REmpty _ _ _ _ |- _ => inversion H; subst; clear H
  | H : matches (RStar _) _ _ _ _ |- _ => apply star_set_inv in H as (? & ? & ? & ? & ?)
  end.
  repeat match goal with H : in_set false [(?a, ?a)] ?x = true |- _ =>
    assert (x = a) as -> by (unfold in_set, in_ranges in H; simpl in H; lia); clear H end.
  match goal with H : in_set _ _ ?x = true, Hm : forallb _ ?m = true |- _ =>
    exists (x :: m); change (name_symbol x = true) in H; change (forallb name_symbol m = true) in Hm end.
  simpl in *. subst.
  split_and!; try done.
  - apply name_ok_spec. split; [done|]. cbn [forallb]. apply andb_true_iff. by split.
  - simpl. by rewrite <-(assoc_L (++)).
  - unfold marker. simpl. rewrite rev_app_distr. simpl. by rewrite <-!(assoc_L (++)).
Qed.
Lemma placeholder_matches before name rest : name_ok name = true ->
  exists q d, matches placeholderPattern (before, marker name ++ rest) [] q d.
Proof.
  assert (placeholderPattern = ltac:(let r := eval vm_compute in placeholderPattern in exact r)) as -> by reflexivity.
  intros [Hne Hn]%name_ok_spec. destruct name as [|x name]; [done|]. cbn [forallb] in Hn.
  apply andb_true_iff in Hn as [Hx Hn]. do 2 eexists.
  change (marker (x :: name) ++ rest) with (123 :: 123 :: x :: ((name ++ [125; 125]) ++ rest)).
  rewrite <-(assoc_L (++) name). simpl.
  eapply m_seq; [by constructor|]. eapply m_seq; [by constructor|]. eapply m_seq.
  { eapply m_seq; [by constructor|].
    assert (forall m b, forallb name_symbol m = true ->
      matches (RStar (RSet false [(97, 122); (65, 90); (48, 57); (95, 95)])) (b, m ++ 125 :: 125 :: rest) []
        (rev m ++ b, 125 :: 125 :: rest) []) as Hstar; [|apply (Hstar name (x :: 123 :: 123 :: before) Hn)].
    clear. induction m as [|y m IH]; intros b Hm; [constructor|]. cbn [forallb] in Hm. apply andb_true_iff in Hm as [Hy Hm].
    change ((y :: m) ++ 125 :: 125 :: rest) with (y :: (m ++ 125 :: 125 :: rest)).
    eapply m_star_step; [apply m_set; exact Hy|apply Nat.lt_succ_diag_r|]. simpl. rewrite <-(assoc_L (++)). by apply IH. }
  eapply m_seq; [by constructor|]. eapply m_seq; [by constructor|]. constructor.
Qed.
Lemma placeholder_mt {A} before name rest (k : pos -> captures -> option A) : name_ok name = true ->
  (forall p c, is_Some (k p c)) ->
  mt placeholderPattern (before, marker name ++ rest) [] k = k (rev (marker name) ++ before, rest) [].
Proof.
  intros Hn Hk. destruct (placeholder_matches before name rest Hn) as (q0 & d0 & Hm0).
  destruct (mt placeholderPattern (before, marker name ++ rest) [] k) as [x|] eqn:E.
  - apply mt_sound in E as ([q1 q2] & d & (name' & Hn' & H1 & H2 & ->)%placeholder_inv & <-). simpl in H1, H2.
    assert (name = name' /\ rest = q2) as [<- <-]; [|by subst q1].
    unfold marker in H1. rewrite <-!(assoc_L (++)) in H1. injection H1 as H1.
    apply name_ok_spec in Hn as [_ Hn], Hn' as [_ Hn']. apply name_split in H1 as [-> H1]; [|done..].
    by injection H1 as ->.
  - exfalso. eapply (mt_complete _ _ _ _ _ k) in Hm0; [|apply Hk]. rewrite E in Hm0. by destruct Hm0.
Qed.
Lemma placeholder_lit {A} before x ts (k : pos -> captures -> option A) : stable (Lit x :: ts) = true ->
  mt placeholderPattern (before, x :: text_of ts) [] k = None.
Proof.
  intros Hs. destruct (mt _ _ _ _) as [y|] eqn:E; [|done]. exfalso.
  apply mt_sound in E as (q & d & (name & _ & Hp & _)%placeholder_inv & _). simpl in Hp. injection Hp as -> Hp.
  cbn [stable] in Hs. simpl in Hs. destruct ts as [|[z|] ts]; try done.
  injection Hp as -> _. done.
Qed.
(** The search finds the first marker. *)
Lemma search_tokens ts before : stable ts = true ->
  (search_from placeholderPattern before (text_of ts) = None /\ expand (fun _ => []) ts = text_of ts) \/
  (exists lits name r, ts = map Lit lits ++ Mark name :: r /\ stable r = true /\
    search_from placeholderPattern before (text_of ts) =
      Some ((rev lits ++ before, text_of (Mark name :: r)), (rev (marker name) ++ rev lits ++ before, text_of r), [])).
Proof.
  revert before. induction ts as [|[x|name] ts IH]; intros before Hs.
  - left. split; [|done]. cbn. destruct (mt _ _ _ _) as [y|] eqn:E; [|done]. exfalso.
    apply mt_sound in E as (q & d & (name & _ & Hp & _)%placeholder_inv & _). done.
  - change (text_of (Lit x :: ts)) with (x :: text_of ts). cbn [search_from]. rewrite placeholder_lit by done.
    cbn [stable] in Hs. apply andb_true_iff in Hs as [_ Hs].
    destruct (IH (x :: before) Hs) as [ [-> He]|(lits & name & r & -> & Hr & ->)]; [left|right].
    + split; [done|]. unfold expand. cbn [map]. rewrite mjoin_cons. by f_equal.
    + exists (x :: lits), name, r. split_and!; [done|done|]. simpl. by rewrite <-!(assoc_L (++)).
  - cbn [stable] in Hs. apply andb_true_iff in Hs as [Hn Hs]. right. exists [], name, ts. split_and!; [done..|].
    change (text_of (Mark name :: ts)) with (marker name ++ text_of ts).
    destruct (marker name ++ text_of ts) as [|y l] eqn:El; [done|]. cbn [search_from]. rewrite <-El.
    rewrite placeholder_mt; [done|done|]. intros. by eexists.
Qed.
Lemma remove_markers fuel ts before : stable ts = true -> (length (text_of ts) < fuel)%nat ->
  replace_all fuel placeholderPattern [] (before, text_of ts) = expand (fun _ => []) ts.
Proof.
  revert ts before. induction fuel as [|fuel IH]; intros ts before Hs Hl; [lia|]. cbn [replace_all fst snd].
  destruct (search_tokens ts before Hs) as [ [-> He]|(lits & name & r & -> & Hr & ->)]; [done|].
  cbn [fst snd]. rewrite text_of_app, text_of_lits in *.
  change (text_of (Mark name :: r)) with (marker name ++ text_of r) in *.
  rewrite !length_app in *. rewrite IH by (done || (simpl in *; lia)).
  replace (length lits + (length (marker name) + length (text_of r)) - (length (marker name) + length (text_of r)))%nat
    with (length lits) by lia.
  rewrite take_app_length. unfold expand. rewrite map_app, join_app. cbn [map]. rewrite mjoin_cons. f_equal.
  clear. induction lits as [|x l IH]; [done|]. cbn. by f_equal.
Qed.

(** *** All the variables *)
Definition value_in (order : list (string * string)) (name : list Z) : list Z :=
  match find (fun kv => bool_decide (quote kv.1 = name)) order with Some kv => quote kv.2 | None => [] end.
Definition no_brace (value : string) : bool := negb (bool_decide (123 ∈ quote value)).
Definition names_ok (vars : TemplateVars) : Prop :=
  map_Forall (fun key value => name_ok (quote key) = true /\ no_brace value = true) vars.
Lemma stable_subst key value ts : 123 ∉ value -> stable ts = true -> stable (subst key value ts) = true.
Proof.
  intros Hv. assert (forall l ts, 123 ∉ l -> stable (map Lit l ++ ts) = stable ts) as Hl.
  { induction l as [|x l IH]; intros us Hx; [done|]. cbn [map app stable].
    destruct (x =? 123) eqn:E; [apply Z.eqb_eq in E as ->; exfalso; apply Hx; left|]. apply IH. intros H. apply Hx. by right. }
  induction ts as [|[x|name] ts IH]; intros Hs; cbn [stable] in Hs; [done| |]; apply andb_true_iff in Hs as [Hx Hs].
  - change (subst key value (Lit x :: ts)) with (Lit x :: subst key value ts). cbn [stable].
    apply andb_true_iff. split; [|by apply IH]. destruct (x =? 123); [|done]. by destruct ts as [|[y|] ts].
  - unfold subst. cbn [map]. rewrite mjoin_cons. fold (subst key value ts).
    destruct (bool_decide _); [rewrite Hl by done; by apply IH|]. cbn [app stable]. by rewrite Hx, IH.
Qed.
Lemma expand_subst key value ts order :
  expand (value_in ((key, value) :: order)) ts = expand (value_in order) (subst (quote key) (quote value) ts).
Proof.
  assert (forall f l us, expand f (map Lit l ++ us) = l ++ expand f us) as Hl.
  { intros f l us. induction l as [|x l IH]; [done|]. cbn. by f_equal. }
  unfold expand at 1, subst. induction ts as [|[x|name] ts IH]; [done|..]; cbn [map]; rewrite !mjoin_cons, IH.
  - done.
  - unfold value_in at 1. cbn [find fst snd]. destruct (bool_decide (quote key = name)) eqn:E.
    + apply bool_decide_eq_true in E as <-. rewrite bool_decide_eq_true_2 by done. by rewrite Hl.
    + apply bool_decide_eq_false in E. rewrite bool_decide_eq_false_2 by congruence. done.
Qed.
Lemma expand_ext f g ts : stable ts = true -> (forall name, name_ok name = true -> f name = g name) ->
  expand f ts = expand g ts.
Proof.
  intros Hs Hfg. unfold expand. induction ts as [|[x|name] ts IH]; cbn [stable] in Hs; [done|..];
    apply andb_true_iff in Hs as [Hx Hs]; cbn [map]; rewrite !mjoin_cons, IH by done; [done|]. by rewrite Hfg.
Qed.
Lemma render_tokens order ts :
  Forall (fun kv => name_ok (quote kv.1) = true /\ no_brace kv.2 = true) order -> stable ts = true ->
  let out := foldl render_var (text_of ts) order in
  replace_all (S (length out)) placeholderPattern [] ([], out) = expand (value_in order) ts.
Proof.
  revert ts. induction order as [|[key value] order IH]; intros ts Ho Hs; cbn [foldl].
  - rewrite remove_markers; [done|done|lia].
  - apply Forall_cons in Ho as [ [Hk Hv] Ho]. unfold no_brace in Hv.
    apply negb_true_iff, bool_decide_eq_false in Hv. unfold render_var at 2. unfold render_var at 3. cbn [fst snd].
    rewrite replace_tokens by done. rewrite expand_subst. apply IH; [done|]. by apply stable_subst.
Qed.
Lemma quote_name name : forallb name_symbol name = true -> quote (str (map chr name)) = name.
Proof.
  intros Hn. unfold quote. rewrite bytes_str. rewrite map_map. rewrite <-(map_id name) at 2. apply map_ext_in.
  intros x Hx%list_elem_of_In. rewrite forallb_elem in Hn. apply Hn in Hx. unfold name_symbol, in_ranges in Hx.
  simpl in Hx. apply ord_chr. lia.
Qed.
Lemma str_quote s : str (map chr (quote s)) = s.
Proof.
  unfold quote. rewrite map_map. rewrite <-(str_bytes s) at 2. f_equal. rewrite <-(map_id (bytes s)) at 2.
  apply map_ext. intros c. apply chr_ord.
Qed.
Lemma value_in_order vars order name : order ≡ₚ map_to_list vars -> name_ok name = true ->
  value_in order name = value_of vars name.
Proof.
  intros Ho [_ Hn]%name_ok_spec. unfold value_in, value_of.
  destruct (find _ order) as [ [k v] |] eqn:E.
  - apply find_some in E as [Hin%list_elem_of_In Hk]. simpl in Hk. apply bool_decide_eq_true in Hk as <-.
    rewrite Ho in Hin. apply elem_of_map_to_list in Hin. rewrite str_quote. unfold lookup, gmap_lookup in *. by rewrite Hin.
  - destruct (vars !! str (map chr name)) as [v|] eqn:Ev; [|done].
    apply elem_of_map_to_list in Ev. rewrite <-Ho in Ev. apply list_elem_of_In in Ev.
    apply (find_none _ _ E) in Ev. simpl in Ev. apply bool_decide_eq_false in Ev. by rewrite quote_name in Ev.
Qed.

(** C37. Rendering replaces every marker at once, whatever order the map of the
    variables is ranged over: for names of letters, digits and underscores,
    values without an opening brace and a template whose stray opening braces
    stand alone, the text is the template with each marker replaced by its
    value, or by nothing when no caller supplied it. *)
Theorem render_reference (order : list (string * string)) (vars : TemplateVars) (ts : list token) (text : string) :
  order ≡ₚ map_to_list vars -> names_ok vars -> stable ts = true -> quote text = text_of ts ->
  render_in order text = str (map chr (expand (value_of vars) ts)).
Proof.
  intros Ho Hv Hs Ht. unfold render_in. rewrite Ht, render_tokens; [|..|done].
  - do 2 f_equal. apply expand_ext; [done|]. intros name Hn. by apply value_in_order.
  - rewrite Ho. apply map_Forall_to_list in Hv. eapply Forall_impl; [exact Hv|]. by intros [k v].
Qed.
Lemma render_reference_witness :
  render_in [("b", "2"); ("a", "x y")] "{{a}}-{{b}}{{c}}." = "x y-2.".
Proof.
  refine (eq_trans (render_reference [("b", "2"); ("a", "x y")] (list_to_map [("a", "x y"); ("b", "2")])
    [Mark [97]; Lit 45; Mark [98]; Mark [99]; Lit 46] "{{a}}-{{b}}{{c}}." _ _ eq_refl eq_refl) _).
  - apply perm_swap.
  - apply map_Forall_to_list. change (Forall (uncurry (fun key value => name_ok (quote key) = true /\ no_brace value = true))
      [("a", "x y"); ("b", "2")]). repeat constructor.
  - vm_compute. reflexivity.
Defined.
(** Without the proviso the order shows: a value that holds a marker is
    expanded again when its key comes later. *)
Example render_order :
  render_in [("a", "{{b}}"); ("b", "2")] "{{a}}" = "2" /\ render_in [("b", "2"); ("a", "{{b}}")] "{{a}}" = "".
Proof. split; vm_compute; reflexivity. Qed.
