(* ===== verification/AuditStore.v ===== *)
(** * The audit log

    Models [internal/data/audit_store.go] and [internal/domain/audit.go]: an
    append-only table with columns of bounded length. *)
From S2P Require Import Prelude GoStr Exchange Accounts Lights World.
#[global] Open Scope Z_scope.

Record AuditFilter := mkAuditFilter {
  AF_Limit : Z; AF_Offset : Z; AF_MachineID : Z; AF_UserID : Z;
  AF_ResourceType : string; AF_Action : string }.
Definition audit_columns_fit (l : AuditLog) : bool :=
  varchar 255 (AL_Username l) && varchar 50 (AL_Action l) && varchar 50 (AL_ResourceType l)
  && varchar 50 (AL_ResourceID l) && varchar 50 (AL_IPAddress l) && text_ok (AL_Details l).
(** The id of the given entry is not used: the table numbers its rows. *)
Definition CreateAuditLog (l : AuditLog) : MW unit :=
  created ← (if IsZero (AL_CreatedAt l) then now else mret (AL_CreatedAt l));
  _ ← stmt;
  id ← nextval "audit_logs";
  _ ← guard_err (negb (audit_columns_fit l)) ErrDB;
  modify (on_db (on_audit_logs (fun rows => rows ++
    [mkAuditLog id (AL_UserID l) (AL_Username l) (AL_Action l) (AL_ResourceType l) (AL_ResourceID l)
       (AL_IPAddress l) (AL_Details l) created]))).
(** [ORDER BY created_at DESC LIMIT .. OFFSET ..]; the join keeps the entries
    of the users linked to the machine. *)
Definition page {R} (lim offset : Z) (rows : list R) : list R := limit lim (drop (Z.to_nat offset) rows).
Definition audit_visible (d : DB) (filter : AuditFilter) (l : AuditLog) : bool :=
  if negb (AF_MachineID filter =? 0) then
    existsb (fun u => (U_ID u =? AL_UserID l) && bool_decide (U_LinkedMachineID u = Some (AF_MachineID filter)))
      (users d)
  else if negb (AF_UserID filter =? 0) then AL_UserID l =? AF_UserID filter
  else true.
(** A negative limit or offset is an error of the database. *)
Definition GetAuditLogs (filter : AuditFilter) : MW (list AuditLog) :=
  let lim := if AF_Limit filter =? 0 then 100 else AF_Limit filter in
  _ ← stmt;
  _ ← guard_err ((lim <? 0) || (AF_Offset filter <? 0)) ErrDB;
  gets (fun w => page lim (AF_Offset filter)
    (order_desc AL_CreatedAt (select (audit_visible (db w) filter) (audit_logs (db w))))).

(** ** What an entry leaves alone *)
Lemma CreateAuditLog_preserves I l :
  (forall d f, I d -> I (on_audit_logs f d)) -> preserves (db_inv I) (CreateAuditLog l).
Proof.
  intros HI. unfold CreateAuditLog. destruct (IsZero _); preserves_tac; apply preserves_modify; intros w Hw; by apply HI.
Qed.
