(* ===== verification/Crypto.v ===== *)
(** * Digests, token encodings and secrets

    The standard library functions the source uses: SHA-256, HMAC,
    [base64.RawURLEncoding], [base32] without padding, [rand.Int]; and the
    packages built on them: [internal/pwreset/], [internal/remember/],
    [internal/temppass/] and [internal/support/pseudonym.go]. *)
From S2P Require Import Prelude GoStr Exchange Accounts Lights World.
#[global] Open Scope Z_scope.

(** ** SHA-256 over 32-bit words *)
Definition w32 (z : Z) : Z := Z.land z 4294967295.
Definition add32 (a b : Z) : Z := w32 (a + b).
Definition rotr (n x : Z) : Z := Z.lor (Z.shiftr x n) (w32 (Z.shiftl x (32 - n))).
Definition xor3 (a b c : Z) : Z := Z.lxor (Z.lxor a b) c.
Definition sha_K : list Z :=
  [1116352408; 1899447441; 3049323471; 3921009573; 961987163; 1508970993; 2453635748; 2870763221;
   3624381080; 310598401; 607225278; 1426881987; 1925078388; 2162078206; 2614888103; 3248222580;
   3835390401; 4022224774; 264347078; 604807628; 770255983; 1249150122; 1555081692; 1996064986;
   2554220882; 2821834349; 2952996808; 3210313671; 3336571891; 3584528711; 113926993; 338241895;
   666307205; 773529912; 1294757372; 1396182291; 1695183700; 1986661051; 2177026350; 2456956037;
   2730485921; 2820302411; 3259730800; 3345764771; 3516065817; 3600352804; 4094571909; 275423344;
   430227734; 506948616; 659060556; 883997877; 958139571; 1322822218; 1537002063; 1747873779;
   1955562222; 2024104815; 2227730452; 2361852424; 2428436474; 2756734187; 3204031479; 3329325298].
Definition sha_H0 : list Z :=
  [1779033703; 3144134277; 1013904242; 2773480762; 1359893119; 2600822924; 528734635; 1541459225].
(** The message schedule, latest word first. *)
Fixpoint sha_schedule (n : nat) (ws : list Z) : list Z :=
  match n with
  | O => ws
  | S n =>
      let at_ i := nth i ws 0 in
      let s0 := xor3 (rotr 7 (at_ 14%nat)) (rotr 18 (at_ 14%nat)) (Z.shiftr (at_ 14%nat) 3) in
      let s1 := xor3 (rotr 17 (at_ 1%nat)) (rotr 19 (at_ 1%nat)) (Z.shiftr (at_ 1%nat) 10) in
      sha_schedule n (w32 (at_ 15%nat + s0 + at_ 6%nat + s1) :: ws)
  end.
Definition sha_round (st : list Z) (kw : Z * Z) : list Z :=
  match st with
  | [a; b; c; d; e; f; g; h] =>
      let S1 := xor3 (rotr 6 e) (rotr 11 e) (rotr 25 e) in
      let ch := Z.lxor (Z.land e f) (Z.land (Z.lxor e 4294967295) g) in
      let t1 := w32 (h + S1 + ch + kw.1 + kw.2) in
      let S0 := xor3 (rotr 2 a) (rotr 13 a) (rotr 22 a) in
      let maj := xor3 (Z.land a b) (Z.land a c) (Z.land b c) in
      [add32 t1 (add32 S0 maj); a; b; c; add32 d t1; e; f; g]
  | _ => st
  end.
Definition be_val (l : list ascii) : Z := foldl (fun n c => 256 * n + ord c) 0 l.
Fixpoint be_bytes (n : nat) (z : Z) : list ascii :=
  match n with
  | O => []
  | S n => be_bytes n (Z.shiftr z 8) ++ [chr (Z.land z 255)]
  end.
Definition sha_block (st : list Z) (block : list ascii) : list Z :=
  let words := map (fun i => be_val (take 4 (drop (4 * i) block))) (List.seq 0 16) in
  let ws := rev (sha_schedule 48 (rev words)) in
  zip_with add32 st (foldl sha_round st (zip sha_K ws)).
Definition sha_pad (msg : list ascii) : list ascii :=
  let n := length msg in
  let zeros := Nat.modulo (64 - Nat.modulo (n + 9) 64) 64 in
  msg ++ chr 128 :: replicate zeros (chr 0) ++ be_bytes 8 (8 * Z.of_nat n).
Fixpoint sha_blocks (k : nat) (st : list Z) (msg : list ascii) : list Z :=
  match k with
  | O => st
  | S k => sha_blocks k (sha_block st (take 64 msg)) (drop 64 msg)
  end.
(** [sha256.Sum256]. *)
Definition sha256 (msg : list ascii) : list ascii :=
  let p := sha_pad msg in
  mjoin (map (be_bytes 4) (sha_blocks (Nat.div (length p) 64) sha_H0 p)).
Definition sha256_hex (s : string) : string := str (hex_bytes (sha256 (bytes s))).
Example sha256_abc :
  sha256_hex "abc" = "ba7816bf8f01cfea414140de5dae2223b00361a396177a9cb410ff61f20015ad".
Proof. vm_compute. reflexivity. Qed.
Example sha256_two_blocks :
  sha256_hex "abcdbcdecdefdefgefghfghighijhijkijkljklmklmnlmnomnopnopq" =
  "248d6a61d20638b8e5c026930c3e6039a33ce45964ff2167f6ecedd419db06c1".
Proof. vm_compute. reflexivity. Qed.

(** [hmac.New(sha256.New, key)]. *)
Definition xor_byte (k : Z) (c : ascii) : ascii := chr (Z.lxor (ord c) k).
Definition hmac_sha256 (key msg : list ascii) : list ascii :=
  let key := if (64 <? length key)%nat then sha256 key else key in
  let key := key ++ replicate (64 - length key) (chr 0) in
  sha256 (map (xor_byte 92) key ++ sha256 (map (xor_byte 54) key ++ msg)).

(** ** Base 32 and base 64 *)
Definition byte_bits (c : ascii) : list bool :=
  map (fun i => Z.testbit (ord c) i) [7; 6; 5; 4; 3; 2; 1; 0].
Definition bits_val (l : list bool) : Z := foldl (fun n b => 2 * n + Z.b2z b) 0 l.
(** Groups of [k] bits, the last one completed with zeros. *)
Fixpoint bit_groups (fuel k : nat) (l : list bool) : list (list bool) :=
  match fuel, l with
  | O, _ | _, [] => []
  | S fuel, _ => (take k l ++ replicate (k - length l) false) :: bit_groups fuel k (drop k l)
  end.
Definition base_encode (k : nat) (alphabet : list ascii) (l : list ascii) : list ascii :=
  let bits := mjoin (map byte_bits l) in
  map (fun g => nth (Z.to_nat (bits_val g)) alphabet (chr 0)) (bit_groups (length bits) k bits).
Definition base64url_alphabet : list ascii :=
  bytes "ABCDEFGHIJKLMNOPQRSTUVWXYZabcdefghijklmnopqrstuvwxyz0123456789-_".
Definition base32_alphabet : list ascii := bytes "ABCDEFGHIJKLMNOPQRSTUVWXYZ234567".
Definition RawURLEncoding (l : list ascii) : string := str (base_encode 6 base64url_alphabet l).
Definition b32_encode (l : list ascii) : string := str (base_encode 5 base32_alphabet l).
Example base64_sample : RawURLEncoding (bytes "foobarb") = "Zm9vYmFyYg".
Proof. reflexivity. Qed.
Example base32_sample : b32_encode (bytes "fooba") = "MZXW6YTB".
Proof. reflexivity. Qed.

(** ** pwreset and remember *)
Module pwreset.
Definition TTL : Duration := 60 * Minute.
Definition MinPasswordLength : Z := 8.
Definition defaultResetOrigin : string := "https://www.essensys.fr".
Definition tokenBytes : nat := 32.
Definition Hash (plain : string) : string := sha256_hex plain.
Definition Generate : MW (string * string) :=
  buf ← map_err (Wrapf "generate reset token: %w") (rand_read tokenBytes);
  let plain := RawURLEncoding buf in
  mret (plain, Hash plain).
(** The result of [rand.Read] is ignored. *)
Definition Burn : MW unit := _ ← try (E' := err) (rand_read tokenBytes); mret tt.
Fixpoint drop_slashes (l : list ascii) : list ascii :=
  match l with
  | c :: r => if ord c =? 47 then drop_slashes r else l
  | [] => []
  end.
(** [strings.TrimRight(s, "/")]. *)
Definition trim_right_slash (s : string) : string :=
  str (rev (drop_slashes (rev (bytes s)))).
(** The variable is the environment's [PASSWORD_RESET_BASE_URL]. *)
Definition ResetLinkBaseURL (env : string) : string :=
  let base := TrimSpace env in
  if is_empty base then defaultResetOrigin else trim_right_slash base.
(** [url.QueryEscape]: unreserved bytes are kept, a blank is a plus. *)
Definition query_byte (c : ascii) : list ascii :=
  let x := ord c in
  if ((48 <=? x) && (x <=? 57)) || ((65 <=? x) && (x <=? 90)) || ((97 <=? x) && (x <=? 122))
     || (x =? 45) || (x =? 95) || (x =? 46) || (x =? 126) then [c]
  else if x =? 32 then [chr 43]
  else chr 37 :: map upper_ascii (hex_byte c).
Definition QueryEscape (s : string) : string := str (mjoin (map query_byte (bytes s))).
Definition BuildResetURL (base token : string) : string :=
  let base := if is_empty base then defaultResetOrigin else base in
  trim_right_slash base +:+ "/reset-password?token=" +:+ QueryEscape token.
(** The bytes before and from the last '@'. *)
Fixpoint split_last_at (l : list ascii) : option (list ascii * list ascii) :=
  match l with
  | [] => None
  | c :: r =>
      match split_last_at r with
      | Some (a, b) => Some (c :: a, b)
      | None => if ord c =? 64 then Some ([], c :: r) else None
      end
  end.
Definition MaskEmail (email : string) : string :=
  match split_last_at (bytes email) with
  | None | Some ([], _) => "***"
  | Some ([_], domain) => "*" +:+ str domain
  | Some (c :: _, domain) => str [c] +:+ "***" +:+ str domain
  end.
Definition ExpiresInMinutes (expiresAt t : Time) : Z :=
  let remaining := Z.quot (Sub expiresAt t) Minute in
  if remaining <? 0 then 0 else remaining.
End pwreset.
Module remember.
Definition Lifetime : Duration := 30 * 24 * Hour.
Definition MaxSessionsPerUser : nat := 10.
Definition tokenBytes : nat := 32.
Definition Hash (plain : string) : string := sha256_hex plain.
Definition Generate : MW (string * string) :=
  buf ← map_err (Wrapf "generate remember token: %w") (rand_read tokenBytes);
  let plain := RawURLEncoding buf in
  mret (plain, Hash plain).
End remember.

(** ** temppass: [crypto/rand.Int] draws by rejection *)
Module temppass.
Definition Alphabet : list ascii :=
  bytes "ABCDEFGHJKLMNPQRSTUVWXYZabcdefghijkmnopqrstuvwxyz23456789".
Definition Length : nat := 12.
(** [rand.Int(rand.Reader, 57)]: one byte is read, its two high bits are
    dropped, and it is drawn again unless below 57.  The bytes left bound
    the number of draws. *)
Fixpoint draw (max : Z) (pool : list ascii) : option (Z * list ascii) :=
  match pool with
  | [] => None
  | c :: pool => let n := Z.land (ord c) 63 in if n <? max then Some (n, pool) else draw max pool
  end.
Definition rand_Int (max : Z) : MW Z := fun w =>
  match draw max (entropy w) with
  | Some (n, pool) => (Ok n, on_entropy (fun _ => pool) w)
  | None => (Fail ErrRand, on_entropy (fun _ => []) w)
  end.
Fixpoint gen_chars (n : nat) : MW (list ascii) :=
  match n with
  | O => mret []
  | S n =>
      i ← map_err (Wrapf "generate temporary password: %w") (rand_Int (Z.of_nat (length Alphabet)));
      l ← gen_chars n;
      mret (nth (Z.to_nat i) Alphabet (chr 0) :: l)
  end.
Definition Generate : MW string := l ← gen_chars Length; mret (str l).
End temppass.

(** ** support/pseudonym.go *)
Definition UserPseudonym (key : list ascii) (userID : Z) : string :=
  "U-" +:+ str (take 8 (bytes (b32_encode (hmac_sha256 key (bytes (Itoa userID)))))).
Definition NewReportRef : MW string :=
  buf ← rand_read 5; mret ("R-" +:+ b32_encode buf).

(** ** Lemmas: the encodings are injective *)
Lemma bit_groups_join fuel k l : (0 < k)%nat -> (length l <= fuel)%nat ->
  exists p, mjoin (bit_groups fuel k l) = l ++ replicate p false.
Proof.
  intros Hk. revert l. induction fuel as [|fuel IH]; intros l Hl.
  { destruct l; [by exists 0%nat|simpl in Hl; lia]. }
  destruct l as [|b l]; [by exists 0%nat|].
  destruct (IH (drop k (b :: l))) as [p Hp]; [rewrite length_drop; simpl in *; lia|].
  change (bit_groups (S fuel) k (b :: l)) with
    ((take k (b :: l) ++ replicate (k - length (b :: l)) false)
       :: bit_groups fuel k (drop k (b :: l))).
  set (x := b :: l) in *. clearbody x. rewrite mjoin_cons, Hp.
  destruct (decide (length x <= k)%nat) as [Hle|Hgt].
  - rewrite drop_ge, take_ge in * by lia. exists (k - length x + p)%nat.
    rewrite replicate_add. by rewrite <-app_assoc.
  - replace (k - length x)%nat with 0%nat by lia. exists p. cbn [replicate]. rewrite app_nil_r.
    rewrite app_assoc. by rewrite take_drop.
Qed.
Lemma bit_groups_length fuel k l : Forall (fun g => length g = k) (bit_groups fuel k l).
Proof.
  revert l. induction fuel as [|fuel IH]; intros l; [constructor|].
  destruct l as [|b l]; [constructor|].
  change (bit_groups (S fuel) k (b :: l)) with
    ((take k (b :: l) ++ replicate (k - length (b :: l)) false)
       :: bit_groups fuel k (drop k (b :: l))).
  constructor; [|apply IH]. rewrite length_app, length_take, length_replicate. lia.
Qed.
Lemma bits_val_snoc l b : bits_val (l ++ [b]) = 2 * bits_val l + Z.b2z b.
Proof. unfold bits_val. by rewrite foldl_app. Qed.
Lemma bits_val_bound l : 0 <= bits_val l < 2 ^ Z.of_nat (length l).
Proof.
  induction l as [|b l IH] using rev_ind; [done|].
  rewrite bits_val_snoc, length_app, Nat2Z.inj_add, Z.pow_add_r by lia.
  simpl. destruct b; simpl; lia.
Qed.
Lemma bits_val_inj l1 l2 : length l1 = length l2 -> bits_val l1 = bits_val l2 -> l1 = l2.
Proof.
  revert l2. induction l1 as [|a l1 IH] using rev_ind; intros l2 Hl Hv.
  { by destruct l2. }
  destruct l2 as [|b l2 _] using rev_ind; [rewrite length_app in Hl; simpl in Hl; lia|].
  rewrite !length_app in Hl. simpl in Hl. rewrite !bits_val_snoc in Hv.
  assert (a = b) as ->. { destruct a, b; simpl in Hv; try done; lia. }
  f_equal. apply IH; lia.
Qed.
Lemma map_eq_elem {A B} (f g : A -> B) l x : map f l = map g l -> x ∈ l -> f x = g x.
Proof.
  induction l as [|y l IH]; simpl; [by intros _ ?%elem_of_nil|].
  intros [= Hy Hl] [->|Hx]%elem_of_cons; [done|by apply IH].
Qed.
Lemma byte_bits_inj a b : byte_bits a = byte_bits b -> a = b.
Proof.
  intros H. apply ord_inj. apply Z.bits_inj'. intros n Hn.
  pose proof (ord_range a) as Ha. pose proof (ord_range b) as Hb.
  destruct (decide (n < 8)) as [Hlt|Hge].
  - assert (n ∈ [7; 6; 5; 4; 3; 2; 1; 0]) as Hc.
    { clear -Hn Hlt. rewrite !elem_of_cons. lia. }
    by apply (map_eq_elem _ _ _ _ H).
  - rewrite !Z.bits_above_log2; [done|lia| |lia|].
    + destruct (decide (ord b = 0)) as [->|]; [simpl; lia|]. apply Z.log2_lt_pow2; [lia|].
      assert (2 ^ 8 <= 2 ^ n) by (apply Z.pow_le_mono_r; lia). lia.
    + destruct (decide (ord a = 0)) as [->|]; [simpl; lia|]. apply Z.log2_lt_pow2; [lia|].
      assert (2 ^ 8 <= 2 ^ n) by (apply Z.pow_le_mono_r; lia). lia.
Qed.
Lemma bytes_bits_inj l1 l2 :
  length l1 = length l2 -> mjoin (map byte_bits l1) = mjoin (map byte_bits l2) -> l1 = l2.
Proof.
  revert l2. induction l1 as [|a l1 IH]; intros [|b l2] Hl H; [done..|].
  cbn [map] in H. rewrite !mjoin_cons in H.
  apply app_inj_1 in H as [Hab H]; [|done]. apply byte_bits_inj in Hab as ->.
  f_equal. apply IH; [simpl in Hl; lia|done].
Qed.
Lemma bits_length (l : list ascii) : length (mjoin (map byte_bits l)) = (8 * length l)%nat.
Proof. induction l as [|a l IH]; [done|]. simpl in *. lia. Qed.
Lemma nth_inj (al : list ascii) i j : NoDup al ->
  (i < length al)%nat -> (j < length al)%nat -> nth i al (chr 0) = nth j al (chr 0) -> i = j.
Proof.
  intros Hnd Hi Hj H. rewrite NoDup_ListNoDup in Hnd.
  by apply (proj1 (List.NoDup_nth al (chr 0)) Hnd).
Qed.
Lemma base_encode_inj k al l1 l2 : (0 < k)%nat -> NoDup al -> length al = (2 ^ k)%nat ->
  length l1 = length l2 -> base_encode k al l1 = base_encode k al l2 -> l1 = l2.
Proof.
  intros Hk Hnd Hal Hl H. unfold base_encode in H.
  set (b1 := mjoin (map byte_bits l1)) in *. set (b2 := mjoin (map byte_bits l2)) in *.
  assert (length b1 = length b2) as Hlb by (unfold b1, b2; rewrite !bits_length; lia).
  assert (bit_groups (length b1) k b1 = bit_groups (length b2) k b2) as Hg.
  { pose proof (bit_groups_length (length b1) k b1) as F1.
    pose proof (bit_groups_length (length b2) k b2) as F2.
    revert H. generalize (bit_groups (length b2) k b2) F2. clear F2.
    induction F1 as [|g1 gs1 Hg1 F1 IH]; intros gs2 F2 H; destruct F2 as [|g2 gs2 Hg2 F2]; [done..|].
    cbn [map] in H. injection H as H1 H2. f_equal; [|by apply IH].
    pose proof (bits_val_bound g1) as B1. pose proof (bits_val_bound g2) as B2.
    rewrite Hg1 in B1. rewrite Hg2 in B2.
    assert (2 ^ Z.of_nat k = Z.of_nat (2 ^ k)) as Hp by by rewrite Nat2Z.inj_pow.
    apply nth_inj in H1; [|done|lia..]. apply bits_val_inj; [congruence|lia]. }
  destruct (bit_groups_join (length b1) k b1) as [p1 J1]; [lia..|].
  destruct (bit_groups_join (length b2) k b2) as [p2 J2]; [lia..|].
  rewrite Hg, J2 in J1. apply bytes_bits_inj; [done|]. fold b1 b2.
  symmetry. by apply app_inj_1 in J1 as [? _].
Qed.
Lemma base64url_NoDup : NoDup base64url_alphabet.
Proof. apply (bool_decide_unpack _). vm_compute. exact I. Qed.
Lemma RawURLEncoding_inj l1 l2 :
  length l1 = length l2 -> RawURLEncoding l1 = RawURLEncoding l2 -> l1 = l2.
Proof.
  intros Hl H%str_inj. eapply (base_encode_inj 6); [lia|apply base64url_NoDup|reflexivity|done|done].
Qed.
Lemma nth_elem (al : list ascii) i : (i < length al)%nat -> nth i al (chr 0) ∈ al.
Proof. intros Hi. rewrite list_elem_of_In. by apply nth_In. Qed.
Lemma RawURLEncoding_chars l c : c ∈ bytes (RawURLEncoding l) -> c ∈ base64url_alphabet.
Proof.
  unfold RawURLEncoding, base_encode. rewrite bytes_str.
  intros (g & -> & Hg)%list_elem_of_fmap. apply nth_elem.
  pose proof (bit_groups_length (length (mjoin (map byte_bits l))) 6 (mjoin (map byte_bits l))) as F.
  rewrite Forall_forall in F. apply F in Hg. pose proof (bits_val_bound g) as B. rewrite Hg in B.
  change (length base64url_alphabet) with 64%nat. change (2 ^ Z.of_nat 6) with 64 in B. lia.
Qed.
Lemma rand_read_Ok n w l w' : rand_read n w = (Ok l, w') ->
  l = take n (entropy w) /\ length l = n /\ w' = on_entropy (drop n) w.
Proof.
  unfold rand_read. destruct (_ =? _)%nat eqn:E; [|done]. intros [= <- <-].
  apply Nat.eqb_eq in E. done.
Qed.
Lemma QueryEscape_token l : pwreset.QueryEscape (RawURLEncoding l) = RawURLEncoding l.
Proof.
  unfold pwreset.QueryEscape. rewrite <-(str_bytes (RawURLEncoding l)) at 2. f_equal.
  pose proof (RawURLEncoding_chars l) as H.
  induction (bytes (RawURLEncoding l)) as [|c r IH]; [done|].
  change (pwreset.query_byte c ++ mjoin (map pwreset.query_byte r) = [c] ++ r).
  f_equal; [|by apply IH; intros d Hd; apply H; right].
  assert (Forall (fun c => pwreset.query_byte c = [c]) base64url_alphabet) as F
    by (apply (bool_decide_unpack _); vm_compute; exact I).
  rewrite Forall_forall in F. apply F, H. left.
Qed.

(** ** Theorems *)

(** A password-reset token never repeats: two tokens generated from
    different random bytes are different, only the SHA-256 of the token is
    stored, and the link sent by mail carries the token itself, unescaped. *)
Lemma reset_token_generation (w1 w2 w1' w2' : World) (p1 p2 d1 d2 : string) :
  pwreset.Generate w1 = (Ok (p1, d1), w1') -> pwreset.Generate w2 = (Ok (p2, d2), w2') ->
  (take 32 (entropy w1) <> take 32 (entropy w2) -> p1 <> p2) /\
  d1 = pwreset.Hash p1 /\ db w1' = db w1 /\
  pwreset.BuildResetURL "" p1 = "https://www.essensys.fr/reset-password?token=" +:+ p1.
Proof.
  unfold pwreset.Generate. rewrite !M_bind_run. unfold map_err.
  destruct (rand_read _ w1) as [[b1|e1] v1] eqn:R1; [|done].
  destruct (rand_read _ w2) as [[b2|e2] v2] eqn:R2; [|done].
  intros [= <- <- <-] [= <- <- <-].
  apply rand_read_Ok in R1 as (-> & L1 & ->), R2 as (-> & L2 & ->).
  split_and!; [|done|done|].
  - intros Hne H%RawURLEncoding_inj; [done|]. by rewrite L1, L2.
  - unfold pwreset.BuildResetURL. by rewrite QueryEscape_token.
Qed.

Lemma draw_range max pool n pool' : temppass.draw max pool = Some (n, pool') -> 0 <= n < max.
Proof.
  induction pool as [|c pool IH]; [done|]. simpl. destruct_if E; [|done].
  intros [= <- _]. split; [|lia]. apply Z.land_nonneg. lia.
Qed.
Lemma gen_chars_spec n w l w' : temppass.gen_chars n w = (Ok l, w') ->
  length l = n /\ (forall c, c ∈ l -> c ∈ temppass.Alphabet) /\ db w' = db w.
Proof.
  revert w l w'. induction n as [|n IH]; intros w l w'; cbn [temppass.gen_chars].
  { intros [= <- <-]. split_and!; [done| |done]. by intros c ?%elem_of_nil. }
  rewrite M_bind_run. unfold map_err, temppass.rand_Int.
  destruct (temppass.draw _ _) as [[i pool]|] eqn:D; [|done].
  apply draw_range in D. rewrite M_bind_run.
  destruct (temppass.gen_chars n _) as [[l0|e0] w0] eqn:G; [|done]. intros [= <- <-].
  apply IH in G as (H1 & H2 & H3). split_and!; [simpl; lia| |done].
  intros c [->|Hc]%elem_of_cons; [|by apply H2].
  change (nth (Z.to_nat i) temppass.Alphabet (chr 0) ∈ temppass.Alphabet).
  apply nth_elem. clear -D. lia.
Qed.

(** A temporary password has 12 characters, all from the alphabet that
    leaves out the characters misheard on the phone (O, 0, I, l, 1), and its
    generation changes nothing in the database. *)
Lemma temporary_password_shape (w w' : World) (p : string) :
  temppass.Generate w = (Ok p, w') ->
  slen p = 12 /\ db w' = db w /\
  forall c, c ∈ bytes p -> c ∈ temppass.Alphabet /\ c ∉ bytes "O0Il1".
Proof.
  unfold temppass.Generate. rewrite M_bind_run.
  destruct (temppass.gen_chars temppass.Length w) as [[l|e] w0] eqn:G; [|done].
  intros [= <- <-]. apply gen_chars_spec in G as (H1 & H2 & H3).
  split_and!; [|done|].
  - unfold slen. assert (String.length (str l) = length l) as ->; [|rewrite H1; done].
    clear. induction l as [|c l IH]; [done|]. simpl. by rewrite IH.
  - rewrite bytes_str. intros c Hc%H2. split; [done|].
    assert (Forall (fun c => c ∉ bytes "O0Il1") temppass.Alphabet) as F
      by (apply (bool_decide_unpack _); vm_compute; exact I).
    rewrite Forall_forall in F. by apply F.
Qed.
