(* ===== verification/PortalStore.v ===== *)
(** * The portal store: links, cloud actions, gateways and the exchange cache

    Models [internal/data/store.go] and the store part of
    [internal/data/exchange.go]: one function per method, the statements in
    the order the method runs them. *)
From S2P Require Import Prelude GoStr Exchange Accounts Lights Mac World Crypto.
#[global] Open Scope Z_scope.

Definition hashToken (token : string) : string := sha256_hex token.
Definition nullIfEmpty (s : string) : option string := if is_empty s then None else Some s.

(** ** Users and link requests *)
Definition profile_of (u : User) : UserProfile :=
  mkUserProfile (U_ID u) (U_Email u) (U_Role u) (U_FirstName u) (U_LastName u)
    (U_LinkedMachineID u) (U_LinkedGatewayID u) (U_LinkedArmoireID u).
Definition GetUserByEmail (email : string) : MW UserProfile :=
  r ← query_text email (fun d => get_row (fun u => seqb (U_Email u) email) (users d));
  u ← lift r;
  mret (profile_of u).

(** The new row, as [RETURNING] gives it back. *)
Definition CreateLinkRequest (userID : Z) (serial message : string) : MW LinkRequest :=
  _ ← stmt;
  id ← nextval "link_requests";
  t ← now;
  let lr := mkLinkRequest id userID serial (nullIfEmpty message) LinkStatusPending None None t in
  _ ← modify (on_db (on_link_requests (fun rs => rs ++ [lr])));
  mret lr.
Definition GetLatestLinkRequest (userID : Z) : MW LinkRequest :=
  r ← query (fun d => ok_or (head (order_desc LR_CreatedAt
        (select (fun lr => LR_UserID lr =? userID) (link_requests d)))) ErrNoRows);
  lift r.
Definition ListLinkRequestsByStatus (status : string) : MW (list LinkRequest) :=
  query (fun d => order_asc LR_CreatedAt
    (select (fun lr => seqb (LR_Status lr) status) (link_requests d))).

Record LinkRequestAdminView := mkLinkAdmin {
  LA_Request : LinkRequest; LA_UserEmail : string; LA_FirstName : string; LA_LastName : string }.
(** [JOIN users u ON u.id = lr.user_id] *)
Definition join_users (us : list User) (lrs : list LinkRequest) : list LinkRequestAdminView :=
  lr ← lrs;
  u ← select (fun u => U_ID u =? LR_UserID lr) us;
  [mkLinkAdmin lr (U_Email u) (U_FirstName u) (U_LastName u)].
Definition reviewed_or_created (v : LinkRequestAdminView) : Time :=
  default (LR_CreatedAt (LA_Request v)) (LR_ReviewedAt (LA_Request v)).
Definition ListLinkRequestsAdmin (filter : string) (lim : Z) : MW (list LinkRequestAdminView) :=
  let lim := if (lim <=? 0) || (lim >? 200) then 100 else lim in
  query (fun d =>
    let rows := join_users (users d) (link_requests d) in
    let status v := LR_Status (LA_Request v) in
    if seqb filter "history" then
      limit lim (order_desc reviewed_or_created
        (select (fun v => seqb (status v) LinkStatusApproved || seqb (status v) LinkStatusRejected) rows))
    else if seqb filter "all" then
      limit lim (order_desc (fun v => LR_CreatedAt (LA_Request v)) rows)
    else
      limit lim (order_asc (fun v => LR_CreatedAt (LA_Request v))
        (select (fun v => seqb (status v) LinkStatusPending) rows))).
Definition review (status reviewer : string) (t : Time) (lr : LinkRequest) : LinkRequest :=
  mkLinkRequest (LR_ID lr) (LR_UserID lr) (LR_MachineSerial lr) (LR_Message lr) status
    (Some reviewer) (Some t) (LR_CreatedAt lr).
Definition UpdateLinkRequestStatus (id : Z) (status reviewer : string) : MW unit :=
  _ ← stmt;
  t ← now;
  modify (on_db (on_link_requests (update_where (fun lr => LR_ID lr =? id) (review status reviewer t)))).
(** Any error of the query is [false, nil]. *)
Definition UserHasApprovedLink (userID : Z) : MW bool :=
  r ← try (E' := err) (
    r ← query (fun d => ok_or (head (order_desc LR_CreatedAt
          (select (fun lr => (LR_UserID lr =? userID) && seqb (LR_Status lr) LinkStatusApproved)
             (link_requests d)))) ErrNoRows);
    lift r);
  mret (match r with
        | Ok lr => seqb (LR_Status lr) LinkStatusApproved
        | Fail _ => false
        end).

(** ** Cloud actions *)
(** [ON CONFLICT (guid) DO NOTHING] *)
Definition insert_action (a : ActionRow) (rows : list ActionRow) : list ActionRow :=
  if existsb (fun r => seqb (A_GUID r) (A_GUID a)) rows then rows else rows ++ [a].
Definition EnqueueCloudAction (guid : string) (userID : Z) (machineID : option Z)
    (params : list ExchangeKV) : MW unit :=
  _ ← stmt;
  t ← now;
  modify (on_db (on_cloud_actions
    (insert_action (mkAction guid userID machineID (Some params) ActionStatusPending t None None)))).
(** [json.Unmarshal(row.Params, &params)] *)
Definition decode_action (status : ActionRow -> string) (r : ActionRow) : res err CloudAction :=
  params ← ok_or (A_Params r) (Errorf "json" []);
  Ok (mkCloudAction (A_GUID r) (A_UserID r) (A_MachineID r) params (status r) (A_CreatedAt r)).
Definition GetLastCloudActionForUser (userID : Z) : MW CloudAction :=
  r ← query (fun d => ok_or (head (order_desc A_CreatedAt
        (select (fun a => A_UserID a =? userID) (cloud_actions d)))) ErrNoRows);
  row ← lift r;
  lift (decode_action A_Status row).

(** The longest prefix of pure block actions, and the rest. *)
Fixpoint pure_run (pending : list CloudAction) : list CloudAction * list CloudAction :=
  match pending with
  | a :: rest =>
      if IsPureBlockAction (CA_Params a) then
        let '(run, rest') := pure_run rest in (a :: run, rest')
      else ([], pending)
  | [] => ([], [])
  end.
Definition with_params (a : CloudAction) (ps : list ExchangeKV) : CloudAction :=
  mkCloudAction (CA_GUID a) (CA_UserID a) (CA_MachineID a) ps (CA_Status a) (CA_CreatedAt a).
(** The action delivered for a run: the last of the run, with the merged
    parameters when the run has more than one action. *)
Definition merge_run (first : CloudAction) (run : list CloudAction) : CloudAction :=
  let merged := List.last (first :: run) first in
  if (1 <? length (first :: run))%nat
  then with_params merged (MergeBlockActions (map CA_Params (first :: run))) else merged.
Fixpoint coalesce_loop (fuel : nat) (pending : list CloudAction) : list CloudAction :=
  match fuel, pending with
  | S fuel, a :: rest =>
      if negb (IsPureBlockAction (CA_Params a)) then a :: coalesce_loop fuel rest
      else
        let '(run, rest') := pure_run rest in
        merge_run a run :: coalesce_loop fuel rest'
  | _, _ => []
  end.
(** Every round takes at least one action: the length is enough fuel. *)
Definition coalescePendingActions (pending : list CloudAction) : list CloudAction :=
  coalesce_loop (length pending) pending.

Definition set_delivered (t : Time) (r : ActionRow) : ActionRow :=
  mkAction (A_GUID r) (A_UserID r) (A_MachineID r) (A_Params r) ActionStatusDelivered
    (A_CreatedAt r) (Some t) (A_DoneAt r).
(** [UPDATE cloud_actions SET status = delivered .. WHERE guid = $2]; its error
    is ignored by the caller. *)
Definition mark_delivered (guid : string) : MW unit :=
  _ ← stmt;
  t ← now;
  modify (on_db (on_cloud_actions (update_where (fun r => seqb (A_GUID r) guid) (set_delivered t)))).
Fixpoint mark_all_delivered (pending : list CloudAction) : MW unit :=
  match pending with
  | [] => mret tt
  | a :: rest =>
      _ ← try (E' := err) (mark_delivered (CA_GUID a));
      mark_all_delivered rest
  end.
(** The oldest pending actions of a machine. *)
Definition pending_for (machineID : Z) (r : ActionRow) : bool :=
  seqb (A_Status r) ActionStatusPending && bool_decide (A_MachineID r = Some machineID).
Definition pending_batch (machineID lim : Z) (rows : list ActionRow) : list ActionRow :=
  limit lim (order_asc A_CreatedAt (select (pending_for machineID) rows)).
Definition FetchPendingActionsForMachine (machineID lim : Z) : MW (list CloudAction) :=
  let lim := if lim <=? 0 then 20 else lim in
  rows ← query (fun d => pending_batch machineID lim (cloud_actions d));
  if (length rows =? 0)%nat then mret [] else
  pending ← lift (mapM (decode_action (fun _ => ActionStatusPending)) rows);
  let deliver := coalescePendingActions pending in
  _ ← mark_all_delivered pending;
  mret deliver.
Definition MachineIDFromHashedPkey (hashedPkey : string) : MW Z :=
  row ← map_err (fun _ => Errorf "unknown machine" [])
    (r ← query_text hashedPkey (fun d => get_row (fun m => seqb (M_HashedPkey m) hashedPkey) (machines d)); lift r);
  match M_ClientID row ≫= Sscanf_d with
  | Some machineID =>
      if 0 <? machineID then mret machineID
      else if 0 <? M_ID row then mret (M_ID row)
      else throw (Errorf "non-numeric client_id for machine" [])
  | None =>
      if 0 <? M_ID row then mret (M_ID row)
      else throw (Errorf "non-numeric client_id for machine" [])
  end.
Definition GetGatewaySession (gatewayID : string) : MW GatewaySession :=
  r ← query (fun d => get_row (fun g => seqb (GS_GatewayID g) gatewayID) (gateway_sessions d));
  lift r.
Definition FetchPendingActionsForGateway (gatewayID : string) (lim : Z) : MW (list CloudAction) :=
  sess ← map_err (fun _ => Errorf "unknown gateway" []) (GetGatewaySession gatewayID);
  match GS_MachineID sess with
  | None => throw (Errorf "gateway %s has no machine_id — re-register with triplet" [AStr gatewayID])
  | Some m => FetchPendingActionsForMachine m lim
  end.
Definition set_done (t : Time) (r : ActionRow) : ActionRow :=
  mkAction (A_GUID r) (A_UserID r) (A_MachineID r) (A_Params r) ActionStatusDone
    (A_CreatedAt r) (A_DeliveredAt r) (Some t).
(** [WHERE guid = $2 OR (machine_id = $3 AND status = $4)]; a NULL machine id
    equals nothing. *)
Definition done_target (guid : string) (machineID : option Z) (r : ActionRow) : bool :=
  seqb (A_GUID r) guid ||
  (match A_MachineID r, machineID with Some a, Some b => a =? b | _, _ => false end
   && seqb (A_Status r) ActionStatusDelivered).
Definition MarkActionDone (guid : string) : MW unit :=
  row ← map_err (fun _ => Errorf "action not found" [])
    (r ← query (fun d => get_row (fun a => seqb (A_GUID a) guid) (cloud_actions d)); lift r);
  _ ← stmt;
  t ← now;
  n ← gets (fun w => count_where (done_target guid (A_MachineID row)) (cloud_actions (db w)));
  _ ← modify (on_db (on_cloud_actions (update_where (done_target guid (A_MachineID row)) (set_done t))));
  guard_err (n =? 0) (Errorf "action not found" []).

(** ** Gateways *)
Record GatewayRegistration := mkReg {
  Reg_GatewayID : string; Reg_Token : string; Reg_MachineID : Z;
  Reg_Eth0MAC : string; Reg_Eth1MAC : string }.
(** [INSERT .. ON CONFLICT (gateway_id) DO UPDATE]: [last_seen] is set on
    insertion only; the unique index on [eth0_mac] refuses a second gateway. *)
Definition upsert_gateway (g : GatewaySession) (rows : list GatewaySession) : list GatewaySession :=
  if existsb (fun r => seqb (GS_GatewayID r) (GS_GatewayID g)) rows then
    update_where (fun r => seqb (GS_GatewayID r) (GS_GatewayID g))
      (fun r => mkGatewaySession (GS_GatewayID r) (GS_TokenHash g) (GS_MachineID g)
                  (GS_Eth0MAC g) (GS_Eth1MAC g) (GS_LastSeen r)) rows
  else rows ++ [g].
Definition eth0_taken (g : GatewaySession) (rows : list GatewaySession) : bool :=
  existsb (fun r => negb (seqb (GS_GatewayID r) (GS_GatewayID g)) && is_some (GS_Eth0MAC g)
                    && bool_decide (GS_Eth0MAC r = GS_Eth0MAC g)) rows.
(** The gateway's own id, or the one of its address. *)
Definition registration_id (reg : GatewayRegistration) (eth0 : string) : res err string :=
  if is_empty (Reg_GatewayID reg) then GatewayIDFromEth0MAC eth0 else Ok (Reg_GatewayID reg).
Definition RegisterGatewaySession (reg : GatewayRegistration) : MW unit :=
  eth0 ← map_err (Wrapf "eth0_mac: %w") (lift (NormalizeMAC (Reg_Eth0MAC reg)));
  eth1 ← map_err (Wrapf "eth1_mac: %w") (lift (NormalizeMAC (Reg_Eth1MAC reg)));
  _ ← guard_err (Reg_MachineID reg <=? 0) (Errorf "machine_id required" []);
  gatewayID ← lift (registration_id reg eth0);
  _ ← stmt;
  t ← now;
  let g := mkGatewaySession gatewayID (hashToken (Reg_Token reg)) (Some (Reg_MachineID reg))
             (Some eth0) (Some eth1) (Some t) in
  taken ← gets (fun w => eth0_taken g (gateway_sessions (db w)));
  _ ← guard_err taken ErrDB;
  modify (on_db (on_gateway_sessions (upsert_gateway g))).
Definition ValidateGatewayRequest (gatewayID token eth0Raw eth1Raw : string) : MW bool :=
  r ← try (GetGatewaySession gatewayID);
  mret (match r with
        | Fail _ => false
        | Ok sess =>
            if negb (seqb (GS_TokenHash sess) (hashToken token)) then false
            else match GS_Eth0MAC sess, GS_Eth1MAC sess with
                 | Some e0, Some e1 =>
                     match NormalizeMAC eth0Raw, NormalizeMAC eth1Raw with
                     | Ok n0, Ok n1 => seqb n0 e0 && seqb n1 e1
                     | _, _ => false
                     end
                 | _, _ => true
                 end
        end).
Definition ValidateGatewayToken (gatewayID token : string) : MW bool :=
  ValidateGatewayRequest gatewayID token "" "".
(** [ORDER BY last_seen DESC NULLS LAST] *)
Definition last_seen_key (g : GatewaySession) : Z :=
  match GS_LastSeen g with Some t => Z.max 0 t + 1 | None => 0 end.
Definition ListGatewaySessions : MW (list GatewaySession) :=
  query (fun d => order_desc last_seen_key
    (map (fun g => mkGatewaySession (GS_GatewayID g) "" (GS_MachineID g) (GS_Eth0MAC g)
                     (GS_Eth1MAC g) (GS_LastSeen g)) (gateway_sessions d))).
Definition touch (t : Time) (g : GatewaySession) : GatewaySession :=
  mkGatewaySession (GS_GatewayID g) (GS_TokenHash g) (GS_MachineID g) (GS_Eth0MAC g)
    (GS_Eth1MAC g) (Some t).
Definition TouchGatewayHeartbeat (gatewayID : string) : MW unit :=
  _ ← stmt;
  t ← now;
  modify (on_db (on_gateway_sessions (update_where (fun g => seqb (GS_GatewayID g) gatewayID) (touch t)))).
Definition IsGatewayOnline (gatewayID : string) (timeout : Duration) : MW bool :=
  g ← GetGatewaySession gatewayID;
  match GS_LastSeen g with
  | None => mret false
  | Some lastSeen => t ← now; mret (IsOnline lastSeen t timeout)
  end.
(** The details are JSON that is not read back: the action is recorded. *)
Definition PortalAuditLog (email action : string) : MW unit :=
  exec (on_portal_audit_log (fun rows => rows ++ [(email, action)])).

(** ** The exchange cache *)
Definition GetGatewayExchange (machineID : Z) : MW (list ExchangeKV * Time) :=
  r ← query (fun d => ok_or (gateway_exchange_cache d !! machineID) ErrNoRows);
  '(keys, updatedAt) ← lift r;
  ks ← lift (ok_or keys (Errorf "decode exchange cache: %w" []));
  mret (ks, updatedAt).
(** The requested keys are ranged over in the order of a Go map. *)
Definition merged_cache (keys existing : list ExchangeKV) : list ExchangeKV :=
  let requested := elements (list_to_set (map K keys) ∪ list_to_set (map K existing) : gset Z) in
  MergeExchangeKeys keys existing requested.
Definition UpsertGatewayExchange (machineID : Z) (keys : list ExchangeKV) : MW unit :=
  r ← try (GetGatewayExchange machineID);
  let merged := match r with
                | Ok (existing, _) => if (0 <? length existing)%nat then merged_cache keys existing else keys
                | Fail _ => keys
                end in
  _ ← stmt;
  t ← now;
  modify (on_db (on_gateway_exchange_cache (<[machineID := (Some merged, t)]>))).
Definition GetMachineTelemetry (clientID : string) : MW (list ExchangeKV * Time) :=
  r ← query (fun d => ok_or (machine_telemetry d !! clientID) ErrNoRows);
  '(_, ek, updatedAt) ← lift r;
  ks ← lift (ok_or ek (Errorf "json" []));
  mret (ks, updatedAt).
(** A NULL machine id does not scan into an [int]. *)
Definition MachineIDForGateway (gatewayID : string) : MW Z :=
  g ← GetGatewaySession gatewayID;
  lift (ok_or (GS_MachineID g) ErrDB).

(** ** Coalescing: lemmas *)

(** The runs of consecutive pure block actions, stated without a loop. *)
Inductive coalesced : list CloudAction -> list CloudAction -> Prop :=
  | coalesced_nil : coalesced [] []
  | coalesced_other a p q :
      IsPureBlockAction (CA_Params a) = false -> coalesced p q -> coalesced (a :: p) (a :: q)
  | coalesced_run a run p q :
      Forall (fun b => IsPureBlockAction (CA_Params b) = true) (a :: run) ->
      (forall b, head p = Some b -> IsPureBlockAction (CA_Params b) = false) ->
      coalesced p q ->
      coalesced (a :: run ++ p) (merge_run a run :: q).

Lemma pure_run_spec p run rest : pure_run p = (run, rest) ->
  p = run ++ rest /\ Forall (fun b => IsPureBlockAction (CA_Params b) = true) run /\
  (forall b, head rest = Some b -> IsPureBlockAction (CA_Params b) = false).
Proof.
  revert run rest. induction p as [|a p IH]; intros run rest; simpl.
  { intros [= <- <-]. done. }
  destruct (IsPureBlockAction (CA_Params a)) eqn:Ha.
  - destruct (pure_run p) as [run' rest'] eqn:E. intros [= <- <-].
    destruct (IH run' rest' eq_refl) as (-> & H2 & H3). split_and!; [done|by constructor|done].
  - intros [= <- <-]. split_and!; [done|constructor|]. by intros b [= <-].
Qed.
Lemma coalesce_loop_spec fuel p : (length p <= fuel)%nat -> coalesced p (coalesce_loop fuel p).
Proof.
  revert p. induction fuel as [|fuel IH]; intros p Hp.
  { destruct p; [constructor|simpl in Hp; lia]. }
  destruct p as [|a p]; [constructor|]. cbn [coalesce_loop]. simpl in Hp.
  destruct (IsPureBlockAction (CA_Params a)) eqn:Ha; cbn [negb].
  2:{ constructor; [done|]. apply IH. lia. }
  destruct (pure_run p) as [run rest] eqn:E.
  apply pure_run_spec in E as (-> & H2 & H3). rewrite length_app in Hp.
  constructor; [by constructor|done|]. apply IH. lia.
Qed.
Lemma coalesce_spec p : coalesced p (coalescePendingActions p).
Proof. by apply coalesce_loop_spec. Qed.
Lemma last_default_irrel {A} (x y : A) l : l <> [] -> List.last l x = List.last l y.
Proof. induction l as [|a [|b l] IH]; [done|done|]. intros _. by apply IH. Qed.
Lemma last_in {A} (a : A) l : List.last (a :: l) a ∈ a :: l.
Proof.
  revert a. induction l as [|b l IH]; intros a; [left|].
  change (List.last (a :: b :: l) a) with (List.last (b :: l) a).
  rewrite (last_default_irrel a b) by done. right. apply IH.
Qed.
Lemma merge_run_GUID a run : CA_GUID (merge_run a run) = CA_GUID (List.last (a :: run) a).
Proof. unfold merge_run. by destruct_if E. Qed.
Lemma merge_run_pure a run : Forall (fun b => IsPureBlockAction (CA_Params b) = true) (a :: run) ->
  IsPureBlockAction (CA_Params (merge_run a run)) = true.
Proof.
  intros H. unfold merge_run. destruct_if E.
  - simpl. unfold MergeBlockActions, IsPureBlockAction. rewrite merged_out_eq.
    unfold merged_list. cbn [foldl].
    change (pure_step (Some false) (mkKV IndexScenario "1")) with (Some false).
    rewrite foldl_app, pure_foldl_true; [reflexivity| |done].
    apply forallb_elem. intros p (k & -> & Hk)%list_elem_of_fmap. by apply block_index_elem.
  - rewrite Forall_forall in H. apply H, last_in.
Qed.
Lemma mjoin_map_app {A B} (f : A -> list B) l1 l2 :
  mjoin (map f (l1 ++ l2)) = mjoin (map f l1) ++ mjoin (map f l2).
Proof. by rewrite map_app, join_app. Qed.
Lemma merge_run_final a run k n :
  isBlockIndex k = true -> 0 <= n ->
  Forall (fun b => numeric_block (CA_Params b) = true) (a :: run) ->
  final_intent k n (CA_Params (merge_run a run)) =
  final_intent k n (mjoin (map CA_Params (a :: run))).
Proof.
  intros Hk Hn Hnum. unfold merge_run. destruct_if E.
  - simpl CA_Params. unfold MergeBlockActions. rewrite merged_out_eq.
    apply final_intent_merged; [done|done|]. apply forallb_elem.
    intros p (b & Hp & Hb)%list_elem_of_join.
    apply list_elem_of_fmap in Hb as (c & -> & Hc). rewrite Forall_forall in Hnum.
    apply Hnum in Hc. unfold numeric_block in Hc. rewrite forallb_elem in Hc. by apply Hc.
  - destruct run as [|b run]; [|simpl in E; lia].
    cbn [map]. rewrite mjoin_cons. by rewrite app_nil_r.
Qed.

(** ** Coalescing: theorems *)

(** The actions delivered on a poll are the pending ones in their order,
    where every maximal run of consecutive pure light or shutter blocks is one
    action, carried by the last GUID of the run; every other action is
    delivered unchanged, and no other GUID is delivered. *)
Lemma coalesce_runs (pending : list CloudAction) :
  let out := coalescePendingActions pending in
  coalesced pending out /\ (forall out', coalesced pending out' -> out' = out) /\
  sublist (map CA_GUID out) (map CA_GUID pending) /\
  List.filter (fun a => negb (IsPureBlockAction (CA_Params a))) out =
  List.filter (fun a => negb (IsPureBlockAction (CA_Params a))) pending.
Proof.
  cbv zeta. pose proof (coalesce_spec pending) as H. split_and!; [done| | |].
  - generalize dependent (coalescePendingActions pending). intros out H out' H'.
    revert out' H'. induction H as [|a p q Ha Hc IH|a run p q Hf Hh Hc IH]; intros out' H'.
    + by inversion H'.
    + inversion H' as [|a' p' q' Ha' Hc'|a' run' p' q' Hf' Hh' Hc']; subst.
      * f_equal. by apply IH.
      * apply Forall_cons in Hf' as [Hf' _]. congruence.
    + inversion H' as [|a' p' q' Ha' Hc'|a' run' p' q' Hf' Hh' Hc']; subst.
      * apply Forall_cons in Hf as [Hf _]. congruence.
      * match goal with E : _ ++ _ = _ ++ _ |- _ => rename E into Heq end.
        assert (run' = run /\ p' = p) as [-> ->].
        { apply Forall_cons in Hf as [_ Hf], Hf' as [_ Hf'].
          clear -Hf Hf' Hh Hh' Heq. revert run' Hf' Heq.
          induction Hf as [|b run Hb Hf IH]; intros run' Hf' Heq; destruct Hf' as [|b' run' Hb' Hf'];
            simpl in Heq.
          - done.
          - subst p. rewrite (Hh b' eq_refl) in Hb'. done.
          - subst p'. rewrite (Hh' b eq_refl) in Hb. done.
          - injection Heq as -> Heq. destruct (IH run' Hf' Heq) as [-> ->]. done. }
        f_equal. by apply IH.
  - induction H as [|a p q Ha Hc IH|a run p q Hf Hh Hc IH]; cbn [map].
    + constructor.
    + by constructor.
    + rewrite map_app, merge_run_GUID. change (sublist ([CA_GUID (List.last (a :: run) a)] ++ map CA_GUID q)
        (map CA_GUID (a :: run) ++ map CA_GUID p)).
      apply sublist_app; [|done]. apply sublist_elem_of. 
      by apply list_elem_of_fmap_2, last_in.
  - induction H as [|a p q Ha Hc IH|a run p q Hf Hh Hc IH]; [done| |].
    + simpl. rewrite Ha. simpl. by f_equal.
    + change (a :: run ++ p) with ((a :: run) ++ p). rewrite filter_app_list.
      rewrite (filter_all_false _ (a :: run)).
      * simpl. by rewrite merge_run_pure.
      * intros b Hb. rewrite Forall_forall in Hf. by rewrite Hf.
Qed.

(** C2. Coalescing does not change what the cabinet is told: for every lamp
    and shutter of the block, the last intent of the delivered actions is the
    last intent of the pending ones, and an untouched one stays untouched
    (for numeric commands, the only ones the portal emits). *)
Theorem coalesce_preserves_intents (pending : list CloudAction) (k n : Z) :
  Forall (fun a => numeric_block (CA_Params a) = true) pending ->
  isBlockIndex k = true -> 0 <= n ->
  final_intent k n (mjoin (map CA_Params (coalescePendingActions pending))) =
  final_intent k n (mjoin (map CA_Params pending)).
Proof.
  intros Hnum Hk Hn. pose proof (coalesce_spec pending) as H.
  induction H as [|a p q Ha Hc IH|a run p q Hf Hh Hc IH]; [done| |].
  - apply Forall_cons in Hnum as [Hna Hnp]. cbn [map]. rewrite !mjoin_cons, !final_intent_app.
    by rewrite IH.
  - change (a :: run ++ p) with ((a :: run) ++ p) in *. apply Forall_app in Hnum as [Hna Hnp].
    rewrite mjoin_map_app. cbn [map]. rewrite mjoin_cons, !final_intent_app, IH by done.
    rewrite merge_run_final by done. done.
Qed.
Lemma coalesce_preserves_intents_witness :
  let on := mkCloudAction "a" 1 (Some 2) [mkKV 611 "1"] "pending" 0 in
  let off := mkCloudAction "b" 1 (Some 2) [mkKV 605 "1"] "pending" 1 in
  length (coalescePendingActions [on; off]) = 1%nat /\
  final_intent 611 0 (mjoin (map CA_Params (coalescePendingActions [on; off]))) = Some false.
Proof.
  cbv zeta. split; [vm_compute; reflexivity|].
  rewrite coalesce_preserves_intents;
    [vm_compute; reflexivity|repeat constructor|reflexivity|lia].
Defined.

(** ** Delivery: lemmas *)

Lemma stmt_ok w : faults w = [] -> stmt w = (Ok tt, w).
Proof. unfold stmt. by intros ->. Qed.
Lemma now_faults {E} w : faults (@now E w).2 = faults w.
Proof. unfold now. by destruct (ticks w). Qed.
Lemma query_ok {A} (f : DB -> A) w : faults w = [] -> query f w = (Ok (f (db w)), w).
Proof. intros Hf. unfold query. rewrite M_bind_run, stmt_ok by done. done. Qed.
Lemma query_text_ok {A} t (f : DB -> A) w : faults w = [] -> text_ok t = true -> query_text t f w = (Ok (f (db w)), w).
Proof. intros Hf Ht. unfold query_text. rewrite M_bind_run, stmt_ok, M_bind_run, guard_run by done. by rewrite Ht. Qed.

(** One statement [UPDATE .. SET f(NOW())]. *)
Definition update_now (f : Time -> DB -> DB) : MW unit :=
  _ ← stmt; t ← now; modify (on_db (f t)).
Lemma update_now_ok f w : faults w = [] ->
  exists t w', update_now f w = (Ok tt, w') /\ clock w <= t /\ clock w' = t /\
    db w' = f t (db w) /\ faults w' = [].
Proof.
  intros Hf. unfold update_now. rewrite M_bind_run, stmt_ok by done. rewrite M_bind_run.
  destruct (@now_Ok err w) as (t & Ht & Hle & Hc). pose proof (@now_db err w) as Hd.
  pose proof (@now_faults err w) as Hfa. destruct (now w) as [r w0]. simpl in *. subst r.
  eexists t, _. split; [reflexivity|]. simpl. rewrite Hd. by rewrite Hfa.
Qed.

Definition delivered_row (G : list string) (r r' : ActionRow) : Prop :=
  if bool_decide (A_GUID r ∈ G) then exists t, r' = set_delivered t r else r' = r.
Lemma Forall2_map_r {A B} (R : A -> B -> Prop) (f : A -> B) l :
  (forall a, a ∈ l -> R a (f a)) -> Forall2 R l (map f l).
Proof.
  induction l as [|a l IH]; intros H; constructor; [apply H; left|].
  apply IH. intros b Hb. apply H. by right.
Qed.
Lemma mark_all_delivered_ok pending w : faults w = [] ->
  exists w', mark_all_delivered pending w = (Ok tt, w') /\ faults w' = [] /\
    Forall2 (delivered_row (map CA_GUID pending)) (cloud_actions (db w)) (cloud_actions (db w')).
Proof.
  revert w. induction pending as [|a pending IH]; intros w Hf.
  { exists w. split_and!; [done|done|]. apply Forall2_refl_on. intros r Hr.
    unfold delivered_row. rewrite bool_decide_eq_false_2; [done|]. apply not_elem_of_nil. }
  destruct (update_now_ok (fun t => on_cloud_actions
    (update_where (fun r => seqb (A_GUID r) (CA_GUID a)) (set_delivered t))) w Hf)
    as (t & w1 & H1 & _ & _ & Hd & Hf1).
  destruct (IH w1 Hf1) as (w' & H2 & Hf2 & HF).
  exists w'. split; [|split; [done|] ].
  - cbn [mark_all_delivered]. rewrite M_bind_run. unfold try, mark_delivered.
    unfold update_now in H1. rewrite H1. exact H2.
  - rewrite Hd in HF. simpl cloud_actions in HF.
    revert HF. generalize (cloud_actions (db w')). generalize (cloud_actions (db w)). clear.
    intros l. induction l as [|r l IH]; intros l' HF; inversion HF as [|? r' ? l'' Hr HF']; subst;
      constructor; [|by apply IH].
    unfold delivered_row in *. cbn [map].
    destruct (seqb (A_GUID r) (CA_GUID a)) eqn:E.
    + apply seqb_spec in E. rewrite (bool_decide_eq_true_2 (_ ∈ CA_GUID a :: _)) by (rewrite E; left).
      revert Hr. simpl A_GUID. case_bool_decide; [|intros ->; by exists t].
      intros [t' ->]. by exists t'.
    + assert (A_GUID r <> CA_GUID a) as Hne by (intros Hx%seqb_spec; congruence).
      revert Hr. repeat case_bool_decide; try done.
      * rewrite elem_of_cons in *. tauto.
      * rewrite elem_of_cons in *. tauto.
Qed.

Definition as_pending (r : ActionRow) : CloudAction :=
  mkCloudAction (A_GUID r) (A_UserID r) (A_MachineID r) (default [] (A_Params r))
    ActionStatusPending (A_CreatedAt r).
Lemma decode_batch rows :
  Forall (fun r => is_Some (A_Params r)) rows ->
  mapM (decode_action (fun _ => ActionStatusPending)) rows = Ok (map as_pending rows).
Proof.
  set (f := decode_action (fun _ => ActionStatusPending)).
  induction 1 as [|r rows [ps Hr] H IH]; [done|].
  change (mapM f (r :: rows)) with (y ← f r; k ← mapM f rows; mret (y :: k)).
  assert (f r = Ok (as_pending r)) as ->.
  { unfold f, decode_action, as_pending. by rewrite Hr. }
  cbn [mbind res_bind]. by rewrite IH.
Qed.
Lemma map_GUID_as_pending rows : map CA_GUID (map as_pending rows) = map A_GUID rows.
Proof. rewrite map_map. by apply map_ext. Qed.
Lemma select_after_delivery m G rows rows' :
  Forall2 (delivered_row G) rows rows' ->
  select (pending_for m) rows' =
  List.filter (fun r => negb (bool_decide (A_GUID r ∈ G))) (select (pending_for m) rows).
Proof.
  unfold select. induction 1 as [|r r' rows rows' Hr H IH]; [done|]. cbn [List.filter].
  unfold delivered_row in Hr. case_bool_decide as HG.
  - destruct Hr as [t ->].
    assert (pending_for m (set_delivered t r) = false) as -> by done.
    rewrite IH. destruct (pending_for m r); [|done]. simpl.
    by rewrite bool_decide_eq_true_2.
  - subst r'. rewrite IH. destruct (pending_for m r); [|done]. simpl.
    by rewrite bool_decide_eq_false_2.
Qed.

(** ** Delivery: theorems *)

Lemma fetch_run (w : World) (machineID lim : Z) :
  let rows := cloud_actions (db w) in
  let batch := pending_batch machineID lim rows in
  faults w = [] -> 0 < lim -> NoDup (map A_GUID rows) ->
  Forall (fun r => is_Some (A_Params r)) batch ->
  exists w', faults w' = [] /\
    FetchPendingActionsForMachine machineID lim w =
      (Ok (coalescePendingActions (map as_pending batch)), w') /\
    Forall2 (delivered_row (map A_GUID batch)) rows (cloud_actions (db w')) /\
    Permutation (select (pending_for machineID) (cloud_actions (db w')))
      (drop (Z.to_nat lim) (order_asc A_CreatedAt (select (pending_for machineID) rows))).
Proof.
  intros rows batch Hf Hlim Hnd Hdec.
  unfold FetchPendingActionsForMachine. rewrite (proj2 (Z.leb_gt lim 0)) by done.
  rewrite M_bind_run, query_ok by done. fold rows. fold batch.
  assert (exists w', faults w' = [] /\ (match batch with
      | [] => (Ok [] : res err (list CloudAction), w)
      | _ => (_ ← mark_all_delivered (map as_pending batch);
              mret (coalescePendingActions (map as_pending batch))) w end) =
        (Ok (coalescePendingActions (map as_pending batch)), w') /\
      Forall2 (delivered_row (map A_GUID batch)) rows (cloud_actions (db w'))) as (w' & Hf' & Hrun & HF).
  { destruct (mark_all_delivered_ok (map as_pending batch) w Hf) as (w' & Hm & Hf' & HF).
    rewrite map_GUID_as_pending in HF. destruct batch as [|b batch'] eqn:Eb.
    - exists w. split_and!; [done..|]. apply Forall2_refl_on. intros r _.
      unfold delivered_row. rewrite bool_decide_eq_false_2; [done|]. apply not_elem_of_nil.
    - exists w'. split_and!; [done| |done]. by rewrite M_bind_run, Hm. }
  exists w'. split; [done|]. split; [|split; [done|] ].
  - rewrite <-Hrun. destruct batch as [|b batch'] eqn:Eb; [done|].
    cbn [length Nat.eqb]. rewrite M_bind_run. unfold lift. rewrite decode_batch by done. done.
  - rewrite (select_after_delivery _ _ _ _ HF).
    set (S := select (pending_for machineID) rows).
    set (O := order_asc A_CreatedAt S).
    assert (Permutation O S) as HO by apply merge_sort_Permutation.
    change (map A_GUID batch) with (map A_GUID (take (Z.to_nat lim) O)).
    rewrite <-(filter_key_drop A_GUID (Z.to_nat lim) O).
    + apply Permutation_filter_list. by rewrite HO.
    + rewrite HO. by apply NoDup_map_filter.
Qed.

(** C3. A poll delivers the oldest pending actions of the machine (at most the
    limit, in order of creation, coalesced), marks exactly those delivered,
    touches no other row, and leaves the rest of the queue pending: with no
    statement failing and one poll after the other, no action is delivered by
    two polls and none is lost. *)
Theorem fetch_pending_exactly_once (w : World) (machineID lim : Z) :
  let rows := cloud_actions (db w) in
  let batch := pending_batch machineID lim rows in
  faults w = [] -> 0 < lim -> NoDup (map A_GUID rows) ->
  Forall (fun r => is_Some (A_Params r)) batch ->
  exists w',
    FetchPendingActionsForMachine machineID lim w =
      (Ok (coalescePendingActions (map as_pending batch)), w') /\
    Forall2 (delivered_row (map A_GUID batch)) rows (cloud_actions (db w')) /\
    Permutation (select (pending_for machineID) (cloud_actions (db w')))
      (drop (Z.to_nat lim) (order_asc A_CreatedAt (select (pending_for machineID) rows))).
Proof.
  intros rows batch Hf Hlim Hnd Hdec. destruct (fetch_run w machineID lim Hf Hlim Hnd Hdec) as (w' & _ & H). by exists w'.
Qed.
Definition demo_world : World :=
  on_db (on_cloud_actions (fun _ =>
    [mkAction "b" 1 (Some 2) (Some [mkKV 605 "1"]) "pending" 7 None None;
     mkAction "a" 1 (Some 2) (Some [mkKV 611 "1"]) "pending" 5 None None;
     mkAction "c" 1 (Some 2) (Some [mkKV 590 "3"]) "pending" 9 None None;
     mkAction "d" 1 (Some 4) (Some [mkKV 590 "3"]) "pending" 1 None None]))
    (empty_world 100 []).
Lemma fetch_pending_exactly_once_witness :
  faults demo_world = [] /\
  exists w', FetchPendingActionsForMachine 2 2 demo_world =
    (Ok (coalescePendingActions (map as_pending (pending_batch 2 2 (cloud_actions (db demo_world))))), w')
    /\ map A_GUID (select (pending_for 2) (cloud_actions (db w'))) = ["c"].
Proof.
  split; [reflexivity|].
  destruct (fetch_pending_exactly_once demo_world 2 2) as (w' & H1 & H2 & H3).
  - reflexivity.
  - lia.
  - apply (bool_decide_unpack _). vm_compute. exact I.
  - apply (bool_decide_unpack _). vm_compute. exact I.
  - exists w'. split; [exact H1|].
    change (drop _ _) with [mkAction "c" 1 (Some 2) (Some [mkKV 590 "3"]) "pending" 9 None None] in H3.
    apply Permutation_sym, Permutation_length_1_inv in H3. by rewrite H3.
Defined.

(** ** The life of an action *)
Definition status_rank (s : string) : Z :=
  if seqb s ActionStatusDone then 2 else if seqb s ActionStatusDelivered then 1 else 0.
Definition action_le (r r' : ActionRow) : Prop :=
  A_GUID r' = A_GUID r /\ A_UserID r' = A_UserID r /\ A_MachineID r' = A_MachineID r /\
  A_Params r' = A_Params r /\ A_CreatedAt r' = A_CreatedAt r /\
  status_rank (A_Status r) <= status_rank (A_Status r').
#[export] Instance action_le_refl : Reflexive action_le.
Proof. intros r. unfold action_le. split_and!; try done; lia. Qed.
#[export] Instance action_le_trans : Transitive action_le.
Proof. unfold action_le. intros a b c (?&?&?&?&?&?) (?&?&?&?&?&?). split_and!; try congruence; lia. Qed.
(** The old rows, advanced, followed by the new ones. *)
Definition actions_grow (rows rows' : list ActionRow) : Prop :=
  exists rows1 new, rows' = rows1 ++ new /\ Forall2 action_le rows rows1.
#[export] Instance actions_grow_refl : Reflexive actions_grow.
Proof. intros rows. exists rows, []. rewrite app_nil_r. split; [done|]. by apply Forall2_refl_on. Qed.
#[export] Instance actions_grow_trans : Transitive actions_grow.
Proof.
  intros r1 r2 r3 (x & n1 & -> & H1) (y & n2 & -> & H2).
  apply Forall2_app_inv_l in H2 as (y1 & y2 & H2 & H2' & ->).
  exists y1, (y2 ++ n2). rewrite <-app_assoc. split; [done|].
  etrans; [exact H1|exact H2].
Qed.

(** With any fault plan, marking either marks a row of the batch or leaves it. *)
Definition delivered_or_kept (G : list string) (r r' : ActionRow) : Prop :=
  r' = r \/ (A_GUID r ∈ G /\ exists t, r' = set_delivered t r).
Lemma mark_delivered_rows guid w :
  Forall2 (delivered_or_kept [guid]) (cloud_actions (db w))
    (cloud_actions (db (mark_delivered guid w).2)).
Proof.
  unfold mark_delivered. rewrite M_bind_run. pose proof (stmt_db w) as Hs.
  destruct (stmt w) as [[[]|e] w1]; simpl in Hs; simpl; rewrite <-Hs.
  2:{ apply Forall2_refl_on. by left. }
  rewrite M_bind_run. destruct (@now_Ok err w1) as (t & Ht & _). pose proof (@now_db err w1) as Hn.
  destruct (now w1) as [r w2]. simpl in *. subst r. simpl. rewrite Hn.
  apply Forall2_map_r. intros r _. destruct (seqb (A_GUID r) guid) eqn:E; [right|by left].
  apply seqb_spec in E as ->. split; [left|by exists t].
Qed.
Lemma mark_all_delivered_rows pending w :
  Forall2 (delivered_or_kept (map CA_GUID pending)) (cloud_actions (db w))
    (cloud_actions (db (mark_all_delivered pending w).2)).
Proof.
  revert w. induction pending as [|a pending IH]; intros w.
  { apply Forall2_refl_on. by left. }
  cbn [mark_all_delivered map]. rewrite M_bind_run. unfold try.
  pose proof (mark_delivered_rows (CA_GUID a) w) as H1.
  destruct (mark_delivered (CA_GUID a) w) as [r w1]. simpl in H1.
  specialize (IH w1). simpl. revert H1 IH.
  generalize (cloud_actions (db (mark_all_delivered pending w1).2)).
  generalize (cloud_actions (db w)), (cloud_actions (db w1)). clear.
  intros l1 l2 l3 H12. revert l3.
  induction H12 as [|r1 r2 l1 l2 Hr H12 IH]; intros l3 H23; inversion H23 as [|? r3 ? l3' Hr' H23']; subst;
    constructor; [|by apply IH].
  destruct Hr as [->|[Hg [t ->] ] ], Hr' as [->|[Hg' [t' ->] ] ].
  - by left.
  - right. split; [by right|by exists t'].
  - right. split; [|by exists t]. apply list_elem_of_singleton in Hg as ->. left.
  - right. split; [by right|by exists t'].
Qed.
Lemma query_run {A} (f : DB -> A) w :
  exists w1, db w1 = db w /\ (query f w = (Ok (f (db w)), w1) \/ query f w = (Fail ErrDB, w1)).
Proof.
  unfold query. rewrite M_bind_run. unfold stmt. destruct (faults w) as [|[] fs]; eexists; simpl;
    (split; [|by (left + right)]); done.
Qed.
Lemma decode_batch_GUID rows pending :
  mapM (decode_action (fun _ => ActionStatusPending)) rows = Ok pending ->
  map CA_GUID pending = map A_GUID rows.
Proof.
  set (f := decode_action (fun _ => ActionStatusPending)).
  revert pending. induction rows as [|r rows IH]; intros pending; [by intros [= <-]|].
  change (mapM f (r :: rows)) with (y ← f r; k ← mapM f rows; mret (y :: k)).
  rewrite res_bind_Ok. intros (y & Hy & (k & Hk & [= <-])%res_bind_Ok).
  cbn [map]. rewrite (IH k Hk). f_equal. unfold f, decode_action in Hy.
  apply res_bind_Ok in Hy as (ps & _ & [= <-]). done.
Qed.
Definition guids_unique (d : DB) : Prop := NoDup (map A_GUID (cloud_actions d)).
Lemma actions_grow_guids rows rows1 : Forall2 action_le rows rows1 -> map A_GUID rows1 = map A_GUID rows.
Proof. induction 1 as [|r r' l l' (Hg & _) H IH]; [done|]. simpl. by rewrite Hg, IH. Qed.
Lemma elem_of_pending_batch m lim rows r : r ∈ pending_batch m lim rows -> r ∈ rows /\ pending_for m r = true.
Proof.
  unfold pending_batch, limit. intros Hr%elem_of_take. destruct Hr as (i & Hr & _).
  apply list_elem_of_lookup_2, elem_of_order_asc, elem_of_select in Hr. done.
Qed.
Lemma fetch_grows m lim w : guids_unique (db w) ->
  actions_grow (cloud_actions (db w)) (cloud_actions (db (FetchPendingActionsForMachine m lim w).2)).
Proof.
  intros Hnd. unfold FetchPendingActionsForMachine. set (lim' := if lim <=? 0 then 20 else lim).
  rewrite M_bind_run.
  destruct (query_run (fun d => pending_batch m lim' (cloud_actions d)) w) as (w1 & Hd & [-> | ->]).
  2:{ simpl. by rewrite Hd. }
  set (batch := pending_batch m lim' (cloud_actions (db w))).
  destruct (length batch =? 0)%nat; [simpl; by rewrite Hd|].
  rewrite M_bind_run. unfold lift.
  destruct (mapM _ batch) as [pending|e] eqn:Em; [|simpl; by rewrite Hd].
  rewrite M_bind_run. apply decode_batch_GUID in Em.
  pose proof (mark_all_delivered_rows pending w1) as HF. rewrite Em, Hd in HF.
  assert (actions_grow (cloud_actions (db w)) (cloud_actions (db (mark_all_delivered pending w1).2))) as HG.
  { exists (cloud_actions (db (mark_all_delivered pending w1).2)), []. rewrite app_nil_r. split; [done|].
    eapply Forall2_impl_in; [exact HF|]. intros r r' Hr [->|[Hg [t ->] ] ]; [done|].
    apply list_elem_of_fmap in Hg as (b & Hg & Hb). apply elem_of_pending_batch in Hb as [Hb Hp].
    assert (r = b) as -> by by eapply (NoDup_key_eq A_GUID).
    unfold pending_for in Hp. apply andb_true_iff in Hp as [Hp%seqb_spec _].
    unfold action_le. split_and!; try done. rewrite Hp. by vm_compute. }
  destruct (mark_all_delivered pending w1) as [[[]|e] w2]; exact HG.
Qed.
Lemma update_now_db f w : db (update_now f w).2 = db w \/ exists t, db (update_now f w).2 = f t (db w).
Proof.
  unfold update_now. rewrite M_bind_run. pose proof (stmt_db w) as Hs.
  destruct (stmt w) as [[[]|e] w1]; simpl in Hs; simpl; [|by left; rewrite Hs].
  rewrite M_bind_run. destruct (@now_Ok err w1) as (t & Ht & _). pose proof (@now_db err w1) as Hn.
  destruct (now w1) as [r w2]. simpl in *. subst r. right. exists t. simpl. by rewrite Hn, Hs.
Qed.
Lemma insert_action_grows a rows : actions_grow rows (insert_action a rows).
Proof.
  unfold insert_action. destruct (existsb _ rows); [done|].
  exists rows, [a]. split; [done|]. by apply Forall2_refl_on.
Qed.
Lemma insert_action_NoDup a rows : NoDup (map A_GUID rows) -> NoDup (map A_GUID (insert_action a rows)).
Proof.
  intros Hnd. unfold insert_action. destruct (existsb _ rows) eqn:E; [done|].
  rewrite map_app. apply NoDup_app. split_and!; [done| |apply NoDup_singleton].
  intros g (r & -> & Hr)%list_elem_of_fmap Hg. simpl in Hg. apply list_elem_of_singleton in Hg.
  apply not_true_iff_false in E. apply E, existsb_elem. exists r. split; [done|].
  rewrite Hg. apply seqb_refl.
Qed.
Lemma enqueue_rows guid u m ps w :
  cloud_actions (db (EnqueueCloudAction guid u m ps w).2) = cloud_actions (db w) \/
  exists t, cloud_actions (db (EnqueueCloudAction guid u m ps w).2) =
    insert_action (mkAction guid u m (Some ps) ActionStatusPending t None None) (cloud_actions (db w)).
Proof.
  destruct (update_now_db (fun t => on_cloud_actions (insert_action
    (mkAction guid u m (Some ps) ActionStatusPending t None None))) w) as [H|[t H] ];
    unfold update_now in H; unfold EnqueueCloudAction; rewrite H; [by left|right; by exists t].
Qed.
Lemma set_done_le t r : action_le r (set_done t r).
Proof.
  unfold action_le. split_and!; try done. simpl. unfold status_rank at 2. cbn.
  unfold status_rank. destruct (seqb _ _); [done|]. by destruct (seqb _ _).
Qed.
Lemma mark_done_rows guid w :
  cloud_actions (db (MarkActionDone guid w).2) = cloud_actions (db w) \/
  exists row t, row ∈ cloud_actions (db w) /\ A_GUID row = guid /\
    cloud_actions (db (MarkActionDone guid w).2) =
      update_where (done_target guid (A_MachineID row)) (set_done t) (cloud_actions (db w)).
Proof.
  destruct (MarkActionDone guid w) as [res w'] eqn:E. cbn [snd]. revert E.
  unfold MarkActionDone. rewrite M_bind_run. unfold map_err. rewrite M_bind_run.
  destruct (query_run (fun d => get_row (fun a => seqb (A_GUID a) guid) (cloud_actions d)) w)
    as (w1 & Hd & [-> | ->]); [|intros [= _ <-]; left; by rewrite Hd].
  unfold lift. destruct (get_row _ _) as [row|e] eqn:Eg; [|intros [= _ <-]; left; by rewrite Hd].
  apply get_row_Ok in Eg as [Hrow Hg%seqb_spec].
  rewrite M_bind_run. pose proof (stmt_db w1) as Hs.
  destruct (stmt w1) as [[[]|e] w2]; simpl in Hs; [|intros [= _ <-]; left; by rewrite Hs, Hd].
  rewrite M_bind_run. destruct (@now_Ok err w2) as (t & Ht & _). pose proof (@now_db err w2) as Hn.
  destruct (now w2) as [r w3]. simpl in Ht, Hn. subst r.
  assert (cloud_actions (db w3) = cloud_actions (db w)) as Hc by by rewrite Hn, Hs, Hd.
  rewrite M_bind_run. unfold gets. rewrite M_bind_run. unfold modify.
  intros HE. right. exists row, t. split_and!; [done|done|]. rewrite <-Hc.
  revert HE. unfold guard_err. by destruct (_ =? 0); intros [= _ <-].
Qed.
Lemma mark_done_grows guid w :
  actions_grow (cloud_actions (db w)) (cloud_actions (db (MarkActionDone guid w).2)).
Proof.
  destruct (mark_done_rows guid w) as [->|(row & t & _ & _ & ->)]; [done|].
  exists (update_where (done_target guid (A_MachineID row)) (set_done t) (cloud_actions (db w))), [].
  rewrite app_nil_r. split; [done|]. apply Forall2_map_r. intros r _.
  destruct (done_target _ _ _); [apply set_done_le|done].
Qed.

(** One call on the action queue, by the portal or by a gateway, with any
    arguments and any fault plan. *)
Inductive queue_step : World -> World -> Prop :=
  | step_enqueue guid u m ps w : queue_step w (EnqueueCloudAction guid u m ps w).2
  | step_fetch m lim w : queue_step w (FetchPendingActionsForMachine m lim w).2
  | step_fetch_gateway g lim w : queue_step w (FetchPendingActionsForGateway g lim w).2
  | step_done guid w : queue_step w (MarkActionDone guid w).2.

Lemma fetch_gateway_rows g lim w :
  (exists w1 m, db w1 = db w /\
     (FetchPendingActionsForGateway g lim w).2 = (FetchPendingActionsForMachine m lim w1).2) \/
  db (FetchPendingActionsForGateway g lim w).2 = db w.
Proof.
  destruct (FetchPendingActionsForGateway g lim w) as [res w'] eqn:E. cbn [snd]. revert E.
  unfold FetchPendingActionsForGateway, GetGatewaySession. rewrite M_bind_run.
  unfold map_err. rewrite M_bind_run.
  destruct (query_run (fun d => get_row (fun x => seqb (GS_GatewayID x) g) (gateway_sessions d)) w)
    as (w1 & Hd & [-> | ->]); [|intros [= _ <-]; by right].
  unfold lift. destruct (get_row _ _) as [s|e]; [|intros [= _ <-]; by right].
  destruct (GS_MachineID s) as [m|]; [|intros [= _ <-]; by right].
  intros E. left. exists w1, m. by rewrite E.
Qed.
Lemma grow_NoDup_step w w' : queue_step w w' -> guids_unique (db w) ->
  actions_grow (cloud_actions (db w)) (cloud_actions (db w')) /\ guids_unique (db w').
Proof.
  unfold guids_unique. intros Hstep Hnd.
  assert (forall m lim w1, db w1 = db w ->
    actions_grow (cloud_actions (db w)) (cloud_actions (db (FetchPendingActionsForMachine m lim w1).2))
    /\ guids_unique (db (FetchPendingActionsForMachine m lim w1).2)) as Hfetch.
  { intros m lim w1 Hd. assert (guids_unique (db w1)) as Hnd1 by by rewrite Hd.
    pose proof (fetch_grows m lim w1 Hnd1) as HG. rewrite Hd in HG. split; [done|].
    unfold guids_unique. clear -HG Hnd Hd. unfold FetchPendingActionsForMachine in *.
    set (lim' := if lim <=? 0 then 20 else lim) in *. rewrite M_bind_run in *.
    destruct (query_run (fun d => pending_batch m lim' (cloud_actions d)) w1) as (w2 & Hd2 & [H|H]);
      rewrite H in *; clear H; [|simpl; by rewrite Hd2, Hd].
    destruct (_ =? 0)%nat; [simpl; by rewrite Hd2, Hd|]. rewrite M_bind_run in *. unfold lift in *.
    destruct (mapM _ _) as [pending|e]; [|simpl; by rewrite Hd2, Hd].
    rewrite M_bind_run. pose proof (mark_all_delivered_rows pending w2) as HF.
    assert (map A_GUID (cloud_actions (db (mark_all_delivered pending w2).2)) =
            map A_GUID (cloud_actions (db w2))) as HE.
    { induction HF as [|r r' l l' Hr HF IH]; [done|]. simpl. rewrite IH. f_equal.
      by destruct Hr as [->|[_ [t ->] ] ]. }
    destruct (mark_all_delivered pending w2) as [[[]|e] w3]; simpl in *; by rewrite HE, Hd2, Hd. }
  destruct Hstep as [guid u m ps w|m lim w|g lim w|guid w].
  - destruct (enqueue_rows guid u m ps w) as [->|[t ->] ]; [done|].
    split; [apply insert_action_grows|by apply insert_action_NoDup].
  - by apply Hfetch.
  - destruct (fetch_gateway_rows g lim w) as [(w1 & m & Hd & ->)| ->]; [by apply Hfetch|done].
  - split; [apply mark_done_grows|].
    destruct (mark_done_rows guid w) as [->|(row & t & _ & _ & ->)]; [done|].
    unfold update_where. rewrite map_map. erewrite map_ext; [exact Hnd|].
    intros r. by destruct (done_target _ _ _).
Qed.

(** C11. Whatever calls the portal and the gateways make one after the other, with
    whatever statements failing, the actions keep distinct GUIDs, an action is
    never lost, never changes owner, machine, parameters or creation date, and
    its status only advances: pending, delivered, done. *)
Theorem action_lifecycle_monotone (w w' : World) :
  rtc queue_step w w' -> guids_unique (db w) ->
  guids_unique (db w') /\
  forall r, r ∈ cloud_actions (db w) -> exists r', r' ∈ cloud_actions (db w') /\ action_le r r'.
Proof.
  intros Hrtc Hnd.
  assert (actions_grow (cloud_actions (db w)) (cloud_actions (db w')) /\ guids_unique (db w')) as [HG HN].
  { induction Hrtc as [w|w w1 w2 Hs Hr IH]; [done|].
    destruct (grow_NoDup_step _ _ Hs Hnd) as [H1 H2]. destruct (IH H2) as [H3 H4].
    split; [|done]. by etrans. }
  split; [done|]. destruct HG as (rows1 & new & -> & HF). intros r Hr.
  apply list_elem_of_lookup_1 in Hr as [i Hi].
  destruct (Forall2_lookup_l _ _ _ _ _ HF Hi) as (r' & Hi' & Hle). exists r'. split; [|done].
  apply elem_of_app. left. by eapply list_elem_of_lookup_2.
Qed.
Lemma action_lifecycle_monotone_witness :
  let w' := (MarkActionDone "a" (FetchPendingActionsForMachine 2 5 demo_world).2).2 in
  guids_unique (db w') /\ status_rank "pending" < status_rank "delivered" < status_rank "done".
Proof.
  cbv zeta. split; [|by vm_compute].
  apply (action_lifecycle_monotone demo_world).
  - eapply rtc_l; [apply step_fetch|]. eapply rtc_l; [apply step_done|]. apply rtc_refl.
  - apply (bool_decide_unpack _). vm_compute. exact I.
Defined.

(** Acknowledging an action: with no failing statement an unknown GUID is
    an error that changes nothing; a known one becomes done together with every
    action already delivered to the same machine (the others of a coalesced
    run), and no other action changes. *)
Lemma mark_action_done_spec (w : World) (guid : string) :
  faults w = [] ->
  match get_row (fun a => seqb (A_GUID a) guid) (cloud_actions (db w)) with
  | Fail _ => (MarkActionDone guid w).1 = Fail (Errorf "action not found" []) /\
              db (MarkActionDone guid w).2 = db w
  | Ok row => (MarkActionDone guid w).1 = Ok tt /\
      exists t, cloud_actions (db (MarkActionDone guid w).2) =
        map (fun r => if seqb (A_GUID r) guid ||
                 (is_some (A_MachineID r) && bool_decide (A_MachineID r = A_MachineID row) &&
                  seqb (A_Status r) ActionStatusDelivered)
               then set_done t r else r) (cloud_actions (db w))
  end.
Proof.
  intros Hf. unfold MarkActionDone. rewrite M_bind_run. unfold map_err. rewrite M_bind_run.
  rewrite query_ok by done. unfold lift.
  destruct (get_row _ _) as [row|e] eqn:Eg; [|done].
  pose proof Eg as Eg'. apply get_row_Ok in Eg' as [Hrow Hg%seqb_spec].
  rewrite M_bind_run, stmt_ok by done. cbv beta iota. rewrite M_bind_run.
  destruct (@now_Ok err w) as (t & Ht & _). pose proof (@now_db err w) as Hn.
  destruct (now w) as [r w1]. simpl in Ht, Hn. subst r. rewrite M_bind_run. unfold gets.
  rewrite M_bind_run. unfold modify. rewrite Hn.
  assert ((count_where (done_target guid (A_MachineID row)) (cloud_actions (db w)) =? 0) = false) as ->.
  { unfold count_where. assert (row ∈ select (done_target guid (A_MachineID row)) (cloud_actions (db w))) as Hin.
    { apply elem_of_select. split; [done|]. unfold done_target. rewrite Hg, seqb_refl. done. }
    destruct (select _ _); [by apply elem_of_nil in Hin|]. simpl. lia. }
  split; [done|]. exists t. simpl. rewrite Hn. unfold update_where. apply map_ext. intros r.
  assert (done_target guid (A_MachineID row) r = seqb (A_GUID r) guid ||
    (is_some (A_MachineID r) && bool_decide (A_MachineID r = A_MachineID row) &&
     seqb (A_Status r) ActionStatusDelivered)) as ->; [|done].
  unfold done_target. f_equal. f_equal.
  destruct (A_MachineID r) as [a|], (A_MachineID row) as [b|]; try done. simpl.
  destruct (Z.eqb_spec a b) as [->|]; case_bool_decide; congruence.
Qed.

(** ** Gateways *)
Lemma get_row_upsert g rows : exists r,
  get_row (fun x => seqb (GS_GatewayID x) (GS_GatewayID g)) (upsert_gateway g rows) = Ok r /\
  GS_TokenHash r = GS_TokenHash g /\ GS_MachineID r = GS_MachineID g /\
  GS_Eth0MAC r = GS_Eth0MAC g /\ GS_Eth1MAC r = GS_Eth1MAC g.
Proof.
  unfold upsert_gateway. destruct (existsb _ rows) eqn:E.
  - induction rows as [|x rows IH]; [done|]. cbn [existsb] in E. cbn [update_where map].
    unfold get_row, select. cbn [List.filter]. destruct (seqb (GS_GatewayID x) (GS_GatewayID g)) eqn:Ex.
    + simpl. rewrite Ex. eexists. split; [reflexivity|]. done.
    + rewrite Ex. by apply IH.
  - induction rows as [|x rows IH].
    + unfold get_row, select. simpl. rewrite seqb_refl. eexists. split; [reflexivity|]. done.
    + cbn [existsb] in E. apply orb_false_iff in E as [Ex E]. unfold get_row, select.
      cbn [app List.filter]. rewrite Ex. by apply IH.
Qed.
Lemma select_upsert_other g rows id : id <> GS_GatewayID g ->
  select (fun x => seqb (GS_GatewayID x) id) (upsert_gateway g rows) =
  select (fun x => seqb (GS_GatewayID x) id) rows.
Proof.
  intros Hne. unfold upsert_gateway. destruct (existsb _ rows).
  - induction rows as [|x rows IH]; [done|]. cbn [update_where map]. unfold select in *.
    cbn [List.filter]. destruct (seqb (GS_GatewayID x) (GS_GatewayID g)) eqn:Ex.
    + apply seqb_spec in Ex. cbn [GS_GatewayID].
      assert (seqb (GS_GatewayID x) id = false) as ->.
      { apply not_true_iff_false. intros Hx%seqb_spec. congruence. }
      apply IH.
    + destruct (seqb (GS_GatewayID x) id); [f_equal|]; apply IH.
  - unfold select. rewrite filter_app_list. cbn [List.filter].
    assert (seqb (GS_GatewayID g) id = false) as ->.
    { apply not_true_iff_false. intros Hx%seqb_spec. congruence. }
    by rewrite app_nil_r.
Qed.
Lemma register_run reg w w' : faults w = [] ->
  RegisterGatewaySession reg w = (Ok tt, w') ->
  exists eth0 eth1 id t, NormalizeMAC (Reg_Eth0MAC reg) = Ok eth0 /\ NormalizeMAC (Reg_Eth1MAC reg) = Ok eth1 /\
    registration_id reg eth0 = Ok id /\
    0 < Reg_MachineID reg /\ faults w' = [] /\
    db w' = on_gateway_sessions (upsert_gateway (mkGatewaySession id
      (hashToken (Reg_Token reg)) (Some (Reg_MachineID reg)) (Some eth0) (Some eth1) (Some t))) (db w).
Proof.
  intros Hf. unfold RegisterGatewaySession. rewrite M_bind_run. unfold map_err, lift.
  destruct (NormalizeMAC (Reg_Eth0MAC reg)) as [eth0|]; [|done]. rewrite M_bind_run.
  destruct (NormalizeMAC (Reg_Eth1MAC reg)) as [eth1|]; [|done]. rewrite M_bind_run.
  unfold guard_err at 1. destruct (Reg_MachineID reg <=? 0) eqn:Em; [done|]. cbn [mret M_ret].
  rewrite M_bind_run.
  destruct (registration_id reg eth0) as [id|] eqn:Eid; [|done].
  rewrite M_bind_run, stmt_ok by done. cbv beta iota. rewrite M_bind_run.
  destruct (@now_Ok err w) as (t & Ht & _). pose proof (@now_db err w) as Hn.
  pose proof (@now_faults err w) as Hnf. destruct (now w) as [r w1]. simpl in Ht, Hn, Hnf. subst r.
  rewrite M_bind_run. unfold gets. rewrite M_bind_run. unfold guard_err.
  destruct (eth0_taken _ _); [done|]. unfold modify. cbn [mret M_ret]. intros [= <-].
  exists eth0, eth1, id, t. split_and!; [done|done|done|lia|by rewrite <-Hf|]. simpl. by rewrite Hn.
Qed.

(** Registering a gateway installs exactly one way in: afterwards a request
    under its identity is accepted if and only if its token has the registered
    digest and both addresses normalise to the registered ones, and the
    sessions of the other gateways are untouched. *)
Lemma gateway_register_then_validate (w w' : World) (reg : GatewayRegistration)
    (token e0 e1 : string) :
  faults w = [] -> RegisterGatewaySession reg w = (Ok tt, w') ->
  exists gid,
    (Reg_GatewayID reg <> "" -> gid = Reg_GatewayID reg) /\
    (Reg_GatewayID reg = "" -> GatewayIDFromEth0MAC (Reg_Eth0MAC reg) = Ok gid) /\
    (ValidateGatewayRequest gid token e0 e1 w').1 =
      Ok (bool_decide (hashToken token = hashToken (Reg_Token reg) /\
                       NormalizeMAC e0 = NormalizeMAC (Reg_Eth0MAC reg) /\
                       NormalizeMAC e1 = NormalizeMAC (Reg_Eth1MAC reg))) /\
    forall id, id <> gid ->
      select (fun x => seqb (GS_GatewayID x) id) (gateway_sessions (db w')) =
      select (fun x => seqb (GS_GatewayID x) id) (gateway_sessions (db w)).
Proof.
  intros Hf HR. apply register_run in HR as (eth0 & eth1 & gid & t & H0 & H1 & Hid & Hm & Hf' & Hd); [|done].
  exists gid. split_and!.
  - intros HE. unfold registration_id in Hid. destruct (is_empty _) eqn:E; [|congruence].
    by apply is_empty_spec in E.
  - intros HE. unfold registration_id in Hid. rewrite HE in Hid. simpl in Hid. rewrite <-Hid.
    apply NormalizeMAC_Ok in H0 as Hp. destruct Hp as (parts & Hp & ->).
    unfold GatewayIDFromEth0MAC. rewrite H0, NormalizeMAC_canonical by done. done.
  - unfold ValidateGatewayRequest, GetGatewaySession. rewrite M_bind_run. unfold try.
    rewrite M_bind_run, query_ok by done. unfold lift. rewrite Hd. cbn [gateway_sessions on_gateway_sessions].
    destruct (get_row_upsert (mkGatewaySession gid
      (hashToken (Reg_Token reg)) (Some (Reg_MachineID reg)) (Some eth0) (Some eth1) (Some t))
      (gateway_sessions (db w))) as (r & Hg & E1 & E2 & E3 & E4).
    cbn [GS_GatewayID GS_TokenHash GS_MachineID GS_Eth0MAC GS_Eth1MAC] in *.
    rewrite Hg. cbn [mret M_ret fst]. f_equal. rewrite E1, E3, E4, H0, H1.
    destruct (seqb (hashToken (Reg_Token reg)) (hashToken token)) eqn:Et; cbn [negb].
    + apply seqb_spec in Et. destruct (NormalizeMAC e0) as [n0|], (NormalizeMAC e1) as [n1|].
      2-4: symmetry; apply bool_decide_eq_false_2; intros (_ & ? & ?); done.
      unfold seqb. rewrite <-bool_decide_and. apply bool_decide_ext. split.
      * intros [-> ->]. done.
      * intros (_ & [= ->] & [= ->]). done.
    + symmetry. apply bool_decide_eq_false_2. intros (Hx & _). rewrite Hx, seqb_refl in Et. done.
  - intros id Hne. rewrite Hd. cbn [gateway_sessions on_gateway_sessions].
    by apply select_upsert_other.
Qed.

(** ** The exchange cache *)
Lemma omap_kv_last_value (f : Z -> option string) ks k : k ∈ ks ->
  last_value (omap (fun k => v ← f k; Some (mkKV k v)) ks) k = f k.
Proof.
  intros Hk. destruct (f k) as [v|] eqn:Hf.
  - unfold last_value. rewrite (last_filter_const v); [done| |].
    + intros p (k' & Hk' & Hp)%list_elem_of_omap HK. simpl in Hp.
      destruct (f k') as [v'|] eqn:E; [|done]. simpl in Hp. injection Hp as <-. simpl in *.
      subst. congruence.
    + exists (mkKV k v). split; [|done]. apply list_elem_of_omap. exists k. by rewrite Hf.
  - apply last_value_None. intros (p & -> & (k' & Hk' & Hp)%list_elem_of_omap)%list_elem_of_fmap.
    destruct (f k') as [v'|] eqn:E; [|done]. simpl in Hp. injection Hp as <-. simpl in *. congruence.
Qed.

(** A push of exchange keys is a right-biased merge with the cache: a key
    of the push takes its last pushed value, every other key keeps its cached
    value, and no key is invented. *)
Lemma upsert_exchange_merge (w : World) (machineID : Z) (keys : list ExchangeKV) :
  faults w = [] ->
  let old := match gateway_exchange_cache (db w) !! machineID with
             | Some (Some ks, _) => ks | _ => [] end in
  exists merged t,
    (UpsertGatewayExchange machineID keys w).1 = Ok tt /\
    gateway_exchange_cache (db (UpsertGatewayExchange machineID keys w).2) =
      <[machineID := (Some merged, t)]> (gateway_exchange_cache (db w)) /\
    forall k, last_value merged k =
      match last_value keys k with Some v => Some v | None => last_value old k end.
Proof.
  intros Hf old. unfold UpsertGatewayExchange. rewrite M_bind_run. unfold try.
  assert (exists r, GetGatewayExchange machineID w = (r, w) /\
    match r with Ok (ks, _) => ks = old | Fail _ => old = [] end) as (r & -> & Hr).
  { unfold GetGatewayExchange. rewrite M_bind_run, query_ok by done. unfold lift, old.
    destruct (gateway_exchange_cache (db w) !! machineID) as [[[ks|] t]|]; eexists; (split; [reflexivity|done]). }
  set (merged := match r with Ok (existing, _) => if (0 <? length existing)%nat then merged_cache keys existing else keys
    | Fail _ => keys end).
  destruct (update_now_ok (fun t => on_gateway_exchange_cache (<[machineID := (Some merged, t)]>)) w Hf)
    as (t & w' & Hu & _ & _ & Hd & _).
  unfold update_now in Hu. rewrite Hu. exists merged, t. split; [done|]. split; [cbn [snd]; by rewrite Hd|].
  intros k. unfold merged. destruct r as [[existing t0]|e].
  2:{ rewrite Hr. by destruct (last_value keys k). }
  subst existing. destruct old as [|o old0] eqn:Eo.
  { simpl. by destruct (last_value keys k). }
  cbn [length Nat.ltb Nat.leb]. rewrite <-Eo. set (ex := old) in *.
  unfold merged_cache.
  set (req := elements (list_to_set (map K keys) ∪ list_to_set (map K ex) : gset Z)).
  assert (forall i, i ∈ req <-> i ∈ map K keys \/ i ∈ map K ex) as Hreq.
  { intros i. unfold req. by rewrite elem_of_elements, elem_of_union, !elem_of_list_to_set. }
  rewrite merge_keys_eq by (intros E0; assert (K o ∈ req) as Hin by (apply Hreq; right; rewrite Eo; left);
    rewrite E0 in Hin; by apply elem_of_nil in Hin).
  destruct (decide (k ∈ req)) as [Hk|Hk].
  - by rewrite omap_kv_last_value.
  - assert (last_value keys k = None) as -> by (apply last_value_None; intros ?; apply Hk, Hreq; by left).
    assert (last_value ex k = None) as -> by (apply last_value_None; intros ?; apply Hk, Hreq; by right).
    apply last_value_None. intros (p & -> & (k' & Hk' & Hp)%list_elem_of_omap)%list_elem_of_fmap.
    apply Hk. destruct (match last_value keys k' with Some v => Some v | None => last_value ex k' end);
      [|done]. simpl in Hp. by injection Hp as <-.
Qed.
