(* ===== verification/Polling.v ===== *)
(** * Polling empties the queue

    A gateway polls [FetchPendingActionsForMachine] of [PortalStore] again and
    again: the number of actions waiting falls at every poll until none is
    left. *)
From S2P Require Import Prelude GoStr Exchange Accounts Lights Mac World Crypto PortalStore.
#[global] Open Scope Z_scope.

(** [n] polls, and what each delivered. *)
Fixpoint polls (n : nat) (machineID lim : Z) : MW (list (list CloudAction)) :=
  match n with
  | O => mret []
  | S n =>
      batch ← FetchPendingActionsForMachine machineID lim;
      rest ← polls n machineID lim;
      mret (batch :: rest)
  end.
(** What the polls make of a row: the pending ones of the machine are delivered,
    the others are as they were. *)
Definition drained (machineID : Z) (r r' : ActionRow) : Prop :=
  if pending_for machineID r then exists t, r' = set_delivered t r else r' = r.
Definition waiting (machineID : Z) (w : World) : list ActionRow := select (pending_for machineID) (cloud_actions (db w)).
Lemma drained_compose m lim rows rows1 rows' : NoDup (map A_GUID rows) ->
  Forall2 (delivered_row (map A_GUID (pending_batch m lim rows))) rows rows1 -> Forall2 (drained m) rows1 rows' ->
  Forall2 (drained m) rows rows'.
Proof.
  intros Hn H1 H2. assert (forall r, r ∈ rows -> A_GUID r ∈ map A_GUID (pending_batch m lim rows) -> pending_for m r = true) as Hp.
  { intros r Hr Hg. apply list_elem_of_fmap in Hg as (b & Hg & Hb). apply elem_of_pending_batch in Hb as [Hb Hp].
    by rewrite (NoDup_key_eq A_GUID rows r b). }
  revert Hp H1. generalize (map A_GUID (pending_batch m lim rows)) as G. clear Hn. intros G Hp H1. revert rows' H2.
  induction H1 as [|r r1 rows rows1 Hr H1 IH]; intros rows' H2; inversion H2 as [|? r' ? rows'' Hr' H2']; subst; constructor.
  - unfold delivered_row in Hr. unfold drained in *. case_bool_decide as HG; [|by subst r1].
    rewrite (Hp r) by (done || left). destruct Hr as [t ->]. by exists t.
  - apply IH; [|done]. intros x Hx. apply Hp. by right.
Qed.
Lemma delivered_guids G rows rows' : Forall2 (delivered_row G) rows rows' -> map A_GUID rows' = map A_GUID rows.
Proof.
  induction 1 as [|r r' rows rows' Hr H IH]; [done|]. cbn [map]. f_equal; [|done].
  unfold delivered_row in Hr. case_bool_decide; [by destruct Hr as [t ->]|by subst].
Qed.
Lemma order_perm {R} (key : R -> Z) rows : Permutation (order_asc key rows) rows.
Proof. apply merge_sort_Permutation. Qed.
(** C4. Polling terminates: where the database answers, [n] polls of at most
    [lim] actions each empty a queue of at most [n * lim] actions.  Every pending
    action of the machine is delivered, every other row is as it was, and the
    next poll delivers nothing. *)
Theorem polls_drain_queue (n : nat) (machineID lim : Z) (w : World) :
  faults w = [] -> 0 < lim -> NoDup (map A_GUID (cloud_actions (db w))) ->
  Forall (fun r => is_Some (A_Params r)) (waiting machineID w) -> Z.of_nat (length (waiting machineID w)) <= Z.of_nat n * lim ->
  exists batches w',
    polls n machineID lim w = (Ok batches, w') /\ length batches = n /\
    Forall2 (drained machineID) (cloud_actions (db w)) (cloud_actions (db w')) /\
    waiting machineID w' = [] /\ (FetchPendingActionsForMachine machineID lim w').1 = Ok [].
Proof.
  intros Hf Hlim. revert w Hf. induction n as [|n IH]; intros w Hf Hn Hdec Hlen.
  - assert (waiting machineID w = []) as He by (destruct (waiting machineID w); [done|cbn in Hlen; lia]).
    exists [], w. split_and!; [done..| |done|].
    + apply Forall2_refl_on. intros r Hr. unfold drained. destruct (pending_for machineID r) eqn:E; [|done].
      exfalso. apply (elem_of_nil r). rewrite <-He. by apply elem_of_select.
    + unfold FetchPendingActionsForMachine. rewrite (proj2 (Z.leb_gt lim 0)), M_bind_run, query_ok by done.
      unfold pending_batch. fold (waiting machineID w). rewrite He.
      change (order_asc A_CreatedAt []) with ([] : list ActionRow). unfold limit. by rewrite take_nil.
  - assert (Forall (fun r => is_Some (A_Params r)) (pending_batch machineID lim (cloud_actions (db w)))) as Hb.
    { unfold pending_batch, limit. apply Forall_take. by rewrite order_perm. }
    destruct (fetch_run w machineID lim Hf Hlim Hn Hb) as (w1 & Hf1 & Hrun & Hrows & Hleft).
    destruct (IH w1 Hf1) as (batches & w' & Hpolls & Hl & Hd & He & Hlast).
    + by rewrite (delivered_guids _ _ _ Hrows).
    + unfold waiting at 1. rewrite Hleft. apply Forall_drop. by rewrite order_perm.
    + unfold waiting at 1. rewrite Hleft, length_drop, order_perm. unfold waiting in Hlen. lia.
    + exists (coalescePendingActions (map as_pending (pending_batch machineID lim (cloud_actions (db w)))) :: batches), w'.
      split_and!; [|by cbn; rewrite Hl| |done..].
      * cbn [polls]. by rewrite M_bind_run, Hrun, M_bind_run, Hpolls.
      * by eapply drained_compose.
Qed.
Lemma polls_drain_queue_witness :
  length (waiting 2 demo_world) = 3%nat /\
  exists batches w', polls 2 2 2 demo_world = (Ok batches, w') /\ waiting 2 w' = [].
Proof.
  split; [vm_compute; reflexivity|]. destruct (polls_drain_queue 2 2 2 demo_world) as (batches & w' & H1 & _ & _ & H2 & _).
  - reflexivity.
  - lia.
  - apply (bool_decide_unpack _). vm_compute. exact I.
  - apply (bool_decide_unpack _). vm_compute. exact I.
  - vm_compute. discriminate.
  - by exists batches, w'.
Defined.
