(* ===== verification/QueueRace.v ===== *)
(** * The action queue under simultaneous calls

    Enqueues, polls and completions of [PortalStore] cut into their statements
    and interleaved in any way: what still holds of the queue, and what only
    holds of calls that run one after the other. *)
From S2P Require Import Prelude GoStr Exchange Accounts World Interleaving PortalStore.
#[global] Open Scope Z_scope.

(** ** The calls, statement by statement *)
Inductive QueueCall :=
  | QEnqueue (guid : string) (userID : Z) (machineID : option Z) (params : list ExchangeKV)
  | QPoll (machineID lim : Z)
  | QDone (guid : string).
Inductive QueueAnswer := Acked | Polled (deliver : list CloudAction).
(** The loop of the updates, each error ignored. *)
Fixpoint mark_proc (pending : list CloudAction) : Proc err unit :=
  match pending with
  | [] => mret tt
  | a :: rest =>
      _ ← tried (mark_delivered (CA_GUID a));
      mark_proc rest
  end.
Definition fetch_proc (machineID lim : Z) : Proc err (list CloudAction) :=
  let lim := if lim <=? 0 then 20 else lim in
  rows ← call (query (fun d => pending_batch machineID lim (cloud_actions d)));
  if (length rows =? 0)%nat then mret [] else
  pending ← pure (mapM (decode_action (fun _ => ActionStatusPending)) rows);
  let deliver := coalescePendingActions pending in
  _ ← mark_proc pending;
  mret deliver.
Definition done_select (guid : string) : MW ActionRow :=
  map_err (fun _ => Errorf "action not found" [])
    (r ← query (fun d => get_row (fun a => seqb (A_GUID a) guid) (cloud_actions d)); lift r).
Definition done_update (guid : string) (machineID : option Z) : MW unit :=
  _ ← stmt;
  t ← now;
  n ← gets (fun w => count_where (done_target guid machineID) (cloud_actions (db w)));
  _ ← modify (on_db (on_cloud_actions (update_where (done_target guid machineID) (set_done t))));
  guard_err (n =? 0) (Errorf "action not found" []).
Definition done_proc (guid : string) : Proc err unit :=
  row ← call (done_select guid);
  call (done_update guid (A_MachineID row)).
Definition queue_proc (c : QueueCall) : Proc err QueueAnswer :=
  match c with
  | QEnqueue guid u m ps => _ ← call (EnqueueCloudAction guid u m ps); mret Acked
  | QPoll m lim => deliver ← fetch_proc m lim; mret (Polled deliver)
  | QDone guid => _ ← done_proc guid; mret Acked
  end.
Definition queue_call (c : QueueCall) : MW QueueAnswer :=
  match c with
  | QEnqueue guid u m ps => _ ← EnqueueCloudAction guid u m ps; mret Acked
  | QPoll m lim => deliver ← FetchPendingActionsForMachine m lim; mret (Polled deliver)
  | QDone guid => _ ← MarkActionDone guid; mret Acked
  end.
Lemma mark_proc_alone pending w : alone (mark_proc pending) w = mark_all_delivered pending w.
Proof.
  revert w. induction pending as [|a pending IH]; intros w; [done|]. cbn [mark_proc mark_all_delivered].
  rewrite alone_bind, !M_bind_run, alone_tried. unfold try. destruct (mark_delivered _ w) as [r w']. apply IH.
Qed.
(** With no other call beside it, a call cut into statements is the call. *)
Lemma queue_proc_alone c w : alone (queue_proc c) w = queue_call c w.
Proof.
  destruct c as [guid u m ps|m lim|guid]; cbn [queue_proc queue_call]; rewrite alone_bind, !M_bind_run.
  - by rewrite alone_call.
  - unfold fetch_proc, FetchPendingActionsForMachine. rewrite alone_bind, !M_bind_run, alone_call.
    destruct (query _ w) as [ [rows|e] w1]; [|done]. destruct (_ =? 0)%nat; [done|]. rewrite alone_bind, !M_bind_run. cbn [pure alone].
    destruct (lift _ w1) as [ [pending|e] w2]; [|done]. by rewrite alone_bind, !M_bind_run, mark_proc_alone.
  - unfold done_proc, MarkActionDone. rewrite alone_bind, !M_bind_run, alone_call. fold (done_select guid).
    destruct (done_select guid w) as [ [row|e] w1]; [|done]. rewrite alone_call. unfold done_update. done.
Qed.

(** ** What a statement does to the rows *)
Definition order_of (r : ActionRow) := (A_GUID r, A_UserID r, A_MachineID r, A_Params r, A_CreatedAt r).
(** The rows a statement may change are those of [P]; it changes no order. *)
Inductive rows_step (P : ActionRow -> Prop) (rows : list ActionRow) : list ActionRow -> Prop :=
  | rows_same : rows_step P rows rows
  | rows_update f : (forall r, order_of (f r) = order_of r) -> (forall r, f r = r \/ P r) -> rows_step P rows (map f rows)
  | rows_insert a : A_Status a = ActionStatusPending -> A_GUID a ∉ map A_GUID rows -> rows_step P rows (rows ++ [a]).
Lemma update_step p f rows (P : ActionRow -> Prop) : (forall r, order_of (f r) = order_of r) ->
  (forall r, p r = true -> P r) -> rows_step P rows (update_where p f rows).
Proof.
  intros Hf Hp. apply rows_update; intros r; destruct (p r) eqn:E; auto.
Qed.
Lemma query_step {A} (f : DB -> A) w r w' : query f w = (r, w') -> db w' = db w.
Proof. intros H. destruct (query_run f w) as (w1 & Hd & [E|E]); rewrite E in H; by injection H as _ <-. Qed.
Lemma done_select_step guid w r w' : done_select guid w = (r, w') -> db w' = db w.
Proof.
  unfold done_select, map_err. rewrite M_bind_run. destruct (query _ w) as [q w1] eqn:E. apply query_step in E.
  destruct q as [ [row|e]|e]; by intros [= _ <-].
Qed.
Lemma mark_step g w r w' : mark_delivered g w = (r, w') ->
  rows_step (fun x => A_GUID x = g) (cloud_actions (db w)) (cloud_actions (db w')).
Proof.
  intros H. destruct (update_now_db (fun t => on_cloud_actions (update_where (fun r => seqb (A_GUID r) g) (set_delivered t))) w)
    as [Hd|[t Hd] ]; unfold update_now in Hd; unfold mark_delivered in H; rewrite H in Hd; cbn [snd] in Hd; rewrite Hd; [constructor|].
  apply update_step; [done|]. by intros x Hx%seqb_spec.
Qed.
Lemma enqueue_step guid u m ps w r w' : EnqueueCloudAction guid u m ps w = (r, w') ->
  rows_step (fun _ => False) (cloud_actions (db w)) (cloud_actions (db w')).
Proof.
  intros H. pose proof (enqueue_rows guid u m ps w) as Hd. rewrite H in Hd. cbn [snd] in Hd. destruct Hd as [->|[t ->] ]; [constructor|].
  unfold insert_action. destruct (existsb _ _) eqn:E; [constructor|]. apply rows_insert; [done|].
  intros (x & Hx & Hin)%list_elem_of_fmap. revert E. apply not_false_iff_true, existsb_elem. exists x. split; [done|]. by apply seqb_spec.
Qed.
Lemma done_step guid m w r w' : done_update guid m w = (r, w') ->
  rows_step (fun x => done_target guid m x = true) (cloud_actions (db w)) (cloud_actions (db w')).
Proof.
  unfold done_update. intros H. apply M_bind_any in H as [(e & _ & H)|(u & w1 & Hs & H)].
  { pose proof (stmt_db w) as Hd. rewrite H in Hd. cbn in Hd. rewrite Hd. constructor. }
  pose proof (stmt_db w) as Hd. rewrite Hs in Hd. cbn in Hd.
  rewrite M_bind_run in H. destruct (@now_Ok err w1) as (t & Ht & _). pose proof (@now_db err w1) as Hn.
  destruct (now w1) as [x w2]. cbn in Ht, Hn. subst x. rewrite M_bind_run in H. cbn [gets] in H. rewrite M_bind_run in H. cbn [modify] in H.
  assert (w' = on_db (on_cloud_actions (update_where (done_target guid m) (set_done t))) w2) as ->.
  { revert H. rewrite guard_run. by destruct (_ =? 0); intros [= _ <-]. }
  cbn [db on_db cloud_actions on_cloud_actions]. rewrite Hn, Hd. by apply update_step.
Qed.
Lemma rows_step_kept P rows rows' r : rows_step P rows rows' -> r ∈ rows -> exists r', r' ∈ rows' /\ order_of r' = order_of r.
Proof.
  intros [ |f Hf _|a _ _] Hr; [by exists r| |exists r; split; [apply elem_of_app; by left|done]].
  exists (f r). split; [by apply list_elem_of_fmap_2|done].
Qed.
Lemma rows_step_back P rows rows' r' : rows_step P rows rows' -> r' ∈ rows' ->
  A_Status r' = ActionStatusPending \/
  exists r, r ∈ rows /\ order_of r' = order_of r /\ (A_Status r' = A_Status r \/ P r).
Proof.
  intros [ |f Hf HP|a Ha _] Hr; [right; eauto| |].
  - apply list_elem_of_fmap in Hr as (r & -> & Hr). right. exists r. split_and!; [done|done|]. destruct (HP r) as [->|?]; auto.
  - apply elem_of_app in Hr as [Hr|Hr%list_elem_of_singleton]; [right; eauto|left; by subst].
Qed.
Lemma rows_step_NoDup P rows rows' : rows_step P rows rows' -> NoDup (map A_GUID rows) -> NoDup (map A_GUID rows').
Proof.
  intros [ |f Hf _|a _ Ha] Hnd; [done| |].
  - rewrite map_map. erewrite map_ext; [exact Hnd|]. intros r. specialize (Hf r). by injection Hf.
  - rewrite map_app. apply NoDup_app. split_and!; [done| |apply NoDup_singleton]. by intros x Hx ->%list_elem_of_singleton.
Qed.

(** ** The invariant of every schedule *)
Definition marking (batch todo : list CloudAction) : Proc err QueueAnswer :=
  deliver ← (_ ← mark_proc todo; mret (coalescePendingActions batch)); mret (Polled deliver).
Lemma marking_bound batch todo : bound_to (Polled (coalescePendingActions batch)) (marking batch todo).
Proof. induction todo as [|a todo IH]; [done|]. intros r. exact IH. Qed.
Section race.
Context (calls : list QueueCall) (rows0 : list ActionRow).
(** Poll [i] answers, whatever comes, with the coalescing of a batch that has
    this order with all its parameters. *)
Definition taken (ps : Pool err QueueAnswer) (r : ActionRow) : Prop :=
  exists i m lim p batch, calls !! i = Some (QPoll m lim) /\ ps !! i = Some p /\ as_pending r ∈ batch /\
    bound_to (Polled (coalescePendingActions batch)) p.
(** Why an action is no longer pending. *)
Definition accounted (ps : Pool err QueueAnswer) (r : ActionRow) : Prop :=
  (exists r0, r0 ∈ rows0 /\ order_of r0 = order_of r /\ A_Status r0 <> ActionStatusPending) \/
  QDone (A_GUID r) ∈ calls \/ taken ps r.
(** Where a call may stand. *)
Definition thread_ok (rows : list ActionRow) (c : QueueCall) (p : Proc err QueueAnswer) : Prop :=
  p = queue_proc c \/
  match c with
  | QEnqueue _ _ _ _ => exists r, p = Return r
  | QPoll m lim => (exists e, p = Return (Fail e)) \/
      exists batch todo, p = marking batch todo /\ (forall a, a ∈ todo -> a ∈ batch) /\
        forall a, a ∈ batch -> exists r, r ∈ rows /\ a = as_pending r
  | QDone guid => (exists r, p = Return r) \/ exists m, p = (_ ← call (done_update guid m); mret Acked)
  end.
Definition race_inv (ps : Pool err QueueAnswer) (w : World) : Prop :=
  let rows := cloud_actions (db w) in
  NoDup (map A_GUID rows) /\ (forall r0, r0 ∈ rows0 -> exists r, r ∈ rows /\ order_of r = order_of r0) /\
  Forall2 (thread_ok rows) calls ps /\
  forall r, r ∈ rows -> A_Status r <> ActionStatusPending -> accounted ps r.

Lemma as_pending_order r r' : order_of r = order_of r' -> as_pending r = as_pending r'.
Proof. unfold order_of, as_pending. by intros [= -> -> -> -> ->]. Qed.
Lemma thread_ok_step P rows rows' c p : rows_step P rows rows' -> thread_ok rows c p -> thread_ok rows' c p.
Proof.
  intros Hs [ |H]; [by left|right]. destruct c as [|m lim|]; [done| |done]. destruct H as [H|(batch & todo & Hp & Ht & Hb)]; [by left|right].
  exists batch, todo. split_and!; [done|done|]. intros a Ha. destruct (Hb a Ha) as (r & Hr & ->).
  destruct (rows_step_kept _ _ _ _ Hs Hr) as (r' & Hr' & Ho). exists r'. split; [done|]. by apply as_pending_order.
Qed.
Lemma accounted_order ps r r' : order_of r' = order_of r -> accounted ps r -> accounted ps r'.
Proof.
  intros Ho [(r0 & H1 & H2 & H3)|[H|(i & m & lim & p & batch & H1 & H2 & H3 & H4)]].
  - left. exists r0. split_and!; [done|congruence|done].
  - right; left. unfold order_of in Ho. by injection Ho as ->.
  - right; right. exists i, m, lim, p, batch. split_and!; [done|done|by rewrite (as_pending_order _ _ Ho)|done].
Qed.
Lemma accounted_turn ps i p w x : ps !! i = Some p -> accounted ps x -> accounted (<[i := (advance p w).1]> ps) x.
Proof.
  intros Hi [H|[H|(j & m' & lim & p' & batch & H1 & H2 & H3 & H4)]]; [by left|by right; left|right; right].
  destruct (decide (i = j)) as [<-|Hij].
  - exists i, m', lim, (advance p w).1, batch. split_and!; [done| |done|].
    + apply list_lookup_insert_eq. by eapply lookup_lt_Some.
    + rewrite Hi in H2. injection H2 as <-. by apply bound_advance.
  - exists j, m', lim, p', batch. split_and!; [done| |done..]. by rewrite list_lookup_insert_ne.
Qed.
(** A turn keeps the invariant when the call it moves stands where it may and
    the rows it changes are accounted for. *)
Lemma race_turn P ps w w' i c p p' : race_inv ps w -> calls !! i = Some c -> ps !! i = Some p -> advance p w = (p', w') ->
  rows_step P (cloud_actions (db w)) (cloud_actions (db w')) ->
  thread_ok (cloud_actions (db w')) c p' ->
  (forall x, x ∈ cloud_actions (db w) -> P x -> accounted ps x) ->
  race_inv (<[i := p']> ps) w'.
Proof.
  intros (Hnd & Hkept & Hth & Hacc) Hc Hi Ha Hs Hk HP.
  assert (forall x, accounted ps x -> accounted (<[i := p']> ps) x) as Hturn.
  { intros x Hx. replace p' with (advance p w).1 by (by rewrite Ha). by apply accounted_turn. }
  split_and!.
  - by eapply rows_step_NoDup.
  - intros r0 Hr0. destruct (Hkept r0 Hr0) as (r1 & Hr1 & Ho). destruct (rows_step_kept _ _ _ _ Hs Hr1) as (r2 & Hr2 & Ho2).
    exists r2. split; [done|congruence].
  - apply Forall2_lookup. intros j. destruct (decide (i = j)) as [<-|Hij].
    + rewrite Hc, list_lookup_insert_eq by (by eapply lookup_lt_Some). by constructor.
    + rewrite list_lookup_insert_ne by done. pose proof (proj1 (Forall2_lookup _ _ _) Hth j) as Hj.
      destruct Hj; constructor. by eapply thread_ok_step.
  - intros x Hx Hst. destruct (rows_step_back _ _ _ _ Hs Hx) as [?|(x0 & Hx0 & Ho & [He|Hp])]; [done| |].
    + apply (accounted_order _ x0), Hturn, Hacc; [done|done|congruence].
    + apply (accounted_order _ x0), Hturn, HP; done.
Qed.
Lemma decoded_from rows pending a : mapM (decode_action (fun _ => ActionStatusPending)) rows = Ok pending -> a ∈ pending ->
  exists r, r ∈ rows /\ a = as_pending r.
Proof.
  revert pending. induction rows as [|r rows IH]; intros pending H Ha; [injection H as <-; by apply elem_of_nil in Ha|].
  apply res_bind_Ok in H as (x & Hx & H). apply res_bind_Ok in H as (xs & Hxs & [= <-]).
  apply elem_of_cons in Ha as [->|Ha].
  - exists r. split; [by left|]. unfold decode_action in Hx. apply res_bind_Ok in Hx as (ps & Hps & [= <-]).
    unfold as_pending. by destruct (A_Params r); [injection Hps as ->|].
  - destruct (IH _ Hxs Ha) as (r' & Hr' & ->). exists r'. split; [by right|done].
Qed.
(** The queue's own statements. *)
Lemma race_step ps w i p p' w' : race_inv ps w -> ps !! i = Some p -> advance p w = (p', w') -> race_inv (<[i := p']> ps) w'.
Proof.
  intros HJ Hi Ha. destruct (HJ) as (Hnd & _ & Hth & Hacc). destruct (Forall2_lookup_r _ _ _ _ _ Hth Hi) as (c & Hc & Hp).
  assert (forall q, p = Return q -> race_inv (<[i := p']> ps) w') as Hret.
  { intros q ->. injection Ha as <- <-. by rewrite list_insert_id. }
  assert (forall P, rows_step P (cloud_actions (db w)) (cloud_actions (db w')) -> thread_ok (cloud_actions (db w')) c p' ->
    (forall x, x ∈ cloud_actions (db w) -> P x -> accounted ps x) -> race_inv (<[i := p']> ps) w') as Hturn.
  { intros P. by eapply race_turn. }
  assert (db w' = db w -> thread_ok (cloud_actions (db w)) c p' -> race_inv (<[i := p']> ps) w') as Hread.
  { intros Hd Hok. apply (Hturn (fun _ => False)); [rewrite Hd; constructor|by rewrite Hd|done]. }
  destruct c as [guid u m ps0|m lim|guid].
  - destruct Hp as [->|[q ->] ]; [|by eapply Hret]. cbn in Ha. destruct (EnqueueCloudAction guid u m ps0 w) as [r w1] eqn:E.
    injection Ha as <- <-. apply (Hturn (fun _ => False)); [by eapply enqueue_step| |done]. right. destruct r; by eexists.
  - destruct Hp as [->|[ [e ->]|(batch & todo & -> & Ht & Hb)]]; [|by eapply Hret|].
    + cbn in Ha. destruct (query _ w) as [r w1] eqn:E. injection Ha as <- <-. pose proof (query_step _ _ _ _ E) as Hd.
      apply Hread; [done|]. right. destruct r as [rows|e]; [|by left; exists e].
      assert (rows = pending_batch m (if lim <=? 0 then 20 else lim) (cloud_actions (db w))) as Hrows.
      { apply query_Ok_inv in E as [-> _]. done. }
      destruct rows as [|b rows]; [right; exists [], []; split_and!; [done|done|by intros a ?%elem_of_nil]|].
      cbn [length Nat.eqb proc_bind]. unfold pure. cbn [proc_bind].
      destruct (mapM (decode_action (fun _ => ActionStatusPending)) (b :: rows)) as [pending|e] eqn:Ed; [|by left; exists e].
      right. exists pending, pending. split_and!; [done|done|]. intros a Ha.
      destruct (decoded_from _ _ _ Ed Ha) as (r & Hr & ->). exists r. split; [|done].
      rewrite Hrows in Hr. by apply elem_of_pending_batch in Hr as [Hr _].
    + destruct todo as [|a todo]; [by eapply Hret|]. cbn in Ha. destruct (mark_delivered (CA_GUID a) w) as [r w1] eqn:E.
      injection Ha as <- <-. apply mark_step in E. apply (Hturn (fun x => A_GUID x = CA_GUID a)); [done| |].
      * right. right. exists batch, todo. split_and!; [done|intros b Hin; apply Ht; by right|].
        intros b Hin. destruct (Hb b Hin) as (r1 & Hr1 & ->). destruct (rows_step_kept _ _ _ _ E Hr1) as (r2 & Hr2 & Ho).
        exists r2. split; [done|]. by apply as_pending_order.
      * intros x Hx Hg. right; right. destruct (Hb a) as (r1 & Hr1 & Ha1); [apply Ht; by left|].
        assert (x = r1) as -> by (eapply (NoDup_key_eq A_GUID); [done..|by rewrite Hg, Ha1]).
        exists i, m, lim, (marking batch (a :: todo)), batch. split_and!; [done|done| |apply marking_bound].
        rewrite <-Ha1. apply Ht. by left.
  - destruct Hp as [->|[ [q ->]|[m ->] ]]; [|by eapply Hret|].
    + cbn in Ha. destruct (done_select guid w) as [r w1] eqn:E. apply done_select_step in E. injection Ha as <- <-.
      apply Hread; [done|]. right. destruct r as [row|e]; [right; by exists (A_MachineID row)|left; by eexists].
    + cbn in Ha. destruct (done_update guid m w) as [r w1] eqn:E. apply done_step in E. injection Ha as <- <-.
      apply (Hturn (fun x => done_target guid m x = true)); [done|right; left; destruct r; by eexists|].
      intros x Hx [Hg%seqb_spec|Hg]%orb_true_iff.
      * right; left. rewrite Hg. by apply (list_elem_of_lookup_2 _ i).
      * apply andb_true_iff in Hg as [_ Hg%seqb_spec]. apply Hacc; [done|]. by rewrite Hg.
Qed.
End race.

(** C5. Calls on the queue that run at the same time, interleaved statement by
    statement in any way and with any statement failing: the actions keep
    distinct GUIDs, none is lost and none changes owner, machine, parameters or
    creation date; and an action that is not pending any more is accounted for:
    it was not at the start, or a completion names it, or a poll has taken it,
    which, whatever comes after, answers with the coalescing of a batch that has
    this action: no order vanishes between the portal and the gateway. *)
Theorem queue_interleaved (calls : list QueueCall) (schedule : list nat) (w : World) :
  let rows := cloud_actions (db w) in
  let '(ps, w') := interleave schedule (map queue_proc calls, w) in
  NoDup (map A_GUID rows) ->
  NoDup (map A_GUID (cloud_actions (db w'))) /\
  (forall r, r ∈ rows -> exists r', r' ∈ cloud_actions (db w') /\ order_of r' = order_of r) /\
  (forall r, r ∈ cloud_actions (db w') -> A_Status r <> ActionStatusPending -> accounted calls rows ps r).
Proof.
  intros rows. destruct (interleave schedule (map queue_proc calls, w)) as [ps w'] eqn:E. intros Hnd.
  assert (race_inv calls rows ps w') as (H1 & H2 & _ & H3); [|done].
  change (race_inv calls rows (ps, w').1 (ps, w').2). rewrite <-E. apply interleave_inv.
  - split_and!; [done|eauto| |].
    + apply Forall2_fmap_r, Forall_Forall2_diag, Forall_true. intros c. by left.
    + intros r Hr Hs. left. by exists r.
  - intros. by eapply race_step.
Qed.
Definition race_calls : list QueueCall := [QPoll 2 5; QPoll 2 5; QDone "a"].
(** The first poll reads, the second runs whole, its action is completed, and
    only then the first one marks. *)
Definition race_schedule : list nat := [0; 1; 1; 1; 1; 2; 2; 0; 0; 0]%nat.
Lemma queue_interleaved_witness :
  let s := interleave race_schedule (map queue_proc race_calls, demo_world) in
  Forall (fun r => A_Status r <> ActionStatusPending -> accounted race_calls (cloud_actions (db demo_world)) s.1 r) (cloud_actions (db s.2)).
Proof.
  intros s. pose proof (queue_interleaved race_calls race_schedule demo_world) as H. cbv zeta in H. fold s in H.
  destruct s as [ps w']. apply Forall_forall, H. apply (bool_decide_unpack _). vm_compute. exact I.
Defined.
(** Under this schedule both polls hand the same actions out, and a completed
    action becomes delivered again: that a poll delivers each action once and
    that a status only advances hold of calls one after the other. *)
Example polls_hand_out_twice :
  let s := interleave race_schedule (map queue_proc race_calls, demo_world) in
  s.1 !! 0%nat = s.1 !! 1%nat /\ is_Some (s.1 !! 0%nat) /\
  map (fun r => (A_GUID r, A_Status r, is_some (A_DoneAt r))) (cloud_actions (db s.2)) =
    [("b", "delivered", true); ("a", "delivered", true); ("c", "delivered", true); ("d", "pending", false)].
Proof. vm_compute. split_and!; [reflexivity|by eexists|reflexivity]. Qed.

(** ** No call waits for another *)
(** The statements a call may need: one for a poll and one for each of at most
    [lim] actions. *)
Definition statements_of (c : QueueCall) : nat :=
  match c with
  | QEnqueue _ _ _ _ => 1
  | QPoll _ lim => S (Z.to_nat (if lim <=? 0 then 20 else lim))
  | QDone _ => 2
  end.
Lemma mark_within pending : within (length pending) (mark_proc pending).
Proof. induction pending as [|a pending IH]; [done|]. intros w. exact IH. Qed.
Lemma batch_length m lim rows : (length (pending_batch m lim rows) <= Z.to_nat lim)%nat.
Proof. unfold pending_batch, limit. rewrite length_take. lia. Qed.
Lemma decoded_length rows pending : mapM (decode_action (fun _ => ActionStatusPending)) rows = Ok pending -> length pending = length rows.
Proof.
  revert pending. induction rows as [|r rows IH]; intros pending H; [by injection H as <-|].
  apply res_bind_Ok in H as (x & _ & H). apply res_bind_Ok in H as (xs & Hxs & [= <-]). cbn [length]. f_equal. by apply IH.
Qed.
Lemma query_value {A} (f : DB -> A) w a : (query f w).1 = Ok a -> exists d, a = f d.
Proof.
  intros H. destruct (query f w) as [r w'] eqn:E. cbn in H. subst. apply query_Ok_inv in E as [-> _]. eauto.
Qed.
Lemma queue_within c : within (statements_of c) (queue_proc c).
Proof.
  destruct c as [guid u m ps|m lim|guid]; cbn [queue_proc statements_of].
  - intros w. by destruct (EnqueueCloudAction guid u m ps w).1.
  - intros w. unfold mbind, Proc_bind. cbn [proc_bind].
    destruct (query _ w).1 as [rows|e] eqn:E; [|by destruct (Z.to_nat _)]. apply query_value in E as [d ->].
    set (lim' := if lim <=? 0 then 20 else lim). pose proof (batch_length m lim' (cloud_actions d)) as Hlen.
    cbn [proc_bind]. destruct (_ =? 0)%nat; [by destruct (Z.to_nat _)|]. unfold pure. cbn [proc_bind].
    destruct (mapM _ _) as [pending|e] eqn:Ed; [|by destruct (Z.to_nat _)]. apply decoded_length in Ed.
    change (within (Z.to_nat lim') (marking pending pending)). unfold marking.
    replace (Z.to_nat lim') with (Z.to_nat lim' + 0 + 0)%nat by lia. apply within_bind; [|done]. apply within_bind; [|done].
    eapply within_weaken; [|apply mark_within]. lia.
  - intros w. unfold mbind, Proc_bind. cbn [proc_bind]. destruct (done_select guid w).1 as [row|e]; [|done].
    intros w2. by destruct (done_update guid (A_MachineID row) w2).1.
Qed.
(** C6. Every call on the queue ends after a fixed number of turns of its own,
    whatever the other calls do in between and whatever the schedule: one for an
    enqueue, two for a completion, one and one per action of its limit for a
    poll.  None waits for another, and none can be starved by them. *)
Theorem queue_calls_end (calls : list QueueCall) (schedule : list nat) (w : World) (i : nat) (c : QueueCall) :
  calls !! i = Some c -> (statements_of c <= length (List.filter (Nat.eqb i) schedule))%nat ->
  exists r, (interleave schedule (map queue_proc calls, w)).1 !! i = Some (Return r).
Proof.
  intros Hc. eapply own_turns; [|apply queue_within]. cbn [fst]. rewrite list_lookup_fmap. by rewrite Hc.
Qed.
Lemma queue_calls_end_witness :
  exists r, (interleave (round_robin 3 6) (map queue_proc race_calls, demo_world)).1 !! 1%nat = Some (Return r).
Proof. apply (queue_calls_end _ _ _ _ (QPoll 2 5)); [reflexivity|vm_compute; lia]. Defined.
