(* ===== verification/Inventory.v ===== *)
(** * The inventory of machines and gateways

    Models [internal/data/admin_inventory.go] and the records of
    [internal/domain/admin.go].  A floating-point number is the literal of its
    JSON number, ["0"] for Go's zero value; its rounding is not modelled. *)
From S2P Require Import Prelude GoStr Json Exchange Accounts Lights Mac World PortalStore.
#[global] Open Scope Z_scope.

(** ** admin.go *)
Record AdminStatsResponse := mkStats { ConnectedClients : Z; TotalMachines : Z; TotalGateways : Z }.
Record MachineDetail := mkMachineDetail {
  MD_ID : Z; MD_NoSerie : string; MD_MacAddress : string; MD_IP : string; MD_LastSeen : Time;
  MD_RawAuth : string; MD_RawDecoded : string; MD_GeoLocation : string; MD_Lat : string; MD_Lon : string }.

(** ** Reading a JSON column *)
Definition dec_float : decoder string := fun j old =>
  match j with JNum lit => Some lit | JNull => Some old | _ => None end.
Record Geo := mkGeo { G_Location : string; G_Lat : string; G_Lon : string }.
Definition geo_fields : fields Geo :=
  [("location", set_field G_Location (fun x g => mkGeo x (G_Lat g) (G_Lon g)) dec_string);
   ("lat", set_field G_Lat (fun x g => mkGeo (G_Location g) x (G_Lon g)) dec_float);
   ("lon", set_field G_Lon (fun x g => mkGeo (G_Location g) (G_Lat g) x) dec_float)].
Definition auth_fields : fields (string * string) :=
  [("raw_auth", set_field fst (fun x q => (x, q.2)) dec_string);
   ("raw_decoded", set_field snd (fun x q => (q.1, x)) dec_string)].

(** ** admin_inventory.go *)
Definition derefString (p : option string) (fallback : string) : string :=
  match p with Some s => if is_empty s then fallback else s | None => fallback end.
Definition prefix_of (n : nat) (s : string) : string := str (take n (bytes s)).
(** A portal bind is a positive number: such a client is shown by its hash. *)
Definition machineDisplaySerie (clientID : option string) (hashedPkey : string) : string :=
  let label := ("UNKNOWN-" ++ prefix_of 8 hashedPkey)%string in
  match clientID with
  | None => label
  | Some c =>
      let cid := TrimSpace c in
      if is_empty c || is_empty cid then label
      else match Sscanf_d cid with
           | Some n => if 0 <? n then label else cid
           | None => cid
           end
  end.
Definition resolveMachineMAC (stored eth1 : option string) : string :=
  let mac := derefString stored "" in if is_empty mac then derefString eth1 "" else mac.

Module AdminInventoryStore.
(** [SELECT COUNT( * )], an error leaving the zero. *)
Definition count_or_zero (f : DB -> Z) : MW Z :=
  r ← try (E := err) (E' := err) (query f); mret (match r with Ok n => n | Fail _ => 0 end).
Definition GetStats : MW AdminStatsResponse :=
  machines ← count_or_zero (fun d => Z.of_nat (length (machines d)));
  gateways ← count_or_zero (fun d => Z.of_nat (length (gateway_push_status d)));
  clients ← count_or_zero (fun d => Z.of_nat (size (machine_telemetry d)));
  mret (mkStats clients machines gateways).
(** The second address of the gateway seen last for the machine. *)
Definition gateway_eth1 (d : DB) (id : Z) : option string :=
  g ← head (order_desc last_seen_key (select (fun g =>
        bool_decide (GS_MachineID g = Some id) && negb (is_empty (default "" (GS_Eth1MAC g)))) (gateway_sessions d)));
  GS_Eth1MAC g.
Definition machine_seen (m : MachineRow) : Z := match M_LastSeen m with Some t => Z.max 0 t + 1 | None => 0 end.
(** The record of one row; the JSON columns are read by [GetMachines] only. *)
Definition machine_detail (d : DB) (m : MachineRow) : MachineDetail :=
  mkMachineDetail (M_ID m) (machineDisplaySerie (M_ClientID m) (M_HashedPkey m))
    (resolveMachineMAC (M_MAC m) (gateway_eth1 d (M_ID m))) (derefString (M_IP m) "-")
    (default 0 (M_LastSeen m)) "" "" "" "0" "0".
Definition with_columns (m : MachineRow) (x : MachineDetail) : MachineDetail :=
  let geo := default (mkGeo "" "0" "0") (dec_struct geo_fields (default (JObj []) (M_Geo m)) (mkGeo "" "0" "0")) in
  let auth := default ("", "") (dec_struct auth_fields (default (JObj []) (M_AuthDecoded m)) ("", "")) in
  mkMachineDetail (MD_ID x) (MD_NoSerie x) (MD_MacAddress x) (MD_IP x) (MD_LastSeen x) auth.1 auth.2
    (G_Location geo) (G_Lat geo) (G_Lon geo).
Definition with_mac (mac : string) (x : MachineDetail) : MachineDetail :=
  mkMachineDetail (MD_ID x) (MD_NoSerie x) mac (MD_IP x) (MD_LastSeen x) (MD_RawAuth x) (MD_RawDecoded x)
    (MD_GeoLocation x) (MD_Lat x) (MD_Lon x).
Definition set_mac (mac : string) (m : MachineRow) : MachineRow :=
  mkMachine (M_HashedPkey m) (M_ClientID m) (M_ID m) (M_IP m) (M_LastSeen m) (M_IsActive m) (Some mac)
    (M_Geo m) (M_AuthDecoded m).
(** The first of the keys whose telemetry holds an address; the row of the
    machine is updated, an error of the update is dropped. *)
Fixpoint backfill_keys (id : Z) (keys : list string) : MW (option string) :=
  match keys with
  | [] => mret None
  | key :: keys =>
      if is_empty key then backfill_keys id keys else
      r ← try (E := err) (E' := err) (query (fun d => machine_telemetry d !! key));
      match r with
      | Ok (Some (_, ek, _)) =>
          let mac := ParseMACFromTelemetryJSON ek in
          if is_empty mac then backfill_keys id keys
          else
            _ ← try (E := err) (E' := err) (exec (on_machines (update_where (fun m => M_ID m =? id) (set_mac mac))));
            mret (Some mac)
      | _ => backfill_keys id keys
      end
  end.
Fixpoint backfillMissingMACs (rows : list (MachineRow * MachineDetail)) : MW (list MachineDetail) :=
  match rows with
  | [] => mret []
  | (m, x) :: rows =>
      y ← (if is_empty (MD_MacAddress x) then
             mac ← backfill_keys (MD_ID x)
                     [MD_NoSerie x; Itoa (MD_ID x); derefString (M_ClientID m) ""; M_HashedPkey m];
             mret (match mac with Some mac => with_mac mac x | None => x end)
           else mret x);
      ys ← backfillMissingMACs rows;
      mret (y :: ys)
  end.
Definition GetMachines : MW (list MachineDetail) :=
  rows ← query (fun d => map (fun m => (m, with_columns m (machine_detail d m))) (order_desc machine_seen (machines d)));
  backfillMissingMACs rows.
Definition HashedPkeyByInventoryID (id : Z) : MW string :=
  _ ← guard_err (id <=? 0) (Errorf "invalid inventory id %d" [AInt id]);
  r ← try (E := err) (E' := err) (r ← query (fun d => get_row (fun m => M_ID m =? id) (machines d)); lift r);
  lift (match r with Ok m => Ok (M_HashedPkey m) | Fail e => Fail (Wrapf "inventory id %d: %w" e) end).
Definition GetMachineByID (id : Z) : MW MachineDetail :=
  _ ← guard_err (id <=? 0) (Errorf "invalid machine id %d" [AInt id]);
  r ← query (fun d => m ← get_row (fun m => M_ID m =? id) (machines d); mret (machine_detail d m));
  lift r.

Definition set_Hostname (x : string) (g : GatewayStatus) : GatewayStatus :=
  mkGatewayStatus x (GT_Timestamp g) (GT_CPU g) (GT_Memory g) (GT_Disk g) (GT_Services g) (GT_ClientCount g)
    (GT_IP g) (GT_LastSeen g) (GT_GeoLocation g) (GT_Lat g) (GT_Lon g).
Definition set_LastSeen (x : Time) (g : GatewayStatus) : GatewayStatus :=
  mkGatewayStatus (GT_Hostname g) (GT_Timestamp g) (GT_CPU g) (GT_Memory g) (GT_Disk g) (GT_Services g)
    (GT_ClientCount g) (GT_IP g) x (GT_GeoLocation g) (GT_Lat g) (GT_Lon g).
Definition gateway_status (row : GatewayPushRow) : GatewayStatus :=
  let gw := set_Hostname (GP_Hostname row) (GP_Payload row) in
  if IsZero (GT_LastSeen gw) then set_LastSeen (GP_UpdatedAt row) gw else gw.
Definition GetGateways : MW (list GatewayStatus) :=
  query (fun d => map gateway_status (order_desc GP_UpdatedAt (gateway_push_status d))).
End AdminInventoryStore.
