(* ===== verification/LegacyStore.v ===== *)
(** * Devices on the wide area network: the store

    Models [internal/data/legacy_iot_store.go] and [legacy_iot_geo.go] with
    [internal/domain/legacy_iot.go].  A background task (the geolocation of an
    address) runs at once, without its delay. *)
From S2P Require Import Prelude GoStr Json JsonText Geo Exchange Accounts Lights Mac World PortalStore Inventory.
#[global] Open Scope Z_scope.

Record LegacyMachine := mkLegacyMachine { LM_HashedPkey : string; LM_NoSerie : string; LM_IsActive : bool }.
Record MyStatusPayload := mkMyStatus { MS_Version : string; MS_EK : list ExchangeKV }.

(** ** Columns *)
(** [col LIKE pattern]: [%] stands for any text, [_] for any character, a
    backslash takes the next character as it is. *)
Fixpoint like (pattern text : list Z) : bool :=
  match pattern with
  | [] => match text with [] => true | _ => false end
  | c :: p =>
      if c =? 37 then
        (fix any (text : list Z) : bool :=
           like p text || match text with [] => false | _ :: text => any text end) text
      else if c =? 95 then match text with [] => false | _ :: text => like p text end
      else if c =? 92 then
        match p with
        | [] => false
        | e :: p => match text with [] => false | x :: text => (x =? e) && like p text end
        end
      else match text with [] => false | x :: text => (x =? c) && like p text end
  end.
Definition rune_values (s : string) : list Z := map fst (runes s).
Definition sql_like (col pattern : string) : bool := like (rune_values pattern) (rune_values col).
(** A literal of the value zero; underflow is not considered. *)
Definition float_zero (lit : string) : bool :=
  forallb (fun c => negb (is_digit c) || bool_decide (c = chr 48))
    (default [] (head (split_bytes (chr 101) (map lower_ascii (bytes lit))))).
(** A JSON column refuses the NUL character. *)
Fixpoint has_nul (j : json) : bool :=
  match j with
  | JStr s => Contains s (str [chr 0])
  | JArr l => existsb has_nul l
  | JObj kvs => existsb (fun kv => Contains kv.1 (str [chr 0]) || has_nul kv.2) kvs
  | JNull | JBool _ | JNum _ => false
  end.
Definition gateway_texts (g : GatewayStatus) : list json :=
  [JStr (GT_Hostname g); JStr (GT_IP g); JStr (GT_GeoLocation g); default JNull (GT_Memory g); default JNull (GT_Disk g);
   JObj (map (fun kv => (kv.1, JBool kv.2)) (map_to_list (default ∅ (GT_Services g))))].
Definition is_machine (hashedPkey : string) (m : MachineRow) : bool := seqb (M_HashedPkey m) hashedPkey.
Definition set_ClientID (x : option string) (m : MachineRow) : MachineRow :=
  mkMachine (M_HashedPkey m) x (M_ID m) (M_IP m) (M_LastSeen m) (M_IsActive m) (M_MAC m) (M_Geo m) (M_AuthDecoded m).
Definition set_IsActive (x : bool) (m : MachineRow) : MachineRow :=
  mkMachine (M_HashedPkey m) (M_ClientID m) (M_ID m) (M_IP m) (M_LastSeen m) x (M_MAC m) (M_Geo m) (M_AuthDecoded m).
Definition set_Geo (x : option json) (m : MachineRow) : MachineRow :=
  mkMachine (M_HashedPkey m) (M_ClientID m) (M_ID m) (M_IP m) (M_LastSeen m) (M_IsActive m) (M_MAC m) x (M_AuthDecoded m).
Definition set_status (ip : string) (t : Time) (auth : json) (m : MachineRow) : MachineRow :=
  mkMachine (M_HashedPkey m) (M_ClientID m) (M_ID m) (Some ip) (Some t) (M_IsActive m) (M_MAC m) (M_Geo m) (Some auth).
Definition set_place (g : string * string * string) (x : GatewayStatus) : GatewayStatus :=
  mkGatewayStatus (GT_Hostname x) (GT_Timestamp x) (GT_CPU x) (GT_Memory x) (GT_Disk x) (GT_Services x)
    (GT_ClientCount x) (GT_IP x) (GT_LastSeen x) g.1.1 g.1.2 g.2.

(** ** legacy_iot_geo.go *)
Section geo.
Context (ip_api : string -> option geoAPIResponse).
(** Nothing to save when the lookup fails. *)
Definition resolveAndSaveMachineGeo (hashedPkey ip : string) : MW unit :=
  match LookupIP ip_api ip with
  | Fail _ => mret tt
  | Ok g =>
      _ ← try (E := err) (E' := err) (exec (on_machines (update_where (is_machine hashedPkey)
            (set_Geo (Some (JObj [("lat", JNum (GR_Lat g)); ("location", JStr (GR_Location g)); ("lon", JNum (GR_Lon g))]))))));
      mret tt
  end.
Definition is_hostname (hostname : string) (r : GatewayPushRow) : bool := seqb (GP_Hostname r) hostname.
Definition resolveAndSaveGatewayGeo (hostname ip : string) : MW unit :=
  match LookupIP ip_api ip with
  | Fail _ => mret tt
  | Ok g =>
      row ← try (E := err) (E' := err) (r ← query (fun d => get_row (is_hostname hostname) (gateway_push_status d)); lift r);
      match row with
      | Fail _ => mret tt
      | Ok row =>
          let gw := AdminInventoryStore.set_Hostname hostname (set_place (GR_Location g, GR_Lat g, GR_Lon g) (GP_Payload row)) in
          _ ← try (E := err) (E' := err) (t ← now; exec (on_gateway_push_status (update_where (is_hostname hostname)
                (fun r => mkGatewayPush (GP_Hostname r) gw t))));
          mret tt
      end
  end.
Definition machineGeoEmpty (raw : json) : bool :=
  match dec_struct geo_fields raw (mkGeo "" "0" "0") with
  | None => true
  | Some g => float_zero (G_Lat g) && float_zero (G_Lon g)
  end.
(** [geo->>'lat' IN ('', '0')] of an object, missing included. *)
Definition member_text (name : string) (j : json) : string :=
  match j with
  | JObj kvs => match find (fun kv => seqb kv.1 name) (rev kvs) with
                | Some (_, JNum lit) => lit
                | Some (_, JStr s) => s
                | Some (_, JBool b) => if b then "true" else "false"
                | Some (_, JNull) | None => ""
                | Some (_, _) => "{"
                end
  | _ => ""
  end.
Definition zero_text (s : string) : bool := is_empty s || seqb s "0".
Definition geo_missing (m : MachineRow) : bool :=
  match M_IP m with
  | None => false
  | Some ip => negb (bool_decide (ip ∈ ["" : string; "-"; "127.0.0.1"]))
      && match M_Geo m with
         | None => true
         | Some j => match j with JObj [] => true | _ => false end
                     || zero_text (member_text "lat" j) || zero_text (member_text "lon" j)
         end
  end.
Fixpoint backfill_geo (rows : list MachineRow) : MW unit :=
  match rows with
  | [] => mret tt
  | m :: rows =>
      let ip := derefString (M_IP m) "" in
      _ ← (if IsLookupable ip then resolveAndSaveMachineGeo (M_HashedPkey m) ip else mret tt);
      backfill_geo rows
  end.
Definition BackfillMissingMachineGeo : MW unit :=
  rows ← try (E := err) (E' := err) (query (fun d => select geo_missing (machines d)));
  match rows with Fail _ => mret tt | Ok rows => backfill_geo rows end.
End geo.

(** ** legacy_iot_store.go *)
Module LegacyIoTStore.
Definition not_nil {A} (m : MW A) : MW (option A) :=
  r ← try (E := err) (E' := err) m;
  match r with
  | Ok a => mret (Some a)
  | Fail e => if bool_decide (e = ErrNoRows) then mret None else throw e
  end.
Definition GetMachineByHashedPkey (hashedPkey : string) : MW (option LegacyMachine) :=
  row ← not_nil (r ← query_text hashedPkey (fun d => get_row (is_machine hashedPkey) (machines d)); lift r);
  mret ((fun m => mkLegacyMachine (M_HashedPkey m) (derefString (M_ClientID m) (M_HashedPkey m)) (M_IsActive m)) <$> row).
(** The number of the row is taken before the conflict is seen. *)
Definition RegisterUnknownMachine (hashedPkey : string) : MW (option LegacyMachine) :=
  let noSerie := ("UNKNOWN-" ++ prefix_of 8 hashedPkey)%string in
  _ ← (_ ← stmt;
       _ ← guard_err (negb (text_ok hashedPkey && text_ok noSerie)) ErrDB;
       id ← nextval "machines";
       t ← now;
       modify (on_db (on_machines (fun rows =>
         if existsb (is_machine hashedPkey) rows then rows
         else rows ++ [mkMachine hashedPkey (Some noSerie) id None (Some t) false None None None]))));
  m ← try (E := err) (E' := err) (GetMachineByHashedPkey hashedPkey);
  mret (match m with Ok m => m | Fail _ => Some (mkLegacyMachine hashedPkey noSerie false) end).
Section geo.
Context (ip_api : string -> option geoAPIResponse).
Definition UpdateMachineStatus (hashedPkey ip rawAuth rawDecoded : string) : MW unit :=
  row ← try (E := err) (E' := err) (r ← query_text hashedPkey (fun d => get_row (is_machine hashedPkey) (machines d)); lift r);
  let oldIP := match row with Ok m => derefString (M_IP m) "" | Fail _ => "" end in
  let place := match row with Ok m => machineGeoEmpty (default (JObj []) (M_Geo m)) | Fail _ => true end in
  let triggerGeo := (negb (seqb oldIP ip) && IsLookupable ip) || (place && IsLookupable ip) in
  let auth := JObj [("raw_auth", JStr (ToValidUTF8 rawAuth)); ("raw_decoded", JStr (ToValidUTF8 rawDecoded))] in
  done ← try (E := err) (E' := err)
    (_ ← stmt;
     _ ← guard_err (negb (text_ok hashedPkey && text_ok ip) || has_nul auth) ErrDB;
     t ← now;
     modify (on_db (on_machines (update_where (is_machine hashedPkey) (set_status ip t auth)))));
  match done with
  | Fail _ => mret tt
  | Ok _ => if triggerGeo then resolveAndSaveMachineGeo ip_api hashedPkey ip else mret tt
  end.
(** Whose address a device may set: its own, while none or the same is known. *)
Definition mac_target (clientID hashPrefix hashedPkey mac : string) (m : MachineRow) : bool :=
  ((negb (is_empty clientID) && bool_decide (M_ClientID m = Some clientID))
   || (negb (is_empty clientID) && seqb (Itoa (M_ID m)) clientID)
   || (negb (is_empty hashPrefix) && sql_like (M_HashedPkey m) (hashPrefix ++ "%"))
   || (negb (is_empty hashedPkey) && is_machine hashedPkey m))
  && match M_MAC m with None => true | Some old => is_empty old || seqb old mac end.
Definition persistMachineMAC (clientID hashedPkey mac : string) : MW unit :=
  if is_empty mac then mret tt else
  let hashPrefix := unknownHashPrefix clientID in
  _ ← try (E := err) (E' := err) (exec (on_machines (update_where (mac_target clientID hashPrefix hashedPkey mac)
        (AdminInventoryStore.set_mac mac))));
  mret tt.
Definition SaveClientData (clientID hashedPkey version : string) (ek : list ExchangeKV) : MW unit :=
  _ ← (_ ← stmt;
       _ ← guard_err (negb (text_ok clientID && text_ok version) || existsb (fun p => has_nul (JStr (V p))) ek) ErrDB;
       t ← now;
       modify (on_db (on_machine_telemetry (<[clientID := (version, Some ek, t)]>))));
  let mac := ParseMACFromEK ek in
  if is_empty mac then mret tt else persistMachineMAC clientID hashedPkey mac.
Definition upsert_push (row : GatewayPushRow) (rows : list GatewayPushRow) : list GatewayPushRow :=
  if existsb (is_hostname (GP_Hostname row)) rows
  then update_where (is_hostname (GP_Hostname row)) (fun _ => row) rows else rows ++ [row].
Definition SaveGateway (gw : GatewayStatus) : MW unit :=
  row ← try (E := err) (E' := err) (r ← query_text (GT_Hostname gw)
          (fun d => get_row (is_hostname (GT_Hostname gw)) (gateway_push_status d)); lift r);
  let '(gw, triggerGeo) :=
    match row with
    | Ok row =>
        let existing := GP_Payload row in
        let moved := negb (seqb (GT_IP gw) (GT_IP existing)) && IsLookupable (GT_IP gw) in
        let gw := if moved then gw else set_place (GT_GeoLocation existing, GT_Lat existing, GT_Lon existing) gw in
        (gw, moved || (is_empty (GT_GeoLocation gw) && float_zero (GT_Lat gw) && float_zero (GT_Lon gw)
                       && IsLookupable (GT_IP gw)))
    | Fail _ => (gw, IsLookupable (GT_IP gw))
    end in
  _ ← (_ ← stmt;
       _ ← guard_err (negb (text_ok (GT_Hostname gw)) || existsb has_nul (gateway_texts gw)) ErrDB;
       t ← now;
       modify (on_db (on_gateway_push_status (upsert_push (mkGatewayPush (GT_Hostname gw) gw t)))));
  if triggerGeo then resolveAndSaveGatewayGeo ip_api (GT_Hostname gw) (GT_IP gw) else mret tt.
End geo.
Definition BindMachineForPortalDelivery (hashedPkey : string) (portalMachineID : Z) : MW unit :=
  _ ← guard_err (portalMachineID <=? 0) (Errorf "invalid portal machine id %d" [AInt portalMachineID]);
  exec (on_machines (update_where (is_machine hashedPkey)
    (fun m => set_ClientID (Some (Itoa portalMachineID)) (set_IsActive true m)))).
Definition unknown_machine : err := Errorf "unknown machine" [].
(** A positive number in [client_id] first, else the number of the row. *)
Definition portal_id (m : MachineRow) : option Z :=
  let own := if 0 <? M_ID m then Some (M_ID m) else None in
  match M_ClientID m with
  | Some c => if is_empty c then own
              else match Sscanf_d c with Some n => if 0 <? n then Some n else own | None => own end
  | None => own
  end.
Definition PortalMachineIDFromHashedPkey (hashedPkey : string) : MW Z :=
  row ← try (E := err) (E' := err) (r ← query_text hashedPkey (fun d => get_row (is_machine hashedPkey) (machines d)); lift r);
  match row with
  | Fail _ => throw unknown_machine
  | Ok m => lift (ok_or (portal_id m) unknown_machine)
  end.
Definition nullString (s : string) : option string := if is_empty s || seqb s "-" then None else Some s.
(** [~ '^[0-9]+$'] *)
Definition all_digits (s : string) : bool := negb (is_empty s) && forallb is_digit (bytes s).
Definition import_over (clientID : string) (ip : option string) (isActive : bool) (lastSeen : Time)
    (authDecoded : option json) (m : MachineRow) : MachineRow :=
  mkMachine (M_HashedPkey m)
    (match M_ClientID m with Some c => if all_digits c then Some c else Some clientID | None => Some clientID end)
    (M_ID m) (match ip with Some _ => ip | None => M_IP m end) (Some lastSeen) (M_IsActive m || isActive) (M_MAC m)
    (M_Geo m) (match authDecoded with Some _ => authDecoded | None => M_AuthDecoded m end).
Definition ImportMachine (hashedPkey clientID ip : string) (isActive : bool) (lastSeen : Time)
    (authDecoded : option json) : MW unit :=
  _ ← stmt;
  _ ← guard_err (negb (text_ok hashedPkey && text_ok clientID && text_ok ip) || has_nul (default JNull authDecoded)) ErrDB;
  id ← nextval "machines";
  modify (on_db (on_machines (fun rows =>
    if existsb (is_machine hashedPkey) rows
    then update_where (is_machine hashedPkey) (import_over clientID (nullString ip) isActive lastSeen authDecoded) rows
    else rows ++ [mkMachine hashedPkey (Some clientID) id (nullString ip) (Some lastSeen) isActive None None authDecoded]))).
End LegacyIoTStore.
