(* ===== verification/AccountStore.v ===== *)
(** * Accounts at rest: users, reset tokens and remembered sessions

    Models [internal/data/user_store.go], [password_reset_store.go] and
    [remember_session_store.go].  Foreign keys and unique columns are the ones
    of the migrations: deleting a user deletes its tokens, sessions and support
    reports and clears the temporary passwords it issued. *)
From S2P Require Import Prelude GoStr Exchange Accounts Lights World Crypto PortalStore.
#[global] Open Scope Z_scope.

(** ** Columns of a user row set by an [UPDATE] *)
Definition set_PasswordHash (x : string) (u : User) : User :=
  mkUser (U_ID u) (U_Email u) x (U_Role u) (U_FirstName u) (U_LastName u) (U_Provider u) (U_ProviderID u) (U_CreatedAt u) (U_LastLogin u) (U_ForbiddenAt u) (U_LinkedMachineID u) (U_LinkedGatewayID u) (U_LinkedArmoireID u) (U_PasswordChangeRequiredAt u) (U_TempPasswordExpiresAt u) (U_TempPasswordIssuedBy u).
Definition set_ProviderID (x : string) (u : User) : User :=
  mkUser (U_ID u) (U_Email u) (U_PasswordHash u) (U_Role u) (U_FirstName u) (U_LastName u) (U_Provider u) x (U_CreatedAt u) (U_LastLogin u) (U_ForbiddenAt u) (U_LinkedMachineID u) (U_LinkedGatewayID u) (U_LinkedArmoireID u) (U_PasswordChangeRequiredAt u) (U_TempPasswordExpiresAt u) (U_TempPasswordIssuedBy u).
Definition set_Role (x : string) (u : User) : User :=
  mkUser (U_ID u) (U_Email u) (U_PasswordHash u) x (U_FirstName u) (U_LastName u) (U_Provider u) (U_ProviderID u) (U_CreatedAt u) (U_LastLogin u) (U_ForbiddenAt u) (U_LinkedMachineID u) (U_LinkedGatewayID u) (U_LinkedArmoireID u) (U_PasswordChangeRequiredAt u) (U_TempPasswordExpiresAt u) (U_TempPasswordIssuedBy u).
Definition set_FirstName (x : string) (u : User) : User :=
  mkUser (U_ID u) (U_Email u) (U_PasswordHash u) (U_Role u) x (U_LastName u) (U_Provider u) (U_ProviderID u) (U_CreatedAt u) (U_LastLogin u) (U_ForbiddenAt u) (U_LinkedMachineID u) (U_LinkedGatewayID u) (U_LinkedArmoireID u) (U_PasswordChangeRequiredAt u) (U_TempPasswordExpiresAt u) (U_TempPasswordIssuedBy u).
Definition set_LastName (x : string) (u : User) : User :=
  mkUser (U_ID u) (U_Email u) (U_PasswordHash u) (U_Role u) (U_FirstName u) x (U_Provider u) (U_ProviderID u) (U_CreatedAt u) (U_LastLogin u) (U_ForbiddenAt u) (U_LinkedMachineID u) (U_LinkedGatewayID u) (U_LinkedArmoireID u) (U_PasswordChangeRequiredAt u) (U_TempPasswordExpiresAt u) (U_TempPasswordIssuedBy u).
Definition set_LastLogin (x : Time) (u : User) : User :=
  mkUser (U_ID u) (U_Email u) (U_PasswordHash u) (U_Role u) (U_FirstName u) (U_LastName u) (U_Provider u) (U_ProviderID u) (U_CreatedAt u) x (U_ForbiddenAt u) (U_LinkedMachineID u) (U_LinkedGatewayID u) (U_LinkedArmoireID u) (U_PasswordChangeRequiredAt u) (U_TempPasswordExpiresAt u) (U_TempPasswordIssuedBy u).
Definition set_ForbiddenAt (x : option Time) (u : User) : User :=
  mkUser (U_ID u) (U_Email u) (U_PasswordHash u) (U_Role u) (U_FirstName u) (U_LastName u) (U_Provider u) (U_ProviderID u) (U_CreatedAt u) (U_LastLogin u) x (U_LinkedMachineID u) (U_LinkedGatewayID u) (U_LinkedArmoireID u) (U_PasswordChangeRequiredAt u) (U_TempPasswordExpiresAt u) (U_TempPasswordIssuedBy u).
Definition set_LinkedMachineID (x : option Z) (u : User) : User :=
  mkUser (U_ID u) (U_Email u) (U_PasswordHash u) (U_Role u) (U_FirstName u) (U_LastName u) (U_Provider u) (U_ProviderID u) (U_CreatedAt u) (U_LastLogin u) (U_ForbiddenAt u) x (U_LinkedGatewayID u) (U_LinkedArmoireID u) (U_PasswordChangeRequiredAt u) (U_TempPasswordExpiresAt u) (U_TempPasswordIssuedBy u).
Definition set_LinkedGatewayID (x : option string) (u : User) : User :=
  mkUser (U_ID u) (U_Email u) (U_PasswordHash u) (U_Role u) (U_FirstName u) (U_LastName u) (U_Provider u) (U_ProviderID u) (U_CreatedAt u) (U_LastLogin u) (U_ForbiddenAt u) (U_LinkedMachineID u) x (U_LinkedArmoireID u) (U_PasswordChangeRequiredAt u) (U_TempPasswordExpiresAt u) (U_TempPasswordIssuedBy u).
Definition set_LinkedArmoireID (x : option Z) (u : User) : User :=
  mkUser (U_ID u) (U_Email u) (U_PasswordHash u) (U_Role u) (U_FirstName u) (U_LastName u) (U_Provider u) (U_ProviderID u) (U_CreatedAt u) (U_LastLogin u) (U_ForbiddenAt u) (U_LinkedMachineID u) (U_LinkedGatewayID u) x (U_PasswordChangeRequiredAt u) (U_TempPasswordExpiresAt u) (U_TempPasswordIssuedBy u).
Definition set_PasswordChangeRequiredAt (x : option Time) (u : User) : User :=
  mkUser (U_ID u) (U_Email u) (U_PasswordHash u) (U_Role u) (U_FirstName u) (U_LastName u) (U_Provider u) (U_ProviderID u) (U_CreatedAt u) (U_LastLogin u) (U_ForbiddenAt u) (U_LinkedMachineID u) (U_LinkedGatewayID u) (U_LinkedArmoireID u) x (U_TempPasswordExpiresAt u) (U_TempPasswordIssuedBy u).
Definition set_TempPasswordExpiresAt (x : option Time) (u : User) : User :=
  mkUser (U_ID u) (U_Email u) (U_PasswordHash u) (U_Role u) (U_FirstName u) (U_LastName u) (U_Provider u) (U_ProviderID u) (U_CreatedAt u) (U_LastLogin u) (U_ForbiddenAt u) (U_LinkedMachineID u) (U_LinkedGatewayID u) (U_LinkedArmoireID u) (U_PasswordChangeRequiredAt u) x (U_TempPasswordIssuedBy u).
Definition set_TempPasswordIssuedBy (x : option Z) (u : User) : User :=
  mkUser (U_ID u) (U_Email u) (U_PasswordHash u) (U_Role u) (U_FirstName u) (U_LastName u) (U_Provider u) (U_ProviderID u) (U_CreatedAt u) (U_LastLogin u) (U_ForbiddenAt u) (U_LinkedMachineID u) (U_LinkedGatewayID u) (U_LinkedArmoireID u) (U_PasswordChangeRequiredAt u) (U_TempPasswordExpiresAt u) x.

Definition is_user (id : Z) (u : User) : bool := U_ID u =? id.

(** ** user_store.go *)
Module UserStore.
(** The lengths of the columns, and the reference to the account that issued a
    temporary password. *)
Definition user_columns_fit (u : User) : bool :=
  varchar 255 (U_Email u) && varchar 255 (U_PasswordHash u) && varchar 50 (U_Role u) && varchar 100 (U_FirstName u)
  && varchar 100 (U_LastName u) && varchar 50 (U_Provider u) && varchar 255 (U_ProviderID u)
  && int4 (default 0 (U_LinkedMachineID u)) && int4 (default 0 (U_LinkedArmoireID u)) && varchar 255 (default "" (U_LinkedGatewayID u)).
Definition row_ok (d : DB) (u : User) : bool :=
  user_columns_fit u && match U_TempPasswordIssuedBy u with Some i => existsb (is_user i) (users d) | None => true end.
(** [UPDATE users SET .. WHERE id = $n]: a row that the table refuses fails it. *)
Definition put_user (userID : Z) (f : User -> User) : MW unit :=
  _ ← stmt;
  ok ← gets (fun w => forallb (row_ok (db w)) (map f (select (is_user userID) (users (db w)))));
  _ ← guard_err (negb ok) ErrDB;
  modify (on_db (on_users (update_where (is_user userID) f))).
(** The row of the [INSERT]: the columns it does not name are NULL.  A taken
    address breaks the unique index. *)
Definition CreateUser (u : User) : MW Z :=
  _ ← stmt;
  id ← nextval "users";
  taken ← gets (fun w => existsb (fun x => seqb (U_Email x) (U_Email u)) (users (db w)));
  let row := mkUser id (U_Email u) (U_PasswordHash u) (U_Role u) (U_FirstName u) (U_LastName u)
               (U_Provider u) (U_ProviderID u) (U_CreatedAt u) (U_LastLogin u)
               None None None None None None None in
  _ ← guard_err (taken || negb (user_columns_fit row)) ErrDB;
  _ ← modify (on_db (on_users (fun rows => rows ++ [row])));
  mret id.
(** [nil, nil] when there is no such row. *)
Definition GetUserByEmail (email : string) : MW (option User) :=
  query_text email (fun d => res_value (get_row (fun u => seqb (U_Email u) email) (users d))).
Definition GetUserByID (id : Z) : MW (option User) :=
  query (fun d => res_value (get_row (is_user id) (users d))).
Definition UpdateLastLogin (userID : Z) : MW unit :=
  t ← now;
  exec (on_users (update_where (is_user userID) (set_LastLogin t))).
(** [revokeAllRememberSQL] *)
Definition revoke_session (t : Time) (s : RememberSession) : RememberSession :=
  mkRemember (RS_ID s) (RS_UserID s) (RS_TokenHash s) (RS_CreatedAt s) (RS_ExpiresAt s)
    (RS_LastUsedAt s) (Some t) (RS_UserAgent s).
Definition revoke_all (userID : Z) (t : Time) : DB -> DB :=
  on_remember_sessions (update_where
    (fun s => (RS_UserID s =? userID) && negb (is_some (RS_RevokedAt s))) (revoke_session t)).
(** The statement that replaces the password and the revocation, in one
    transaction; [f] is the change of the user's row at the given time. *)
Definition writeCredential (userID : Z) (f : Time -> User -> User) : MW unit :=
  transaction (fun t =>
    _ ← put_user userID (f t);
    exec (revoke_all userID t)).
Definition UpdateUser (userID : Z) (firstName lastName passwordHash : string) : MW unit :=
  if negb (is_empty passwordHash) then
    writeCredential userID (fun _ u =>
      set_PasswordHash passwordHash (set_LastName lastName (set_FirstName firstName u)))
  else put_user userID (fun u => set_LastName lastName (set_FirstName firstName u)).
Definition UpdatePasswordHash (userID : Z) (passwordHash : string) : MW unit :=
  writeCredential userID (fun _ => set_PasswordHash passwordHash).
(** The cascades of the foreign keys on [users]. *)
Definition delete_user (userID : Z) (d : DB) : DB :=
  on_support_reports (delete_where (fun r => SU_UserID r =? userID))
    (on_remember_sessions (delete_where (fun s => RS_UserID s =? userID))
      (on_password_reset_tokens (delete_where (fun t => T_UserID t =? userID))
        (on_users (fun rows =>
           update_where (fun u => bool_decide (U_TempPasswordIssuedBy u = Some userID))
             (set_TempPasswordIssuedBy None) (delete_where (is_user userID) rows)) d))).
Definition DeleteUser (userID : Z) : MW unit := exec (delete_user userID).
Definition ForbidUser (userID : Z) : MW unit :=
  t ← now;
  exec (on_users (update_where (is_user userID) (set_ForbiddenAt (Some t)))).
Definition UnforbidUser (userID : Z) : MW unit :=
  exec (on_users (update_where (is_user userID) (set_ForbiddenAt None))).
Definition CountAdminGlobal : MW Z :=
  query (fun d => count_where (fun u => seqb (U_Role u) RoleAdminGlobal) (users d)).
Definition UpdateUserLinks (userID : Z) (machineID : option Z) (gatewayID : option string)
    (armoireID : option Z) : MW unit :=
  put_user userID (fun u => set_LinkedArmoireID armoireID (set_LinkedGatewayID gatewayID (set_LinkedMachineID machineID u))).
Definition SetTemporaryPassword (userID : Z) (hash : string) (expiresAt : Time) (issuedBy : Z) : MW unit :=
  writeCredential userID (fun t u =>
    set_TempPasswordIssuedBy (Some issuedBy) (set_TempPasswordExpiresAt (Some expiresAt)
      (set_PasswordChangeRequiredAt (Some t) (set_PasswordHash hash u)))).
Definition ClearPasswordChangeRequired (userID : Z) (hash : string) : MW unit :=
  writeCredential userID (fun _ u =>
    set_TempPasswordIssuedBy None (set_TempPasswordExpiresAt None
      (set_PasswordChangeRequiredAt None (set_PasswordHash hash u)))).
(** The listing does not load the credential columns. *)
Definition listed (u : User) : User :=
  set_PasswordHash "" (set_ProviderID "" (set_TempPasswordIssuedBy None u)).
Definition GetAllUsers : MW (list User) :=
  query (fun d => map listed (order_desc U_CreatedAt (users d))).
Definition GetUsersByMachineID (machineID : Z) : MW (list User) :=
  query (fun d => map listed (order_desc U_CreatedAt
    (select (fun u => bool_decide (U_LinkedMachineID u = Some machineID)) (users d)))).
Definition UpdateUserRole (userID : Z) (role : string) : MW unit :=
  put_user userID (set_Role role).
End UserStore.

(** ** An update of an account *)
Lemma put_user_run id f w u w' : UserStore.put_user id f w = (Ok u, w') ->
  db w' = on_users (update_where (is_user id) f) (db w) /\
  forallb (UserStore.row_ok (db w)) (map f (select (is_user id) (users (db w)))) = true.
Proof. unfold UserStore.put_user. intros H. mrun. subst. cbn. match goal with H : db _ = db w |- _ => rewrite H in * end. by rewrite <-negb_false_iff. Qed.
(** An account that was updated has an address that the database takes. *)
Lemma put_user_fits id f w v w' u : UserStore.put_user id f w = (Ok v, w') -> u ∈ users (db w) -> U_ID u = id ->
  U_Email (f u) = U_Email u -> text_ok (U_Email u) = true.
Proof.
  intros [_ Hfit]%put_user_run Hu Hid He. rewrite forallb_elem in Hfit. specialize (Hfit (f u)). rewrite <-He.
  unfold UserStore.row_ok, UserStore.user_columns_fit, varchar in Hfit. rewrite !andb_true_iff in Hfit. apply Hfit.
  apply list_elem_of_fmap_2, elem_of_select. split; [done|]. by apply Z.eqb_eq.
Qed.
Ltac account_run := mrun; repeat match goal with H : UserStore.put_user _ _ _ = (Ok _, _) |- _ => apply put_user_run in H as [H _] end.
Lemma put_user_clean id f : fails_clean (UserStore.put_user id f).
Proof. do 3 (apply clean_bind; [intros; auto with preserves|intros]). apply clean_never, never_modify. Qed.
Lemma preserves_put_user I id f : (forall d, I d -> I (on_users (update_where (is_user id) f) d)) ->
  preserves (db_inv I) (UserStore.put_user id f).
Proof. intros Hf. unfold UserStore.put_user. preserves_tac. apply preserves_modify. intros w Hw. by apply Hf. Qed.
Lemma since_put_user t0 P id f : (forall d, P d -> P (on_users (update_where (is_user id) f) d)) ->
  preserves (since t0 P) (UserStore.put_user id f).
Proof. intros Hf. unfold UserStore.put_user. since_tac. by apply Hf. Qed.
#[export] Hint Extern 1 (preserves (db_inv _) (UserStore.put_user _ _)) => apply preserves_put_user : preserves.
#[export] Hint Extern 1 (preserves (since _ _) (UserStore.put_user _ _)) => apply since_put_user : preserves.

Lemma create_user_clean u : fails_clean (UserStore.CreateUser u).
Proof.
  unfold UserStore.CreateUser. do 4 (apply clean_bind; [intros; auto with preserves|intros]). apply clean_never. eauto with never.
Qed.
Lemma create_user_row u w id w' : UserStore.CreateUser u w = (Ok id, w') -> exists row,
  U_Email row = U_Email u /\ U_Role row = U_Role u /\ (forall x, x ∈ users (db w) -> U_Email x <> U_Email u) /\ U_LinkedMachineID row = None /\ U_LinkedGatewayID row = None /\
  U_LinkedArmoireID row = None /\ db w' = on_users (fun rows => rows ++ [row]) (db w).
Proof.
  unfold UserStore.CreateUser. intros H. mrun. subst. eexists. split_and!; [| | |..|cbn [db on_db];
    repeat match goal with H : db _ = db _ |- _ => rewrite <-H; clear H end; reflexivity]; try done.
  match goal with H : _ || _ = false |- _ => apply orb_false_iff in H as [Hno _] end.
  intros y Hy He. revert Hno. apply not_false_iff_true, existsb_elem. exists y. split; [congruence|by apply seqb_spec].
Qed.

(** ** password_reset_store.go *)
Module PasswordResetStore.
Definition ErrTokenNotConsumable : err := Sentinel "password reset token is not consumable".
Definition retention : Duration := 30 * 24 * Hour.
(** The lengths of the columns. *)
Definition token_columns_fit (tok : PasswordResetToken) : bool :=
  varchar 64 (T_TokenHash tok) && varchar 64 (default "" (T_RequestIP tok)) && varchar 64 (default "" (T_ConsumedIP tok)).
(** The row fits its columns and refers to an existing user; its digest is unique. *)
Definition Create (userID : Z) (tokenHash : string) (expiresAt : Time) (requestIP : string) : MW unit :=
  _ ← stmt;
  id ← nextval "password_reset_tokens";
  t ← now;
  ok ← gets (fun w => existsb (is_user userID) (users (db w)) &&
         negb (existsb (fun x => seqb (T_TokenHash x) tokenHash) (password_reset_tokens (db w))));
  let row := mkResetToken id userID tokenHash expiresAt None None (nullIfEmpty requestIP) None t in
  _ ← guard_err (negb (ok && token_columns_fit row)) ErrDB;
  modify (on_db (on_password_reset_tokens (fun rows => rows ++ [row]))).
Definition outstanding (userID : Z) (tok : PasswordResetToken) : bool :=
  (T_UserID tok =? userID) && negb (is_some (T_ConsumedAt tok)) && negb (is_some (T_InvalidatedAt tok)).
Definition invalidate (t : Time) (tok : PasswordResetToken) : PasswordResetToken :=
  mkResetToken (T_ID tok) (T_UserID tok) (T_TokenHash tok) (T_ExpiresAt tok) (T_ConsumedAt tok)
    (Some t) (T_RequestIP tok) (T_ConsumedIP tok) (T_CreatedAt tok).
Definition invalidate_all (userID : Z) (t : Time) : DB -> DB :=
  on_password_reset_tokens (update_where (outstanding userID) (invalidate t)).
Definition InvalidateForUser (userID : Z) : MW unit :=
  _ ← stmt; t ← now; modify (on_db (invalidate_all userID t)).
Definition PurgeOlderThan (age : Duration) : MW unit :=
  t ← now;
  exec (on_password_reset_tokens (delete_where (fun tok => T_CreatedAt tok <? t - age))).
(** The error of the purge is only logged. *)
Definition Issue (userID : Z) (requestIP : string) : MW (string * Time) :=
  '(plain, digest) ← pwreset.Generate;
  _ ← InvalidateForUser userID;
  t ← now;
  let expiresAt := t + pwreset.TTL in
  _ ← Create userID digest expiresAt requestIP;
  _ ← try (E' := err) (PurgeOlderThan retention);
  mret (plain, expiresAt).
Definition GetByHash (tokenHash : string) : MW (option PasswordResetToken) :=
  query (fun d => res_value (get_row (fun tok => seqb (T_TokenHash tok) tokenHash)
                               (password_reset_tokens d))).
Definition CountRecentForUser (userID : Z) (window : Duration) : MW Z :=
  t ← now;
  query (fun d => count_where (fun tok => (T_UserID tok =? userID) && (t - window <? T_CreatedAt tok))
                    (password_reset_tokens d)).
Definition consumable (tokenHash : string) (t : Time) (tok : PasswordResetToken) : bool :=
  seqb (T_TokenHash tok) tokenHash && negb (is_some (T_ConsumedAt tok))
  && negb (is_some (T_InvalidatedAt tok)) && (t <? T_ExpiresAt tok).
Definition consume (t : Time) (ip : string) (tok : PasswordResetToken) : PasswordResetToken :=
  mkResetToken (T_ID tok) (T_UserID tok) (T_TokenHash tok) (T_ExpiresAt tok) (Some t)
    (T_InvalidatedAt tok) (T_RequestIP tok) (nullIfEmpty ip) (T_CreatedAt tok).
(** The conditional [UPDATE .. RETURNING user_id], the password, the other
    tokens and the remembered sessions, in one transaction.  An address beyond
    its column fails the [UPDATE] of the row that is found. *)
Definition ConsumeAndSetPassword (tokenHash newPasswordHash ip : string) : MW Z :=
  transaction (fun t =>
    r ← query_text ip (fun d => get_row (consumable tokenHash t) (password_reset_tokens d));
    tok ← lift (match r with Ok tok => Ok tok | Fail _ => Fail ErrTokenNotConsumable end);
    _ ← guard_err (negb (varchar 64 ip)) ErrDB;
    let userID := T_UserID tok in
    _ ← modify (on_db (on_password_reset_tokens (update_where (consumable tokenHash t) (consume t ip))));
    _ ← UserStore.put_user userID (set_PasswordHash newPasswordHash);
    _ ← exec (invalidate_all userID t);
    _ ← exec (UserStore.revoke_all userID t);
    mret userID).
End PasswordResetStore.

(** ** remember_session_store.go *)
Module RememberSessionStore.
(** [ORDER BY created_at DESC, id DESC] *)
Definition newest_first (a b : RememberSession) : Prop :=
  RS_CreatedAt b < RS_CreatedAt a \/ (RS_CreatedAt b = RS_CreatedAt a /\ RS_ID b <= RS_ID a).
Global Instance newest_first_dec a b : Decision (newest_first a b).
Proof. unfold newest_first. apply _. Defined.
Global Instance newest_first_total : Total newest_first.
Proof. intros a b. unfold newest_first. lia. Qed.
Global Instance newest_first_trans : Transitive newest_first.
Proof. intros a b c. unfold newest_first. lia. Qed.
Definition active (userID : Z) (t : Time) (s : RememberSession) : bool :=
  (RS_UserID s =? userID) && negb (is_some (RS_RevokedAt s)) && (t <? RS_ExpiresAt s).
(** The active sessions beyond the newest ten. *)
Definition overflow (userID : Z) (t : Time) (rows : list RememberSession) : list RememberSession :=
  drop remember.MaxSessionsPerUser (merge_sort newest_first (select (active userID t) rows)).
Definition cap_sessions (userID : Z) (t : Time) (rows : list RememberSession) : list RememberSession :=
  update_where (fun s => bool_decide (RS_ID s ∈ map RS_ID (overflow userID t rows)))
    (UserStore.revoke_session t) rows.
(** The lengths of the columns. *)
Definition session_columns_fit (s : RememberSession) : bool :=
  varchar 64 (RS_TokenHash s) && varchar 255 (default "" (RS_UserAgent s)).
Definition Create (userID : Z) (tokenHash : string) (expiresAt : Time) (userAgent : string)
    (t : Time) : MW unit :=
  transaction (fun tx =>
    _ ← stmt;
    id ← nextval "remember_sessions";
    ok ← gets (fun w => existsb (is_user userID) (users (db w)) &&
           negb (existsb (fun x => seqb (RS_TokenHash x) tokenHash) (remember_sessions (db w))));
    let row := mkRemember id userID tokenHash tx expiresAt None None (nullIfEmpty userAgent) in
    _ ← guard_err (negb (ok && session_columns_fit row)) ErrDB;
    _ ← modify (on_db (on_remember_sessions (fun rows => rows ++ [row])));
    exec (on_remember_sessions (cap_sessions userID t))).
Definition GetByHash (tokenHash : string) : MW (option RememberSession) :=
  query (fun d => res_value (get_row (fun s => seqb (RS_TokenHash s) tokenHash) (remember_sessions d))).
Definition touch_session (t : Time) (s : RememberSession) : RememberSession :=
  mkRemember (RS_ID s) (RS_UserID s) (RS_TokenHash s) (RS_CreatedAt s) (RS_ExpiresAt s)
    (Some t) (RS_RevokedAt s) (RS_UserAgent s).
Definition Touch (id : Z) (t : Time) : MW unit :=
  exec (on_remember_sessions (update_where (fun s => RS_ID s =? id) (touch_session t))).
Definition RevokeByHash (tokenHash : string) (t : Time) : MW unit :=
  exec (on_remember_sessions (update_where
    (fun s => seqb (RS_TokenHash s) tokenHash && negb (is_some (RS_RevokedAt s)))
    (UserStore.revoke_session t))).
End RememberSessionStore.

(** ** The evolution of tokens and sessions *)
Definition keeps_some {A} (o o' : option A) : Prop := is_Some o -> is_Some o'.
Definition token_le (a b : PasswordResetToken) : Prop :=
  T_ID b = T_ID a /\ T_UserID b = T_UserID a /\ T_TokenHash b = T_TokenHash a /\
  T_ExpiresAt b = T_ExpiresAt a /\ T_CreatedAt b = T_CreatedAt a /\
  keeps_some (T_ConsumedAt a) (T_ConsumedAt b) /\ keeps_some (T_InvalidatedAt a) (T_InvalidatedAt b).
Definition session_le (a b : RememberSession) : Prop :=
  RS_ID b = RS_ID a /\ RS_UserID b = RS_UserID a /\ RS_TokenHash b = RS_TokenHash a /\
  RS_CreatedAt b = RS_CreatedAt a /\ RS_ExpiresAt b = RS_ExpiresAt a /\
  keeps_some (RS_RevokedAt a) (RS_RevokedAt b).
#[export] Instance token_le_refl : Reflexive token_le.
Proof. intros a. unfold token_le, keeps_some. by split_and!. Qed.
#[export] Instance token_le_trans : Transitive token_le.
Proof.
  unfold token_le, keeps_some. intros a b c (?&?&?&?&?&?&?) (?&?&?&?&?&?&?).
  split_and!; try congruence; auto.
Qed.
#[export] Instance session_le_refl : Reflexive session_le.
Proof. intros a. unfold session_le, keeps_some. by split_and!. Qed.
#[export] Instance session_le_trans : Transitive session_le.
Proof.
  unfold session_le, keeps_some. intros a b c (?&?&?&?&?&?) (?&?&?&?&?&?).
  split_and!; try congruence; auto.
Qed.
(** Every later row with the digest [h] descends from an earlier row. *)
Definition descends {R} (hash : R -> string) (le : R -> R -> Prop) (h : string) (rows rows' : list R) : Prop :=
  forall r', r' ∈ rows' -> hash r' = h -> exists r, r ∈ rows /\ le r r'.
Lemma descends_update {R} hash (le : R -> R -> Prop) h rows p f :
  Reflexive le -> (forall r, le r (f r)) -> descends hash le h rows (update_where p f rows).
Proof.
  intros Hr Hf r' (r & Hin & ->)%elem_of_update_where _. exists r. split; [done|]. by destruct (p r).
Qed.
Lemma descends_trans {R} hash (le : R -> R -> Prop) h r1 r2 r3 :
  Transitive le -> (forall a b, le a b -> hash b = hash a) ->
  descends hash le h r1 r2 -> descends hash le h r2 r3 -> descends hash le h r1 r3.
Proof.
  intros Ht Hh H12 H23 r' Hr' Hhash. destruct (H23 r' Hr' Hhash) as (r & Hr & Hle).
  destruct (H12 r Hr) as (r0 & Hr0 & Hle0); [by rewrite <-(Hh _ _ Hle)|].
  exists r0. split; [done|]. by etrans.
Qed.
Lemma descends_delete {R} hash (le : R -> R -> Prop) h rows p :
  Reflexive le -> descends hash le h rows (delete_where p rows).
Proof.
  intros Hr r' Hin _. exists r'. split; [|done]. unfold delete_where in Hin.
  rewrite list_elem_of_In, filter_In, <-list_elem_of_In in Hin. tauto.
Qed.
Lemma descends_insert {R} hash (le : R -> R -> Prop) h rows r :
  Reflexive le -> hash r <> h -> descends hash le h rows (rows ++ [r]).
Proof.
  intros Hr Hne r' [Hin|Hin]%elem_of_app Hh; [by exists r'|].
  apply list_elem_of_singleton in Hin as ->. done.
Qed.
Lemma token_le_invalidate t a : token_le a (PasswordResetStore.invalidate t a).
Proof. unfold token_le, keeps_some. split_and!; try done; by eexists. Qed.
Lemma token_le_consume t ip a : token_le a (PasswordResetStore.consume t ip a).
Proof. unfold token_le, keeps_some. split_and!; try done; by eexists. Qed.
Lemma session_le_revoke t a : session_le a (UserStore.revoke_session t a).
Proof. unfold session_le, keeps_some. split_and!; try done; by eexists. Qed.
Lemma session_le_touch t a : session_le a (RememberSessionStore.touch_session t a).
Proof. unfold session_le, keeps_some. by split_and!. Qed.

(** What every call keeps of the rows whose digest is [h]. *)
Section evolution.
Context (h : string) (toks : list PasswordResetToken) (sess : list RememberSession).
Definition evolved (d : DB) : Prop :=
  descends T_TokenHash token_le h toks (password_reset_tokens d) /\
  descends RS_TokenHash session_le h sess (remember_sessions d).

Lemma evolved_users f d : evolved d -> evolved (on_users f d).
Proof. done. Qed.
Lemma evolved_reports f d : evolved d -> evolved (on_support_reports f d).
Proof. done. Qed.
Lemma evolved_tokens f d :
  (forall rows, descends T_TokenHash token_le h rows (f rows)) ->
  evolved d -> evolved (on_password_reset_tokens f d).
Proof.
  intros Hf [H1 H2]. split; [|done]. eapply descends_trans; [apply _| |exact H1|apply Hf].
  by intros a b (_ & _ & ? & _).
Qed.
Lemma evolved_sessions f d :
  (forall rows, descends RS_TokenHash session_le h rows (f rows)) ->
  evolved d -> evolved (on_remember_sessions f d).
Proof.
  intros Hf [H1 H2]. split; [done|]. eapply descends_trans; [apply _| |exact H2|apply Hf].
  by intros a b (_ & _ & ? & _).
Qed.
Lemma evolved_invalidate_all u t d : evolved d -> evolved (PasswordResetStore.invalidate_all u t d).
Proof. apply evolved_tokens. intros rows. apply descends_update; [apply _|]. apply token_le_invalidate. Qed.
Lemma evolved_consume h' t ip d : evolved d ->
  evolved (on_password_reset_tokens (update_where (PasswordResetStore.consumable h' t)
    (PasswordResetStore.consume t ip)) d).
Proof. apply evolved_tokens. intros rows. apply descends_update; [apply _|]. apply token_le_consume. Qed.
Lemma evolved_revoke_all u t d : evolved d -> evolved (UserStore.revoke_all u t d).
Proof. apply evolved_sessions. intros rows. apply descends_update; [apply _|]. apply session_le_revoke. Qed.
Lemma evolved_delete_user u d : evolved d -> evolved (UserStore.delete_user u d).
Proof.
  intros Hd. unfold UserStore.delete_user. apply evolved_reports, evolved_sessions, evolved_tokens.
  - intros rows. apply descends_delete. apply _.
  - intros rows. apply descends_delete. apply _.
  - by apply evolved_users.
Qed.
Lemma evolved_new_token r d : T_TokenHash r <> h -> evolved d ->
  evolved (on_password_reset_tokens (fun rows => rows ++ [r]) d).
Proof. intros Hr. apply evolved_tokens. intros rows. apply descends_insert; [apply _|done]. Qed.
Lemma evolved_new_session r d : RS_TokenHash r <> h -> evolved d ->
  evolved (on_remember_sessions (fun rows => rows ++ [r]) d).
Proof. intros Hr. apply evolved_sessions. intros rows. apply descends_insert; [apply _|done]. Qed.
Lemma evolved_session_update p f d : (forall s, session_le s (f s)) -> evolved d ->
  evolved (on_remember_sessions (update_where p f) d).
Proof. intros Hf. apply evolved_sessions. intros rows. apply descends_update; [apply _|done]. Qed.
Lemma evolved_purge p d : evolved d -> evolved (on_password_reset_tokens (delete_where p) d).
Proof. apply evolved_tokens. intros rows. apply descends_delete. apply _. Qed.
End evolution.
Create HintDb evolved.
#[export] Hint Resolve evolved_users evolved_invalidate_all evolved_consume evolved_revoke_all
  evolved_delete_user evolved_new_token evolved_new_session evolved_session_update evolved_purge
  session_le_revoke session_le_touch : evolved.

(** One call of the account stores, with any arguments and any fault plan, that
    does not mint the digest [h] again (tokens are random). *)
Inductive account_step (h : string) : World -> World -> Prop :=
  | as_create_user u w : account_step h w (UserStore.CreateUser u w).2
  | as_update_user i f l p w : account_step h w (UserStore.UpdateUser i f l p w).2
  | as_update_hash i p w : account_step h w (UserStore.UpdatePasswordHash i p w).2
  | as_temp i p e b w : account_step h w (UserStore.SetTemporaryPassword i p e b w).2
  | as_clear i p w : account_step h w (UserStore.ClearPasswordChangeRequired i p w).2
  | as_delete i w : account_step h w (UserStore.DeleteUser i w).2
  | as_login i w : account_step h w (UserStore.UpdateLastLogin i w).2
  | as_forbid i w : account_step h w (UserStore.ForbidUser i w).2
  | as_unforbid i w : account_step h w (UserStore.UnforbidUser i w).2
  | as_links i m g a w : account_step h w (UserStore.UpdateUserLinks i m g a w).2
  | as_role i r w : account_step h w (UserStore.UpdateUserRole i r w).2
  | as_issue i ip w :
      pwreset.Hash (RawURLEncoding (take 32 (entropy w))) <> h ->
      account_step h w (PasswordResetStore.Issue i ip w).2
  | as_consume h' p ip w : account_step h w (PasswordResetStore.ConsumeAndSetPassword h' p ip w).2
  | as_invalidate i w : account_step h w (PasswordResetStore.InvalidateForUser i w).2
  | as_purge age w : account_step h w (PasswordResetStore.PurgeOlderThan age w).2
  | as_remember i h' e ua t w : h' <> h -> account_step h w (RememberSessionStore.Create i h' e ua t w).2
  | as_touch i t w : account_step h w (RememberSessionStore.Touch i t w).2
  | as_revoke h' t w : account_step h w (RememberSessionStore.RevokeByHash h' t w).2.

Lemma evolved_user_update h toks sess t0 f :
  preserves (since t0 (evolved h toks sess)) (exec (on_users f)).
Proof. since_tac; eauto with evolved. Qed.
Lemma evolved_put_user h toks sess t0 i f : preserves (since t0 (evolved h toks sess)) (UserStore.put_user i f).
Proof. apply since_put_user. eauto with evolved. Qed.
#[local] Hint Resolve evolved_put_user : preserves.
Lemma evolved_write_credential h toks sess t0 i f :
  preserves (since t0 (evolved h toks sess)) (UserStore.writeCredential i f).
Proof. unfold UserStore.writeCredential. since_tac; eauto with evolved. Qed.
Lemma evolved_step h toks sess t0 w w' :
  account_step h w w' -> since t0 (evolved h toks sess) w -> since t0 (evolved h toks sess) w'.
Proof.
  intros Hs Hw. destruct Hs;
    lazymatch goal with
    | |- since _ _ (PasswordResetStore.Issue _ _ _).2 => idtac
    | |- since _ _ (?m ?w).2 =>
        enough (preserves (since t0 (evolved h toks sess)) m) as Hp by by apply Hp
    end.
  - unfold UserStore.CreateUser. since_tac; eauto with evolved.
  - unfold UserStore.UpdateUser. destruct (negb _);
      [apply evolved_write_credential|apply evolved_put_user].
  - apply evolved_write_credential.
  - apply evolved_write_credential.
  - apply evolved_write_credential.
  - unfold UserStore.DeleteUser. since_tac. eauto with evolved.
  - unfold UserStore.UpdateLastLogin. since_tac; eauto with evolved.
  - unfold UserStore.ForbidUser. since_tac; eauto with evolved.
  - apply evolved_user_update.
  - apply evolved_put_user.
  - apply evolved_put_user.
  - unfold PasswordResetStore.Issue. rewrite M_bind_run.
    destruct (pwreset.Generate w) as [[[plain digest]|e] w1] eqn:Eg.
    + assert (digest <> h /\ since t0 (evolved h toks sess) w1) as [Hd Hw1].
      { unfold pwreset.Generate in Eg. apply M_bind_Ok in Eg as (b & w0 & Er & Eg).
        unfold map_err in Er. destruct (rand_read _ w) as [[b0|] w0'] eqn:Err; [|done].
        injection Er as <- <-. apply rand_read_Ok in Err as (-> & _ & ->).
        injection Eg as <- <- <-. done. }
      enough (preserves (since t0 (evolved h toks sess))
        (_ ← PasswordResetStore.InvalidateForUser i; t ← now;
         _ ← PasswordResetStore.Create i digest (t + pwreset.TTL) ip;
         _ ← try (E' := err) (PasswordResetStore.PurgeOlderThan PasswordResetStore.retention);
         mret (plain, t + pwreset.TTL))) as Hp by by apply Hp.
      unfold PasswordResetStore.InvalidateForUser, PasswordResetStore.Create,
        PasswordResetStore.PurgeOlderThan.
      since_tac; eauto with evolved.
    + assert (since t0 (evolved h toks sess) w1) as Hw1; [|exact Hw1].
      assert (preserves (since t0 (evolved h toks sess)) pwreset.Generate) as Hp.
      { unfold pwreset.Generate. since_tac. }
      specialize (Hp w Hw). by rewrite Eg in Hp.
  - unfold PasswordResetStore.ConsumeAndSetPassword. since_tac; eauto with evolved.
  - unfold PasswordResetStore.InvalidateForUser. since_tac. eauto with evolved.
  - unfold PasswordResetStore.PurgeOlderThan. since_tac. eauto with evolved.
  - unfold RememberSessionStore.Create. since_tac; eauto with evolved.
  - unfold RememberSessionStore.Touch. since_tac. eauto with evolved.
  - unfold RememberSessionStore.RevokeByHash. since_tac. eauto with evolved.
Qed.
Lemma evolved_steps h w w' : rtc (account_step h) w w' ->
  clock w <= clock w' /\
  evolved h (password_reset_tokens (db w)) (remember_sessions (db w)) (db w').
Proof.
  intros Hr. enough (since (clock w) (evolved h (password_reset_tokens (db w)) (remember_sessions (db w))) w')
    as Hs by done.
  assert (since (clock w) (evolved h (password_reset_tokens (db w)) (remember_sessions (db w))) w) as H0.
  { split; [lia|]. split; intros r Hr' _; by exists r. }
  revert H0. generalize (clock w), (password_reset_tokens (db w)), (remember_sessions (db w)).
  intros c tk ss H0. induction Hr as [w|w w1 w2 Hst Hr IH]; [done|].
  apply IH. by eapply evolved_step.
Qed.

(** ** Theorems *)
Definition dead (t : Time) (tok : PasswordResetToken) : Prop :=
  is_Some (T_ConsumedAt tok) \/ is_Some (T_InvalidatedAt tok) \/ T_ExpiresAt tok <= t.
Lemma dead_not_consumable h t t' tok : t <= t' -> dead t tok -> PasswordResetStore.consumable h t' tok = false.
Proof.
  unfold dead, PasswordResetStore.consumable. intros Hle [H|[H|H] ].
  - destruct (T_ConsumedAt tok); [|by destruct H]. simpl. by rewrite andb_false_r.
  - destruct (T_InvalidatedAt tok); [|by destruct H]. simpl. by rewrite andb_false_r.
  - apply andb_false_iff. right. lia.
Qed.
Lemma dead_token_le t a b : token_le a b -> dead t a -> dead t b.
Proof.
  intros (_ & _ & _ & He & _ & Hc & Hi) [H|[H|H] ]; [left; by apply Hc|right; left; by apply Hi|].
  right; right. lia.
Qed.
Lemma not_consumable_dead h t tok : T_TokenHash tok = h ->
  PasswordResetStore.consumable h t tok = false -> dead t tok.
Proof.
  unfold PasswordResetStore.consumable, dead. intros ->. rewrite seqb_refl.
  destruct (T_ConsumedAt tok); [intros _; left; by eexists|].
  destruct (T_InvalidatedAt tok); [intros _; right; left; by eexists|]. simpl.
  intros H. right; right. lia.
Qed.

(** What a completed reset does to the tables. *)
Lemma consume_run h p ip w uid w' :
  PasswordResetStore.ConsumeAndSetPassword h p ip w = (Ok uid, w') ->
  exists t tok, clock w <= t /\ t <= clock w' /\
    tok ∈ password_reset_tokens (db w) /\ T_UserID tok = uid /\
    PasswordResetStore.consumable h t tok = true /\
    db w' = UserStore.revoke_all uid t (PasswordResetStore.invalidate_all uid t
      (on_users (update_where (is_user uid) (set_PasswordHash p))
        (on_password_reset_tokens (update_where (PasswordResetStore.consumable h t)
           (PasswordResetStore.consume t ip)) (db w)))).
Proof.
  unfold PasswordResetStore.ConsumeAndSetPassword. intros H.
  apply transaction_Ok_inv in H as (t & w0 & w1 & (Hd0 & Ht & Hc0) & H & Hd1 & Hc1).
  assert (t <= clock w1) as Hle.
  { match type of H with ?m w0 = _ => assert (preserves (since t (fun _ => True)) m) as Hp by (since_tac; done) end.
    assert (since t (fun _ => True) w0) as Hs by (split; [lia|done]).
    specialize (Hp w0 Hs). rewrite H in Hp. apply Hp. }
  account_run. subst x. destruct (get_row _ _) as [tok|e] eqn:Eg in *; [|done].
  assert (x1 = tok) as -> by congruence. apply get_row_Ok in Eg as [Hin Hcons].
  exists t, tok. rewrite Hd0 in Hin. subst. split_and!; try done; try lia.
  repeat match goal with E : db _ = _ |- _ => rewrite E; clear E end.
  cbn [db on_db]. repeat match goal with E : db _ = _ |- _ => rewrite E; clear E end. done.
Qed.
(** The row of the owner fits its columns, or the password could not be set. *)
Lemma consume_fits h p ip w uid w' u : PasswordResetStore.ConsumeAndSetPassword h p ip w = (Ok uid, w') ->
  u ∈ users (db w) -> U_ID u = uid -> text_ok (U_Email u) = true.
Proof.
  unfold PasswordResetStore.ConsumeAndSetPassword. intros H Hu Hid.
  apply transaction_Ok_inv in H as (t & w0 & w1 & (Hd0 & _ & _) & H & _). mrun.
  match goal with H : UserStore.put_user _ _ _ = _ |- _ => refine (put_user_fits _ _ _ _ _ u H _ _ _) end; [|congruence|reflexivity].
  subst. cbn [db on_db]. repeat match goal with E : db _ = _ |- _ => rewrite E; clear E end. cbn [users on_password_reset_tokens].
  congruence.
Qed.
Lemma consume_clears h p ip w uid w' :
  PasswordResetStore.ConsumeAndSetPassword h p ip w = (Ok uid, w') ->
  exists t, t <= clock w' /\
    (forall tok, tok ∈ password_reset_tokens (db w') -> T_TokenHash tok = h -> dead t tok) /\
    (forall tok, tok ∈ password_reset_tokens (db w') -> T_UserID tok = uid ->
       is_Some (T_ConsumedAt tok) \/ is_Some (T_InvalidatedAt tok)) /\
    (forall s, s ∈ remember_sessions (db w') -> RS_UserID s = uid -> is_Some (RS_RevokedAt s)).
Proof.
  intros (t & tok0 & Hct & Htc & Hin0 & Hu0 & Hc0 & Hd)%consume_run. exists t. split; [done|]. rewrite Hd.
  split_and!.
  - intros tok (tok1 & (tok2 & Hin & ->)%elem_of_update_where & ->)%elem_of_update_where Hh.
    destruct (PasswordResetStore.consumable h t tok2) eqn:Ec.
    + apply (dead_token_le t (PasswordResetStore.consume t ip tok2)).
      * destruct (PasswordResetStore.outstanding _ _); [apply token_le_invalidate|done].
      * left. by eexists.
    + apply (dead_token_le t tok2).
      * destruct (PasswordResetStore.outstanding _ _); [apply token_le_invalidate|done].
      * apply (not_consumable_dead h); [|done]. by destruct (PasswordResetStore.outstanding _ _).
  - intros tok (tok1 & Hin & ->)%elem_of_update_where Hu.
    destruct (PasswordResetStore.outstanding uid tok1) eqn:Eo; [right; by eexists|].
    unfold PasswordResetStore.outstanding in Eo. rewrite Hu, Z.eqb_refl in Eo. simpl in Eo.
    destruct (T_ConsumedAt tok1); [left; by eexists|]. destruct (T_InvalidatedAt tok1); [right; by eexists|].
    done.
  - intros s (s1 & Hin & ->)%elem_of_update_where Hu.
    destruct ((RS_UserID s1 =? uid) && negb (is_some (RS_RevokedAt s1))) eqn:E; [by eexists|].
    rewrite Hu, Z.eqb_refl in E. simpl in E. destruct (RS_RevokedAt s1); [by eexists|done].
Qed.

(** C32. A reset link works once: after a token has set a password, and
    whatever sequence of account calls follows (issues, other resets, purges,
    deletions), with whatever statements failing, no later use of the token
    succeeds, and such a use changes nothing. *)
Theorem reset_token_single_use (h p p' ip ip' : string) (w w1 w2 : World) (uid : Z) :
  PasswordResetStore.ConsumeAndSetPassword h p ip w = (Ok uid, w1) ->
  rtc (account_step h) w1 w2 ->
  exists e w3, PasswordResetStore.ConsumeAndSetPassword h p' ip' w2 = (Fail e, w3) /\ db w3 = db w2.
Proof.
  intros (t & Ht & Hdead & _)%consume_clears Hr.
  apply evolved_steps in Hr as (Hclk & Hev & _).
  destruct (PasswordResetStore.ConsumeAndSetPassword h p' ip' w2) as [[uid'|e] w3] eqn:E.
  - exfalso. apply consume_run in E as (t' & tok & Ht' & _ & Hin & _ & Hc & _).
    assert (T_TokenHash tok = h) as Hh.
    { unfold PasswordResetStore.consumable in Hc. rewrite !andb_true_iff in Hc.
      by destruct Hc as [[[Hc%seqb_spec _] _] _]. }
    destruct (Hev tok Hin Hh) as (tok0 & Hin0 & Hle).
    assert (dead t tok) as Hd.
    { apply (dead_token_le _ tok0); [done|]. apply Hdead; [done|].
      destruct Hle as (_ & _ & <- & _). done. }
    rewrite (dead_not_consumable h t t') in Hc; [done|lia|done].
  - exists e, w3. split; [done|]. by eapply transaction_rollback.
Qed.
Definition reset_demo : World :=
  on_db (fun d => on_users (fun _ => [mkUser 7 "a@b.c" "old" "user" "" "" "email" "" 0 0 None None None None
                                        (Some 1) (Some 2) (Some 7)])
    (on_password_reset_tokens (fun _ => [mkResetToken 1 7 "h" 50 None None None None 0]) d))
    (empty_world 10 []).
Lemma reset_token_single_use_witness :
  exists e w3, PasswordResetStore.ConsumeAndSetPassword "h" "again" ""
    (PasswordResetStore.ConsumeAndSetPassword "h" "new" "" reset_demo).2 = (Fail e, w3) /\
    db w3 = db (PasswordResetStore.ConsumeAndSetPassword "h" "new" "" reset_demo).2.
Proof.
  eapply (reset_token_single_use "h" "new" "again" "" "" reset_demo); [vm_compute; reflexivity|apply rtc_refl].
Defined.

(** A password reset is all or nothing: on success exactly the password of
    the owner of a usable token is replaced, every other token of that account
    is spent and every remembered session of it is revoked; on any error the
    tables are unchanged.  The forced-change marks of an earlier temporary
    password are left as they were. *)
Lemma reset_consume_atomic (h p ip : string) (w w' : World) (r : res err Z) :
  PasswordResetStore.ConsumeAndSetPassword h p ip w = (r, w') ->
  match r with
  | Fail _ => db w' = db w
  | Ok uid =>
      users (db w') = update_where (is_user uid) (set_PasswordHash p) (users (db w)) /\
      (exists tok t, tok ∈ password_reset_tokens (db w) /\ T_UserID tok = uid /\ T_TokenHash tok = h /\
         clock w <= t /\ TokenUsable (Some tok) t = true) /\
      (forall tok t, tok ∈ password_reset_tokens (db w') -> T_UserID tok = uid ->
         TokenUsable (Some tok) t = false) /\
      (forall s t, s ∈ remember_sessions (db w') -> RS_UserID s = uid -> RememberUsable (Some s) t = false) /\
      (forall u, u ∈ users (db w) -> U_ID u = uid -> exists u', u' ∈ users (db w') /\
         U_PasswordHash u' = p /\
         U_PasswordChangeRequiredAt u' = U_PasswordChangeRequiredAt u /\
         U_TempPasswordExpiresAt u' = U_TempPasswordExpiresAt u)
  end.
Proof.
  intros H. destruct r as [uid|e]; [|by eapply transaction_rollback].
  pose proof H as H'. apply consume_run in H as (t & tok & Ht & _ & Hin & Hu & Hc & Hd).
  apply consume_clears in H' as (t2 & _ & _ & Hspent & Hrev).
  assert (users (db w') = update_where (is_user uid) (set_PasswordHash p) (users (db w))) as HU by by rewrite Hd.
  split_and!; [done| | | |].
  - unfold PasswordResetStore.consumable in Hc. rewrite !andb_true_iff in Hc.
    destruct Hc as [[[Hh%seqb_spec H1] H2] H3]. exists tok, t. split_and!; [done..|].
    apply TokenUsable_spec. destruct (T_ConsumedAt tok), (T_InvalidatedAt tok); try done.
    split_and!; [done|done|lia].
  - intros tok' t' Hin' Hu'. apply not_true_iff_false. intros (H1 & H2 & _)%TokenUsable_spec.
    destruct (Hspent tok' Hin' Hu') as [Hx|Hx]; rewrite ?H1, ?H2 in Hx; by destruct Hx.
  - intros s t' Hs Hsu. apply not_true_iff_false. intros (H1 & _)%RememberUsable_spec.
    specialize (Hrev s Hs Hsu). rewrite H1 in Hrev. by destruct Hrev.
  - intros u Hin' Hid. exists (set_PasswordHash p u). split; [|done]. rewrite HU.
    apply elem_of_update_where. exists u. split; [done|]. unfold is_user. by rewrite Hid, Z.eqb_refl.
Qed.

(** Rows a change does not select are the same rows afterwards. *)
Lemma select_update_other {R} (q p : R -> bool) (f : R -> R) rows :
  (forall r, q (f r) = q r) -> (forall r, q r = true -> p r = false) ->
  select q (update_where p f rows) = select q rows.
Proof.
  intros Hf Hp. unfold select, update_where. induction rows as [|r rows IH]; [done|]. cbn [map List.filter].
  destruct (p r) eqn:E.
  - rewrite Hf. destruct (q r) eqn:Eq; [|done]. by rewrite Hp in E.
  - rewrite IH. done.
Qed.

(** The calls that replace a password. *)
Inductive CredentialWrite :=
  | ByUpdateUser (firstName lastName : string)
  | ByPasswordHash
  | ByTemporaryPassword (expiresAt : Time) (issuedBy : Z)
  | ByClearChangeRequired.
Definition run_credential (c : CredentialWrite) (userID : Z) (hash : string) : MW unit :=
  match c with
  | ByUpdateUser f l => UserStore.UpdateUser userID f l hash
  | ByPasswordHash => UserStore.UpdatePasswordHash userID hash
  | ByTemporaryPassword e b => UserStore.SetTemporaryPassword userID hash e b
  | ByClearChangeRequired => UserStore.ClearPasswordChangeRequired userID hash
  end.
Lemma write_credential_run userID f w w' : UserStore.writeCredential userID f w = (Ok tt, w') ->
  exists t, db w' = UserStore.revoke_all userID t (on_users (update_where (is_user userID) (f t)) (db w)).
Proof.
  unfold UserStore.writeCredential. intros H. account_run. eexists.
  repeat match goal with E : db _ = _ |- _ => rewrite E; clear E end. done.
Qed.
Lemma write_credential_fits userID f w v w' u : UserStore.writeCredential userID f w = (Ok v, w') ->
  u ∈ users (db w) -> U_ID u = userID -> (forall t, U_Email (f t u) = U_Email u) -> text_ok (U_Email u) = true.
Proof.
  unfold UserStore.writeCredential. intros H Hu Hid He.
  apply transaction_Ok_inv in H as (t & w0 & w1 & (Hd0 & _ & _) & H & _). mrun.
  match goal with H : UserStore.put_user _ _ _ = _ |- _ => refine (put_user_fits _ _ _ _ _ u H _ _ _) end; [congruence|done|apply He].
Qed.
Lemma credential_run c userID hash w w' : hash <> "" -> run_credential c userID hash w = (Ok tt, w') ->
  exists t f, (forall u, U_PasswordHash (f u) = hash /\ U_ID (f u) = U_ID u) /\
    db w' = UserStore.revoke_all userID t (on_users (update_where (is_user userID) f) (db w)).
Proof.
  intros Hne H. destruct c as [fn ln| |e b|]; simpl in H.
  - unfold UserStore.UpdateUser in H. destruct hash as [|c hash]; [done|]. cbn [is_empty negb] in H.
    apply write_credential_run in H as [t Hd]. eexists t, _. split; [|exact Hd]. done.
  - apply write_credential_run in H as [t Hd]. eexists t, _. split; [|exact Hd]. done.
  - apply write_credential_run in H as [t Hd]. eexists t, _. split; [|exact Hd]. done.
  - apply write_credential_run in H as [t Hd]. eexists t, _. split; [|exact Hd]. done.
Qed.
Lemma credential_transaction c userID hash w e w' : hash <> "" ->
  run_credential c userID hash w = (Fail e, w') -> db w' = db w.
Proof.
  intros Hne H. destruct c; simpl in H; try (by eapply transaction_rollback).
  unfold UserStore.UpdateUser in H. destruct hash; [done|]. cbn [is_empty negb] in H.
  by eapply transaction_rollback.
Qed.

(** C34. Every way of replacing a password ends the remembered sessions of the
    account in the same transaction: on success the password is the new one and
    no session of the account is usable any more, the rows of the other
    accounts being untouched; on any error nothing changed. *)
Theorem credential_write_ends_sessions (c : CredentialWrite) (userID : Z) (hash : string)
    (w w' : World) (r : res err unit) :
  hash <> "" -> run_credential c userID hash w = (r, w') ->
  match r with
  | Fail _ => db w' = db w
  | Ok _ =>
      (forall u, u ∈ users (db w') -> U_ID u = userID -> U_PasswordHash u = hash) /\
      (forall s t, s ∈ remember_sessions (db w') -> RS_UserID s = userID ->
         RememberUsable (Some s) t = false) /\
      select (fun u => negb (is_user userID u)) (users (db w')) =
        select (fun u => negb (is_user userID u)) (users (db w)) /\
      select (fun s => negb (RS_UserID s =? userID)) (remember_sessions (db w')) =
        select (fun s => negb (RS_UserID s =? userID)) (remember_sessions (db w))
  end.
Proof.
  intros Hne H. destruct r as [[]|e]; [|by eapply credential_transaction].
  apply credential_run in H as (t & f & Hf & Hd); [|done]. rewrite Hd. split_and!.
  - intros u (u0 & Hin & ->)%elem_of_update_where Hid. destruct (is_user userID u0) eqn:E.
    + apply Hf.
    + unfold is_user in E. lia.
  - intros s t' (s0 & Hin & ->)%elem_of_update_where Hid. apply not_true_iff_false.
    intros (Hn & _)%RememberUsable_spec.
    destruct ((RS_UserID s0 =? userID) && negb (is_some (RS_RevokedAt s0))) eqn:E; [done|].
    rewrite Hid, Z.eqb_refl, Hn in E. done.
  - apply select_update_other; intros u; unfold is_user; [by rewrite (proj2 (Hf u))|].
    by destruct (U_ID u =? userID).
  - apply select_update_other; intros s; simpl; [done|]. by destruct (RS_UserID s =? userID).
Qed.
Lemma credential_write_ends_sessions_witness :
  select (fun u => negb (is_user 7 u)) (users (db (UserStore.UpdatePasswordHash 7 "new" reset_demo).2)) =
  select (fun u => negb (is_user 7 u)) (users (db reset_demo)).
Proof.
  refine (proj1 (proj2 (proj2 (credential_write_ends_sessions ByPasswordHash 7 "new" reset_demo
    (UserStore.UpdatePasswordHash 7 "new" reset_demo).2 (Ok tt) _ _)))); [discriminate|].
  vm_compute. reflexivity.
Defined.

(** A remembered session never lives longer than when it was created, is
    never handed to another account and is never revived: across any sequence
    of account calls, a session usable later was usable with the same owner
    before, and its 30 days are not extended by using it. *)
Lemma remember_session_never_extended (h : string) (w w' : World) (s' : RememberSession) :
  rtc (account_step h) w w' -> s' ∈ remember_sessions (db w') -> RS_TokenHash s' = h ->
  exists s, s ∈ remember_sessions (db w) /\ RS_UserID s = RS_UserID s' /\
    RS_ExpiresAt s = RS_ExpiresAt s' /\
    forall t, RememberUsable (Some s') t = true -> RememberUsable (Some s) t = true.
Proof.
  intros (_ & _ & Hev)%evolved_steps Hin Hh. destruct (Hev s' Hin Hh) as (s & Hs & Hle).
  destruct Hle as (_ & Hu & _ & _ & He & Hr). exists s. split_and!; [done|done|done|].
  intros t. rewrite !RememberUsable_spec, He. intros [H1 H2]. split; [|done].
  destruct (RS_RevokedAt s); [|done]. destruct Hr as [x Hx]; [by eexists|]. congruence.
Qed.
Definition session_demo : World :=
  on_db (on_remember_sessions (fun _ => [mkRemember 1 7 "s" 0 100 None None None])) reset_demo.

Lemma cap_sessions_active userID t rows :
  NoDup (map RS_ID rows) ->
  Permutation (select (RememberSessionStore.active userID t) (RememberSessionStore.cap_sessions userID t rows))
    (take remember.MaxSessionsPerUser
       (merge_sort RememberSessionStore.newest_first (select (RememberSessionStore.active userID t) rows))).
Proof.
  intros Hnd. set (A := select (RememberSessionStore.active userID t) rows).
  set (O := merge_sort RememberSessionStore.newest_first A).
  assert (Permutation O A) as HO by apply merge_sort_Permutation.
  assert (select (RememberSessionStore.active userID t) (RememberSessionStore.cap_sessions userID t rows) =
    List.filter (fun s => negb (bool_decide (RS_ID s ∈ map RS_ID (drop remember.MaxSessionsPerUser O)))) A) as ->.
  { unfold RememberSessionStore.cap_sessions. change (RememberSessionStore.overflow userID t rows)
      with (drop remember.MaxSessionsPerUser O). unfold A, select, update_where.
    generalize (drop remember.MaxSessionsPerUser O). intros D. clear.
    induction rows as [|s rows IH]; [done|]. cbn [map List.filter].
    destruct (bool_decide (RS_ID s ∈ map RS_ID D)) eqn:E.
    - assert (RememberSessionStore.active userID t (UserStore.revoke_session t s) = false) as ->.
      { unfold RememberSessionStore.active. simpl. by rewrite andb_false_r. }
      destruct (RememberSessionStore.active userID t s); [|exact IH]. cbn [List.filter]. by rewrite E.
    - destruct (RememberSessionStore.active userID t s); [|exact IH]. cbn [List.filter].
      rewrite E. by f_equal. }
  rewrite <-(filter_key_take RS_ID remember.MaxSessionsPerUser O).
  - apply Permutation_filter_list. by rewrite HO.
  - rewrite HO. by apply NoDup_map_filter.
Qed.

Lemma cap_sessions_others userID t rows :
  NoDup (map RS_ID rows) ->
  select (fun s => negb (RS_UserID s =? userID)) (RememberSessionStore.cap_sessions userID t rows) =
  select (fun s => negb (RS_UserID s =? userID)) rows.
Proof.
  intros Hnd. unfold RememberSessionStore.cap_sessions, update_where, select.
  set (O := RememberSessionStore.overflow userID t rows).
  assert (forall s, s ∈ O -> s ∈ rows /\ RS_UserID s = userID) as HO.
  { intros s Hs. unfold O, RememberSessionStore.overflow in Hs. apply subseteq_drop in Hs.
    rewrite merge_sort_Permutation in Hs. apply elem_of_select in Hs as [Hin Ha]. split; [done|].
    unfold RememberSessionStore.active in Ha. lia. }
  assert (forall s, s ∈ rows -> negb (RS_UserID s =? userID) = true ->
    bool_decide (RS_ID s ∈ map RS_ID O) = false) as Hno.
  { intros s Hs Hu. apply bool_decide_eq_false_2. intros (s' & Hid & Hs')%list_elem_of_fmap.
    destruct (HO s' Hs') as [Hin Hu']. rewrite (NoDup_key_eq RS_ID rows s s') in Hu; [lia|done..]. }
  clearbody O. clear HO Hnd. induction rows as [|s rows IH]; [done|]. cbn [map List.filter].
  rewrite IH by (intros; apply Hno; [by right|done]).
  destruct (negb (RS_UserID s =? userID)) eqn:E.
  - rewrite Hno, E; [done|left|done].
  - destruct (bool_decide _); cbn [UserStore.revoke_session RS_UserID]; by rewrite E.
Qed.
Lemma create_session_run userID hash ua expiresAt t w w' :
  RememberSessionStore.Create userID hash expiresAt ua t w = (Ok tt, w') ->
  exists new, RS_ID new = (default 1 (sequences w !! "remember_sessions") : Z) /\ RS_UserID new = userID /\ RS_TokenHash new = hash /\ RS_ExpiresAt new = expiresAt /\
    remember_sessions (db w') = RememberSessionStore.cap_sessions userID t (remember_sessions (db w) ++ [new]).
Proof.
  intros H. apply transaction_Ok_seq in H as (tx & w0 & w1 & Hd & Hq & H & Hd1).
  apply M_bind_Ok in H as (u & w2 & Hs & H). apply M_bind_Ok in H as (id & w3 & Hn & H).
  assert (id = default 1 (sequences w !! "remember_sessions")) as ->.
  { revert Hs Hn. unfold stmt, nextval. rewrite <-Hq.
    destruct (faults w0) as [|[] ?]; intros [= _ <-] [= <- _]; done. }
  cbv zeta in H. eexists. repeat split; [..|mrun; subst].
  5: { repeat match goal with E : db _ = _ |- _ => rewrite E; clear E end. cbn [db on_db].
       repeat match goal with E : db _ = _ |- _ => rewrite E; clear E end. reflexivity. }
  all: done.
Qed.

(** At most ten remembered sessions per account: once a new session is
    stored, the account's active sessions are the newest ten (by creation, then
    id), the sessions of other accounts are untouched, and on any error nothing
    changed. *)
Lemma remember_cap (userID : Z) (hash ua : string) (expiresAt t : Time) (w w' : World)
    (r : res err unit) :
  NoDup (map RS_ID (remember_sessions (db w))) ->
  (forall s, s ∈ remember_sessions (db w) -> RS_ID s < default 1 (sequences w !! "remember_sessions")) ->
  RememberSessionStore.Create userID hash expiresAt ua t w = (r, w') ->
  match r with
  | Fail _ => db w' = db w
  | Ok _ =>
      exists new, RS_UserID new = userID /\ RS_TokenHash new = hash /\ RS_ExpiresAt new = expiresAt /\
        Permutation (select (RememberSessionStore.active userID t) (remember_sessions (db w')))
          (take 10 (merge_sort RememberSessionStore.newest_first
             (select (RememberSessionStore.active userID t) (remember_sessions (db w) ++ [new])))) /\
        (length (select (RememberSessionStore.active userID t) (remember_sessions (db w'))) <= 10)%nat /\
        select (fun s => negb (RS_UserID s =? userID)) (remember_sessions (db w')) =
        select (fun s => negb (RS_UserID s =? userID)) (remember_sessions (db w))
  end.
Proof.
  intros Hnd Hseq H. destruct r as [[]|e]; [|by eapply transaction_rollback].
  apply create_session_run in H as (new & Hid & Hu & Hh & He & Hr). exists new. rewrite Hr.
  assert (NoDup (map RS_ID (remember_sessions (db w) ++ [new]))) as Hnd'.
  { rewrite map_app. apply NoDup_app. split_and!; [done| |apply NoDup_singleton].
    intros x (s & -> & Hs)%list_elem_of_fmap Hx. apply list_elem_of_singleton in Hx.
    specialize (Hseq s Hs). lia. }
  pose proof (cap_sessions_active userID t _ Hnd') as Hp. split_and!; [done..| |].
  - apply Permutation_length in Hp. rewrite Hp, length_take. unfold remember.MaxSessionsPerUser. lia.
  - rewrite cap_sessions_others by done. unfold select. rewrite filter_app_list. cbn [List.filter].
    by rewrite Hu, Z.eqb_refl, app_nil_r.
Qed.
Definition cap_demo : World :=
  on_sequences (fun _ => {["remember_sessions" := 11]}) (on_db (on_remember_sessions (fun _ =>
    map (fun i => mkRemember (Z.of_nat i) 7 (Itoa (Z.of_nat i)) (Z.of_nat i) 100 None None None) (seq 1 10)))
    reset_demo).

(** What a completed [Issue] leaves in the table. *)
Lemma generate_run w plain digest w' : pwreset.Generate w = (Ok (plain, digest), w') ->
  digest = pwreset.Hash plain /\ db w' = db w /\ clock w' = clock w.
Proof.
  unfold pwreset.Generate. intros H. apply M_bind_Ok in H as (b & w0 & Er & [= <- <- <-]).
  unfold map_err in Er. destruct (rand_read _ w) as [[b0|] w0'] eqn:Err; [|done].
  injection Er as <- <-. by apply rand_read_Ok in Err as (-> & _ & ->).
Qed.
Lemma create_token_run userID h e ip w w' : PasswordResetStore.Create userID h e ip w = (Ok tt, w') ->
  exists tok, T_UserID tok = userID /\ T_TokenHash tok = h /\ T_ExpiresAt tok = e /\
    T_ConsumedAt tok = None /\ T_InvalidatedAt tok = None /\ clock w <= T_CreatedAt tok /\
    password_reset_tokens (db w') = password_reset_tokens (db w) ++ [tok].
Proof.
  unfold PasswordResetStore.Create. intros H. apply M_bind_Ok in H as (u & w1 & Hs & H).
  assert (clock w1 = clock w) as Hc by (by rewrite <-(stmt_clock w), Hs).
  apply M_bind_Ok in H as (id & w2 & Hn & H).
  assert (clock w2 = clock w) as Hc2 by (revert Hn; unfold nextval; by intros [= _ <-]).
  mrun. subst. eexists. split_and!.
  7: { cbn [db on_db on_password_reset_tokens password_reset_tokens].
       repeat match goal with E : db _ = _ |- _ => rewrite E; clear E end. reflexivity. }
  all: simpl; try done; lia.
Qed.
Lemma purge_survivor age w r w' tok : (try (E' := err) (PasswordResetStore.PurgeOlderThan age)) w = (Ok r, w') ->
  (tok ∈ password_reset_tokens (db w') -> tok ∈ password_reset_tokens (db w)) /\
  (tok ∈ password_reset_tokens (db w) -> clock w' - age <= T_CreatedAt tok ->
   tok ∈ password_reset_tokens (db w')).
Proof.
  unfold try. destruct (PasswordResetStore.PurgeOlderThan age w) as [r0 w0] eqn:E. intros [= _ <-].
  unfold PasswordResetStore.PurgeOlderThan in E. rewrite M_bind_run in E.
  destruct (now w) as [[t|e] w1] eqn:En; [|by destruct (@now_Ok err w) as (t & Ht & _); rewrite En in Ht].
  apply now_Ok_inv in En as (Hd & _ & Ht). unfold exec in E. rewrite M_bind_run in E.
  pose proof (stmt_db w1) as Hs. pose proof (stmt_clock w1) as Hc.
  destruct (stmt w1) as [[u|e] w2]; injection E as <- <-; simpl in Hs, Hc |- *; rewrite Hs, Hd, ?Hc, Ht; [|done].
  unfold delete_where. rewrite !list_elem_of_In, filter_In. split; [tauto|]. intros H1 H2. split; [done|]. lia.
Qed.
Lemma PurgeOlderThan_clock age w r w' : (try (E' := err) (PasswordResetStore.PurgeOlderThan age)) w = (Ok r, w') ->
  clock w <= clock w'.
Proof.
  intros H. assert (preserves (since (clock w) (fun _ => True)) (try (E' := err) (PasswordResetStore.PurgeOlderThan age)))
    as Hp by (unfold PasswordResetStore.PurgeOlderThan; since_tac; done).
  assert (since (clock w) (fun _ => True) w) as H0 by (split; [lia|done]).
  specialize (Hp w H0). rewrite H in Hp. apply Hp.
Qed.

(** A new reset link replaces the earlier ones: once a link is issued for
    an account, the only unspent tokens of that account are those with its
    digest and expiry, whatever was outstanding before; and until the link
    expires its row is there, usable for exactly the time announced. *)
Lemma reset_issue_supersedes (userID : Z) (ip plain : string) (expiresAt : Time) (w w' : World) :
  PasswordResetStore.Issue userID ip w = (Ok (plain, expiresAt), w') ->
  (forall tok, tok ∈ password_reset_tokens (db w') -> PasswordResetStore.outstanding userID tok = true ->
     T_TokenHash tok = pwreset.Hash plain /\ T_ExpiresAt tok = expiresAt) /\
  (clock w' < expiresAt -> exists tok, tok ∈ password_reset_tokens (db w') /\ T_UserID tok = userID /\
     T_TokenHash tok = pwreset.Hash plain /\
     forall t, TokenUsable (Some tok) t = (t <? expiresAt)).
Proof.
  unfold PasswordResetStore.Issue. intros H. apply M_bind_Ok in H as ([pl digest] & w1 & Hg & H).
  apply generate_run in Hg as (-> & Hd1 & Hc1).
  apply M_bind_Ok in H as (u & w2 & Hinv & H). apply M_bind_Ok in H as (t & w3 & Hn & H).
  apply M_bind_Ok in H as ([] & w4 & Hcr & H). apply M_bind_Ok in H as (r & w5 & Hp & [= -> <- <-]).
  apply create_token_run in Hcr as (new & Hu & Hh & He & Hco & Hi & Hcl & Hrows).
  apply now_Ok_inv in Hn as (Hd3 & _ & Hc3).
  assert (forall tok, tok ∈ password_reset_tokens (db w3) -> PasswordResetStore.outstanding userID tok = false) as Hno.
  { rewrite Hd3. unfold PasswordResetStore.InvalidateForUser in Hinv. mrun. subst w2.
    intros tok (tok0 & _ & ->)%elem_of_update_where.
    destruct (PasswordResetStore.outstanding userID tok0) eqn:E; [|done].
    unfold PasswordResetStore.outstanding. simpl. by rewrite andb_false_r. }
  split.
  - intros tok Hin Ho. apply (purge_survivor _ _ _ _ tok) in Hp as [Hp _]. apply Hp in Hin.
    rewrite Hrows in Hin. apply elem_of_app in Hin as [Hin|Hin%list_elem_of_singleton]; [|by subst].
    by rewrite Hno in Ho.
  - intros Hlt. exists new. split_and!; [|done|done|].
    + pose proof (PurgeOlderThan_clock _ _ _ _ Hp) as Hle.
      apply (purge_survivor _ _ _ _ new) in Hp as [_ Hp]. apply Hp.
      * rewrite Hrows. apply elem_of_app. right. by apply list_elem_of_singleton.
      * assert (pwreset.TTL <= PasswordResetStore.retention) by (by vm_compute). lia.
    + intros t'. apply eq_true_iff_eq. rewrite TokenUsable_spec, Hco, Hi, He. intuition lia.
Qed.
Definition issue_demo : World := on_entropy (fun _ => repeat "A"%char 32) reset_demo.
