(* ===== verification/AccountTables.v ===== *)
(** * The account tables stay well formed

    The tables of [AccountStore]: keys are unique and below their sequences,
    every row fits its columns, every token and every session belongs to an
    account.  Only [AccountStore] writes these tables. *)
From S2P Require Import Prelude GoStr Exchange Accounts Lights Mac World Crypto PortalStore AccountStore.
#[global] Open Scope Z_scope.

(** ** What a well-formed table is *)
(** The next number of the serial column of each table. *)
Definition nexts (w : World) (table : string) : Z := default 1 (sequences w !! table).
Definition serial (next : Z) (ids : list Z) : Prop := NoDup ids /\ forall i, i ∈ ids -> i < next.
Definition owned (d : DB) (userID : Z) : bool := existsb (is_user userID) (users d).
(** A token and a session: of an account that is there, within the columns. *)
Definition token_ok (d : DB) (t : PasswordResetToken) : Prop :=
  owned d (T_UserID t) = true /\ PasswordResetStore.token_columns_fit t = true.
Definition session_ok (d : DB) (s : RememberSession) : Prop :=
  owned d (RS_UserID s) = true /\ RememberSessionStore.session_columns_fit s = true.
Record accounts_ok (n : string -> Z) (d : DB) : Prop := mkOk {
  ok_user_ids : serial (n "users") (map U_ID (users d));
  ok_emails : NoDup (map U_Email (users d));
  ok_rows : forall u, u ∈ users d -> UserStore.row_ok d u = true;
  ok_token_ids : serial (n "password_reset_tokens") (map T_ID (password_reset_tokens d));
  ok_token_hashes : NoDup (map T_TokenHash (password_reset_tokens d));
  ok_tokens : forall t, t ∈ password_reset_tokens d -> token_ok d t;
  ok_session_ids : serial (n "remember_sessions") (map RS_ID (remember_sessions d));
  ok_session_hashes : NoDup (map RS_TokenHash (remember_sessions d));
  ok_sessions : forall s, s ∈ remember_sessions d -> session_ok d s }.
Definition well_formed (w : World) : Prop := accounts_ok (nexts w) (db w).

(** ** Changes of the tables *)
Lemma serial_mono n n' ids : n <= n' -> serial n ids -> serial n' ids.
Proof. intros Hle [H1 H2]. split; [done|]. intros i Hi%H2. lia. Qed.
Lemma ok_mono n n' d : (forall t, n t <= n' t) -> accounts_ok n d -> accounts_ok n' d.
Proof. intros Hle []. split; try done; (eapply serial_mono; [apply Hle|done]). Qed.
Lemma serial_snoc id ids : (forall i, i ∈ ids -> i < id) -> NoDup ids -> serial (id + 1) (ids ++ [id]).
Proof.
  intros Hlt Hn. split.
  - apply NoDup_app. split_and!; [done| |apply NoDup_singleton]. intros i Hi%Hlt ->%list_elem_of_singleton. lia.
  - intros i [Hi%Hlt| ->%list_elem_of_singleton]%elem_of_app; lia.
Qed.
Lemma serial_filter {R} (key : R -> Z) n p rows : serial n (map key rows) -> serial n (map key (List.filter p rows)).
Proof.
  intros [H1 H2]. split; [by apply NoDup_map_filter|]. intros i (r & -> & Hr)%list_elem_of_fmap. apply H2, list_elem_of_fmap_2.
  by apply list_elem_of_In, filter_In in Hr as [Hr%list_elem_of_In _].
Qed.
Lemma map_update_key {R A} (key : R -> A) p f (rows : list R) : (forall r, key (f r) = key r) -> map key (update_where p f rows) = map key rows.
Proof. intros Hf. unfold update_where. rewrite map_map. apply map_ext. intros r. by destruct (p r). Qed.
Lemma owned_update p f d userID : (forall u, U_ID (f u) = U_ID u) -> owned (on_users (update_where p f) d) userID = owned d userID.
Proof.
  intros Hf. unfold owned. cbn. generalize (users d). intros rows. unfold update_where. induction rows as [|u rows IH]; [done|].
  cbn [map existsb]. rewrite IH. f_equal. unfold is_user. by destruct (p u); rewrite ?Hf.
Qed.
Lemma row_ok_owners d d' u : (forall i, owned d' i = owned d i) -> UserStore.row_ok d' u = UserStore.row_ok d u.
Proof. intros H. unfold UserStore.row_ok. f_equal. destruct (U_TempPasswordIssuedBy u); [|done]. apply H. Qed.
(** An update of accounts that keeps their keys, and whose new rows fit. *)
Lemma ok_update n p f d : (forall u, U_ID (f u) = U_ID u /\ U_Email (f u) = U_Email u) ->
  (forall u, u ∈ users d -> p u = true -> UserStore.row_ok d (f u) = true) ->
  accounts_ok n d -> accounts_ok n (on_users (update_where p f) d).
Proof.
  intros Hf Hrow [H1 H2 H3 H4 H5 H6 H7 H8 H9].
  assert (forall i, owned (on_users (update_where p f) d) i = owned d i) as Ho by (intros i; apply owned_update; apply Hf).
  split; cbn [users password_reset_tokens remember_sessions on_users]; try done.
  - rewrite map_update_key; [done|]. apply Hf.
  - rewrite map_update_key; [done|]. apply Hf.
  - intros u (u0 & Hu & ->)%elem_of_update_where. rewrite (row_ok_owners d) by done. destruct (p u0) eqn:E; auto.
  - intros t Ht. unfold token_ok. rewrite Ho. by apply H6.
  - intros s Hs. unfold session_ok. rewrite Ho. by apply H9.
Qed.
Lemma ok_tokens_update n p f d :
  (forall t, T_ID (f t) = T_ID t /\ T_UserID (f t) = T_UserID t /\ T_TokenHash (f t) = T_TokenHash t) ->
  (forall t, PasswordResetStore.token_columns_fit t = true -> PasswordResetStore.token_columns_fit (f t) = true) ->
  accounts_ok n d -> accounts_ok n (on_password_reset_tokens (update_where p f) d).
Proof.
  intros Hf Hcol [H1 H2 H3 H4 H5 H6 H7 H8 H9].
  split; cbn [users password_reset_tokens remember_sessions on_password_reset_tokens]; try done.
  - rewrite map_update_key; [done|]. apply Hf.
  - rewrite map_update_key; [done|]. apply Hf.
  - intros t (t0 & Ht & ->)%elem_of_update_where. destruct (p t0); [|by apply H6].
    destruct (H6 t0 Ht) as [Ho Hc]. split; [|by apply Hcol]. by destruct (Hf t0) as (_ & -> & _).
Qed.
Lemma ok_sessions_update n p f d :
  (forall s, RS_ID (f s) = RS_ID s /\ RS_UserID (f s) = RS_UserID s /\ RS_TokenHash (f s) = RS_TokenHash s /\
     RS_UserAgent (f s) = RS_UserAgent s) ->
  accounts_ok n d -> accounts_ok n (on_remember_sessions (update_where p f) d).
Proof.
  intros Hf [H1 H2 H3 H4 H5 H6 H7 H8 H9].
  split; cbn [users password_reset_tokens remember_sessions on_remember_sessions]; try done.
  - rewrite map_update_key; [done|]. apply Hf.
  - rewrite map_update_key; [done|]. apply Hf.
  - intros t (t0 & Ht & ->)%elem_of_update_where. destruct (p t0); [|by apply H9]. destruct (H9 t0 Ht) as [Ho Hc]. destruct (Hf t0) as (_ & Hu & Hh & Ha).
    split; [by rewrite Hu|]. unfold RememberSessionStore.session_columns_fit. by rewrite Hh, Ha.
Qed.
Lemma elem_of_delete_where {R} (p : R -> bool) rows r : r ∈ delete_where p rows <-> r ∈ rows /\ p r = false.
Proof. unfold delete_where. rewrite !list_elem_of_In, filter_In, negb_true_iff. done. Qed.
Lemma ok_tokens_delete n p d : accounts_ok n d -> accounts_ok n (on_password_reset_tokens (delete_where p) d).
Proof.
  intros [H1 H2 H3 H4 H5 H6 H7 H8 H9].
  split; cbn [users password_reset_tokens remember_sessions on_password_reset_tokens]; try done.
  - by apply serial_filter.
  - by apply NoDup_map_filter.
  - intros t [Ht _]%elem_of_delete_where. by apply H6.
Qed.
(** The cascades leave no token and no session of the removed account, and no
    reference to it. *)
Lemma ok_delete_user n userID d : accounts_ok n d -> accounts_ok n (UserStore.delete_user userID d).
Proof.
  intros [H1 H2 H3 H4 H5 H6 H7 H8 H9].
  set (d' := UserStore.delete_user userID d).
  assert (forall i, owned d i = true -> i <> userID -> owned d' i = true) as Ho.
  { intros i (u & Hu & Hi)%existsb_elem Hne. unfold owned. change d' with (UserStore.delete_user userID d).
    unfold UserStore.delete_user. cbn. apply existsb_elem. unfold is_user in *.
    eexists. split; [apply elem_of_update_where; exists u; split; [apply elem_of_delete_where; split; [done|unfold is_user; lia]|reflexivity]|].
    by destruct (bool_decide _). }
  split; unfold d', UserStore.delete_user; cbn [users password_reset_tokens remember_sessions on_users on_password_reset_tokens on_remember_sessions on_support_reports].
  - rewrite map_update_key by done. by apply serial_filter.
  - rewrite map_update_key by done. by apply NoDup_map_filter.
  - intros u (u0 & [Hu Hne]%elem_of_delete_where & ->)%elem_of_update_where. fold d'. specialize (H3 u0 Hu).
    unfold UserStore.row_ok in *. apply andb_true_iff in H3 as [Hf Hi]. apply andb_true_iff.
    destruct (bool_decide _) eqn:E; [done|]. split; [done|]. apply bool_decide_eq_false in E.
    destruct (U_TempPasswordIssuedBy u0) as [i|]; [|done]. apply Ho; [done|]. intros ->. done.
  - by apply serial_filter.
  - by apply NoDup_map_filter.
  - intros t [Ht Hne]%elem_of_delete_where. fold d'. destruct (H6 t Ht) as [Hu Hc]. split; [|done]. apply Ho; [done|lia].
  - by apply serial_filter.
  - by apply NoDup_map_filter.
  - intros t [Ht Hne]%elem_of_delete_where. fold d'. destruct (H9 t Ht) as [Hu Hc]. split; [|done]. apply Ho; [done|lia].
Qed.
(** New rows: [id] is the number their sequence gave, below its next one. *)
Definition below (id : Z) (ids : list Z) : Prop := forall i, i ∈ ids -> i < id.
Lemma serial_new id n ids : below id ids -> id < n -> serial n ids -> serial n (ids ++ [id]).
Proof. intros Hlt Hn [H1 H2]. apply (serial_mono (id + 1)); [lia|]. by apply serial_snoc. Qed.
Lemma NoDup_new {R} (key : R -> string) rows r : existsb (fun x => seqb (key x) (key r)) rows = false ->
  NoDup (map key rows) -> NoDup (map key (rows ++ [r])).
Proof.
  intros Hno Hn. rewrite map_app. apply NoDup_app. split_and!; [done| |apply NoDup_singleton].
  intros k (x & -> & Hx)%list_elem_of_fmap Hk%list_elem_of_singleton.
  assert (existsb (fun x => seqb (key x) (key r)) rows = true) as E; [|by rewrite E in Hno].
  apply existsb_elem. exists x. split; [done|]. by apply seqb_spec.
Qed.
Lemma ok_new_user n row d : below (U_ID row) (map U_ID (users d)) -> U_ID row < n "users" ->
  existsb (fun x => seqb (U_Email x) (U_Email row)) (users d) = false -> UserStore.user_columns_fit row = true ->
  U_TempPasswordIssuedBy row = None -> accounts_ok n d -> accounts_ok n (on_users (fun rows => rows ++ [row]) d).
Proof.
  intros Hlt Hn Hno Hfit Hiss [H1 H2 H3 H4 H5 H6 H7 H8 H9].
  assert (forall i, owned d i = true -> owned (on_users (fun rows => rows ++ [row]) d) i = true) as Ho.
  { intros i H. unfold owned. cbn. by rewrite existsb_app; unfold owned in H; rewrite H. }
  split; cbn [users password_reset_tokens remember_sessions on_users]; try done.
  - rewrite map_app. by apply serial_new.
  - by apply NoDup_new.
  - intros u [Hu|Hu]%elem_of_app.
    + specialize (H3 u Hu). unfold UserStore.row_ok in *. apply andb_true_iff in H3 as [-> Hi]. cbn [andb].
      destruct (U_TempPasswordIssuedBy u); [|done]. by apply Ho.
    + apply list_elem_of_singleton in Hu as ->. unfold UserStore.row_ok. by rewrite Hfit, Hiss.
  - intros t Ht. destruct (H6 t Ht) as [Hu Hc]. split; [by apply Ho|done].
  - intros t Ht. destruct (H9 t Ht) as [Hu Hc]. split; [by apply Ho|done].
Qed.
Lemma ok_new_token n row d : below (T_ID row) (map T_ID (password_reset_tokens d)) -> T_ID row < n "password_reset_tokens" ->
  existsb (fun x => seqb (T_TokenHash x) (T_TokenHash row)) (password_reset_tokens d) = false -> token_ok d row ->
  accounts_ok n d -> accounts_ok n (on_password_reset_tokens (fun rows => rows ++ [row]) d).
Proof.
  intros Hlt Hn Hno Ho [H1 H2 H3 H4 H5 H6 H7 H8 H9].
  split; cbn [users password_reset_tokens remember_sessions on_password_reset_tokens]; try done.
  - rewrite map_app. by apply serial_new.
  - by apply NoDup_new.
  - intros t [Ht|Ht]%elem_of_app; [by apply H6|]. by apply list_elem_of_singleton in Ht as ->.
Qed.
Lemma ok_new_session n row d : below (RS_ID row) (map RS_ID (remember_sessions d)) -> RS_ID row < n "remember_sessions" ->
  existsb (fun x => seqb (RS_TokenHash x) (RS_TokenHash row)) (remember_sessions d) = false -> session_ok d row ->
  accounts_ok n d -> accounts_ok n (on_remember_sessions (fun rows => rows ++ [row]) d).
Proof.
  intros Hlt Hn Hno Ho [H1 H2 H3 H4 H5 H6 H7 H8 H9].
  split; cbn [users password_reset_tokens remember_sessions on_remember_sessions]; try done.
  - rewrite map_app. by apply serial_new.
  - by apply NoDup_new.
  - intros t [Ht|Ht]%elem_of_app; [by apply H9|]. by apply list_elem_of_singleton in Ht as ->.
Qed.

(** ** Runs *)
(** Well formed, with sequences that have not gone back behind [n0]. *)
Definition numbered (n0 : string -> Z) (w : World) : Prop := (forall t, n0 t <= nexts w t) /\ well_formed w.
Lemma numbered_quiet {E A} n0 (m : M World E A) : quiets m -> preserves (numbered n0) m.
Proof. intros Hm w Hw. destruct (quiets_at m w Hm) as [Hd Hs]. unfold numbered, well_formed, nexts in *. by rewrite Hd, Hs. Qed.
Lemma numbered_modify {E} n0 f : (forall n d, accounts_ok n d -> accounts_ok n (f d)) ->
  preserves (numbered n0) (modify (on_db f) : M World E unit).
Proof. intros Hf w [H1 H2]. split; [exact H1|]. by apply Hf. Qed.
Lemma numbered_exec n0 f : (forall n d, accounts_ok n d -> accounts_ok n (f d)) -> preserves (numbered n0) (exec f).
Proof. intros Hf. apply preserves_bind; [apply numbered_quiet; auto with fixed typeclass_instances|]. intros ?. by apply numbered_modify. Qed.
Lemma numbered_transaction {A} n0 (body : Time -> MW A) : (forall n t, preserves (numbered n) (body t)) ->
  preserves (numbered n0) (transaction body).
Proof.
  intros Hb w [H1 H2]. unfold transaction.
  assert (preserves (numbered (nexts w)) (_ ← stmt; t ← now; r ← body t; _ ← stmt; mret r)) as Hm.
  { repeat (apply preserves_bind; [|intros]); try apply Hb; apply numbered_quiet; auto with fixed typeclass_instances. }
  specialize (Hm w). destruct ((_ ← stmt; _) w) as [[a|e] w'] eqn:E; destruct Hm as [Hn Hw]; try done.
  - split; [|exact Hw]. intros t. etrans; [apply H1|apply Hn].
  - split; [intros t; etrans; [apply H1|apply Hn]|]. cbn. eapply ok_mono; [exact Hn|exact H2].
Qed.
#[export] Instance sequences_steady : Steady sequences.
Proof. by split. Qed.
Lemma put_user_sequences id f : fixed sequences (UserStore.put_user id f).
Proof. unfold UserStore.put_user. fixed_tac. by intros w. Qed.
Lemma numbered_put_user n0 id f : (forall u, U_ID (f u) = U_ID u /\ U_Email (f u) = U_Email u) ->
  preserves (numbered n0) (UserStore.put_user id f).
Proof.
  intros Hf w [H1 H2]. pose proof (put_user_sequences id f w) as Hs. destruct (UserStore.put_user id f w) as [[u|e] w'] eqn:E; cbn in *.
  - apply put_user_run in E as [Hd Hok]. unfold numbered, well_formed, nexts in *. rewrite Hs, Hd. split; [done|].
    apply ok_update; [done| |done]. intros x Hx Hp. rewrite forallb_elem in Hok. apply Hok, list_elem_of_fmap_2.
    by apply elem_of_select.
  - apply put_user_clean in E. unfold numbered, well_formed, nexts in *. by rewrite Hs, E.
Qed.
(** A number drawn from a sequence is above the keys of its table. *)
Lemma numbered_serial {A} n0 table (k : Z -> MW A) :
  (forall id w, numbered n0 w -> id < nexts w table ->
     (table = "users" -> below id (map U_ID (users (db w)))) ->
     (table = "password_reset_tokens" -> below id (map T_ID (password_reset_tokens (db w)))) ->
     (table = "remember_sessions" -> below id (map RS_ID (remember_sessions (db w)))) -> numbered n0 (k id w).2) ->
  preserves (numbered n0) (nextval table ≫= k).
Proof.
  intros Hk w [H1 H2]. rewrite M_bind_run. unfold nextval.
  set (w1 := on_sequences _ w).
  assert (forall t, nexts w1 t = if decide (t = table) then nexts w table + 1 else nexts w t) as Hn.
  { intros t. unfold nexts, w1. cbn [sequences on_sequences]. case_decide as Ht; [subst; by rewrite lookup_insert_eq|].
    by rewrite lookup_insert_ne. }
  assert (forall t, nexts w t <= nexts w1 t) as Hle by (intros t; rewrite Hn; case_decide; subst; lia).
  apply Hk.
  - split; [intros t; specialize (H1 t); specialize (Hle t); lia|]. by eapply ok_mono.
  - rewrite Hn. case_decide; [|done]. fold (nexts w table). lia.
  - intros ->. exact (proj2 (ok_user_ids _ _ H2)).
  - intros ->. exact (proj2 (ok_token_ids _ _ H2)).
  - intros ->. exact (proj2 (ok_session_ids _ _ H2)).
Qed.
Lemma numbered_exec_update n0 p f : (forall u, U_ID (f u) = U_ID u /\ U_Email (f u) = U_Email u) ->
  (forall d u, UserStore.row_ok d (f u) = UserStore.row_ok d u) -> preserves (numbered n0) (exec (on_users (update_where p f))).
Proof. intros Hf Hr. apply numbered_exec. intros n d Hd. apply ok_update; [done| |done]. intros u Hu _. rewrite Hr. by apply (ok_rows _ _ Hd). Qed.
Lemma ok_revoke_all n userID t d : accounts_ok n d -> accounts_ok n (UserStore.revoke_all userID t d).
Proof. by apply ok_sessions_update. Qed.
Lemma ok_invalidate_all n userID t d : accounts_ok n d -> accounts_ok n (PasswordResetStore.invalidate_all userID t d).
Proof. by apply ok_tokens_update. Qed.
Lemma ok_consume n h t ip d : varchar 64 ip = true -> accounts_ok n d ->
  accounts_ok n (on_password_reset_tokens (update_where (PasswordResetStore.consumable h t) (PasswordResetStore.consume t ip)) d).
Proof.
  intros Hip. apply ok_tokens_update; [done|]. intros tok. unfold PasswordResetStore.token_columns_fit. cbn.
  rewrite !andb_true_iff. intros [H _]. split; [done|]. unfold nullIfEmpty. by destruct (is_empty ip).
Qed.
(** What comes after a check that went well. *)
Lemma numbered_guard {A} n0 (c : bool) e (k : unit -> MW A) : (c = false -> preserves (numbered n0) (k tt)) ->
  preserves (numbered n0) (guard_err c e ≫= k).
Proof. intros Hk w Hw. rewrite M_bind_run, guard_run. destruct c; [exact Hw|]. by apply Hk. Qed.
Lemma ok_cap n userID t d : accounts_ok n d -> accounts_ok n (on_remember_sessions (RememberSessionStore.cap_sessions userID t) d).
Proof.
  intros Hd. unfold RememberSessionStore.cap_sessions.
  exact (ok_sessions_update n (fun s => bool_decide (RS_ID s ∈ map RS_ID (RememberSessionStore.overflow userID t (remember_sessions d))))
    (UserStore.revoke_session t) d (fun s => conj eq_refl (conj eq_refl (conj eq_refl eq_refl))) Hd).
Qed.
Create HintDb tables.
#[export] Hint Resolve ok_revoke_all ok_invalidate_all ok_consume ok_cap ok_delete_user ok_tokens_delete : tables.
#[export] Hint Extern 2 (accounts_ok _ (on_remember_sessions (update_where _ _) _)) => apply ok_sessions_update : tables.
Ltac tables_step :=
  match goal with
  | |- preserves (numbered _) (transaction _) => apply numbered_transaction; intros ? ?
  | |- preserves (numbered _) (exec (on_users (update_where _ _))) => apply numbered_exec_update; [done|done]
  | |- preserves (numbered _) (exec _) => apply numbered_exec; intros ? ? ?; solve [eauto with tables]
  | |- preserves (numbered _) (UserStore.put_user _ _) => apply numbered_put_user; done
  | |- preserves (numbered _) (modify (on_db _)) => apply numbered_modify; intros ? ? ?; solve [eauto with tables]
  | |- preserves (numbered _) (nextval _ ≫= _) => fail 1
  | |- preserves (numbered _) (guard_err _ _ ≫= _) => apply numbered_guard; intros ?
  | |- preserves (numbered _) (try _) => apply preserves_try
  | |- preserves (numbered _) (_ ≫= _) => apply preserves_bind; [|intros]
  | |- preserves (numbered _) (let '(_, _) := ?x in _) => destruct x
  | |- preserves (numbered _) _ => apply numbered_quiet; solve [fixed_tac]
  end.
Ltac tables_tac := repeat tables_step.
Lemma create_user_ok n0 u : preserves (numbered n0) (UserStore.CreateUser u).
Proof.
  apply preserves_bind; [apply numbered_quiet; fixed_tac|]. intros ?. apply numbered_serial. intros id w [Hn Hw] Hlt Hb _ _.
  rewrite M_bind_run. unfold gets. rewrite M_bind_run, guard_run. destruct (_ || _) eqn:E; [by split|].
  apply orb_false_iff in E as [Hno Hfit%negb_false_iff]. split; [exact Hn|]. apply ok_new_user; try done. by apply Hb.
Qed.
Lemma create_token_ok n0 userID h e ip : preserves (numbered n0) (PasswordResetStore.Create userID h e ip).
Proof.
  apply preserves_bind; [apply numbered_quiet; fixed_tac|]. intros ?. apply numbered_serial. intros id w Hw Hlt _ Hb _.
  rewrite M_bind_run. destruct (now w) as [[t|x] w1] eqn:Et; [|by apply never_now in Et].
  apply quiets_run in Et as [Hd Hs]; [|fixed_tac]. unfold numbered, well_formed, nexts in *. rewrite <-Hd, <-Hs in *.
  rewrite M_bind_run. unfold gets. cbv zeta. rewrite M_bind_run, guard_run. destruct (negb _) eqn:E; [exact Hw|].
  apply negb_false_iff, andb_true_iff in E as [ [Ho Hno%negb_true_iff]%andb_true_iff Hc]. split; [apply Hw|].
  apply ok_new_token; try done; [by apply Hb|apply Hw].
Qed.
Lemma issue_ok n0 userID ip : preserves (numbered n0) (PasswordResetStore.Issue userID ip).
Proof.
  unfold PasswordResetStore.Issue, PasswordResetStore.InvalidateForUser, PasswordResetStore.PurgeOlderThan, pwreset.Generate.
  tables_tac. apply create_token_ok.
Qed.
Lemma create_session_ok n0 userID h e ua t : preserves (numbered n0) (RememberSessionStore.Create userID h e ua t).
Proof.
  apply numbered_transaction. intros n tx. apply preserves_bind; [apply numbered_quiet; fixed_tac|]. intros ?.
  apply numbered_serial. intros id w [Hn Hw] Hlt _ _ Hb.
  rewrite M_bind_run. unfold gets. cbv zeta. rewrite M_bind_run, guard_run. destruct (negb _) eqn:E; [by split|].
  apply negb_false_iff, andb_true_iff in E as [ [Ho Hno%negb_true_iff]%andb_true_iff Hc]. rewrite M_bind_run.
  eapply (numbered_exec n _ (fun n d => ok_cap n userID t d)). split; [exact Hn|]. apply ok_new_session; try done. by apply Hb.
Qed.
Lemma consume_ok n0 h p ip : preserves (numbered n0) (PasswordResetStore.ConsumeAndSetPassword h p ip).
Proof.
  unfold PasswordResetStore.ConsumeAndSetPassword. tables_tac. apply numbered_modify. intros n' d Hd.
  apply ok_consume; [by apply negb_false_iff|done].
Qed.
Lemma write_credential_ok n0 userID f : (forall t u, U_ID (f t u) = U_ID u /\ U_Email (f t u) = U_Email u) ->
  preserves (numbered n0) (UserStore.writeCredential userID f).
Proof.
  intros Hf. unfold UserStore.writeCredential. apply numbered_transaction. intros n t. apply preserves_bind.
  - apply numbered_put_user, Hf.
  - intros ?. tables_tac.
Qed.
(** Any number of calls of the account stores, with any arguments, any answers of
    the database and any failures. *)
Definition account_calls : World -> World -> Prop := rtc (fun w w' => exists h, account_step h w w').
(** C33. The account tables stay well formed: whatever the stores are called with
    and whichever statements fail, keys and addresses stay unique and below their
    sequences, every row fits its columns and references an account that is
    there, and no token or session outlives its account. *)
Theorem accounts_well_formed (w w' : World) : account_calls w w' -> well_formed w -> well_formed w'.
Proof.
  induction 1 as [|w w1 w2 [h Hs] _ IH]; [done|]. intros Hw. apply IH. clear IH w2.
  assert (forall A (m : MW A), preserves (numbered (nexts w)) m -> well_formed (m w).2) as Hm.
  { intros A m Hp. apply (Hp w). by split. }
  destruct Hs; apply Hm.
  - apply create_user_ok.
  - unfold UserStore.UpdateUser. destruct (negb _); [by apply write_credential_ok|by apply numbered_put_user].
  - by apply write_credential_ok.
  - by apply write_credential_ok.
  - by apply write_credential_ok.
  - unfold UserStore.DeleteUser. tables_tac.
  - unfold UserStore.UpdateLastLogin. tables_tac.
  - unfold UserStore.ForbidUser. tables_tac.
  - unfold UserStore.UnforbidUser. tables_tac.
  - by apply numbered_put_user.
  - by apply numbered_put_user.
  - apply issue_ok.
  - apply consume_ok.
  - unfold PasswordResetStore.InvalidateForUser. tables_tac.
  - unfold PasswordResetStore.PurgeOlderThan. tables_tac.
  - apply create_session_ok.
  - unfold RememberSessionStore.Touch. tables_tac.
  - unfold RememberSessionStore.RevokeByHash. tables_tac.
Qed.
(** Two accounts, a session of each, and the first one deleted again. *)
Definition tables_demo : World :=
  let account email := mkUser 0 email "hash" RoleUser "" "" "email" "" 0 0 None None None None None None None in
  let step (m : MW Z) w := (m w).2 in
  let w1 := step (UserStore.CreateUser (account "b@b.c")) (step (UserStore.CreateUser (account "a@b.c")) (empty_world 0 [])) in
  (RememberSessionStore.Create 2 "h2" 50 "" 0 (RememberSessionStore.Create 1 "h1" 50 "" 0 w1).2).2.
Lemma accounts_well_formed_witness :
  map U_ID (users (db tables_demo)) = [1; 2] /\
  let w := (UserStore.DeleteUser 1 tables_demo).2 in well_formed w /\ map RS_UserID (remember_sessions (db w)) = [2].
Proof.
  split; [vm_compute; reflexivity|]. split; [|vm_compute; reflexivity].
  apply (accounts_well_formed (empty_world 0 [])).
  - unfold tables_demo. cbv zeta.
    eapply rtc_r; [|exists "h"; apply as_delete]. eapply rtc_r; [|exists "h"; apply as_remember; discriminate].
    eapply rtc_r; [|exists "h"; apply as_remember; discriminate]. do 2 (eapply rtc_r; [|exists "h"; apply as_create_user]).
    reflexivity.
  - split; first [apply NoDup_nil_2|split; [apply NoDup_nil_2|]|idtac]; intros ? Hin; by apply elem_of_nil in Hin.
Defined.
