(* ===== verification/Config.v ===== *)
(** * Configuration of the process

    Models [internal/config/config.go] and [internal/observability/newrelic.go]:
    the settings read from the environment
    and what is refused at the start.  The environment is a function from names
    to values, the empty text where a name is not set. *)
From S2P Require Import Prelude GoStr Exchange Accounts.
#[global] Open Scope Z_scope.

Definition minSecretLen : Z := 16.
Definition insecureSecrets : list string :=
  [""; "insecure-dev-secret"; "default-insecure-jwt-secret-change-me"; "essensys-admin-secret";
   "changeme_random_secret"; "changeme"; "1234567890"].
Record Config := mkConfig {
  ConsolidatedMode : bool; ExchangeStaleTTL : Duration;
  DBHost : string; DBPort : string; DBUser : string; DBPassword : string; DBName : string;
  Port : string; MigrationsDir : string; CORSOrigin : string; JWTSecret : string; AdminToken : string;
  Environment : string; TurnstileSecretKey : string; TurnstileDisabled : bool;
  RegisterRateLimit : Z; RegisterRateWindow : Duration;
  SupportPseudonymKey : string; SupportPublicRepo : string; SupportPrivateRepo : string; SupportProjectID : string;
  GitHubAppID : string; GitHubInstallation : string; GitHubAppKeyFile : string; GitHubAPIURL : string }.

Section environment.
Context (Getenv : string -> string).
Definition env (key fallback : string) : string := let v := Getenv key in if is_empty v then fallback else v.
Definition envBool (key : string) (fallback : bool) : bool :=
  let v := ToLower (TrimSpace (Getenv key)) in
  if is_empty v then fallback else seqb v "true" || seqb v "1" || seqb v "yes".
(** The product of a duration wraps around at 64 bits. *)
Definition envDurationSeconds (key : string) (fallbackSec : Z) : Duration :=
  let v := Getenv key in
  if is_empty v then wrap64 (fallbackSec * Second) else
  match Atoi v with
  | Some n => if n <=? 0 then wrap64 (fallbackSec * Second) else wrap64 (n * Second)
  | None => wrap64 (fallbackSec * Second)
  end.
Definition envInt (key : string) (fallback : Z) : Z :=
  let v := Getenv key in
  if is_empty v then fallback else
  match Atoi v with Some n => if n <=? 0 then fallback else n | None => fallback end.
Definition Load : Config :=
  let envName := env "ENV" "" in
  let envName := if is_empty envName then env "APP_ENV" "" else envName in
  {| ConsolidatedMode := envBool "CONSOLIDATED_MODE" false;
     ExchangeStaleTTL := envDurationSeconds "EXCHANGE_STALE_TTL_SECONDS" 120;
     DBHost := env "DB_HOST" "127.0.0.1"; DBPort := env "DB_PORT" "5432"; DBUser := env "DB_USER" "essensys";
     DBPassword := env "DB_PASSWORD" ""; DBName := env "DB_NAME" "essensys_db";
     Port := env "PORT" "8081"; MigrationsDir := env "MIGRATIONS_DIR" "migrations";
     CORSOrigin := env "CORS_ORIGIN" "https://mon.essensys.fr";
     JWTSecret := env "JWT_SECRET" ""; AdminToken := env "ADMIN_TOKEN" ""; Environment := envName;
     TurnstileSecretKey := env "TURNSTILE_SECRET_KEY" ""; TurnstileDisabled := envBool "TURNSTILE_DISABLED" false;
     RegisterRateLimit := envInt "REGISTER_RATE_LIMIT" 5;
     RegisterRateWindow := envDurationSeconds "REGISTER_RATE_WINDOW_SECONDS" 3600;
     SupportPseudonymKey := env "SUPPORT_PSEUDONYM_KEY" "";
     SupportPublicRepo := env "SUPPORT_PUBLIC_REPO" "essensys-hub/essensys-support-site";
     SupportPrivateRepo := env "SUPPORT_PRIVATE_REPO" "essensys-hub/essensys-support";
     SupportProjectID := env "SUPPORT_PROJECT_ID" ""; GitHubAppID := env "GITHUB_APP_ID" "";
     GitHubInstallation := env "GITHUB_APP_INSTALLATION_ID" ""; GitHubAppKeyFile := env "GITHUB_APP_PRIVATE_KEY_FILE" "";
     GitHubAPIURL := env "GITHUB_API_URL" "https://api.github.com" |}.

(** ** newrelic.go *)
Definition Enabled : bool := EqualFold (Getenv "NEW_RELIC_ENABLED") "true".
Definition distributedTracingEnabled : bool :=
  let v := Getenv "NEW_RELIC_DISTRIBUTED_TRACING_ENABLED" in if is_empty v then true else EqualFold v "true".
(** The agent's library: an agent from its name, its license and the tracing. *)
Definition InitNewRelic {App} (NewApplication : string -> string -> bool -> option App) : option App :=
  if negb Enabled then None else
  let license := Getenv "NEW_RELIC_LICENSE_KEY" in
  if is_empty license then None else
  let appName := Getenv "NEW_RELIC_APP_NAME" in
  NewApplication (if is_empty appName then "essensys-user-portal-backend" else appName) license distributedTracingEnabled.
End environment.

Definition checkSecret (name value : string) : option err :=
  if bool_decide (value ∈ insecureSecrets)
  then Some (Errorf "%s is missing or set to a known-insecure default; set a strong unique value" [AStr name])
  else if slen value <? minSecretLen
  then Some (Errorf "%s is too short (%d chars); require at least %d" [AStr name; AInt (slen value); AInt minSecretLen])
  else None.
Definition IsProduction (c : Config) : bool :=
  let e := ToLower (TrimSpace (Environment c)) in seqb e "production" || seqb e "prod".
Definition TurnstileEnforced (c : Config) : bool :=
  if IsProduction c then true else if TurnstileDisabled c then false else true.
Definition GitHubAppConfigured (c : Config) : bool :=
  negb (is_empty (GitHubAppID c)) && negb (is_empty (GitHubInstallation c)) && negb (is_empty (GitHubAppKeyFile c)).
(** The first error, as the early returns give it. *)
Definition first_error (checks : list (option err)) : option err :=
  foldr (fun c rest => match c with Some e => Some e | None => rest end) None checks.
Definition Validate (c : Config) : option err :=
  let live := IsProduction c && ConsolidatedMode c in
  first_error
    [checkSecret "JWT_SECRET" (JWTSecret c);
     checkSecret "ADMIN_TOKEN" (AdminToken c);
     (if live && TurnstileDisabled c then Some (Errorf "TURNSTILE_DISABLED is not allowed when ENV=production" []) else None);
     (if live && is_empty (TrimSpace (TurnstileSecretKey c))
      then Some (Errorf "TURNSTILE_SECRET_KEY is required when ENV=production and CONSOLIDATED_MODE=true" []) else None);
     (if live then checkSecret "SUPPORT_PSEUDONYM_KEY" (SupportPseudonymKey c) else None)].

(** ** What a validated configuration guarantees *)
Definition strong (value : string) : Prop := value ∉ insecureSecrets /\ minSecretLen <= slen value.
Lemma checkSecret_spec name value : checkSecret name value = None <-> strong value.
Proof.
  unfold checkSecret, strong. case_bool_decide as H; [naive_solver|].
  destruct (slen value <? minSecretLen) eqn:E; [split; [done|lia]|]. split; [intros _; split; [done|lia]|done].
Qed.
Lemma first_error_None checks : first_error checks = None <-> Forall (fun c => c = None) checks.
Proof.
  induction checks as [|c checks IH]; [by split|]. rewrite Forall_cons, <-IH. cbn. destruct c; [|naive_solver]. naive_solver.
Qed.
(** A configuration is accepted exactly when the secret of the tokens and the
    token of the administration are strong and, for a production process in
    consolidated mode, the captcha is not disabled, its key is not blank and the
    key of the pseudonyms is strong too: the process fails closed, and then
    enforces the captcha. *)
Lemma validate_fails_closed (c : Config) :
  (Validate c = None <->
    strong (JWTSecret c) /\ strong (AdminToken c) /\
    (IsProduction c = true -> ConsolidatedMode c = true ->
      TurnstileDisabled c = false /\ TrimSpace (TurnstileSecretKey c) <> "" /\ strong (SupportPseudonymKey c))) /\
  (IsProduction c = true -> TurnstileEnforced c = true).
Proof.
  split; [|unfold TurnstileEnforced; by intros ->].
  unfold Validate. rewrite first_error_None, !Forall_cons, !checkSecret_spec.
  destruct (IsProduction c), (ConsolidatedMode c); cbn [andb]; try (naive_solver; fail).
  rewrite checkSecret_spec. destruct (TurnstileDisabled c), (TrimSpace (TurnstileSecretKey c)); naive_solver.
Qed.

(** ** Durations and limits *)
(** The seconds a [time.Duration] can hold. *)
Definition max_seconds : Z := 9223372036.
Lemma wrap64_small n : int64_min <= n <= int64_max -> wrap64 n = n.
Proof. unfold int64_min, int64_max, wrap64. intros H. rewrite Z.mod_small; lia. Qed.
Lemma wrap64_range n : int64_min <= wrap64 n <= int64_max.
Proof. unfold wrap64, int64_min, int64_max. pose proof (Z.mod_pos_bound (n + 2 ^ 63) (2 ^ 64) eq_refl). lia. Qed.
Definition readable (Getenv : string -> string) (key : string) (n : Z) : Prop := Atoi (Getenv key) = Some n /\ 0 < n.
(** A duration is what its text says, or the fallback without a text that says
    something; a text beyond what a duration can hold says something else. *)
Lemma envDurationSeconds_spec Getenv key fb : 0 < fb <= max_seconds ->
  (forall n, readable Getenv key n -> (envDurationSeconds Getenv key fb = n * Second <-> n <= max_seconds)) /\
  ((forall n, ~ readable Getenv key n) -> envDurationSeconds Getenv key fb = fb * Second).
Proof.
  assert (forall n, 0 < n -> (wrap64 (n * Second) = n * Second <-> n <= max_seconds)) as Hw.
  { intros n Hn. split.
    - intros H. pose proof (wrap64_range (n * Second)) as Hr. rewrite H in Hr.
      unfold int64_max, max_seconds, Second, Millisecond in *. lia.
    - intros H. apply wrap64_small. unfold int64_min, int64_max, max_seconds, Second, Millisecond in *. lia. }
  intros Hfb. unfold envDurationSeconds, readable. split.
  - intros n [Hn Hpos]. rewrite Hn. destruct (is_empty (Getenv key)) eqn:E.
    + destruct (Getenv key); [|done]. by vm_compute in Hn.
    + assert ((n <=? 0) = false) as -> by lia. by apply Hw.
  - intros Hno. assert (wrap64 (fb * Second) = fb * Second) as Hf by (apply Hw; lia).
    destruct (is_empty _); [done|]. destruct (Atoi (Getenv key)) as [n|]; [|done]. destruct (n <=? 0) eqn:E; [done|].
    exfalso. apply (Hno n). split; [done|lia].
Qed.
Lemma envInt_spec Getenv key fb n : envInt Getenv key fb = n <->
  (readable Getenv key n \/ ((forall m, ~ readable Getenv key m) /\ n = fb)).
Proof.
  unfold envInt, readable. destruct (is_empty (Getenv key)) eqn:E.
  { destruct (Getenv key); [|done]. split; [intros <-; right; split; [by intros m [H _]; vm_compute in H|done]|].
    by intros [[H _]|[_ ->] ]; [vm_compute in H|]. }
  destruct (Atoi (Getenv key)) as [z|]; [|naive_solver]. destruct (z <=? 0) eqn:Hz; [|naive_solver lia].
  split; [|naive_solver lia]. intros <-. right. split; [|done]. intros m [ [= ->] H]. lia.
Qed.
