(* ===== verification/Http.v ===== *)
(** * Requests, JSON bodies and responses

    What the handlers use of [net/http] and [time]: a request with its decoded
    JSON body, [time.Parse] for RFC 3339, and the monad of a handler, which ends with a
    response at any [return].  The text of a JSON document is not parsed: a
    request carries the tree of its first value and where that text ends. *)
From S2P Require Import Prelude GoStr Json Exchange Accounts Lights World.
#[global] Open Scope Z_scope.

(** ** time.Parse(time.RFC3339Nano, ..) *)
Definition is_leap (y : Z) : bool := (y mod 4 =? 0) && (negb (y mod 100 =? 0) || (y mod 400 =? 0)).
Definition daysIn (month year : Z) : Z :=
  if month =? 2 then (if is_leap year then 29 else 28)
  else if bool_decide (month ∈ [4; 6; 9; 11]) then 30 else 31.
(** Days from the first day of year 1 to the first day of the year. *)
Definition days_before_year (y : Z) : Z :=
  let y := y - 1 in 365 * y + y / 4 - y / 100 + y / 400.
Definition days_before_month (month year : Z) : Z :=
  foldl (fun n m => n + daysIn m year) 0 (seqZ 1 (month - 1)).
Definition Date (year month day hour min sec nsec : Z) : Time :=
  let days := days_before_year year + days_before_month month year + (day - 1) in
  (((days * 24 + hour) * 60 + min) * 60 + sec) * Second + nsec.
(** [getnum]: two digits, or one when not [fixed]. *)
Definition getnum (fixed : bool) (l : list ascii) : option (Z * list ascii) :=
  match l with
  | [] => None
  | a :: r =>
      if negb (is_digit a) then None else
      match r with
      | b :: r' => if is_digit b then Some (10 * digit_val a + digit_val b, r')
                   else if fixed then None else Some (digit_val a, r)
      | [] => if fixed then None else Some (digit_val a, [])
      end
  end.
Definition skip_char (c : Z) (l : list ascii) : option (list ascii) :=
  match l with a :: r => if ord a =? c then Some r else None | [] => None end.
Definition within (lo hi z : Z) : option unit := if (lo <=? z) && (z <=? hi) then Some tt else None.
Definition parse_year (l : list ascii) : option (Z * list ascii) :=
  let y := take 4 l in
  if (length y =? 4)%nat && forallb is_digit y then Some (digits_val y, drop 4 l) else None.
(** An optional fraction of a second: any number of digits, nine of them used. *)
Definition parse_fraction (l : list ascii) : Z * list ascii :=
  match l with
  | p :: r =>
      let ds := take_digits r in
      if ((ord p =? 46) || (ord p =? 44)) && negb (bool_decide (ds = [])) then
        let used := take 9 ds in
        (digits_val used * 10 ^ (9 - Z.of_nat (length used)), drop (length ds) r)
      else (0, l)
  | [] => (0, [])
  end.
(** The zone, as an offset in seconds. *)
Definition parse_zone (l : list ascii) : option (Z * list ascii) :=
  match l with
  | [] => None
  | s :: r =>
      if ord s =? 90 then Some (0, r) else
      sign ← (if ord s =? 43 then Some 1 else if ord s =? 45 then Some (-1) else None);
      '(hh, r) ← getnum true r;
      r ← skip_char 58 r;
      '(mm, r) ← getnum true r;
      _ ← within 0 24 hh;
      _ ← within 0 60 mm;
      Some (sign * ((hh * 60 + mm) * 60), r)
  end.
Definition Parse_RFC3339Nano (value : string) : option Time :=
  '(year, l) ← parse_year (bytes value);
  l ← skip_char 45 l;
  '(month, l) ← getnum true l;
  _ ← within 1 12 month;
  l ← skip_char 45 l;
  '(day, l) ← getnum true l;
  l ← skip_char 84 l;
  '(hour, l) ← getnum false l;
  _ ← within 0 23 hour;
  l ← skip_char 58 l;
  '(min, l) ← getnum true l;
  _ ← within 0 59 min;
  l ← skip_char 58 l;
  '(sec, l) ← getnum true l;
  _ ← within 0 59 sec;
  let '(nsec, l) := parse_fraction l in
  '(offset, l) ← parse_zone l;
  _ ← within 1 (daysIn month year) day;
  if bool_decide (l = []) then Some (Date year month day hour min sec nsec - offset * Second) else None.

Example parse_time_sample :
  Parse_RFC3339Nano "2026-03-01T12:30:05.250+02:00" = Some (Date 2026 3 1 10 30 5 250000000).
Proof. reflexivity. Qed.
(** [time.Time] in a JSON value. *)
Definition dec_time : decoder Time := fun j old =>
  match j with JStr s => Parse_RFC3339Nano s | JNull => Some old | _ => None end.
(** [t.UTC().Format(time.RFC3339)] *)
Definition year_of_days (days : Z) : Z :=
  let y := days * 400 / 146097 + 1 in
  if days <? days_before_year y then y - 1 else if days <? days_before_year (y + 1) then y else y + 1.
Fixpoint month_of_days (fuel : nat) (year month days : Z) : Z * Z :=
  match fuel with
  | O => (month, days)
  | S fuel => if days <? daysIn month year then (month, days) else month_of_days fuel year (month + 1) (days - daysIn month year)
  end.
Definition padded (width : nat) (n : Z) : string :=
  let s := Itoa n in (str (repeat (chr 48) (width - length (bytes s))) ++ s)%string.
Definition Format_RFC3339 (t : Time) : string :=
  let sec := t / Second in
  let days := sec / 86400 in
  let year := year_of_days days in
  let '(month, day) := month_of_days 12 year 1 (days - days_before_year year) in
  let rest := sec mod 86400 in
  (padded 4 year ++ "-" ++ padded 2 month ++ "-" ++ padded 2 (day + 1) ++ "T" ++ padded 2 (rest / 3600) ++ ":"
   ++ padded 2 (rest / 60 mod 60) ++ ":" ++ padded 2 (rest mod 60) ++ "Z")%string.
Example format_samples :
  (Format_RFC3339 (Date 2026 3 1 10 30 5 250000000), Format_RFC3339 (Date 2024 12 31 23 59 59 0),
   Format_RFC3339 (Date 2000 2 29 0 0 0 0), Format_RFC3339 (Date 1 1 1 0 0 0 0)) =
  ("2026-03-01T10:30:05Z", "2024-12-31T23:59:59Z", "2000-02-29T00:00:00Z", "0001-01-01T00:00:00Z")%string.
Proof. vm_compute. reflexivity. Qed.
Example unix_epoch : Date 1970 1 1 0 0 0 0 = 62135596800 * Second.
Proof. reflexivity. Qed.

(** ** Requests *)

(** The body: the first JSON value, where its text ends, and where a byte
    other than a space follows it, if any. *)
Record BodyText := mkBody { B_Value : json; B_End : Z; B_Garbage : option Z }.
Record Request := mkRequest {
  R_Method : string;
  R_UserEmail : option string; R_UserRole : option string; R_GatewayID : option string;
  R_URLParam : gmap string string; R_Query : gmap string string; R_Header : gmap string string;
  R_RemoteAddr : string; R_Body : option BodyText }.
Definition URLParam (r : Request) (name : string) : string := default "" (R_URLParam r !! name).
Definition Query (r : Request) (name : string) : string := default "" (R_Query r !! name).
Definition Header (r : Request) (name : string) : string := default "" (R_Header r !! name).
(** [json.NewDecoder(r.Body).Decode(&v)]: what follows the first value is not read. *)
Definition Decode {A} (d : decoder A) (zero : A) (r : Request) : option A :=
  b ← R_Body r; d (B_Value b) zero.
(** [json.Unmarshal] of the first [n] bytes: the value must end within them and
    nothing else may follow it there. *)
Definition Unmarshal_limited {A} (n : Z) (d : decoder A) (zero : A) (r : Request) : option A :=
  b ← R_Body r;
  if (B_End b <=? n) && match B_Garbage b with None => true | Some g => n <=? g end
  then d (B_Value b) zero else None.

(** ** Responses

    The value given to the JSON encoder, with the times still unformatted, or
    the text of [http.Error].  The members of an object are listed as the code
    lists them: their order means nothing to a reader of the answer. *)
Inductive out :=
  | ONull
  | OBool (b : bool)
  | OInt (z : Z)
  | OStr (s : string)
  | OTime (layout : string) (t : Time)
  | OErr (e : err)
  | ORaw (j : json)
  | OArr (l : list out)
  | OObj (members : list (string * out)).
Inductive Body :=
  | BText (prefix : string) (e : option err)
  | BJson (o : out).
Record Resp := mkResp { Status : Z; RespBody : Body }.
Definition http_Error (text : string) (code : Z) : Resp := mkResp code (BText text None).
(** [http.Error(w, text + err.Error(), code)] *)
Definition http_ErrorOf (text : string) (e : err) (code : Z) : Resp := mkResp code (BText text (Some e)).
Definition writeJSON (code : Z) (o : out) : Resp := mkResp code (BJson o).
(** A panic of the handler: the connection is closed without an answer. *)
Definition panicked : Resp := mkResp 0 (BText "panic" None).

Definition oopt {A} (f : A -> out) (o : option A) : out :=
  match o with Some a => f a | None => ONull end.
Definition oarr {A} (f : A -> out) (l : list A) : out := OArr (map f l).
(** [omitempty] *)
Definition omit_none {A} (name : string) (f : A -> out) (o : option A) : list (string * out) :=
  match o with Some a => [(name, f a)] | None => [] end.
Definition omit_empty (name s : string) : list (string * out) :=
  if is_empty s then [] else [(name, OStr s)].
Definition out_kv (p : ExchangeKV) : out := OObj [("k", OInt (K p)); ("v", OStr (V p))].

(** ** Handlers

    A handler answers once: [throw] is the response of an early [return]. *)
Abbreviation HW := (M World Resp).
(** A call of a store, its error answered by the handler. *)
Definition or_else {A} (m : MW A) (f : err -> Resp) : HW A := map_err f m.
(** A call whose error is looked at. *)
Definition attempt {A} (m : MW A) : HW (res err A) := try m.
(** A call whose error is dropped. *)
Definition ignore {A} (m : MW A) : HW unit := _ ← try m; mret tt.
Definition reject {A} (r : Resp) : HW A := throw r.
Definition check (ok : bool) (r : Resp) : HW unit := if ok then mret tt else throw r.
Definition need {A} (o : option A) (r : Resp) : HW A := lift (ok_or o r).
(** [r.Context().Value(key).(string)] and the dereference of a pointer. *)
Definition must {A} (o : option A) : HW A := need o panicked.
(** The response of a handler and the world after it. *)
Definition serve (h : HW Resp) (w : World) : Resp * World :=
  match h w with (Ok r, w') => (r, w') | (Fail r, w') => (r, w') end.

(** [newGUID]: the error of [rand.Read] is dropped, leaving zero bytes. *)
Definition newGUID : HW string := fun w =>
  let '(b, w') := match rand_read 16 w with
                  | (Ok b, w') => (b, w')
                  | (Fail _, w') => (repeat (chr 0) 16, w')
                  end in
  let h n m := str (hex_bytes (take m (drop n b))) in
  (Ok (h 0%nat 4%nat ++ "-" ++ h 4%nat 2%nat ++ "-" ++ h 6%nat 2%nat ++ "-" ++ h 8%nat 2%nat ++ "-"
       ++ h 10%nat 6%nat)%string, w').

(** ** testmode/dryrun.go *)
Definition TestModeHeader : string := "X-Essensys-Test-Mode".
Definition ValueDryRun : string := "dry-run".
Definition IsDryRun (r : Request) : bool :=
  EqualFold (TrimSpace (Header r TestModeHeader)) ValueDryRun || seqb (Query r "test_mode") "dry_run".
Definition WriteOK (validated snapshot : list ExchangeKV) (message : string) : Resp :=
  let message := if is_empty message then "Validation OK — non envoyé à l'armoire" else message in
  writeJSON 200 (OObj [("status", OStr "test_ok"); ("dry_run", OBool true);
    ("validated_params", oarr out_kv validated);
    ("exchange_snapshot", match snapshot with [] => ONull | _ => oarr out_kv snapshot end);
    ("message", OStr message)]).
Definition WriteFailed (message : out) : Resp :=
  writeJSON 422 (OObj [("status", OStr "test_failed"); ("dry_run", OBool true); ("message", message)]).

(** ** Runs of a handler *)
Lemma attempt_Ok_inv {A} (m : MW A) w r w' : attempt m w = (Ok r, w') -> m w = (r, w').
Proof. unfold attempt, try. destruct (m w). by intros [= <- <-]. Qed.
Lemma or_else_Ok_inv {A} (m : MW A) f w a w' : or_else m f w = (Ok a, w') -> m w = (Ok a, w').
Proof. unfold or_else, map_err. destruct (m w) as [[]]; [|done]. by intros [= <- <-]. Qed.
Lemma map_err_Ok_inv {S E E' A} (f : E -> E') (m : M S E A) w a w' :
  map_err f m w = (Ok a, w') -> m w = (Ok a, w').
Proof. unfold map_err. destruct (m w) as [[]]; [|done]. by intros [= <- <-]. Qed.
Lemma check_Ok_inv ok e w u w' : check ok e w = (Ok u, w') -> ok = true /\ w' = w.
Proof. destruct ok; [|done]. by intros [= _ <-]. Qed.
Lemma need_Ok_inv {A} (o : option A) e w a w' : need o e w = (Ok a, w') -> o = Some a /\ w' = w.
Proof. unfold need. intros [H ->]%lift_Ok_inv. by destruct o; [injection H as ->|]. Qed.
Lemma must_Ok_inv {A} (o : option A) w a w' : must o w = (Ok a, w') -> o = Some a /\ w' = w.
Proof. apply need_Ok_inv. Qed.
Lemma newGUID_db w : db (newGUID w).2 = db w.
Proof. unfold newGUID, rand_read. by destruct (_ =? _)%nat. Qed.
Lemma newGUID_Ok w : exists g, newGUID w = (Ok g, (newGUID w).2).
Proof. unfold newGUID. destruct (rand_read 16 w) as [[]]; by eexists. Qed.

(** Inverts a handler that reached its end, one call at a time. *)
Ltac hstep :=
  match goal with
  | H : (_ ≫= _) _ = (Ok _, _) |- _ => apply M_bind_Ok in H as (? & ? & ? & H)
  | H : attempt _ _ = (Ok _, _) |- _ => apply attempt_Ok_inv in H
  | H : or_else _ _ _ = (Ok _, _) |- _ => apply or_else_Ok_inv in H
  | H : map_err _ _ _ = (Ok _, _) |- _ => apply map_err_Ok_inv in H
  | H : check _ _ _ = (Ok _, _) |- _ => apply check_Ok_inv in H as [? ->]
  | H : need _ _ _ = (Ok _, _) |- _ => apply need_Ok_inv in H as [? ->]
  | H : must _ _ = (Ok _, _) |- _ => apply must_Ok_inv in H as [? ->]
  | H : lift _ _ = (Ok _, _) |- _ => apply lift_Ok_inv in H as [? ->]
  | H : (mret _) _ = (Ok _, _) |- _ => first [apply mret_Ok_inv in H as [-> ->] | apply mret_Ok_inv in H as [? ->] ]
  end.
Ltac hrun := repeat hstep.

(** The responses a handler may end with before its last statement. *)
Definition throws {A} (P : Resp -> Prop) (m : HW A) : Prop := forall w e w', m w = (Fail e, w') -> P e.
Section throws.
Context (P : Resp -> Prop).
Lemma throws_ret {A} (a : A) : throws P (mret a).
Proof. by intros w e w' [=]. Qed.
Lemma throws_bind {A B} (m : HW A) (f : A -> HW B) :
  throws P m -> (forall a, throws P (f a)) -> throws P (m ≫= f).
Proof.
  intros Hm Hf w e w'. rewrite M_bind_run. destruct (m w) as [[a|e0] w0] eqn:E; [apply Hf|].
  intros [= <- _]. by eapply Hm.
Qed.
Lemma throws_attempt {A} (m : MW A) : throws P (attempt m).
Proof. intros w e w'. unfold attempt, try. by destruct (m w). Qed.
Lemma throws_ignore {A} (m : MW A) : throws P (ignore m).
Proof. apply throws_bind; [apply throws_attempt|intros; apply throws_ret]. Qed.
Lemma throws_or_else {A} (m : MW A) f : (forall e, P (f e)) -> throws P (or_else m f).
Proof. intros Hf w e w'. unfold or_else, map_err. destruct (m w) as [[]]; intros [= <- _]; auto. Qed.
Lemma throws_map_lift {A} (r : res err A) (f : err -> Resp) : (forall e, P (f e)) -> throws P (map_err f (lift r)).
Proof. intros Hf w e w'. unfold map_err, lift. destruct r; intros [= <- _]; auto. Qed.
Lemma throws_check ok e : P e -> throws P (check ok e).
Proof. intros He w e' w'. destruct ok; [done|]. by intros [= <- _]. Qed.
Lemma throws_need {A} (o : option A) e : P e -> throws P (need o e).
Proof. intros He w e' w'. destruct o; [done|]. by intros [= <- _]. Qed.
Lemma throws_must {A} (o : option A) : P panicked -> throws P (must o).
Proof. apply throws_need. Qed.
Lemma throws_now : throws P now.
Proof. intros w e w' H. destruct (@now_Ok Resp w) as (t & Ht & _). by rewrite H in Ht. Qed.
Lemma throws_guid : throws P newGUID.
Proof. intros w e w' H. destruct (newGUID_Ok w) as (g & Hg). by rewrite H in Hg. Qed.
End throws.
Create HintDb throws.
Create HintDb handler.
#[export] Hint Resolve throws_ret throws_attempt throws_ignore throws_now throws_guid : throws.
#[export] Hint Extern 1 (throws _ (or_else _ _)) => apply throws_or_else; intros : throws.
#[export] Hint Extern 1 (throws _ (map_err _ (lift _))) => apply throws_map_lift; intros : throws.
#[export] Hint Extern 1 (throws _ (check _ _)) => apply throws_check : throws.
#[export] Hint Extern 1 (throws _ (need _ _)) => apply throws_need : throws.
#[export] Hint Extern 1 (throws _ (must _)) => apply throws_must : throws.
Ltac throws_step :=
  match goal with
  | |- throws _ (_ ≫= _) => apply throws_bind; [|intros]
  | |- throws _ (match ?x with _ => _ end) => destruct x
  | |- throws _ _ => solve [eauto with throws]
  end.
Ltac throws_tac := repeat throws_step.
Definition not_ok (resp : Resp) : Prop := Status resp <> 200.
#[export] Hint Extern 1 (not_ok _) => discriminate : throws.
(** An answer that no early return gives was given by the last statement. *)
Lemma serve_Ok (h : HW Resp) (P : Resp -> Prop) w resp w' :
  throws P h -> ~ P resp -> serve h w = (resp, w') -> h w = (Ok resp, w').
Proof.
  intros Hh Hp. unfold serve. destruct (h w) as [[r|r] w0] eqn:E; intros [= <- <-]; [done|].
  by apply Hh in E.
Qed.

Lemma clean_or_else {A} (m : MW A) f : fails_clean m -> fails_clean (or_else m f).
Proof. intros Hm w e w'. unfold or_else, map_err. destruct (m w) as [[a|e0] w1] eqn:H; [done|]. intros [= _ <-]. by eapply Hm. Qed.

(** *** What a handler leaves unchanged *)
Lemma preserves_newGUID I : preserves (db_inv I) newGUID.
Proof. intros w Hw. unfold db_inv. by rewrite newGUID_db. Qed.
Lemma preserves_check (I : World -> Prop) ok e : preserves I (check ok e).
Proof. intros w Hw. by destruct ok. Qed.
Lemma preserves_need {A} (I : World -> Prop) (o : option A) e : preserves I (need o e).
Proof. intros w Hw. by destruct o. Qed.
Lemma preserves_must {A} (I : World -> Prop) (o : option A) : preserves I (must o).
Proof. apply preserves_need. Qed.
#[export] Hint Resolve preserves_newGUID preserves_check preserves_need preserves_must : preserves.
(** The rules above applied through the names of the handler monad. *)
Ltac handler_tac :=
  repeat first
    [ progress (unfold or_else, attempt, ignore)
    | match goal with
      | |- preserves _ (exec _) => apply preserves_exec; intros ? ?
      | |- preserves _ (modify _) => apply preserves_modify; intros ? ?
      end
    | preserves_step ].
(** A run from [w] keeps what it keeps of the tables of [w]. *)
Lemma preserves_serve I (h : HW Resp) w resp w' :
  preserves (db_inv I) h -> I (db w) -> serve h w = (resp, w') -> I (db w').
Proof.
  intros Hh Hi. specialize (Hh w Hi). unfold serve. destruct (h w) as [[r|r] w0]; by intros [= _ <-].
Qed.
Lemma serve_bind {A} (m : HW A) (k : A -> HW Resp) w resp w' :
  serve (m ≫= k) w = (resp, w') ->
  (exists a w1, m w = (Ok a, w1) /\ serve (k a) w1 = (resp, w')) \/ m w = (Fail resp, w').
Proof.
  unfold serve. rewrite M_bind_run. destruct (m w) as [[a|e] w1]; [intros H; left; by exists a, w1|].
  intros [= -> ->]. by right.
Qed.
(** One call of a handler that only reads: it answers within [P], or goes on
    with the tables of [w0]. *)
Lemma serve_early (P : Resp -> Prop) {A} (m : HW A) k w0 w resp w' : db w = db w0 ->
  serve (m ≫= k) w = (resp, w') -> throws P m -> (forall I, preserves (db_inv I) m) ->
  (P resp /\ db w' = db w0) \/ exists a w1, m w = (Ok a, w1) /\ db w1 = db w0 /\ serve (k a) w1 = (resp, w').
Proof.
  intros Hd H Ht Hm. apply serve_bind in H as [(a & w1 & Ha & H)|H].
  - right. exists a, w1. split_and!; [done| |done]. rewrite <-Hd. by eapply keeps_run.
  - left. split; [by eapply Ht|]. rewrite <-Hd. by eapply keeps_run.
Qed.
Tactic Notation "early" constr(P) hyp(H) "as" simple_intropattern(p) :=
  eapply (serve_early P) in H as [H|p]; [by left| |eassumption || reflexivity
    |autounfold with handler; throws_tac|autounfold with handler; intros; handler_tac].
