(* ===== verification/Newsletter.v ===== *)
(** * Newsletters

    Models [internal/data/newsletter_store.go] and
    [internal/admin/newsletter.go]: the subscribers, and a newsletter on its
    way from draft to sent. *)
From S2P Require Import Prelude GoStr Json Exchange Accounts Lights World Mail Http.
#[global] Open Scope Z_scope.

(** ** newsletter_store.go *)
Module NewsletterStore.
Definition is_subscriber (email : string) (s : Subscriber) : bool := seqb (SB_Email s) email.
Definition is_newsletter (id : string) (n : Newsletter) : bool := seqb (NL_ID n) id.
Definition add_row (s : Subscriber) (rows : list Subscriber) : list Subscriber :=
  if existsb (is_subscriber (SB_Email s)) rows then rows else rows ++ [s].
Definition AddSubscriber (email : string) : MW unit :=
  t ← now;
  _ ← stmt;
  _ ← guard_err (negb (text_ok email)) ErrDB;
  modify (on_db (on_newsletter_subscribers (add_row (mkSubscriber email t)))).
(** [RowsAffected]: the rows there were. *)
Definition DeleteSubscriber (email : string) : MW unit :=
  _ ← stmt;
  n ← gets (fun w => count_where (is_subscriber email) (newsletter_subscribers (db w)));
  _ ← modify (on_db (on_newsletter_subscribers (delete_where (is_subscriber email))));
  guard_err (n =? 0) (Errorf "subscriber not found" []).
Definition GetSubscribers : MW (list Subscriber) :=
  query (fun d => order_desc SB_DateJoined (newsletter_subscribers d)).
Definition GetNewsletters : MW (list Newsletter) := query (fun d => order_desc NL_UpdatedAt (newsletters d)).
Definition newsletter_not_found : err := Errorf "newsletter not found" [].
Definition GetNewsletter (id : string) : MW Newsletter :=
  r ← query (fun d => get_row (is_newsletter id) (newsletters d));
  lift (match r with
        | Ok n => Ok n
        | Fail e => if bool_decide (e = ErrNoRows) then Fail newsletter_not_found else Fail e
        end).
(** The conflicting row keeps its id and the time of its creation. *)
Definition save_row (n : Newsletter) (rows : list Newsletter) : list Newsletter :=
  if existsb (is_newsletter (NL_ID n)) rows then
    update_where (is_newsletter (NL_ID n)) (fun old =>
      mkNewsletter (NL_ID old) (NL_Subject n) (NL_Content n) (NL_Status n) (NL_Version n)
        (NL_CreatedAt old) (NL_UpdatedAt n) (NL_SentAt n)) rows
  else rows ++ [n].
Definition newsletter_fits (n : Newsletter) : bool :=
  text_ok (NL_ID n) && text_ok (NL_Subject n) && text_ok (NL_Content n) && text_ok (NL_Status n) && int4 (NL_Version n).
Definition SaveNewsletter (n : Newsletter) : MW unit :=
  _ ← stmt;
  _ ← guard_err (negb (newsletter_fits n)) ErrDB;
  modify (on_db (on_newsletters (save_row n))).
Definition DeleteNewsletter (id : string) : MW unit :=
  _ ← stmt;
  n ← gets (fun w => count_where (is_newsletter id) (newsletters (db w)));
  _ ← modify (on_db (on_newsletters (delete_where (is_newsletter id))));
  guard_err (n =? 0) newsletter_not_found.
End NewsletterStore.

(** ** newsletter.go *)
Definition time_json : Time -> out := OTime "RFC3339Nano".
Definition out_subscriber (s : Subscriber) : out :=
  OObj [("email", OStr (SB_Email s)); ("date_joined", time_json (SB_DateJoined s))].
Definition out_newsletter (n : Newsletter) : out :=
  OObj ([("id", OStr (NL_ID n)); ("subject", OStr (NL_Subject n)); ("content", OStr (NL_Content n));
    ("status", OStr (NL_Status n)); ("version", OInt (NL_Version n)); ("created_at", time_json (NL_CreatedAt n));
    ("updated_at", time_json (NL_UpdatedAt n))] ++ omit_none "sent_at" time_json (NL_SentAt n)).
Definition zero_newsletter : Newsletter := mkNewsletter "" "" "" "" 0 0 0 None.
Definition newsletter_fields : fields Newsletter :=
  [("id", set_field NL_ID (fun x n => mkNewsletter x (NL_Subject n) (NL_Content n) (NL_Status n) (NL_Version n) (NL_CreatedAt n) (NL_UpdatedAt n) (NL_SentAt n)) dec_string);
   ("subject", set_field NL_Subject (fun x n => mkNewsletter (NL_ID n) x (NL_Content n) (NL_Status n) (NL_Version n) (NL_CreatedAt n) (NL_UpdatedAt n) (NL_SentAt n)) dec_string);
   ("content", set_field NL_Content (fun x n => mkNewsletter (NL_ID n) (NL_Subject n) x (NL_Status n) (NL_Version n) (NL_CreatedAt n) (NL_UpdatedAt n) (NL_SentAt n)) dec_string);
   ("status", set_field NL_Status (fun x n => mkNewsletter (NL_ID n) (NL_Subject n) (NL_Content n) x (NL_Version n) (NL_CreatedAt n) (NL_UpdatedAt n) (NL_SentAt n)) dec_string);
   ("version", set_field NL_Version (fun x n => mkNewsletter (NL_ID n) (NL_Subject n) (NL_Content n) (NL_Status n) x (NL_CreatedAt n) (NL_UpdatedAt n) (NL_SentAt n)) dec_int);
   ("created_at", set_field NL_CreatedAt (fun x n => mkNewsletter (NL_ID n) (NL_Subject n) (NL_Content n) (NL_Status n) (NL_Version n) x (NL_UpdatedAt n) (NL_SentAt n)) dec_time);
   ("updated_at", set_field NL_UpdatedAt (fun x n => mkNewsletter (NL_ID n) (NL_Subject n) (NL_Content n) (NL_Status n) (NL_Version n) (NL_CreatedAt n) x (NL_SentAt n)) dec_time);
   ("sent_at", set_field NL_SentAt (fun x n => mkNewsletter (NL_ID n) (NL_Subject n) (NL_Content n) (NL_Status n) (NL_Version n) (NL_CreatedAt n) (NL_UpdatedAt n) x) (dec_ptr dec_time 0))].
Definition subscribe_fields : fields string := [("email", fun j s => dec_string j s)].
Definition ok_empty : Resp := mkResp 200 (BText "" None).
Definition nl_bad : Resp := http_Error "Bad Request" 400.
Definition nl_missing : Resp := http_Error "Not Found" 404.
Definition NewNewsletterSubject : string := "Nouvelle Newsletter".
Definition NewNewsletterContent : string :=
  ("# Nouveau Brouillon" ++ str [chr 10; chr 10] ++ "Commencez à rédiger ici...")%string.
(** [time.Now().UnixNano()], the epoch of [Time] being year 1. *)
Definition UnixNano (t : Time) : Z := t - 62135596800 * Second.

Section newsletter.
(** Whether the store is there, and the mail relay. *)
Context (hasNews : bool) (mail : MailService).
Definition subscribe_email (r : Request) : HW string :=
  _ ← check hasNews (http_Error "Service Unavailable" 503);
  email ← need (Decode (dec_struct subscribe_fields) "" r) nl_bad;
  _ ← check (negb (is_empty email)) (http_Error "Email required" 400);
  mret email.
Definition Subscribe (r : Request) : HW Resp :=
  email ← subscribe_email r;
  _ ← or_else (NewsletterStore.AddSubscriber email) (fun _ => http_Error "Internal Server Error" 500);
  mret (writeJSON 200 (OObj [("status", OStr "subscribed")])).
Definition Subscribers (r : Request) : HW Resp :=
  if negb hasNews then mret (writeJSON 200 (OArr [])) else
  subs ← or_else NewsletterStore.GetSubscribers (fun _ => http_Error "Internal Server Error" 500);
  mret (writeJSON 200 (oarr out_subscriber subs)).
Definition AddSubscriberHandler (r : Request) : HW Resp :=
  email ← subscribe_email r;
  _ ← or_else (NewsletterStore.AddSubscriber email) (fun _ => http_Error "Failed to add" 500);
  mret ok_empty.
Definition DeleteSubscriberHandler (r : Request) : HW Resp :=
  _ ← check hasNews (http_Error "Service Unavailable" 503);
  let email := Query r "email" in
  _ ← check (negb (is_empty email)) (http_Error "Email query param required" 400);
  _ ← or_else (NewsletterStore.DeleteSubscriber email) (fun e => http_ErrorOf "Failed to delete: " e 500);
  mret ok_empty.
Definition GetNewslettersHandler (r : Request) : HW Resp :=
  if negb hasNews then mret (writeJSON 200 (OArr [])) else
  list ← or_else NewsletterStore.GetNewsletters (fun _ => http_Error "Internal Server Error" 500);
  mret (writeJSON 200 (oarr out_newsletter list)).
(** A store that is missing is dereferenced by the handlers below. *)
Definition news_store : HW unit := check hasNews panicked.
Definition CreateNewsletter (r : Request) : HW Resp :=
  t ← now;
  created ← now;
  updated ← now;
  let n := mkNewsletter (Itoa (UnixNano t)) NewNewsletterSubject NewNewsletterContent "draft" 1 created updated None in
  _ ← news_store;
  _ ← or_else (NewsletterStore.SaveNewsletter n) (fun _ => http_Error "Failed to create" 500);
  mret (writeJSON 200 (out_newsletter n)).
(** The edit of a newsletter: only two states can be asked for. *)
Definition edit_newsletter (current req : Newsletter) (t : Time) : Newsletter :=
  mkNewsletter (NL_ID current) (NL_Subject req) (NL_Content req)
    (if seqb (NL_Status req) "draft" || seqb (NL_Status req) "ready" then NL_Status req else NL_Status current)
    (NL_Version current + 1) (NL_CreatedAt current) t (NL_SentAt current).
Definition UpdateNewsletter (r : Request) : HW Resp :=
  let id := URLParam r "id" in
  _ ← news_store;
  current ← or_else (NewsletterStore.GetNewsletter id) (fun _ => nl_missing);
  _ ← check (negb (seqb (NL_Status current) "sent")) (http_Error "Cannot edit sent newsletter" 403);
  req ← need (Decode (dec_struct newsletter_fields) zero_newsletter r) nl_bad;
  t ← now;
  let current := edit_newsletter current req t in
  _ ← or_else (NewsletterStore.SaveNewsletter current) (fun _ => http_Error "Failed to save" 500);
  mret (writeJSON 200 (out_newsletter current)).
Definition DeleteNewsletterHandler (r : Request) : HW Resp :=
  _ ← news_store;
  _ ← or_else (NewsletterStore.DeleteNewsletter (URLParam r "id")) (fun _ => http_Error "Failed to delete" 500);
  mret ok_empty.
(** How many messages left and how many were refused. *)
Fixpoint send_all (n : Newsletter) (subs : list Subscriber) : HW (Z * Z) :=
  match subs with
  | [] => mret (0, 0)
  | s :: subs =>
      sent ← attempt (Send mail (SB_Email s) (NL_Subject n) (NL_Content n));
      '(good, bad) ← send_all n subs;
      mret (match sent with Ok _ => (good + 1, bad) | Fail _ => (good, bad + 1) end)
  end.
Definition mark_sent (n : Newsletter) (t : Time) : Newsletter :=
  mkNewsletter (NL_ID n) (NL_Subject n) (NL_Content n) "sent" (NL_Version n) (NL_CreatedAt n) t (Some t).
Definition SendNewsletter (r : Request) : HW Resp :=
  let id := URLParam r "id" in
  _ ← news_store;
  n ← or_else (NewsletterStore.GetNewsletter id) (fun _ => nl_missing);
  _ ← check (seqb (NL_Status n) "ready" || seqb (NL_Status n) "sent")
        (http_Error "Newsletter must be 'ready' or 'sent' to send" 400);
  subs ← attempt NewsletterStore.GetSubscribers;
  '(good, bad) ← send_all n (match subs with Ok l => l | Fail _ => [] end);
  _ ← check (negb ((good =? 0) && (0 <? bad) && is_empty (Getenv mail "SMTP_HOST")))
        (http_Error "SMTP Configuration Missing" 500);
  t ← now;
  let n := mark_sent n t in
  _ ← or_else (NewsletterStore.SaveNewsletter n) (fun _ => http_Error "Failed to save status" 500);
  mret (writeJSON 200 (out_newsletter n)).
End newsletter.

(** ** The life of a newsletter

    An abstract shelf of articles: what a reader can know of the newsletters.
    The steps are the ones an editor expects, each read from the request: the
    article it names and, for an edit, the text it brings; the handlers take no
    other. *)
Record Article := mkArticle { AR_State : string; AR_Subject : string; AR_Content : string }.
Definition Shelf : Type := string -> option Article.
Definition article (n : Newsletter) : Article := mkArticle (NL_Status n) (NL_Subject n) (NL_Content n).
Definition shelf (d : DB) : Shelf := fun id => article <$> head (select (NewsletterStore.is_newsletter id) (newsletters d)).
(** The shelf with another article under one name. *)
Definition put (id : string) (a : option Article) (s : Shelf) : Shelf := fun j => if seqb j id then a else s j.
Inductive NewsletterOp := NLCreate | NLUpdate | NLDelete | NLSend.
Definition draft : Article := mkArticle "draft" NewNewsletterSubject NewNewsletterContent.
Definition edited (a : Article) (req : Newsletter) : Article :=
  mkArticle (if bool_decide (NL_Status req ∈ ["draft"; "ready"]) then NL_Status req else AR_State a) (NL_Subject req) (NL_Content req).
(** The steps of a request [r] received at [t]. *)
Inductive shelf_step (r : Request) (t : Time) (s : Shelf) : NewsletterOp -> Shelf -> Prop :=
  | shelf_create : shelf_step r t s NLCreate (put (Itoa (UnixNano t)) (Some draft) s)
  | shelf_edit a req : s (URLParam r "id") = Some a -> AR_State a <> "sent" ->
      Decode (dec_struct newsletter_fields) zero_newsletter r = Some req ->
      shelf_step r t s NLUpdate (put (URLParam r "id") (Some (edited a req)) s)
  | shelf_send a : s (URLParam r "id") = Some a -> AR_State a ∈ ["ready"; "sent"] ->
      shelf_step r t s NLSend (put (URLParam r "id") (Some (mkArticle "sent" (AR_Subject a) (AR_Content a))) s)
  | shelf_delete a : s (URLParam r "id") = Some a -> shelf_step r t s NLDelete (put (URLParam r "id") None s).
Definition newsletter_handler (hasNews : bool) (mail : MailService) (o : NewsletterOp) : Request -> HW Resp :=
  match o with
  | NLCreate => CreateNewsletter hasNews
  | NLUpdate => UpdateNewsletter hasNews
  | NLDelete => DeleteNewsletterHandler hasNews
  | NLSend => SendNewsletter hasNews mail
  end.

Lemma head_update_where {R} (p : R -> bool) (f : R -> R) rows : (forall r, p (f r) = p r) ->
  head (select p (update_where p f rows)) = f <$> head (select p rows).
Proof.
  intros Hp. induction rows as [|r rows IH]; [done|]. unfold select, update_where in *. cbn [map List.filter].
  destruct (p r) eqn:E; [rewrite Hp, E; done|rewrite E; exact IH].
Qed.
Lemma head_update_other {R} (p q : R -> bool) (f : R -> R) rows :
  (forall r, p r = true -> q r = false /\ q (f r) = false) -> head (select q (update_where p f rows)) = head (select q rows).
Proof.
  intros H. induction rows as [|r rows IH]; [done|]. unfold select, update_where in *. cbn [map List.filter].
  destruct (p r) eqn:E; [destruct (H r E) as [-> ->]; exact IH|]. by destruct (q r).
Qed.
Lemma select_app {R} (p : R -> bool) a b : select p (a ++ b) = select p a ++ select p b.
Proof. apply List.filter_app. Qed.
Lemma select_none {R} (p : R -> bool) rows : existsb p rows = false -> select p rows = [].
Proof. induction rows as [|r rows IH]; [done|]. cbn. destruct (p r); [done|exact IH]. Qed.
Lemma shelf_save n d j : shelf (on_newsletters (NewsletterStore.save_row n) d) j = put (NL_ID n) (Some (article n)) (shelf d) j.
Proof.
  unfold shelf, put, NewsletterStore.save_row. cbn [newsletters on_newsletters].
  destruct (seqb j (NL_ID n)) eqn:E.
  - apply seqb_spec in E as ->. destruct (existsb _ _) eqn:Ex.
    + rewrite head_update_where by done. apply existsb_exists in Ex as (r & Hr & Hi).
      destruct (select (NewsletterStore.is_newsletter (NL_ID n)) (newsletters d)) as [|x l] eqn:Es; [|done].
      assert (r ∈ select (NewsletterStore.is_newsletter (NL_ID n)) (newsletters d)) as H by (apply elem_of_select; by rewrite list_elem_of_In).
      rewrite Es in H. by apply elem_of_nil in H.
    + rewrite select_app, (select_none _ (newsletters d)) by done. cbn. unfold NewsletterStore.is_newsletter. by rewrite seqb_refl.
  - destruct (existsb _ _) eqn:Ex.
    + rewrite head_update_other; [done|]. unfold NewsletterStore.is_newsletter. cbn [NL_ID]. intros r Hr%seqb_spec. rewrite Hr.
      destruct (seqb (NL_ID n) j) eqn:E2; [|done]. apply seqb_spec in E2 as <-. by rewrite seqb_refl in E.
    + rewrite select_app. cbn [select List.filter].
      assert (NewsletterStore.is_newsletter j n = false) as ->; [|by rewrite app_nil_r].
      unfold NewsletterStore.is_newsletter. destruct (seqb (NL_ID n) j) eqn:E2; [|done]. apply seqb_spec in E2 as <-. by rewrite seqb_refl in E.
Qed.
Lemma shelf_deleted id d j :
  shelf (on_newsletters (delete_where (NewsletterStore.is_newsletter id)) d) j = put id None (shelf d) j.
Proof.
  unfold shelf, put. cbn [newsletters on_newsletters]. induction (newsletters d) as [|n rows IH]; [by destruct (seqb j id)|].
  unfold select, delete_where in *. cbn [List.filter]. destruct (NewsletterStore.is_newsletter id n) eqn:E; cbn [negb List.filter].
  - rewrite IH. apply seqb_spec in E. destruct (seqb j id) eqn:Ej; [done|].
    assert (NewsletterStore.is_newsletter j n = false) as ->; [|done]. unfold NewsletterStore.is_newsletter.
    destruct (seqb (NL_ID n) j) eqn:E2; [|done]. apply seqb_spec in E2. rewrite <-E, E2, seqb_refl in Ej. done.
  - destruct (NewsletterStore.is_newsletter j n) eqn:E2; [|exact IH]. cbn. destruct (seqb j id) eqn:Ej; [|done].
    apply seqb_spec in Ej as ->. congruence.
Qed.

(** *** What a refused request leaves *)
Lemma save_clean n : fails_clean (NewsletterStore.SaveNewsletter n).
Proof. repeat (apply clean_bind; [intros; auto with preserves|intros _]). apply clean_never, never_modify. Qed.
Lemma delete_keep_nothing id w : count_where (NewsletterStore.is_newsletter id) (newsletters (db w)) = 0 ->
  db (on_db (on_newsletters (delete_where (NewsletterStore.is_newsletter id))) w) = db w.
Proof.
  intros H. assert (delete_where (NewsletterStore.is_newsletter id) (newsletters (db w)) = newsletters (db w)) as Hd.
  { unfold count_where, select in H. unfold delete_where. induction (newsletters (db w)) as [|n rows IH]; [done|].
    cbn [List.filter] in *. destruct (NewsletterStore.is_newsletter id n); [cbn [length] in H; lia|]. cbn [negb]. by rewrite IH. }
  cbn. unfold on_newsletters. rewrite Hd. by destruct (db w).
Qed.
Lemma delete_clean id : fails_clean (NewsletterStore.DeleteNewsletter id).
Proof.
  apply clean_bind; [intros; auto with preserves|]. intros _ w e w'.
  rewrite M_bind_run. cbn [gets]. rewrite M_bind_run. cbn [modify]. unfold guard_err. destruct (_ =? 0) eqn:E; [|done].
  intros [= _ <-]. apply delete_keep_nothing. by apply Z.eqb_eq.
Qed.
Lemma send_all_keeps mail n subs I : preserves (db_inv I) (send_all mail n subs).
Proof.
  induction subs as [|s subs IH]; cbn [send_all]; [apply preserves_ret|]. apply preserves_bind.
  - unfold attempt. apply preserves_try. unfold Send. preserves_tac. intros w Hw. exact Hw.
  - intros sent. apply preserves_bind; [exact IH|]. intros [good bad]. apply preserves_ret.
Qed.
Lemma get_newsletter_keeps id I : preserves (db_inv I) (NewsletterStore.GetNewsletter id).
Proof. unfold NewsletterStore.GetNewsletter. preserves_tac. Qed.
#[export] Hint Resolve send_all_keeps get_newsletter_keeps : preserves.
Lemma newsletter_clean hasNews mail o r : fails_clean (newsletter_handler hasNews mail o r).
Proof.
  destruct o; cbn [newsletter_handler];
    unfold CreateNewsletter, UpdateNewsletter, DeleteNewsletterHandler, SendNewsletter, news_store, NewsletterStore.GetSubscribers;
    repeat (first [apply clean_last; [apply clean_or_else; first [apply save_clean|apply delete_clean] |intros; apply never_ret]
                  |apply clean_bind; [intros; handler_tac|intros] | match goal with |- fails_clean (let (_, _) := ?x in _) => destruct x end]).
Qed.
Lemma send_all_throws mail n subs P : throws P (send_all mail n subs).
Proof. induction subs as [|s subs IH]; cbn [send_all]; throws_tac. Qed.
#[export] Hint Resolve send_all_throws : throws.
Lemma newsletter_throws hasNews mail o r : throws (fun resp => Status resp <> 200) (newsletter_handler hasNews mail o r).
Proof.
  destruct o; cbn [newsletter_handler];
    unfold CreateNewsletter, UpdateNewsletter, DeleteNewsletterHandler, SendNewsletter, news_store; throws_tac; try done.
Qed.
Lemma GetNewsletter_run id w n w' : NewsletterStore.GetNewsletter id w = (Ok n, w') ->
  db w' = db w /\ NL_ID n = id /\ shelf (db w) id = Some (article n).
Proof.
  intros H. split; [by eapply keeps_run; [|exact H]; auto with preserves|]. unfold NewsletterStore.GetNewsletter in H. mrun. subst.
  unfold shelf. destruct (get_row _ _) as [n'|e] eqn:E; [|by case_bool_decide]. injection H as ->. pose proof E as Hr.
  apply get_row_Ok in Hr as [_ Hi%seqb_spec]. split; [done|]. unfold get_row in E. destruct (head _); [|done]. by injection E as ->.
Qed.
Lemma Save_run n w u w' : NewsletterStore.SaveNewsletter n w = (Ok u, w') ->
  forall j, shelf (db w') j = put (NL_ID n) (Some (article n)) (shelf (db w)) j.
Proof.
  intros H j. unfold NewsletterStore.SaveNewsletter in H. mrun. subst. rewrite <-(shelf_save n).
  match goal with H : db ?a = db w |- _ => rewrite <-H end. done.
Qed.
Lemma Save_since n c P : preserves (since c (fun _ => P)) (NewsletterStore.SaveNewsletter n).
Proof. unfold NewsletterStore.SaveNewsletter. since_tac. done. Qed.
Lemma newsletter_since hasNews mail o r c : preserves (since c (fun _ => True)) (newsletter_handler hasNews mail o r).
Proof.
  assert (forall n subs, preserves (since c (fun _ => True)) (send_all mail n subs)) as Hall.
  { intros n subs. induction subs as [|x subs IH]; cbn [send_all]; [since_tac|]. unfold attempt, Send.
    since_tac. all: intros w Hw; exact Hw. }
  destruct o; cbn [newsletter_handler];
    unfold CreateNewsletter, UpdateNewsletter, DeleteNewsletterHandler, SendNewsletter, news_store, or_else, check, need, attempt,
      NewsletterStore.SaveNewsletter, NewsletterStore.GetNewsletter, NewsletterStore.DeleteNewsletter, NewsletterStore.GetSubscribers;
    since_tac; done.
Qed.
(** One step of the shelf at a time of the run. *)
Definition steps (r : Request) (o : NewsletterOp) (w w' : World) : Prop :=
  exists t s, clock w <= t <= clock w' /\ shelf_step r t (shelf (db w)) o s /\ forall j, shelf (db w') j = s j.
Lemma CreateNewsletter_step hasNews r w resp w' : CreateNewsletter hasNews r w = (Ok resp, w') ->
  Status resp = 200 /\ steps r NLCreate w w'.
Proof.
  intros H. unfold CreateNewsletter, news_store in H. hrun.
  repeat match goal with H : now _ = (Ok _, _) |- _ => apply now_Ok_inv in H as (? & ? & ?) end. split; [done|].
  match goal with H : NewsletterStore.SaveNewsletter _ _ = _ |- _ =>
    pose proof (Save_run _ _ _ _ H) as Hs; apply clock_run in H; [|apply Save_since] end.
  match type of Hs with context [UnixNano ?t] => exists t; eexists end. split; [cbn in *; lia|]. split; [apply shelf_create|].
  intros j. rewrite Hs. unfold article. cbn.
  repeat match goal with H : db _ = db _ |- _ => rewrite H; clear H end. done.
Qed.
(** The shelf after a save, seen from the tables before the calls that only read. *)
Lemma saved_step r o n w w0 w2 u w' s : clock w0 <= clock w' -> NewsletterStore.SaveNewsletter n w = (Ok u, w') -> db w = db w0 ->
  shelf_step r (clock w0) (shelf (db w0)) o s -> s = put (NL_ID n) (Some (article n)) (shelf (db w0)) -> w2 = w' -> steps r o w0 w2.
Proof. intros Hc H Hd Hs -> ->. exists (clock w0). eexists. split; [lia|]. split; [exact Hs|]. rewrite <-Hd. by eapply Save_run. Qed.
Lemma UpdateNewsletter_step hasNews r w resp w' : clock w <= clock w' -> UpdateNewsletter hasNews r w = (Ok resp, w') ->
  Status resp = 200 /\ steps r NLUpdate w w'.
Proof.
  intros Hc H. unfold UpdateNewsletter, news_store in H. hrun. split; [done|].
  match goal with H : NewsletterStore.GetNewsletter _ _ = _ |- _ => apply GetNewsletter_run in H as (Hd & Hi & Ha) end.
  match goal with H : now _ = _ |- _ => apply now_Ok_inv in H as (Ht & _) end.
  match goal with H : negb _ = true |- _ => apply negb_true_iff in H as Hns end.
  match goal with H : NewsletterStore.SaveNewsletter _ _ = _, Hq : Decode _ _ _ = Some ?q |- _ =>
    eapply (saved_step r NLUpdate); [exact Hc|exact H|congruence|eapply (shelf_edit _ _ _ _ q); [exact Ha| |exact Hq]| |done] end.
  - cbn. intros E. rewrite E in Hns. done.
  - cbn [NL_ID edit_newsletter]. rewrite Hi. unfold edited, article. cbn. do 3 f_equal.
    match goal with |- context [seqb ?x "draft"] => pose proof (seqb_spec x "draft"); pose proof (seqb_spec x "ready") end.
    case_bool_decide as E; rewrite !elem_of_cons, elem_of_nil in E;
      repeat match goal with |- context [seqb ?x ?y] => destruct (seqb x y) end; cbn [orb]; naive_solver.
Qed.
Lemma SendNewsletter_step hasNews mail r w resp w' : clock w <= clock w' -> SendNewsletter hasNews mail r w = (Ok resp, w') ->
  Status resp = 200 /\ steps r NLSend w w'.
Proof.
  intros Hc H. unfold SendNewsletter, news_store in H. hrun.
  match goal with H : (let (_, _) := ?p in _) _ = _ |- _ => destruct p as [good bad] end. hrun. split; [done|].
  repeat match goal with
  | H : NewsletterStore.GetNewsletter _ _ = _ |- _ => apply GetNewsletter_run in H as (Hd & Hi & Ha)
  | H : now _ = _ |- _ => apply now_Ok_inv in H as (Ht & _)
  | H : send_all _ _ _ _ = _ |- _ => apply keeps_run in H; [|apply send_all_keeps]
  | H : NewsletterStore.GetSubscribers _ = _ |- _ => apply keeps_run in H; [|unfold NewsletterStore.GetSubscribers; auto with preserves]
  | H : _ || _ = true |- _ => apply orb_true_iff in H as Hst
  end.
  match goal with H : NewsletterStore.SaveNewsletter _ _ = _ |- _ =>
    eapply (saved_step r NLSend); [exact Hc|exact H|congruence|eapply shelf_send; [exact Ha|]| |done] end.
  - unfold article. cbn [AR_State]. destruct Hst as [E|E]; apply seqb_spec in E; rewrite E; [left|right; left].
  - cbn [NL_ID mark_sent]. by rewrite Hi.
Qed.
Lemma DeleteNewsletter_step hasNews r w resp w' : clock w <= clock w' -> DeleteNewsletterHandler hasNews r w = (Ok resp, w') ->
  Status resp = 200 /\ steps r NLDelete w w'.
Proof.
  intros Hc H. unfold DeleteNewsletterHandler, news_store, NewsletterStore.DeleteNewsletter in H. hrun. split; [done|]. mrun. subst.
  match goal with H : (_ =? 0) = false |- _ => apply Z.eqb_neq in H as Hn end.
  match goal with H : db _ = db w |- _ => rename H into Hd end. rewrite Hd in Hn.
  destruct (shelf (db w) (URLParam r "id")) as [a|] eqn:Ea.
  - exists (clock w). eexists. split; [lia|]. split; [eapply shelf_delete; exact Ea|]. intros j. rewrite <-shelf_deleted, <-Hd. done.
  - exfalso. apply Hn. unfold shelf in Ea. unfold count_where. by destruct (select _ _).
Qed.
(** A sent article keeps its text until it is deleted, or its name taken. *)
Lemma sent_frozen r t s o s' id a : shelf_step r t s o s' -> s id = Some a -> AR_State a = "sent" ->
  s' id = Some a \/ (o = NLDelete /\ id = URLParam r "id" /\ s' id = None) \/ (o = NLCreate /\ id = Itoa (UnixNano t)).
Proof.
  intros Hs Ha Hst. destruct Hs as [|b q Hb Hb1 _|b Hb _|b Hb]; unfold put;
    match goal with |- context [seqb id ?i] => destruct (seqb id i) eqn:E end; auto; apply seqb_spec in E as ->; try congruence; auto.
  assert (a = b) as <- by congruence. destruct a as [st su co]. cbn in *. subst st. by left.
Qed.
(** C26. The handlers of the newsletters refine the shelf of articles: an answer
    200 is exactly one step of the operation asked for, on the article the request
    names: a draft appears under the nanosecond of a clock reading of the run; an
    article that was not sent takes the subject and the content of the body, and
    its state when it is one an editor may choose; a ready or sent article becomes
    sent with its text unchanged; an article disappears. Every other article stays
    as it was, and any other answer leaves them all. So a sent article never
    changes again: it stays, it is deleted by its name, or a newsletter is created
    in the very nanosecond it is named after. *)
Theorem newsletter_refines_shelf hasNews mail o r w resp w' :
  serve (newsletter_handler hasNews mail o r) w = (resp, w') ->
  (Status resp <> 200 -> forall j, shelf (db w') j = shelf (db w) j) /\
  (Status resp = 200 -> exists t s, clock w <= t <= clock w' /\ shelf_step r t (shelf (db w)) o s /\ forall j, shelf (db w') j = s j) /\
  (forall id a, shelf (db w) id = Some a -> AR_State a = "sent" ->
     shelf (db w') id = Some a \/ (o = NLDelete /\ id = URLParam r "id" /\ shelf (db w') id = None) \/
     (o = NLCreate /\ exists t, clock w <= t <= clock w' /\ id = Itoa (UnixNano t))).
Proof.
  intros H. unfold serve in H.
  destruct (newsletter_handler hasNews mail o r w) as [[x|e] w1] eqn:E; injection H as -> ->.
  - pose proof (clock_run _ _ _ _ (newsletter_since _ _ _ _ _) E) as Hc.
    enough (Status resp = 200 /\ steps r o w w') as [Hs H].
    { split_and!; [intros ?; congruence|done|]. intros id a Ha Hst. destruct H as (t & s & Ht & Hstep & Hj). rewrite Hj.
      destruct (sent_frozen _ _ _ _ _ _ _ Hstep Ha Hst) as [|[|[-> ->] ] ]; [by left|by right; left|]. right; right. eauto. }
    destruct o; cbn [newsletter_handler] in E;
      [by apply CreateNewsletter_step in E|by apply UpdateNewsletter_step in E
      |by apply DeleteNewsletter_step in E|by apply SendNewsletter_step in E].
  - pose proof (newsletter_throws _ _ _ _ _ _ _ E) as Hs. apply newsletter_clean in E. rewrite E. split_and!; auto. done.
Qed.
Definition newsletter_demo : World :=
  on_db (on_newsletters (fun _ => [mkNewsletter "1" "Hello" "World" "sent" 3 0 50 (Some 50);
    mkNewsletter "2" "Draft" "Text" "ready" 1 0 60 None])) (empty_world 100 []).
Definition newsletter_request (id : string) : Request :=
  mkRequest "POST" (Some "a@b.c") None None {["id" := id]} ∅ ∅ "" None.
Definition newsletter_edit (id : string) : Request :=
  mkRequest "PUT" (Some "a@b.c") None None {["id" := id]} ∅ ∅ ""
    (Some (mkBody (JObj [("content", JStr "C"); ("subject", JStr "S"); ("status", JStr "sent")]) 60 None)).
Lemma newsletter_refines_shelf_witness :
  let mail := mkMailService (fun _ => "") (fun _ _ _ _ _ _ => None) map_to_list in
  let served := serve (newsletter_handler true mail NLUpdate (newsletter_edit "2")) newsletter_demo in
  Status served.1 = 200 /\
  (exists t s, clock newsletter_demo <= t <= clock served.2 /\
     shelf_step (newsletter_edit "2") t (shelf (db newsletter_demo)) NLUpdate s /\ forall j, shelf (db served.2) j = s j) /\
  shelf (db served.2) "2" = Some (mkArticle "ready" "S" "C").
Proof.
  intros mail served. assert (Status served.1 = 200) as Hs by (vm_compute; reflexivity).
  split; [exact Hs|]. split; [|vm_compute; reflexivity].
  apply (newsletter_refines_shelf true mail NLUpdate (newsletter_edit "2") newsletter_demo served.1 served.2 (surjective_pairing _)), Hs.
Defined.
(** A relay that is configured and refuses every message: the newsletter is
    sent all the same. *)
Definition refusing_mail : MailService :=
  mkMailService (fun name => if seqb name "SMTP_PORT" then "25" else "x")
    (fun _ _ _ _ _ _ => Some (Sentinel "refused")) map_to_list.
Example refused_newsletter_is_sent :
  let w := on_db (on_newsletter_subscribers (fun _ => [mkSubscriber "a@b.c" 1])) newsletter_demo in
  let served := serve (SendNewsletter true refusing_mail (newsletter_request "2")) w in
  Status served.1 = 200 /\ outbox served.2 = [] /\ option_map AR_State (shelf (db served.2) "2") = Some "sent".
Proof. vm_compute. done. Qed.
