(* ===== verification/Sensitive.v ===== *)
(** * Support reports: what may be published

    Models [internal/support/sensitive.go], the filter that refuses a report
    holding a password, a secret, an address of mail or a postal address, and
    [internal/support/render.go], the text of the issue.

    The filter works on runes.  Lower case is written out for the letters whose
    lower case a pattern or the folding of accents names; the others belong to
    no class of the patterns, in either case. *)
From S2P Require Import Prelude GoStr Regex Json JsonText.
#[global] Open Scope Z_scope.

(** ** sensitive.go *)
Definition CategoryPassword : string := "password".
Definition CategorySecret : string := "secret".
Definition CategoryPostalAddress : string := "postal_address".
Definition CategoryEmail : string := "email".
Record rule := mkRule { category : string; re : string }.
Definition rules : list rule :=
  [mkRule CategoryPassword "\b(mot[ -]de[ -]passe|mdp|password|passwd|pwd|passcode|pin|code d'?acces|code acces|code wifi|cle wifi)\s*(est|is)?\s*[:=]\s*\S+";
   mkRule CategoryPassword "\b(mot[ -]de[ -]passe|mdp|password|passwd)\s+(est|is|c'est)\s+\S{4,}";
   mkRule CategorySecret "eyj[a-z0-9_-]{8,}\.[a-z0-9_-]{8,}\.[a-z0-9_-]{8,}";
   mkRule CategorySecret "-----begin [a-z ]*private key-----";
   mkRule CategorySecret "\b(ghp|gho|ghs|ghu|ghr)_[a-z0-9]{20,}|\bgithub_pat_[a-z0-9_]{20,}|\bsk-[a-z0-9_-]{20,}|\bakia[0-9a-z]{16}\b|\bnrak-[a-z0-9]{20,}|\bnrjs-[a-z0-9]{10,}|\batatt[a-z0-9_=-]{20,}";
   mkRule CategorySecret "\b[0-9a-f]{32,}\b";
   mkRule CategorySecret "[a-z0-9+/]{40,}={0,2}";
   mkRule CategoryEmail "[a-z0-9._%+-]+@[a-z0-9.-]+\.[a-z]{2,}";
   mkRule CategoryPostalAddress "\b\d{1,4}\s*(bis|ter)?\s*,?\s*(rue|avenue|av|bd|boulevard|chemin|allee|impasse|place|route|quai|cours|lieu[ -]dit|residence|square|chaussee|faubourg|hameau|lotissement|sentier|voie)\b\.?\s+\S+";
   mkRule CategoryPostalAddress "(^|[^\d.,:])(\d{5})\s+([a-z][a-z'-]{2,})"].
Example rules_parse : forallb (fun r => match compile (re r) with Some _ => true | None => false end) rules = true.
Proof. vm_compute. reflexivity. Qed.
Definition notCityWords : list string :=
  ["ms"; "sec"; "secondes"; "seconds"; "minutes"; "octets"; "bytes"; "lux"; "watts"; "kwh"; "requetes"; "requests";
   "lignes"; "lines"; "fois"; "times"; "tours"; "points"; "erreurs"; "errors"; "messages"; "euros"; "eur"; "port";
   "ports"; "tests"; "items"; "entrees"].
(** The runes of a text, an invalid byte being U+FFFD. *)
Definition rune_list (s : string) : list Z := map fst (runes s).
Definition lower_rune (r : Z) : Z :=
  if ((65 <=? r) && (r <=? 90)) || ((192 <=? r) && (r <=? 222) && negb (r =? 215)) then r + 32
  else if r =? 304 then 105 else if r =? 338 then 339 else if r =? 376 then 255
  else if r =? 8490 then 107 else if r =? 8491 then 229 else r.
Definition accents : list (string * string) :=
  [("à", "a"); ("â", "a"); ("ä", "a"); ("á", "a"); ("ç", "c"); ("é", "e"); ("è", "e"); ("ê", "e"); ("ë", "e");
   ("î", "i"); ("ï", "i"); ("í", "i"); ("ô", "o"); ("ö", "o"); ("ó", "o"); ("ù", "u"); ("û", "u"); ("ü", "u"); ("ú", "u");
   ("ÿ", "y"); ("œ", "oe"); ("æ", "ae"); ("’", "'")].
Definition foldAccents (r : Z) : list Z :=
  match find (fun a => bool_decide (rune_list a.1 = [r])) accents with
  | Some a => rune_list a.2
  | None => [r]
  end.
Definition normalise (s : string) : list Z := flat_map (fun r => foldAccents (lower_rune r)) (rune_list s).
(** The rule for a postal code looks at every match; the others at the first. *)
Definition is_code_rule (r : rule) : bool := seqb (category r) CategoryPostalAddress && Contains (re r) "\d{5}".
Definition is_not_city (w : list Z) : bool := existsb (fun word => bool_decide (rune_list word = w)) notCityWords.
Definition rule_detects (n : list Z) (r : rule) : bool :=
  if is_code_rule r
  then existsb (fun m => negb (is_not_city (group m.2 3))) (FindAll (MustCompile (re r)) n)
  else MatchString (MustCompile (re r)) n.
(** The empty text for a text that looks safe. *)
Definition DetectSensitive (s : string) : string :=
  match find (rule_detects (normalise s)) rules with Some r => category r | None => "" end.

Example detects : map DetectSensitive
  ["Mon Mot-de-Passe est : tulipe"; "le MDP c'est azerty"; "le mot de passe ne marche pas"; "écrire à Jean.Dupont@free.fr";
   "12 bis, Allée des Roses"; "j'habite 38000 Grenoble"; "il attend 15000 secondes"; "12:10500 volets";
   "0123456789abcdef0123456789abcdef"; "La cle wifi= x"] =
  ["password"; "password"; ""; "email"; "postal_address"; "postal_address"; ""; ""; "secret"; "password"].
Proof. vm_compute. reflexivity. Qed.

(** ** render.go *)
Definition KindBug : string := "bug".
Definition KindIncident : string := "incident".
Record Fields := mkFields {
  F_App : string; F_Version : string; F_Mode : string; F_Since : string; F_Impact : string;
  F_Actual : string; F_Expected : string; F_Steps : string; F_Tried : string }.
Definition label_of (labels : list (string * string)) (v : string) : string :=
  match find (fun l => seqb l.1 v) labels with Some l => l.2 | None => "" end.
Definition appLabels : list (string * string) :=
  [("web", "Portail web"); ("ios", "App iPhone"); ("android", "App Android"); ("gateway", "Gateway locale"); ("other", "Autre")].
Definition modeLabels : list (string * string) :=
  [("cloud", "Cloud (mon.essensys.fr)"); ("lan", "Réseau local"); ("unknown", "Je ne sais pas")].
Definition impactLabels : list (string * string) :=
  [("module", "Un module"); ("local", "Toute la domotique locale"); ("remote", "Accès distant / portail cloud");
   ("hardware", "Matériel, alimentation ou réseau"); ("unknown", "Je ne sais pas")].
(** [strings.ReplaceAll] on texts. *)
Definition replaceAll (s old new : string) : string := text (ReplaceAll (quote s) (quote old) (quote new)).
(** The space of no width, U+200B. *)
Definition zero_width : string := str [chr 226; chr 128; chr 139].
Definition neutralise (s : string) : string :=
  let s := replaceAll s "&" "&amp;" in
  let s := replaceAll s "<" "&lt;" in
  let s := replaceAll s ">" "&gt;" in
  replaceAll s "@" ("@" ++ zero_width).
Definition newline : string := str [chr 10].
Definition IssueTitle (kind title : string) : string :=
  ((if seqb kind KindIncident then "[Incident] " else "[Bug] ")
   ++ replaceAll (neutralise (TrimSpace title)) newline " ")%string.
(** A row of the table and a section: nothing for an empty value. *)
Definition issue_row (label v : string) : string :=
  if is_empty v then "" else ("| " ++ label ++ " | " ++ replaceAll (neutralise v) "|" "\|" ++ " |" ++ newline)%string.
Definition issue_section (title v : string) : string :=
  let v := TrimSpace v in
  if is_empty v then "" else (newline ++ "### " ++ title ++ newline ++ newline ++ neutralise v ++ newline)%string.
Definition IssueBody (kind : string) (f : Fields) (userRef reportRef : string) : string :=
  ("| Champ | Valeur |" ++ newline ++ "|---|---|" ++ newline
   ++ (if seqb kind KindBug
       then issue_row "Application" (label_of appLabels (F_App f)) ++ issue_row "Version" (F_Version f)
            ++ issue_row "Connexion" (label_of modeLabels (F_Mode f))
       else issue_row "Impact" (label_of impactLabels (F_Impact f)) ++ issue_row "Depuis" (F_Since f)
            ++ issue_row "Connexion" (label_of modeLabels (F_Mode f)))
   ++ issue_section "Ce qui se passe" (F_Actual f)
   ++ issue_section "Ce qui était attendu" (F_Expected f)
   ++ issue_section "Étapes pour reproduire" (F_Steps f)
   ++ issue_section "Ce qui a déjà été essayé" (F_Tried f)
   ++ newline ++ "---" ++ newline ++ "Signalé depuis www.essensys.fr par un utilisateur Essensys (" ++ userRef
   ++ ", réf. " ++ reportRef ++ ")." ++ newline)%string.
Example neutralised : neutralise "<b>@ops</b> & co" = ("&lt;b&gt;@" ++ zero_width ++ "ops&lt;/b&gt; &amp; co")%string.
Proof. vm_compute. reflexivity. Qed.

(** ** The text of an issue is inert *)
(** One pass over the text. *)
Definition escape (c : Z) : list Z :=
  if c =? 38 then quote "&amp;" else if c =? 60 then quote "&lt;" else if c =? 62 then quote "&gt;"
  else if c =? 64 then quote ("@" ++ zero_width) else [c].
Lemma replace_char l c new : ReplaceAll l [c] new = flat_map (fun x => if x =? c then new else [x]) l.
Proof.
  unfold ReplaceAll. induction l as [|x l IH]; [done|]. cbn [replace_skip has_prefix length Nat.sub flat_map].
  rewrite andb_true_r, Z.eqb_sym. destruct (x =? c); rewrite IH; done.
Qed.
Lemma flat_map_flat_map {A B C} (f : A -> list B) (g : B -> list C) l :
  flat_map g (flat_map f l) = flat_map (fun x => flat_map g (f x)) l.
Proof. induction l as [|x l IH]; [done|]. cbn [flat_map]. by rewrite List.flat_map_app, IH. Qed.
Lemma quote_range s : Forall (fun c => 0 <= c < 256) (quote s).
Proof. unfold quote. apply Forall_fmap, Forall_true. intros c. apply ord_range. Qed.
Lemma quote_text l : Forall (fun c => 0 <= c < 256) l -> quote (text l) = l.
Proof.
  intros H. unfold quote, text. rewrite bytes_str, map_map. induction H as [|c l Hc _ IH]; [done|].
  cbn [map]. by rewrite ord_chr, IH.
Qed.
Lemma quote_app a b : quote (a ++ b)%string = quote a ++ quote b.
Proof. unfold quote. by rewrite bytes_app, map_app. Qed.
Lemma flat_map_range (f : Z -> list Z) l : (forall c, 0 <= c < 256 -> Forall (fun c => 0 <= c < 256) (f c)) ->
  Forall (fun c => 0 <= c < 256) l -> Forall (fun c => 0 <= c < 256) (flat_map f l).
Proof. intros Hf H. induction H; [constructor|]. cbn [flat_map]. apply Forall_app. split; [by apply Hf|done]. Qed.
Lemma quote_replace s c old new : quote old = [c] ->
  quote (replaceAll s old new) = flat_map (fun x => if x =? c then quote new else [x]) (quote s).
Proof.
  intros Ho. unfold replaceAll. rewrite Ho, replace_char. apply quote_text, flat_map_range; [|apply quote_range].
  intros x Hx. destruct (x =? c); [apply quote_range|by constructor].
Qed.
(** The four passes are the one pass: none sees what another one wrote. *)
Lemma neutralise_once s : quote (neutralise s) = flat_map escape (quote s).
Proof.
  unfold neutralise. rewrite (quote_replace _ 64), (quote_replace _ 62), (quote_replace _ 60), (quote_replace _ 38) by done.
  rewrite !flat_map_flat_map. apply flat_map_ext. intros c. unfold escape.
  destruct (c =? 38) eqn:E1; [reflexivity|]. cbn [flat_map]. rewrite app_nil_r.
  destruct (c =? 60) eqn:E2; [reflexivity|]. cbn [flat_map]. rewrite app_nil_r.
  destruct (c =? 62) eqn:E3; [reflexivity|]. cbn [flat_map]. by rewrite app_nil_r.
Qed.
(** No tag can start or end, and no mention can follow an at sign. *)
Definition zw : list Z := quote zero_width.
Fixpoint inertb (l : list Z) : bool :=
  match l with
  | [] => true
  | c :: r => negb (c =? 60) && negb (c =? 62) && (negb (c =? 64) || has_prefix zw r) && inertb r
  end.
Definition inert (s : string) : Prop :=
  forall before c after, quote s = before ++ c :: after ->
    c <> 60 /\ c <> 62 /\ (c = 64 -> exists rest, after = zw ++ rest).
Lemma inertb_spec l : inertb l = true <->
  forall before c after, l = before ++ c :: after -> c <> 60 /\ c <> 62 /\ (c = 64 -> exists rest, after = zw ++ rest).
Proof.
  induction l as [|x l IH]; cbn [inertb].
  - split; [|done]. intros _ [|] c after [=].
  - rewrite !andb_true_iff, !negb_true_iff, orb_true_iff, negb_true_iff, has_prefix_spec, IH, !Z.eqb_neq. split.
    + intros (((H1 & H2) & H3) & H) [|y before] c after [= <- ->]; [|by eapply H]. split_and!; [done..|]. by intros ->; destruct H3.
    + intros H. destruct (H [] x l eq_refl) as (H1 & H2 & H3). split_and!; [done..| |].
      * destruct (decide (x = 64)) as [->|]; [right; by apply H3|by left].
      * intros before c after ->. by eapply (H (x :: before)).
Qed.
Lemma has_prefix_more p l r : has_prefix p l = true -> has_prefix p (l ++ r) = true.
Proof. rewrite !has_prefix_spec. intros [k ->]. exists (k ++ r). by rewrite app_assoc. Qed.
Lemma inertb_app a b : inertb a = true -> inertb b = true -> inertb (a ++ b) = true.
Proof.
  intros Ha Hb. induction a as [|c a IH]; [done|]. cbn [app inertb] in *.
  apply andb_true_iff in Ha as [H1 H2]. rewrite IH, andb_true_r by done. apply andb_true_iff in H1 as [-> H1].
  apply orb_true_iff in H1 as [->|H1]; [done|]. by rewrite has_prefix_more, orb_true_r.
Qed.
Lemma inertb_flat_map {A} (f : A -> list Z) l : (forall c, inertb (f c) = true) -> inertb (flat_map f l) = true.
Proof. intros Hf. induction l as [|c l IH]; [done|]. cbn [flat_map]. by apply inertb_app. Qed.
Lemma neutralise_inert s : inertb (quote (neutralise s)) = true.
Proof.
  rewrite neutralise_once. apply inertb_flat_map. intros c. unfold escape.
  destruct (c =? 38); [done|]. destruct (c =? 60) eqn:E1; [done|]. destruct (c =? 62) eqn:E2; [done|].
  destruct (c =? 64) eqn:E3; [done|]. cbn [inertb]. by rewrite E1, E2, E3.
Qed.
(** Replacing another character by a harmless text changes nothing to it. *)
Lemma inertb_replace s old c new : quote old = [c] -> c ∉ 64 :: zw -> inertb (quote new) = true ->
  inertb (quote s) = true -> inertb (quote (replaceAll s old new)) = true.
Proof.
  intros Ho Hc Hn Hs. rewrite (quote_replace _ _ _ _ Ho). revert Hs. induction (quote s) as [|x l IH]; [done|].
  cbn [inertb flat_map]. intros [ [H1 H2]%andb_true_iff Hl]%andb_true_iff. specialize (IH Hl).
  destruct (x =? c) eqn:E; [by apply inertb_app|]. cbn [app inertb]. rewrite H1, IH, andb_true_r.
  apply orb_true_iff in H2 as [->|H2]; [done|]. apply orb_true_iff. right.
  apply has_prefix_spec in H2 as [r ->]. apply has_prefix_spec. exists (flat_map (fun x => if x =? c then quote new else [x]) r).
  rewrite List.flat_map_app. f_equal. apply not_elem_of_cons in Hc as [_ Hc]. revert Hc. generalize zw. intros p Hp.
  induction p as [|y p IHp]; [done|]. apply not_elem_of_cons in Hp as [Hy Hp]. cbn [flat_map].
  assert ((y =? c) = false) as -> by lia. by rewrite IHp.
Qed.
Lemma issue_row_inert label v : inertb (quote label) = true -> inertb (quote (issue_row label v)) = true.
Proof.
  intros Hl. unfold issue_row. destruct (is_empty v); [done|]. rewrite !quote_app.
  repeat apply inertb_app; try done. apply (inertb_replace _ _ 124); [done| |done|apply neutralise_inert].
  apply (bool_decide_unpack _). vm_compute. exact I.
Qed.
Lemma issue_section_inert title v : inertb (quote title) = true -> inertb (quote (issue_section title v)) = true.
Proof.
  intros Hl. unfold issue_section. destruct (is_empty _); [done|]. rewrite !quote_app.
  repeat apply inertb_app; try done. apply neutralise_inert.
Qed.
(** C25. Whatever a user typed, the title and the body of the issue hold no
    angle bracket, and a space of no width follows every at sign: GitHub sees no
    tag and notifies nobody. The two references are the server's own, a keyed hash
    and random characters, and are supposed to hold neither sign. *)
Theorem issue_text_inert kind title f userRef reportRef : inert userRef -> inert reportRef ->
  inert (IssueTitle kind title) /\ inert (IssueBody kind f userRef reportRef).
Proof.
  unfold inert. rewrite <-!inertb_spec. intros Hu Hr. split.
  - unfold IssueTitle. rewrite quote_app. apply inertb_app; [by destruct (seqb _ _)|].
    apply (inertb_replace _ _ 10); [done| |done|apply neutralise_inert]. apply (bool_decide_unpack _). vm_compute. exact I.
  - unfold IssueBody. rewrite !quote_app. repeat apply inertb_app; try done.
    all: try (by apply issue_section_inert). destruct (seqb kind KindBug); rewrite !quote_app.
    all: repeat apply inertb_app; by apply issue_row_inert.
Qed.
Lemma issue_text_inert_witness :
  let f := mkFields "web" "1|2<3" "lan" "" "" "@ops <script>" "" "" "" in
  inert (IssueTitle KindBug "@all") /\ inert (IssueBody KindBug f "U-ABCDEFGH" "R-22222222").
Proof. apply issue_text_inert; unfold inert; apply inertb_spec; reflexivity. Defined.

(** ** What the filter lets through *)
(** A text the rule speaks of: its pattern occurs; for a postal code, a match
    of the scan is followed by a word that is no unit. *)
Definition rule_says (n : list Z) (r : rule) : Prop :=
  let p := MustCompile (re r) in
  if is_code_rule r then exists m, m ∈ FindAll p n /\ is_not_city (group m.2 3) = false else occurs p [] n.
Definition clean (s : string) : Prop := forall r, r ∈ rules -> ~ rule_says (normalise s) r.
Lemma pattern_MatchString_spec p n : MatchString p n = true <-> occurs p [] n.
Proof.
  unfold MatchString. destruct (search_from p [] n) as [m|] eqn:E.
  - split; [intros _|done]. destruct m as [ [s q] c]. apply search_sound in E as (skip & Ha & Hs & Hm).
    exists skip, s.2, q, c. split; [done|]. destruct s as [b a]. simpl in *. by rewrite <-Hs.
  - split; [done|]. by intros H; apply search_None in E.
Qed.
Lemma rule_detects_spec n r : rule_detects n r = true <-> rule_says n r.
Proof.
  unfold rule_detects, rule_says. destruct (is_code_rule r); [|apply pattern_MatchString_spec].
  rewrite existsb_exists. split; intros (m & Hm & H); exists m; rewrite list_elem_of_In in *; by apply negb_true_iff in H || apply negb_true_iff.
Qed.
Lemma find_None {A} (f : A -> bool) l : find f l = None <-> forall a, a ∈ l -> f a = false.
Proof.
  split.
  - intros H a Ha. apply (find_none _ _ H). by rewrite <-list_elem_of_In.
  - induction l as [|a l IH]; [done|]. intros H. cbn. rewrite (H a) by left. apply IH. intros b Hb. apply H. by right.
Qed.
Lemma DetectSensitive_clean s : DetectSensitive s = "" <-> clean s.
Proof.
  unfold DetectSensitive, clean. destruct (find _ _) as [r|] eqn:E.
  - apply find_some in E as [Hin Hr]. split.
    + intros Hc. exfalso. assert (forallb (fun r => negb (is_empty (category r))) rules = true) as Hall by reflexivity.
      rewrite forallb_forall in Hall. specialize (Hall r Hin). by rewrite Hc in Hall.
    + intros Hc. exfalso. apply (Hc r); [by rewrite list_elem_of_In|]. by apply rule_detects_spec.
  - split; [|done]. intros _ r Hr H%rule_detects_spec. rewrite find_None in E. by rewrite E in H.
Qed.
