(* ===== verification/Portal.v ===== *)
(** * The portal's handlers on the action queue

    Models [internal/handlers/portal.go], all but [PortalSession] and [Health],
    which are in [Session].  A handler takes
    the request its route received after the middleware and ends with one
    response. *)
From S2P Require Import Prelude GoStr Exchange Accounts Lights Mac World Crypto PortalStore Json Http.
#[global] Open Scope Z_scope.

(** ** Who may use the portal *)
Definition userPortalAccess (user : option UserProfile) : HW bool :=
  match user with
  | None => mret false
  | Some u =>
      if negb (UserPortalAccessEligible (UP_LinkedMachineID u) (UP_LinkedGatewayID u) (UP_LinkedArmoireID u))
      then mret false
      else ok ← attempt (UserHasApprovedLink (UP_ID u));
           mret (match ok with Ok b => b | Fail _ => false end)
  end.
Definition portalUser (r : Request) : HW (res err UserProfile) :=
  email ← must (R_UserEmail r); attempt (GetUserByEmail email).
Definition requirePortalAccess (r : Request) : HW unit :=
  user ← portalUser r;
  ok ← match user with Ok u => userPortalAccess (Some u) | Fail _ => mret false end;
  check ok (http_Error "Forbidden" 403).
(** The opening of [Inject], [InjectBatch] and [PostWebActions]. *)
Definition approved_user (r : Request) : HW UserProfile :=
  u ← portalUser r;
  user ← need (res_value u) (http_Error "User not found" 404);
  ok ← userPortalAccess (Some user);
  _ ← check ok (http_Error "Portal access not approved" 403);
  mret user.

(** ** Link requests *)
Record linkRequestBody := mkLinkBody { LB_MachineSerial : string; LB_Message : string }.
Definition linkRequestBody_fields : fields linkRequestBody :=
  [("machine_serial", set_field LB_MachineSerial (fun x b => mkLinkBody x (LB_Message b)) dec_string);
   ("message", set_field LB_Message (fun x b => mkLinkBody (LB_MachineSerial b) x) dec_string)].
Definition out_link (lr : LinkRequest) : out :=
  OObj ([("id", OInt (LR_ID lr)); ("user_id", OInt (LR_UserID lr));
    ("machine_serial", OStr (LR_MachineSerial lr))]
    ++ omit_none "message" OStr (LR_Message lr)
    ++ [("status", OStr (LR_Status lr))]
    ++ omit_none "reviewed_by" OStr (LR_ReviewedBy lr)
    ++ omit_none "reviewed_at" (OTime "RFC3339Nano") (LR_ReviewedAt lr)
    ++ [("created_at", OTime "RFC3339Nano" (LR_CreatedAt lr))]).
Definition CreateLinkRequestHandler (r : Request) : HW Resp :=
  u ← portalUser r;
  user ← need (res_value u) (http_Error "User not found" 404);
  _ ← check (negb (is_some (UP_LinkedGatewayID user)) || IsRemoteEligibleGateway (UP_LinkedGatewayID user))
        (http_Error "Gateway not eligible for remote portal" 403);
  let required := http_Error "machine_serial required" 400 in
  body ← need (Decode (dec_struct linkRequestBody_fields) (mkLinkBody "" "") r) required;
  _ ← check (negb (is_empty (LB_MachineSerial body))) required;
  lr ← or_else (CreateLinkRequest (UP_ID user) (LB_MachineSerial body) (LB_Message body))
         (fun _ => http_Error "Failed to create request" 500);
  mret (writeJSON 201 (out_link lr)).
Definition LinkRequestStatus (r : Request) : HW Resp :=
  u ← portalUser r;
  user ← need (res_value u) (http_Error "User not found" 404);
  lr ← attempt (GetLatestLinkRequest (UP_ID user));
  approved ← attempt (UserHasApprovedLink (UP_ID user));
  let portalAccess := match approved with Ok b => b | Fail _ => false end
        && UserPortalAccessEligible (UP_LinkedMachineID user) (UP_LinkedGatewayID user) (UP_LinkedArmoireID user) in
  let links := [("linked_machine_id", oopt OInt (UP_LinkedMachineID user));
                ("linked_gateway_id", oopt OStr (UP_LinkedGatewayID user));
                ("linked_armoire_id", oopt OInt (UP_LinkedArmoireID user));
                ("portal_access", OBool portalAccess)] in
  mret (writeJSON 200 (OObj
    (match lr with Ok lr => ("link_request", out_link lr) | Fail _ => ("status", OStr "none") end :: links))).
Definition out_link_admin (v : LinkRequestAdminView) : out :=
  let base := match out_link (LA_Request v) with OObj l => l | _ => [] end in
  OObj (base ++ [("user_email", OStr (LA_UserEmail v))]
    ++ omit_empty "user_first_name" (LA_FirstName v) ++ omit_empty "user_last_name" (LA_LastName v)).
Definition ListPendingLinkRequests (r : Request) : HW Resp :=
  let filter := if is_empty (Query r "status") then "pending" else Query r "status" in
  _ ← check (bool_decide (filter ∈ ["pending"; "history"; "all"]))
        (http_Error "Invalid status filter (pending, history, all)" 400);
  rows ← or_else (ListLinkRequestsAdmin filter 100) (fun _ => http_Error "List failed" 500);
  mret (writeJSON 200 (oarr out_link_admin rows)).
Definition status_fields : fields string := [("status", fun j s => dec_string j s)].
Definition ReviewLinkRequest (r : Request) : HW Resp :=
  reviewer ← must (R_UserEmail r);
  status ← need (Decode (dec_struct status_fields) "" r) (http_Error "Invalid body" 400);
  _ ← check (seqb status LinkStatusApproved || seqb status LinkStatusRejected)
        (http_Error "Invalid status" 400);
  reqID ← need (Sscanf_d (URLParam r "id")) (http_Error "Invalid id" 400);
  _ ← or_else (UpdateLinkRequestStatus reqID status reviewer) (fun _ => http_Error "Update failed" 500);
  mret (writeJSON 200 (OObj [("status", OStr status)])).

(** ** The gateway's presence *)
Definition online_answer (b : bool) : Resp := writeJSON 200 (OObj [("online", OBool b)]).
Definition GatewayStatus (r : Request) : HW Resp :=
  u ← portalUser r;
  match u with
  | Fail _ => mret (online_answer false)
  | Ok user =>
      match UP_LinkedGatewayID user with
      | None => mret (online_answer false)
      | Some g =>
          online ← attempt (IsGatewayOnline g OnlineTimeout);
          mret (online_answer (match online with Ok b => b | Fail _ => false end))
      end
  end.

(** ** Orders to the cabinet *)
Record injectBody := mkInject { IB_K : Z; IB_V : string; IB_GUID : string }.
Definition injectBody_fields : fields injectBody :=
  [("k", set_field IB_K (fun x b => mkInject x (IB_V b) (IB_GUID b)) dec_int);
   ("v", set_field IB_V (fun x b => mkInject (IB_K b) x (IB_GUID b)) dec_string);
   ("guid", set_field IB_GUID (fun x b => mkInject (IB_K b) (IB_V b) x) dec_string)].
Definition empty_inject : injectBody := mkInject 0 "" "".
Definition enqueue_failed : err -> Resp := fun _ => http_Error "Enqueue failed" 500.
Definition Inject (r : Request) : HW Resp :=
  user ← approved_user r;
  body ← need (Decode (dec_struct injectBody_fields) empty_inject r) (http_Error "Invalid body" 400);
  guid ← (if is_empty (IB_GUID body) then newGUID else mret (IB_GUID body));
  let params := ExpandLegacyScenarioBlock [mkKV (IB_K body) (IB_V body)] in
  if IsDryRun r then
    if (length (ChunkExchangeParams params MaxFirmwareParamsPerAction) =? 0)%nat
    then mret (WriteFailed (OStr "no params")) else mret (WriteOK params [] "")
  else
    _ ← or_else (EnqueueCloudAction guid (UP_ID user) (UP_LinkedMachineID user) params) enqueue_failed;
    email ← must (R_UserEmail r);
    _ ← ignore (PortalAuditLog email "portal_inject");
    mret (writeJSON 200 (OObj [("guid", OStr guid); ("params", oarr out_kv params)])).

(** The queueing loop of [InjectBatch] and [PutScenario]: the chunks queued
    before a failure stay queued. *)
Fixpoint enqueue_chunks (user : UserProfile) (chunks : list (list ExchangeKV)) : HW (list string) :=
  match chunks with
  | [] => mret []
  | chunk :: chunks =>
      guid ← newGUID;
      _ ← or_else (EnqueueCloudAction guid (UP_ID user) (UP_LinkedMachineID user) chunk) enqueue_failed;
      guids ← enqueue_chunks user chunks;
      mret (guid :: guids)
  end.
Definition batch_fields : fields (list injectBody) :=
  [("params", fun j l => dec_slice (dec_struct injectBody_fields) empty_inject j l)].
Definition InjectBatch (r : Request) : HW Resp :=
  user ← approved_user r;
  let required := http_Error "params required" 400 in
  body ← need (Decode (dec_struct batch_fields) [] r) required;
  _ ← check (negb (length body =? 0)%nat) required;
  _ ← check (negb (96 <? length body)%nat) (http_Error "too many params (max 96)" 400);
  let params := ExpandLegacyScenarioBlock (map (fun p => mkKV (IB_K p) (IB_V p)) body) in
  let chunks := ChunkExchangeParams params MaxFirmwareParamsPerAction in
  if IsDryRun r then
    if (length chunks =? 0)%nat then mret (WriteFailed (OStr "no params")) else mret (WriteOK params [] "")
  else
    guids ← enqueue_chunks user chunks;
    machineID ← must (UP_LinkedMachineID user);
    _ ← ignore (UpsertGatewayExchange machineID params);
    email ← must (R_UserEmail r);
    _ ← ignore (PortalAuditLog email "portal_inject_batch");
    first ← must (head guids);
    mret (writeJSON 200 (OObj [("guid", OStr first); ("guids", oarr OStr guids);
      ("params", oarr out_kv params); ("count", OInt (Z.of_nat (length params)));
      ("chunks", OInt (Z.of_nat (length chunks)))])).

Record webAction := mkWebAction { WA_Alarme : string; WA_CodeAlarme : string }.
Definition webAction_fields : fields webAction :=
  [("alarme", set_field WA_Alarme (fun x b => mkWebAction x (WA_CodeAlarme b)) dec_string);
   ("codealarme", set_field WA_CodeAlarme (fun x b => mkWebAction (WA_Alarme b) x) dec_string)].
(** The alarm command and its four-byte code, two by two. *)
Definition alarm_params (req : webAction) : list ExchangeKV :=
  let code := bytes (WA_CodeAlarme req) in
  [mkKV 409 (if seqb (WA_Alarme req) "on" then "1" else "0");
   mkKV 410 (str (take 2 code)); mkKV 411 (str (take 2 (drop 2 code))); mkKV 307 "0"].
Definition PostWebActions (r : Request) : HW Resp :=
  user ← approved_user r;
  req ← need (Decode (dec_struct webAction_fields) (mkWebAction "" "") r) (http_Error "Invalid body" 400);
  _ ← check (negb (is_empty (WA_Alarme req)) && (slen (WA_CodeAlarme req) =? 4))
        (http_Error "alarme and 4-digit codealarme required" 400);
  let params := alarm_params req in
  if IsDryRun r then mret (WriteOK params [] "")
  else
    guid ← newGUID;
    _ ← or_else (EnqueueCloudAction guid (UP_ID user) (UP_LinkedMachineID user) params) enqueue_failed;
    email ← must (R_UserEmail r);
    _ ← ignore (PortalAuditLog email "portal_alarm");
    mret (writeJSON 200 (OObj [("status", OStr "ok"); ("message", OStr "Action sent to queue")])).

(** ** Reading the exchange table and the history *)
Definition newest (cache tel : option (list ExchangeKV * Time)) : Time :=
  match cache, tel with
  | Some (_, c), Some (_, t) => if After t c then t else c
  | Some (_, c), None => c
  | None, Some (_, t) => t
  | None, None => 0
  end.
Definition exchange_source (cache tel : option (list ExchangeKV * Time)) : string :=
  match cache, tel with
  | Some _, Some _ => "gateway_cache+mystatus"
  | Some _, None => "gateway_cache"
  | None, Some _ => "mystatus"
  | None, None => "none"
  end.
Definition exchange_stale (ttl : Duration) (t : Time) (cache : option (list ExchangeKV * Time)) : bool :=
  match cache with Some (_, c) => Sub t c >? ttl | None => true end.
Definition keys_of (o : option (list ExchangeKV * Time)) : list ExchangeKV :=
  match o with Some (ks, _) => ks | None => [] end.
Definition GetExchange (exchangeStaleTTL : Duration) (r : Request) : HW Resp :=
  _ ← requirePortalAccess r;
  requested ← need (res_value (ParseKeyList (Query r "keys"))) (http_Error "Missing or invalid keys" 400);
  u ← portalUser r;
  let forbidden := http_Error "Forbidden" 403 in
  user ← need (res_value u) forbidden;
  machineID ← need (UP_LinkedMachineID user) forbidden;
  t ← now;
  c ← attempt (GetGatewayExchange machineID);
  m ← attempt (GetMachineTelemetry (Itoa machineID));
  let cache := res_value c in
  let tel := res_value m in
  let values := MergeExchangeKeys (keys_of cache) (keys_of tel) requested in
  mret (writeJSON 200 (OObj ([("values", oarr out_kv values);
    ("stale", OBool (exchange_stale exchangeStaleTTL t cache)); ("source", OStr (exchange_source cache tel))]
    ++ if IsZero (newest cache tel) then [] else [("updated_at", OTime "RFC3339" (newest cache tel))]))).

Definition action_info (a : CloudAction) : string :=
  match CA_Params a with
  | [] => "Cloud action (0 params)"
  | p :: _ => ("k=" ++ Itoa (K p))%string
  end.
Definition GetHistoryLatest (r : Request) : HW Resp :=
  u ← portalUser r;
  user ← need (res_value u) (http_Error "User not found" 404);
  a ← attempt (GetLastCloudActionForUser (UP_ID user));
  match a with
  | Fail _ => mret (writeJSON 200 (OObj [("lastAction", ONull); ("message", OStr "No actions yet")]))
  | Ok a => mret (writeJSON 200 (OObj [("lastAction", OObj
      [("guid", OStr (CA_GUID a)); ("actionType", OStr "CLOUD"); ("actionInfo", OStr (action_info a));
       ("isDone", OBool (seqb (CA_Status a) ActionStatusDone));
       ("timestamp", OTime "RFC3339" (CA_CreatedAt a))])]))
  end.
