(* ===== verification/ScenarioApi.v ===== *)
(** * The handlers of scenarios and light timers

    Models [internal/handlers/scenarios.go] and [light_timers.go].  An order
    is a cloud action for the user's linked cabinet; the exchange cache is
    updated at once with what was sent. *)
From S2P Require Import Prelude GoStr Exchange Scenario Accounts Lights Mac World Crypto PortalStore Json Http Portal.
#[global] Open Scope Z_scope.

(** ** Reading a slot *)
Definition scenarioSlotParam (r : Request) : res err Z :=
  match Atoi (URLParam r "slot") with
  | None => Fail (Sentinel "invalid slot")
  | Some slot => if (slot <? 1) || (slot >? SlotCount) then Fail (Sentinel "invalid slot") else Ok slot
  end.
(** The last value of a key wins. *)
Definition kvMap (kvs : list ExchangeKV) : gmap Z string :=
  foldl (fun m kv => <[K kv := V kv]> m) ∅ kvs.
Definition parseOptionalInt (v : string) : option Z := if is_empty v then None else Atoi v.
Definition flattenChunks (chunks : list (list ExchangeKV)) : list ExchangeKV :=
  foldl (fun out c => out ++ c) [] chunks.

Record scenarioSlotSummary := mkSlotSummary {
  SS_SlotNumber : Z; SS_Label : string; SS_BaseIndex : Z; SS_EndIndex : Z;
  SS_Editable : bool; SS_LastLaunched : option Z }.
Definition slot_summary (last : option Z) (slot : Z) : scenarioSlotSummary :=
  let base := default 0 (res_value (SlotBaseIndex slot)) in
  mkSlotSummary slot (default "" (DefaultSlotLabels !! slot)) base (base + ParamCount - 1) (2 <=? slot)
    (match last with Some l => if l =? slot then last else None | None => None end).
Definition summary_members (s : scenarioSlotSummary) : list (string * out) :=
  [("slot_number", OInt (SS_SlotNumber s)); ("label", OStr (SS_Label s));
   ("base_index", OInt (SS_BaseIndex s)); ("end_index", OInt (SS_EndIndex s));
   ("editable", OBool (SS_Editable s))] ++ omit_none "last_launched" OInt (SS_LastLaunched s).
Definition last_launched (byK : gmap Z string) : option Z :=
  parseOptionalInt (default "" (byK !! IndexLastLaunched)).
(** The cached exchange table; empty when it cannot be read. *)
Definition cached_table (machineID : Z) : HW (list ExchangeKV) :=
  c ← attempt (GetGatewayExchange machineID);
  mret (match c with Ok (kvs, _) => kvs | Fail _ => [] end).
Definition slot_params (byK : gmap Z string) (first last : Z) : list ExchangeKV :=
  sort_by_K (omap (fun i => mkKV i <$> byK !! i) (seqZ first (last - first + 1))).

Definition forbidden : Resp := http_Error "Forbidden" 403.
Definition bad_request (e : err) : Resp := http_ErrorOf "" e 400.
(** The opening of every scenario handler: the access, then the user again. *)
Definition scenario_user (r : Request) : HW UserProfile :=
  u ← portalUser r; need (res_value u) forbidden.
Definition ListScenarios (r : Request) : HW Resp :=
  _ ← requirePortalAccess r;
  user ← scenario_user r;
  machineID ← must (UP_LinkedMachineID user);
  cache ← cached_table machineID;
  let last := last_launched (kvMap cache) in
  mret (writeJSON 200 (OObj [("slots",
    oarr (fun slot => OObj (summary_members (slot_summary last slot))) (seqZ 1 SlotCount))])).
Definition scenarioDetail (machineID slot : Z) : HW (res err (scenarioSlotSummary * list ExchangeKV)) :=
  if (slot <? 1) || (slot >? SlotCount) then mret (Fail (Sentinel "invalid slot")) else
  match SlotRange slot with
  | Fail e => mret (Fail e)
  | Ok (first, last) =>
      cache ← cached_table machineID;
      let byK := kvMap cache in
      mret (Ok (slot_summary (last_launched byK) slot, slot_params byK first last))
  end.
Definition GetScenario (r : Request) : HW Resp :=
  _ ← requirePortalAccess r;
  slot ← map_err bad_request (lift (scenarioSlotParam r));
  user ← scenario_user r;
  machineID ← must (UP_LinkedMachineID user);
  d ← scenarioDetail machineID slot;
  '(sum, params) ← map_err bad_request (lift d);
  mret (writeJSON 200 (OObj (summary_members sum ++ [("params", oarr out_kv params)]))).
Definition GetScenarioBitmasks (r : Request) : HW Resp :=
  _ ← requirePortalAccess r;
  mret (writeJSON 200 (OObj [("fields", oarr (fun f => OObj
    [("index", OInt (BM_Index f)); ("name", OStr (BM_Name f));
     ("bits", oarr (fun b => OObj [("bit", OInt (Bit b)); ("value", OInt (Value b));
                                   ("label", OStr (BitLabel b))]) (BM_Bits f))]) BitmaskMeta)])).

(** ** Writing, launching, restoring *)
Definition put_fields : fields (gmap Z string) := [("params", fun j m => dec_int_map j m)].
Definition PutScenario (r : Request) : HW Resp :=
  _ ← requirePortalAccess r;
  slot ← map_err bad_request (lift (scenarioSlotParam r));
  user ← scenario_user r;
  let required := http_Error "params required" 400 in
  params ← need (Decode (dec_struct put_fields) ∅ r) required;
  _ ← check (negb (bool_decide (params = ∅))) required;
  match WriteDefinitionChunks slot params with
  | Fail e =>
      if bool_decide (e = ErrSlot1ServerReserved) then mret (http_ErrorOf "" e 403)
      else if IsDryRun r then mret (WriteFailed (OErr e))
      else mret (bad_request e)
  | Ok chunks =>
      if IsDryRun r then mret (WriteOK (flattenChunks chunks) [] "")
      else
        email ← must (R_UserEmail r);
        guids ← enqueue_chunks user chunks;
        machineID ← must (UP_LinkedMachineID user);
        _ ← ignore (UpsertGatewayExchange machineID (flattenChunks chunks));
        _ ← ignore (PortalAuditLog email "portal_scenario_put");
        mret (writeJSON 200 (OObj [("status", OStr "ok"); ("guids", oarr OStr guids)]))
  end.
(** [LaunchScenario] and [RestoreScenario] differ by the parameters and the
    name of the audited action. *)
Definition send_slot (paramsOf : Z -> res err (list ExchangeKV)) (action : string) (r : Request) : HW Resp :=
  _ ← requirePortalAccess r;
  slot ← map_err bad_request (lift (scenarioSlotParam r));
  user ← scenario_user r;
  match paramsOf slot with
  | Fail e => if IsDryRun r then mret (WriteFailed (OErr e)) else mret (bad_request e)
  | Ok params =>
      if IsDryRun r then mret (WriteOK params [] "")
      else
        guid ← newGUID;
        email ← must (R_UserEmail r);
        _ ← or_else (EnqueueCloudAction guid (UP_ID user) (UP_LinkedMachineID user) params) enqueue_failed;
        _ ← ignore (PortalAuditLog email action);
        mret (writeJSON 200 (OObj [("status", OStr "ok"); ("guid", OStr guid); ("slot", OInt slot)]))
  end.
Definition LaunchScenario : Request -> HW Resp := send_slot LaunchParams "portal_scenario_launch".
Definition RestoreScenario : Request -> HW Resp := send_slot RestorePresetParams "portal_scenario_restore".

(** ** Light timers *)
Definition writeLTError (code : Z) (msg : string) : Resp := writeJSON code (OObj [("error", OStr msg)]).
Definition lt_forbidden : Resp := writeLTError 403 "forbidden".
(** The user with a linked cabinet and access to the portal. *)
Definition cabinet_user (r : Request) : HW (UserProfile * Z) :=
  u ← portalUser r;
  user ← need (res_value u) lt_forbidden;
  machineID ← need (UP_LinkedMachineID user) lt_forbidden;
  ok ← userPortalAccess (Some user);
  _ ← check ok lt_forbidden;
  mret (user, machineID).
(** The same for the cabinet's administrator. *)
Definition cabinet_admin (canWrite : string -> option Z -> bool) (r : Request) : HW UserProfile :=
  u ← portalUser r;
  user ← need (res_value u) lt_forbidden;
  _ ← check (canWrite (UP_Role user) (UP_LinkedMachineID user)) lt_forbidden;
  ok ← userPortalAccess (Some user);
  _ ← check ok lt_forbidden;
  mret user.
Definition GetLightTimers (r : Request) : HW Resp :=
  '(_, machineID) ← cabinet_user r;
  cache ← cached_table machineID;
  mret (writeJSON 200 (OObj [("timers", oarr (fun lt => OObj
    [("id", OStr (LT_ID lt)); ("label", OStr (LT_Label lt)); ("key", OInt (LT_Key lt));
     ("minutes", oopt OInt (LightTimerMinutesFromCache cache (LT_Key lt)))]) LightTimers)])).
Definition minutes_fields : fields (option json) := [("minutes", fun j m => dec_raw j m)].
Definition PutLightTimer (r : Request) : HW Resp :=
  user ← cabinet_admin CanWriteLightTimers r;
  lt ← need (LightTimerByID (URLParam r "id")) (writeLTError 400 "unknown_light");
  let invalid := writeLTError 400 "invalid_minutes" in
  body ← need (Unmarshal_limited 4096 (dec_struct minutes_fields) None r) invalid;
  minutes ← map_err (fun _ => invalid)
              (lift (ParseLightTimerMinutes (match body with Some j => raw_text j | None => "" end)));
  let params := [mkKV (LT_Key lt) (Itoa minutes)] in
  if IsDryRun r then
    mret (writeJSON 200 (OObj [("id", OStr (LT_ID lt)); ("minutes", OInt minutes); ("status", OStr "dry_run");
      ("dry_run", OBool true); ("validated_params", oarr out_kv params)]))
  else
    guid ← newGUID;
    _ ← or_else (EnqueueCloudAction guid (UP_ID user) (UP_LinkedMachineID user) params)
          (fun _ => writeLTError 500 "enqueue_failed");
    machineID ← must (UP_LinkedMachineID user);
    _ ← ignore (UpsertGatewayExchange machineID params);
    email ← must (R_UserEmail r);
    _ ← ignore (PortalAuditLog email "portal_light_timer");
    mret (writeJSON 200 (OObj [("id", OStr (LT_ID lt)); ("minutes", OInt minutes); ("status", OStr "queued")])).
