(* ===== verification/LightNames.v ===== *)
(** * Custom light names: the store, the portal and the gateway's sync

    Models [internal/data/light_names_store.go] and
    [internal/handlers/light_names.go].  The cloud writes with the next version
    and the current time; the gateway sends the rows of its copy and receives
    the merged state. *)
From S2P Require Import Prelude GoStr Exchange Accounts Lights World Crypto PortalStore Json Http Portal ScenarioApi.
#[global] Open Scope Z_scope.

(** ** The store *)
(** The rows of one cabinet, by light id. *)
Definition names_of (machineID : Z) (names : gmap (Z * string) LightNameState) : gmap string LightNameState :=
  default ∅ (map_curry (M1:=gmap Z) (M2:=gmap string) names !! machineID).
Definition ListLightNames (machineID : Z) : MW (gmap string LightNameState) :=
  query (fun d => names_of machineID (light_names d)).
Definition renamed (name : option string) (by_ : string) (t : Time) (old : option LightNameState) : LightNameState :=
  mkLightNameState name (match old with Some o => LS_Version o + 1 | None => 1 end)
    (Truncate t Millisecond) by_.
(** The [version] column is an [INT]. *)
Definition SetLightName (machineID : Z) (lightID : string) (name : option string) (by_ : string)
    : MW LightNameState :=
  t ← now;
  _ ← stmt;
  old ← gets (fun w => light_names (db w) !! (machineID, lightID));
  let row := renamed name by_ t old in
  _ ← guard_err (negb (int4 (LS_Version row))) ErrDB;
  _ ← modify (on_db (on_light_names (<[(machineID, lightID) := row]>)));
  mret row.
Definition PutLightNameExact (machineID : Z) (lightID : string) (row : LightNameState) : MW unit :=
  _ ← stmt;
  _ ← guard_err (negb (int4 (LS_Version row))) ErrDB;
  modify (on_db (on_light_names (<[(machineID, lightID) := row]>))).

(** ** The portal *)
Definition lightNameTimeLayout : string := "2006-01-02T15:04:05.000Z".
Definition lightNameViewOf (e : LightNameEntry) (row : option LightNameState) : list (string * out) :=
  [("id", OStr (LN_ID e)); ("default", OStr (LN_Default e));
   ("name", match row with Some s => oopt OStr (LS_Name s) | None => ONull end);
   ("version", OInt (match row with Some s => LS_Version s | None => 0 end));
   ("updated_at", match row with Some s => OTime lightNameTimeLayout (LS_UpdatedAt s) | None => ONull end)].
Definition lightNameViews (rows : gmap string LightNameState) : out :=
  oarr (fun e => OObj (lightNameViewOf e (rows !! LN_ID e))) LightNameCatalog.
Definition names_unavailable (code : Z) : Resp := writeLTError code "names_unavailable".
Definition GetLightNames (r : Request) : HW Resp :=
  '(_, machineID) ← cabinet_user r;
  rows ← or_else (ListLightNames machineID) (fun _ => names_unavailable 500);
  mret (writeJSON 200 (OObj [("lights", lightNameViews rows)])).

Definition name_fields : fields (option json) := [("name", fun j m => dec_raw j m)].
(** The value of the [name] member: [null] resets. *)
Definition name_value (j : json) : res err (option string) :=
  match j with
  | JNull => Ok None
  | JStr s => NormalizeLightName s
  | _ => Fail ErrLightName
  end.
Definition parseLightNameBody (n : Z) (r : Request) : res err (option string) :=
  match Unmarshal_limited n (dec_struct name_fields) None r with
  | Some (Some j) => name_value j
  | _ => Fail ErrLightName
  end.
Definition PutLightName (r : Request) : HW Resp :=
  user ← cabinet_admin CanWriteLightNames r;
  entry ← need (LightNameByID (URLParam r "id")) (writeLTError 400 "unknown_light");
  name ← map_err (fun _ => writeLTError 400 "invalid_name") (lift (parseLightNameBody 4096 r));
  if IsDryRun r then
    mret (writeJSON 200 (OObj [("id", OStr (LN_ID entry)); ("default", OStr (LN_Default entry));
      ("name", oopt OStr name); ("status", OStr "dry_run"); ("dry_run", OBool true)]))
  else
    machineID ← must (UP_LinkedMachineID user);
    email ← must (R_UserEmail r);
    _ ← or_else (ListLightNames machineID) (fun _ => names_unavailable 500);
    row ← or_else (SetLightName machineID (LN_ID entry) name email) (fun _ => names_unavailable 500);
    _ ← ignore (PortalAuditLog email "light_name");
    mret (writeJSON 200 (OObj (("status", OStr "saved") :: lightNameViewOf entry (Some row)))).

(** ** The gateway's sync *)
Record lightNameSyncEntry := mkSyncEntry {
  SE_ID : string; SE_Name : option json; SE_Version : Z; SE_UpdatedAt : string }.
Definition syncEntry_fields : fields lightNameSyncEntry :=
  [("id", set_field SE_ID (fun x e => mkSyncEntry x (SE_Name e) (SE_Version e) (SE_UpdatedAt e)) dec_string);
   ("name", set_field SE_Name (fun x e => mkSyncEntry (SE_ID e) x (SE_Version e) (SE_UpdatedAt e)) dec_raw);
   ("version", set_field SE_Version (fun x e => mkSyncEntry (SE_ID e) (SE_Name e) x (SE_UpdatedAt e)) dec_int);
   ("updated_at", set_field SE_UpdatedAt (fun x e => mkSyncEntry (SE_ID e) (SE_Name e) (SE_Version e) x) dec_string)].
Definition sync_fields : fields (list lightNameSyncEntry) :=
  [("names", fun j l => dec_slice (dec_struct syncEntry_fields) (mkSyncEntry "" None 0 "") j l)].
(** The row an entry stands for at the time [t], without author; [None] when
    the entry is ignored.  An absent name is the original name. *)
Definition sync_entry (t : Time) (e : lightNameSyncEntry) : option LightNameState :=
  if negb (is_some (LightNameByID (SE_ID e))) || (SE_Version e <=? 0) then None else
  at_ ← Parse_RFC3339Nano (TrimSpace (SE_UpdatedAt e));
  name ← res_value (match SE_Name e with Some j => name_value j | None => Ok None end);
  Some (mkLightNameState name (SE_Version e)
    (ClampLightNameTime (Truncate at_ Millisecond) t) "").
Definition with_author (by_ : string) (s : LightNameState) : LightNameState :=
  mkLightNameState (LS_Name s) (LS_Version s) (LS_UpdatedAt s) by_.
(** The value that replaces the stored one, if the entry is newer; the entry
    takes the stored author, so that equal times and versions keep the cloud's. *)
Definition merge_name (cur : option LightNameState) (gw : LightNameState) : option LightNameState :=
  let author := match cur with Some c => LS_UpdatedBy c | None => "" end in
  match cur with
  | Some c => if LightNameNewer (with_author author gw) c then Some (with_author "gateway" gw) else None
  | None => Some (with_author "gateway" gw)
  end.
(** The loop over the entries, with the rows read at the start. *)
Fixpoint sync_loop (gatewayID : string) (machineID : Z) (t : Time) (names : list lightNameSyncEntry)
    (rows : gmap string LightNameState) : HW (gmap string LightNameState) :=
  match names with
  | [] => mret rows
  | e :: names =>
      match sync_entry t e ≫= merge_name (rows !! SE_ID e) with
      | None => sync_loop gatewayID machineID t names rows
      | Some merged =>
          _ ← or_else (PutLightNameExact machineID (SE_ID e) merged) (fun _ => names_unavailable 503);
          _ ← ignore (PortalAuditLog ("gateway:" ++ gatewayID) "light_name");
          sync_loop gatewayID machineID t names (<[SE_ID e := merged]> rows)
      end
  end.
Definition SyncLightNames (r : Request) : HW Resp :=
  gatewayID ← must (R_GatewayID r);
  machineID ← or_else (MachineIDForGateway gatewayID) (fun _ => http_Error "Unknown gateway" 401);
  let invalid := writeLTError 400 "invalid_body" in
  names ← need (Unmarshal_limited (64 * 1024) (dec_struct sync_fields) [] r) invalid;
  _ ← check (length names <=? length LightNameCatalog)%nat invalid;
  rows ← or_else (ListLightNames machineID) (fun _ => names_unavailable 503);
  t ← now;
  rows ← sync_loop gatewayID machineID (Truncate t Millisecond) names rows;
  mret (writeJSON 200 (OObj [("lights", lightNameViews rows)])).

(** ** Lemmas *)
Lemma names_of_lookup machineID names id : names_of machineID names !! id = names !! (machineID, id).
Proof.
  unfold names_of. rewrite <-(lookup_map_curry (M1:=gmap Z) (M2:=gmap string) names machineID id).
  destruct (map_curry (M1:=gmap Z) (M2:=gmap string) names !! machineID) as [m|]; [done|].
  simpl. apply lookup_empty.
Qed.

(** The order of the merge: the time in milliseconds, then the version. *)
Definition key_lt (a b : LightNameState) : Prop :=
  let ta := LS_UpdatedAt a / Millisecond in let tb := LS_UpdatedAt b / Millisecond in
  ta < tb \/ (ta = tb /\ LS_Version a < LS_Version b).
Lemma key_lt_author_l by_ a b : key_lt (with_author by_ a) b <-> key_lt a b.
Proof. done. Qed.
Lemma merge_name_newer c gw :
  LightNameNewer (with_author (LS_UpdatedBy c) gw) c = true <-> key_lt c gw.
Proof.
  rewrite LightNameNewer_lex. unfold key_lt. simpl. split.
  - intros [H|[H [H'|(_ & H')] ] ]; [by left|right; split; [done|lia]|].
    by rewrite str_ltb_irrefl in H'.
  - intros [H|[H H'] ]; [by left|right; split; [done|left; lia]].
Qed.

(** The loop over the rows alone. *)
Definition sync_step (t : Time) (rows : gmap string LightNameState) (e : lightNameSyncEntry) :=
  match sync_entry t e ≫= merge_name (rows !! SE_ID e) with
  | None => rows
  | Some merged => <[SE_ID e := merged]> rows
  end.
Definition sync_state (t : Time) (names : list lightNameSyncEntry) (rows : gmap string LightNameState) :=
  foldl (sync_step t) rows names.
(** The readable entries for one light. *)
Definition candidates (t : Time) (names : list lightNameSyncEntry) (id : string) : list LightNameState :=
  omap (fun e => if seqb (SE_ID e) id then sync_entry t e else None) names.
Definition merged_row (cur new : option LightNameState) (cands : list LightNameState) : Prop :=
  match new with
  | None => cur = None /\ cands = []
  | Some v =>
      (forall c, cur = Some c -> ~ key_lt v c) /\ (forall gw, gw ∈ cands -> ~ key_lt v gw) /\
      (cur = Some v \/ exists gw, gw ∈ cands /\ v = with_author "gateway" gw /\
                        forall c, cur = Some c -> key_lt c gw)
  end.
Lemma merged_row_snoc cur v cands gw :
  merged_row cur v cands ->
  merged_row cur (match merge_name v gw with Some m => Some m | None => v end) (cands ++ [gw]).
Proof.
  unfold merge_name. destruct v as [v|].
  - intros (H1 & H2 & H3). destruct (LightNameNewer _ v) eqn:E.
    + apply merge_name_newer in E. split_and!.
      * intros c Hc Hlt. apply (H1 c Hc). unfold key_lt in *. simpl in *. lia.
      * intros g [Hg|Hg%list_elem_of_singleton]%elem_of_app Hlt.
        -- apply (H2 g Hg). unfold key_lt in *. simpl in *. lia.
        -- subst g. unfold key_lt in Hlt. simpl in Hlt. lia.
      * right. exists gw. split_and!; [apply elem_of_app; right; by apply list_elem_of_singleton|done|].
        intros c Hc. specialize (H1 c Hc). unfold key_lt in *. lia.
    + assert (~ key_lt v gw) as E' by (rewrite <-merge_name_newer; by rewrite E).
      split_and!; [done| |].
      * intros g [Hg|Hg%list_elem_of_singleton]%elem_of_app; [by apply H2|by subst].
      * destruct H3 as [H3|(g & Hg & H3)]; [by left|]. right. exists g. split; [|done].
        apply elem_of_app. by left.
  - intros [-> ->]. simpl. split_and!; [done| |].
    + intros g Hg%list_elem_of_singleton. subst g. unfold key_lt. simpl. lia.
    + right. exists gw. split_and!; [by apply list_elem_of_singleton|done|done].
Qed.
Lemma sync_state_spec t names rows id :
  merged_row (rows !! id) (sync_state t names rows !! id) (candidates t names id).
Proof.
  induction names as [|e names IH] using rev_ind.
  - simpl. destruct (rows !! id) as [v|]; [|done]. split_and!; [|by intros ? ?%elem_of_nil|by left].
    intros c [= <-]. unfold key_lt. lia.
  - unfold sync_state, candidates. rewrite foldl_app, omap_app. cbn [foldl].
    fold (sync_state t names rows) (candidates t names id). set (st := sync_state t names rows) in *.
    unfold sync_step at 1. cbn [omap list_omap]. destruct (seqb (SE_ID e) id) eqn:Eid.
    + apply seqb_spec in Eid. destruct (sync_entry t e) as [gw|]; cbn [mbind option_bind].
      * apply (merged_row_snoc _ _ _ gw) in IH. rewrite Eid. revert IH.
        destruct (merge_name (st !! id) gw); [by rewrite lookup_insert_eq|done].
      * by rewrite app_nil_r.
    + rewrite app_nil_r. destruct (sync_entry t e ≫= _) as [m|]; [|done].
      rewrite lookup_insert_ne; [done|]. intros Heq. by rewrite Heq, seqb_refl in Eid.
Qed.
(** A second pass of the same entries changes nothing. *)
Lemma sync_state_idemp t names rows : sync_state t names (sync_state t names rows) = sync_state t names rows.
Proof.
  assert (forall l st, (forall e gw, e ∈ l -> sync_entry t e = Some gw ->
    exists v, st !! SE_ID e = Some v /\ ~ key_lt v gw) -> sync_state t l st = st) as Hfix.
  { induction l as [|e l IH]; intros st H; [done|]. simpl.
    assert (sync_step t st e = st) as ->; [|apply IH; intros; eapply H; [by right|done] ].
    unfold sync_step. destruct (sync_entry t e) as [gw|] eqn:E; [|done]. simpl.
    destruct (H e gw) as (v & Hv & Hlt); [left|done|]. unfold merge_name. rewrite Hv.
    destruct (LightNameNewer _ v) eqn:En; [|done]. by apply merge_name_newer in En. }
  apply Hfix. intros e gw Hin He. pose proof (sync_state_spec t names rows (SE_ID e)) as Hs.
  assert (gw ∈ candidates t names (SE_ID e)) as Hc.
  { apply list_elem_of_omap. exists e. by rewrite seqb_refl. }
  destruct (sync_state t names rows !! SE_ID e) as [v|]; simpl in Hs.
  - exists v. split; [done|]. by apply Hs.
  - destruct Hs as [_ Hs]. rewrite Hs in Hc. by apply elem_of_nil in Hc.
Qed.

(** ** The sync of one gateway *)
Definition gateway_machine (d : DB) (gatewayID : string) (machineID : Z) : Prop :=
  exists g, get_row (fun g => seqb (GS_GatewayID g) gatewayID) (gateway_sessions d) = Ok g /\
    GS_MachineID g = Some machineID.
Lemma MachineIDForGateway_run g w m w' : MachineIDForGateway g w = (Ok m, w') ->
  gateway_machine (db w) g m /\ db w' = db w.
Proof.
  unfold MachineIDForGateway, GetGatewaySession. intros H. mrun. subst.
  destruct (GS_MachineID _) eqn:E in *; [|done].
  lazymatch goal with H : ok_or _ _ = Ok _ |- _ => injection H as -> end.
  split; [eexists; by split|congruence].
Qed.
(** The other tables, and the names of the other cabinets, are the same. *)
Definition names_only (machineID : Z) (d d' : DB) : Prop :=
  exists logs names, d' = on_portal_audit_log (fun _ => logs) (on_light_names (fun _ => names) d) /\
    forall k, k.1 <> machineID -> names !! k = light_names d !! k.
Lemma names_only_refl m d : names_only m d d.
Proof. exists (portal_audit_log d), (light_names d). split; [by destruct d|done]. Qed.
Lemma names_only_put m id row d d' : names_only m d d' ->
  names_only m d (on_light_names (<[(m, id) := row]>) d').
Proof.
  intros (logs & names & -> & H). exists logs, (<[(m, id) := row]> names). split; [done|].
  intros k Hk. rewrite lookup_insert_ne by (intros <-; done). by apply H.
Qed.
Lemma names_only_log m f d d' : names_only m d d' -> names_only m d (on_portal_audit_log f d').
Proof. intros (logs & names & -> & H). by eexists (f logs), names. Qed.
Lemma sync_loop_confined g m t names rows d :
  preserves (db_inv (names_only m d)) (sync_loop g m t names rows).
Proof.
  revert rows. induction names as [|e names IH]; intros rows; simpl; [handler_tac|].
  destruct (sync_entry t e ≫= _); [|apply IH]. unfold PutLightNameExact, PortalAuditLog, ignore.
  handler_tac; [by apply names_only_put|by apply names_only_log].
Qed.
Lemma names_of_insert m id row names : names_of m (<[(m, id) := row]> names) = <[id := row]> (names_of m names).
Proof.
  apply map_eq. intros id'. rewrite names_of_lookup. destruct (decide (id = id')) as [-> |Hne].
  - by rewrite !lookup_insert_eq.
  - rewrite !lookup_insert_ne by congruence. by rewrite names_of_lookup.
Qed.
Lemma ignore_log e a w u w' : ignore (PortalAuditLog e a) w = (Ok u, w') -> light_names (db w') = light_names (db w).
Proof.
  unfold ignore, PortalAuditLog, exec, try. rewrite !M_bind_run. pose proof (stmt_db w) as Hs.
  destruct (stmt w) as [[v|v] w0]; intros [= _ <-]; simpl in Hs |- *; by rewrite Hs.
Qed.
Lemma sync_loop_run g m t names rows w rows' w' :
  sync_loop g m t names rows w = (Ok rows', w') -> names_of m (light_names (db w)) = rows ->
  rows' = sync_state t names rows /\ names_of m (light_names (db w')) = rows'.
Proof.
  revert rows w. induction names as [|e names IH]; intros rows w; simpl.
  - intros [= <- <-]. done.
  - unfold sync_step at 1. destruct (sync_entry t e ≫= _) as [merged|]; [|apply IH].
    intros H Hr. apply M_bind_Ok in H as (u & w1 & Hput%or_else_Ok_inv & H).
    apply M_bind_Ok in H as (v & w2 & Hlog%ignore_log & H). apply IH in H; [done|].
    rewrite Hlog. unfold PutLightNameExact in Hput. mrun. subst w1. cbn [db on_db light_names on_light_names].
    rewrite names_of_insert, <-Hr. do 3 f_equal. congruence.
Qed.
Lemma sync_loop_throws g m t names rows : throws (fun x => Status x <> 200) (sync_loop g m t names rows).
Proof.
  revert rows. induction names as [|e names IH]; intros rows; simpl; [throws_tac|].
  destruct (sync_entry t e ≫= _); [|apply IH]. throws_tac.
Qed.
Lemma SyncLightNames_throws r : throws (fun x => Status x <> 200) (SyncLightNames r).
Proof. unfold SyncLightNames. throws_tac; apply sync_loop_throws. Qed.

(** C10. The gateway's sync merges light by light: afterwards each row is the
    newest of the stored row and the readable entries of the request (by time
    in milliseconds, then version; the stored row keeps a tie), a row that
    changed is one of those entries signed by the gateway, and the answer is
    the stored state.  Whatever the answer, nothing but the names of the
    gateway's own cabinet and the audit log changes. *)
Theorem sync_light_names_merge (r : Request) (w w' : World) (resp : Resp) :
  serve (SyncLightNames r) w = (resp, w') ->
  (db w' = db w \/ exists g m, R_GatewayID r = Some g /\ gateway_machine (db w) g m /\
     names_only m (db w) (db w')) /\
  (Status resp = 200 -> exists g m names t, R_GatewayID r = Some g /\ gateway_machine (db w) g m /\
     Unmarshal_limited (64 * 1024) (dec_struct sync_fields) [] r = Some names /\ clock w <= t /\
     (forall id, merged_row (light_names (db w) !! (m, id)) (light_names (db w') !! (m, id))
        (candidates (Truncate t Millisecond) names id)) /\
     RespBody resp = BJson (OObj [("lights", lightNameViews (names_of m (light_names (db w'))))])).
Proof.
  intros Hs. split.
  - unfold SyncLightNames in Hs. apply serve_bind in Hs as [(g & w0 & [Hg ->]%must_Ok_inv & Hs)|Hs];
      [|left; by eapply keeps_run; [|exact Hs]; handler_tac].
    apply serve_bind in Hs as [(m & w1 & Hm & Hs)|Hs].
    + apply or_else_Ok_inv, MachineIDForGateway_run in Hm as [Hm Hd]. right. exists g, m.
      split_and!; [done..|]. eapply (preserves_serve (names_only m (db w))); [|rewrite Hd; apply names_only_refl|exact Hs].
      handler_tac. apply sync_loop_confined.
    + left. eapply keeps_run; [|exact Hs]. unfold MachineIDForGateway, GetGatewaySession. handler_tac.
  - intros H200. apply (serve_Ok _ _ _ _ _ (SyncLightNames_throws r)) in Hs; [|by intros Hne; apply Hne].
    unfold SyncLightNames in Hs. hrun. rename x into g, x1 into m, x3 into names, x9 into t.
    assert (clock w <= clock x2) as Hc1 by (eapply clock_run; [|exact H0];
      unfold MachineIDForGateway, GetGatewaySession; since_tac).
    assert (clock x2 <= clock x8) as Hc2 by (eapply clock_run; [|exact H3]; unfold ListLightNames; since_tac).
    apply MachineIDForGateway_run in H0 as [Hm Hd]. apply query_Ok_inv in H3 as [-> Hd3].
    apply now_Ok_inv in H4 as (Hd4 & Hc4 & _).
    assert (db x10 = db w) as Hd5 by congruence.
    apply sync_loop_run in H5 as [-> Hn]; [|by rewrite Hd5, Hd].
    exists g, m, names, t. split_and!; [done..|lia| |by rewrite Hn].
    intros id. rewrite <-!names_of_lookup, Hn, Hd. apply sync_state_spec.
Qed.
(** A stored row from yesterday and a gateway with a newer one for the same
    light and an unreadable one for another. *)
Definition names_demo : World :=
  on_db (fun d => on_gateway_sessions (fun _ => [mkGatewaySession "gw" "" (Some 4) None None None])
    (on_light_names (fun _ => {[(4, "wc1") := mkLightNameState (Some "WC") 1 (Date 2026 3 1 0 0 0 0) "a@b.c"]}) d))
    (empty_world (Date 2026 3 2 0 0 0 0) []).
Definition names_request : Request :=
  mkRequest "POST" None None (Some "gw") ∅ ∅ ∅ "" (Some (mkBody (JObj [("names", JArr
    [JObj [("id", JStr "wc1"); ("name", JStr " Toilettes "); ("version", JNum "1"); ("updated_at", JStr "2026-03-01T10:00:00Z")];
     JObj [("id", JStr "wc2"); ("name", JStr "x"); ("version", JNum "1"); ("updated_at", JStr "hier")]])]) 300 None)).
Example sync_demo :
  light_names (db (serve (SyncLightNames names_request) names_demo).2) !! (4, "wc1") =
  Some (mkLightNameState (Some "Toilettes") 1 (Date 2026 3 1 10 0 0 0) "gateway").
Proof. vm_compute. reflexivity. Qed.
Lemma sync_light_names_merge_witness :
  exists g m, R_GatewayID names_request = Some g /\ gateway_machine (db names_demo) g m.
Proof.
  destruct (sync_light_names_merge names_request names_demo (serve (SyncLightNames names_request) names_demo).2
    (serve (SyncLightNames names_request) names_demo).1) as [_ H].
  - vm_compute. reflexivity.
  - destruct H as (g & m & _ & _ & H1 & H2 & _); [vm_compute; reflexivity|]. by exists g, m.
Defined.
