(* ===== verification/Orders.v ===== *)
(** * What an order of the portal may change

    The eight handlers that send something to a cabinet, seen together: who
    may call them, and which tables and rows they can touch. *)
From S2P Require Import Prelude GoStr Exchange Scenario Accounts Lights World Crypto PortalStore Json Http Portal ScenarioApi LightNames.
#[global] Open Scope Z_scope.

Inductive Order :=
  | OInject | OInjectBatch | OWebActions | OPutScenario | OLaunchScenario | ORestoreScenario
  | OPutLightTimer | OPutLightName.
Definition order_handler (o : Order) : Request -> HW Resp :=
  match o with
  | OInject => Inject
  | OInjectBatch => InjectBatch
  | OWebActions => PostWebActions
  | OPutScenario => PutScenario
  | OLaunchScenario => LaunchScenario
  | ORestoreScenario => RestoreScenario
  | OPutLightTimer => PutLightTimer
  | OPutLightName => PutLightName
  end.
(** The orders reserved to the cabinet's administrator. *)
Definition admin_only (o : Order) : bool :=
  match o with OPutLightTimer | OPutLightName => true | _ => false end.

(** ** Access *)
(** The caller of the request is this user, whose links are eligible and who
    has an approved link request. *)
Definition user_row (d : DB) (email : string) (user : UserProfile) : Prop :=
  exists u, get_row (fun u => seqb (U_Email u) email) (users d) = Ok u /\ user = profile_of u.
Definition may_use (d : DB) (r : Request) (user : UserProfile) : Prop :=
  (exists email, R_UserEmail r = Some email /\ user_row d email user) /\
  UserPortalAccessEligible (UP_LinkedMachineID user) (UP_LinkedGatewayID user) (UP_LinkedArmoireID user) = true /\
  exists lr, lr ∈ link_requests d /\ LR_UserID lr = UP_ID user /\ LR_Status lr = LinkStatusApproved.

Lemma GetUserByEmail_keeps I email : preserves (db_inv I) (GetUserByEmail email).
Proof. unfold GetUserByEmail. handler_tac. Qed.
Lemma UserHasApprovedLink_keeps I id : preserves (db_inv I) (UserHasApprovedLink id).
Proof. unfold UserHasApprovedLink. handler_tac. Qed.
#[export] Hint Resolve GetUserByEmail_keeps UserHasApprovedLink_keeps : preserves.
Lemma portalUser_keeps I r : preserves (db_inv I) (portalUser r).
Proof. unfold portalUser. handler_tac. Qed.
Lemma userPortalAccess_keeps I u : preserves (db_inv I) (userPortalAccess u).
Proof. unfold userPortalAccess. handler_tac. Qed.
#[export] Hint Resolve portalUser_keeps userPortalAccess_keeps : preserves.
Lemma approved_user_keeps I r : preserves (db_inv I) (approved_user r).
Proof. unfold approved_user. handler_tac. Qed.
Lemma requirePortalAccess_keeps I r : preserves (db_inv I) (requirePortalAccess r).
Proof. unfold requirePortalAccess. handler_tac. Qed.
Lemma scenario_user_keeps I r : preserves (db_inv I) (scenario_user r).
Proof. unfold scenario_user. handler_tac. Qed.
Lemma cabinet_admin_keeps I f r : preserves (db_inv I) (cabinet_admin f r).
Proof. unfold cabinet_admin. handler_tac. Qed.
#[export] Hint Resolve approved_user_keeps requirePortalAccess_keeps scenario_user_keeps
  cabinet_admin_keeps : preserves.

Lemma portalUser_run r w res w' : portalUser r w = (Ok res, w') ->
  db w' = db w /\ forall user, res = Ok user ->
  exists email, R_UserEmail r = Some email /\ user_row (db w) email user.
Proof.
  intros H. split; [eapply keeps_run; [|exact H]; handler_tac|].
  intros user ->. unfold portalUser in H. hrun. unfold GetUserByEmail in H.
  mrun. subst. eexists. split; [done|]. unfold user_row. eexists. split; [eassumption|done].
Qed.
Lemma userPortalAccess_run u w w' : userPortalAccess (Some u) w = (Ok true, w') ->
  db w' = db w /\
  UserPortalAccessEligible (UP_LinkedMachineID u) (UP_LinkedGatewayID u) (UP_LinkedArmoireID u) = true /\
  exists lr, lr ∈ link_requests (db w) /\ LR_UserID lr = UP_ID u /\ LR_Status lr = LinkStatusApproved.
Proof.
  intros H. split; [eapply keeps_run; [|exact H]; handler_tac|]. unfold userPortalAccess in H.
  destruct (UserPortalAccessEligible _ _ _); [|done]. cbn [negb] in H. split; [done|].
  apply M_bind_Ok in H as (ok & w1 & H%attempt_Ok_inv & H'). apply mret_Ok_inv in H' as [Ht ->].
  destruct ok as [b|]; [|done]. subst b. unfold UserHasApprovedLink in H.
  apply M_bind_Ok in H as (res & w2 & H & H'). apply mret_Ok_inv in H' as [Ht ->].
  destruct res as [lr|]; [|done]. unfold try in H.
  match type of H with (let '(_, _) := ?m w in _) = _ => destruct (m w) as [res0 w3] eqn:E end.
  injection H as -> ->. mrun. subst. destruct (order_desc _ _) as [|lr' rest] eqn:Eo in *; [done|].
  lazymatch goal with Hx : ok_or _ _ = Ok lr |- _ => simpl in Hx; injection Hx as -> end.
  assert (lr ∈ order_desc LR_CreatedAt (select (fun lr => (LR_UserID lr =? UP_ID u) &&
    seqb (LR_Status lr) LinkStatusApproved) (link_requests (db w)))) as Hin by (rewrite Eo; left).
  apply elem_of_order_desc, elem_of_select in Hin as [Hin Hs]. rewrite andb_true_iff in Hs.
  destruct Hs as [H1 H2%seqb_spec]. exists lr. split_and!; [done|lia|done].
Qed.

(** The four openings of an order. *)
Lemma approved_user_run r w user w' : approved_user r w = (Ok user, w') ->
  db w' = db w /\ may_use (db w) r user.
Proof.
  intros H. split; [eapply keeps_run; [|exact H]; handler_tac|]. unfold approved_user in H. hrun.
  subst. lazymatch goal with Hp : portalUser r w = _ |- _ => apply portalUser_run in Hp as [Hd Hu] end.
  lazymatch goal with Ha : userPortalAccess _ _ = _ |- _ => apply userPortalAccess_run in Ha as (_ & He & Hl) end.
  rewrite Hd in Hl. split; [|done]. apply Hu. by apply res_value_Some.
Qed.
Lemma requirePortalAccess_run r w u w' : requirePortalAccess r w = (Ok u, w') ->
  db w' = db w /\ exists user, may_use (db w) r user.
Proof.
  intros H. split; [eapply keeps_run; [|exact H]; handler_tac|]. unfold requirePortalAccess in H. hrun.
  subst. lazymatch goal with Hp : portalUser r w = _ |- _ => apply portalUser_run in Hp as [Hd Hu] end.
  destruct x as [user|e]; [|lazymatch goal with Hf : (mret false) _ = _ |- _ => by injection Hf as [=] end].
  lazymatch goal with Ha : userPortalAccess _ _ = _ |- _ => apply userPortalAccess_run in Ha as (_ & He & Hl) end.
  rewrite Hd in Hl. exists user. split; [by apply Hu|done].
Qed.
Lemma may_use_unique d r u1 u2 :
  may_use d r u1 -> (exists email, R_UserEmail r = Some email /\ user_row d email u2) -> u2 = u1.
Proof.
  intros [(e1 & He1 & x1 & Hx1 & ->) _] (e2 & He2 & x2 & Hx2 & ->).
  rewrite He1 in He2. injection He2 as ->. rewrite Hx1 in Hx2. by injection Hx2 as ->.
Qed.
Lemma scenario_user_run r w user w' : scenario_user r w = (Ok user, w') ->
  db w' = db w /\ exists email, R_UserEmail r = Some email /\ user_row (db w) email user.
Proof.
  intros H. split; [eapply keeps_run; [|exact H]; handler_tac|]. unfold scenario_user in H. hrun.
  lazymatch goal with Hp : portalUser r w = _ |- _ => apply portalUser_run in Hp as [_ Hu] end.
  apply Hu. by apply res_value_Some.
Qed.
Lemma cabinet_admin_run f r w user w' : cabinet_admin f r w = (Ok user, w') ->
  db w' = db w /\ may_use (db w) r user /\ f (UP_Role user) (UP_LinkedMachineID user) = true.
Proof.
  intros H. split; [eapply keeps_run; [|exact H]; handler_tac|]. unfold cabinet_admin in H. hrun.
  subst. lazymatch goal with Hp : portalUser r w = _ |- _ => apply portalUser_run in Hp as [Hd Hu] end.
  lazymatch goal with Ha : userPortalAccess _ _ = _ |- _ => apply userPortalAccess_run in Ha as (_ & He & Hl) end.
  rewrite Hd in Hl. split; [|done]. split; [|done]. apply Hu. by apply res_value_Some.
Qed.

(** ** Writes of one user *)
(** New pending actions of this user for this user's cabinet, the exchange
    cache and the names of that cabinet, audit lines: nothing else. *)
Definition own_action (user : UserProfile) (a : ActionRow) : Prop :=
  A_UserID a = UP_ID user /\ A_MachineID a = UP_LinkedMachineID user /\ A_Status a = ActionStatusPending.
Definition own_writes (user : UserProfile) (d d' : DB) : Prop :=
  exists logs new cache names,
    d' = on_portal_audit_log (fun _ => logs) (on_cloud_actions (fun rows => rows ++ new)
           (on_gateway_exchange_cache (fun _ => cache) (on_light_names (fun _ => names) d))) /\
    Forall (own_action user) new /\
    (forall m, UP_LinkedMachineID user <> Some m -> cache !! m = gateway_exchange_cache d !! m) /\
    (forall m l, UP_LinkedMachineID user <> Some m -> names !! (m, l) = light_names d !! (m, l)).
Lemma own_writes_refl user d : own_writes user d d.
Proof.
  exists (portal_audit_log d), [], (gateway_exchange_cache d), (light_names d).
  split_and!; [|constructor|done|done]. destruct d. unfold on_cloud_actions. simpl. by rewrite app_nil_r.
Qed.
Section own_writes.
Context (user : UserProfile) (d : DB).
Lemma own_writes_log f d' : own_writes user d d' -> own_writes user d (on_portal_audit_log f d').
Proof. intros (logs & new & cache & names & -> & H). by eexists (f logs), new, cache, names. Qed.
Lemma own_writes_action a d' : own_action user a ->
  own_writes user d d' -> own_writes user d (on_cloud_actions (insert_action a) d').
Proof.
  intros Ha (logs & new & cache & names & -> & Hn & H). unfold insert_action.
  exists logs, (if existsb (fun r => seqb (A_GUID r) (A_GUID a)) (cloud_actions d ++ new) then new else new ++ [a]),
    cache, names. split_and!; [|destruct_if E; [done|by apply Forall_snoc]|apply H|apply H].
  unfold on_cloud_actions. simpl. destruct_if E; [done|]. by rewrite app_assoc.
Qed.
Lemma own_writes_cache m x d' : UP_LinkedMachineID user = Some m ->
  own_writes user d d' -> own_writes user d (on_gateway_exchange_cache (<[m := x]>) d').
Proof.
  intros Hm (logs & new & cache & names & -> & Hn & Hc & H). exists logs, new, (<[m := x]> cache), names.
  split_and!; [done|done| |done]. intros m' Hm'. rewrite lookup_insert_ne by congruence. by apply Hc.
Qed.
Lemma own_writes_name m l x d' : UP_LinkedMachineID user = Some m ->
  own_writes user d d' -> own_writes user d (on_light_names (<[(m, l) := x]>) d').
Proof.
  intros Hm (logs & new & cache & names & -> & Hn & Hc & H). exists logs, new, cache, (<[(m, l) := x]> names).
  split_and!; [done|done|done|]. intros m' l' Hm'. rewrite lookup_insert_ne by congruence. by apply H.
Qed.
Lemma own_enqueue guid ps :
  preserves (db_inv (own_writes user d)) (EnqueueCloudAction guid (UP_ID user) (UP_LinkedMachineID user) ps).
Proof. unfold EnqueueCloudAction. handler_tac. by apply own_writes_action. Qed.
Lemma own_audit e a : preserves (db_inv (own_writes user d)) (PortalAuditLog e a).
Proof. unfold PortalAuditLog. handler_tac. by apply own_writes_log. Qed.
Lemma own_exchange m ks : UP_LinkedMachineID user = Some m ->
  preserves (db_inv (own_writes user d)) (UpsertGatewayExchange m ks).
Proof. intros Hm. unfold UpsertGatewayExchange, GetGatewayExchange. handler_tac. by apply own_writes_cache. Qed.
Lemma own_set_name m l n b : UP_LinkedMachineID user = Some m ->
  preserves (db_inv (own_writes user d)) (SetLightName m l n b).
Proof. intros Hm. unfold SetLightName. handler_tac. by apply own_writes_name. Qed.
Lemma own_chunks chunks : preserves (db_inv (own_writes user d)) (enqueue_chunks user chunks).
Proof.
  induction chunks as [|c chunks IH]; simpl; [handler_tac|]. handler_tac; apply own_enqueue.
Qed.
End own_writes.
#[export] Hint Resolve own_enqueue own_audit own_exchange own_set_name own_chunks : preserves.
(** The machine of the user once the pointer was dereferenced. *)
Lemma preserves_must_bind {A B} I (o : option A) (k : A -> HW B) :
  (forall a, o = Some a -> preserves I (k a)) -> preserves I (must o ≫= k).
Proof. intros Hk w Hw. destruct o as [a|]; [by apply (Hk a)|done]. Qed.
Ltac order_tac :=
  repeat first
    [ apply preserves_must_bind; intros ? ?
    | progress (unfold or_else, attempt, ignore)
    | preserves_step ].

Definition confined (Q : UserProfile -> Prop) (r : Request) (w w' : World) : Prop :=
  db w' = db w \/
  (IsDryRun r = false /\ exists user, may_use (db w) r user /\ Q user /\ own_writes user (db w) (db w')).
(** What an order does once its user is known. *)
Definition order_body (r : Request) (k : UserProfile -> HW Resp) : Prop :=
  forall user, (IsDryRun r = true -> forall I, preserves (db_inv I) (k user)) /\
    forall d, preserves (db_inv (own_writes user d)) (k user).
Lemma body_confined Q r k user w0 w w' resp :
  order_body r k -> may_use (db w0) r user -> Q user -> db w = db w0 ->
  serve (k user) w = (resp, w') -> confined Q r w0 w'.
Proof.
  intros Hk Hm HQ Hd Hs. destruct (Hk user) as [Hdry Hown]. unfold confined.
  destruct (IsDryRun r).
  - left. symmetry. eapply (preserves_serve (eq (db w0))); [by apply Hdry|done|exact Hs].
  - right. split; [done|]. exists user. split_and!; [done..|].
    eapply (preserves_serve (own_writes user (db w0))); [apply Hown| |exact Hs].
    rewrite Hd. apply own_writes_refl.
Qed.
Lemma gate_confined Q r (gate : HW UserProfile) k w resp w' :
  (forall I, preserves (db_inv I) gate) ->
  (forall user w1, gate w = (Ok user, w1) -> db w1 = db w /\ may_use (db w) r user /\ Q user) ->
  order_body r k -> serve (gate ≫= k) w = (resp, w') -> confined Q r w w'.
Proof.
  intros Hg Hok Hk Hs. apply serve_bind in Hs as [(user & w1 & Hr & Hs)|Hs].
  - apply Hok in Hr as (Hd & Hm & HQ). by eapply body_confined.
  - left. by eapply keeps_run.
Qed.
Lemma scenario_confined Q r (k : Z -> UserProfile -> HW Resp) w resp w' :
  (forall user, Q user) -> (forall slot, order_body r (k slot)) ->
  serve (_ ← requirePortalAccess r; slot ← map_err bad_request (lift (scenarioSlotParam r));
         user ← scenario_user r; k slot user) w = (resp, w') -> confined Q r w w'.
Proof.
  intros HQ Hk Hs. apply serve_bind in Hs as [(u & w1 & Hr & Hs)|Hs];
    [|left; eapply keeps_run; [|exact Hs]; order_tac].
  apply requirePortalAccess_run in Hr as (Hd & user & Hm).
  apply serve_bind in Hs as [(slot & w2 & Hr & Hs)|Hs];
    [|left; rewrite <-Hd; eapply keeps_run; [|exact Hs]; order_tac].
  apply map_err_Ok_inv, lift_Ok_inv in Hr as [_ ->].
  apply serve_bind in Hs as [(user' & w3 & Hr & Hs)|Hs];
    [|left; rewrite <-Hd; eapply keeps_run; [|exact Hs]; order_tac].
  apply scenario_user_run in Hr as [Hd' Hrow]. rewrite Hd in Hrow.
  pose proof (may_use_unique _ _ _ _ Hm Hrow) as ->. eapply body_confined; [apply Hk|done|done| |exact Hs].
  congruence.
Qed.

(** An order of the portal reaches the caller's own cabinet only.
    Whatever the request and whatever fails, either the tables are as before,
    or the request is not a dry run, its caller is a user whose links give
    access and whose link request was approved (an administrator for the light
    settings), and all that changed is: new pending actions of that user for
    the linked cabinet, the exchange cache and the light names of that
    cabinet, and the audit log. *)
Lemma order_confined (o : Order) (r : Request) (w w' : World) (resp : Resp) :
  serve (order_handler o r) w = (resp, w') ->
  confined (fun user => admin_only o = true -> UP_Role user = RoleAdminLocal \/ UP_Role user = RoleAdminGlobal)
    r w w'.
Proof.
  assert (forall user, CanWriteLightTimers (UP_Role user) (UP_LinkedMachineID user) = true ->
    UP_Role user = RoleAdminLocal \/ UP_Role user = RoleAdminGlobal) as Hrole.
  { intros user. unfold CanWriteLightTimers. destruct (UP_LinkedMachineID user); [|done].
    intros [H%seqb_spec|H%seqb_spec]%orb_true_iff; tauto. }
  destruct o; cbn [order_handler admin_only].
  1-3: apply gate_confined; [intros; order_tac|by intros user w1 [? ?]%approved_user_run|].
  - intros user. split; [intros Hdry|]; intros; order_tac; try done.
  - intros user. split; [intros Hdry|]; intros; order_tac; try done.
  - intros user. split; [intros Hdry|]; intros; order_tac; try done.
  - apply scenario_confined; [done|]. intros slot user. split; [intros Hdry|]; intros; order_tac; try done.
  - apply scenario_confined; [done|]. intros slot user. split; [intros Hdry|]; intros; order_tac; try done.
  - apply scenario_confined; [done|]. intros slot user. split; [intros Hdry|]; intros; order_tac; try done.
  - apply gate_confined; [intros; order_tac| |].
    { intros user w1 (Hd & Hm & Hf)%cabinet_admin_run. auto. }
    intros user. split; [intros Hdry|]; intros; order_tac; try done.
  - apply gate_confined; [intros; order_tac| |].
    { intros user w1 (Hd & Hm & Hf)%cabinet_admin_run. auto. }
    intros user. split; [intros Hdry|]; intros; order_tac; try done.
Qed.
(** A user with an approved link to cabinet 4, and an order for one light. *)
Definition portal_demo : World :=
  on_db (fun d => on_users (fun _ => [mkUser 7 "a@b.c" "" RoleAdminLocal "" "" "email" "" 0 0 None (Some 4) None None None None None])
    (on_link_requests (fun _ => [mkLinkRequest 1 7 "S1" None LinkStatusApproved None None 0]) d))
    (empty_world 100 (repeat "A"%char 64)).
Definition portal_request (body : json) : Request :=
  mkRequest "POST" (Some "a@b.c") None None ∅ ∅ ∅ "" (Some (mkBody body 20 None)).
Definition inject_request : Request :=
  portal_request (JObj [("k", JNum "613"); ("v", JStr "64"); ("GUID", JStr "g1")]).
Example inject_demo :
  map A_GUID (cloud_actions (db (serve (Inject inject_request) portal_demo).2)) = ["g1"].
Proof. vm_compute. reflexivity. Qed.

(** ** What a batch queues *)
(** The rows queued for a list of chunks under these guids. *)
Definition queued_rows (user : UserProfile) (guids : list string) (chunks : list (list ExchangeKV))
    (rows : list ActionRow) : Prop :=
  map A_GUID rows = guids /\ map A_Params rows = map Some chunks /\ Forall (own_action user) rows.
Lemma enqueue_run guid user ps w u w' :
  EnqueueCloudAction guid (UP_ID user) (UP_LinkedMachineID user) ps w = (Ok u, w') ->
  exists a, A_GUID a = guid /\ A_Params a = Some ps /\ own_action user a /\
    cloud_actions (db w') = insert_action a (cloud_actions (db w)).
Proof.
  unfold EnqueueCloudAction. intros H. mrun. subst. eexists. split_and!.
  4: { cbn [db on_db cloud_actions on_cloud_actions].
       repeat match goal with E : db _ = _ |- _ => rewrite E; clear E end. reflexivity. }
  all: done.
Qed.
Lemma insert_action_fresh a rows : A_GUID a ∉ map A_GUID rows -> insert_action a rows = rows ++ [a].
Proof.
  intros Hn. unfold insert_action. destruct_if E; [|done]. apply existsb_elem in E as (x & Hx & He).
  apply seqb_spec in He. destruct Hn. rewrite <-He. by apply list_elem_of_fmap_2.
Qed.
Lemma enqueue_chunks_run user chunks w guids w' :
  enqueue_chunks user chunks w = (Ok guids, w') ->
  NoDup (map A_GUID (cloud_actions (db w)) ++ guids) ->
  exists rows, cloud_actions (db w') = cloud_actions (db w) ++ rows /\ queued_rows user guids chunks rows.
Proof.
  revert w guids. induction chunks as [|c chunks IH]; intros w guids H Hnd; cbn [enqueue_chunks] in H.
  - apply mret_Ok_inv in H as [-> ->]. exists []. by rewrite app_nil_r.
  - apply M_bind_Ok in H as (g & w1 & Hg & H).
    assert (db w1 = db w) as Hd by (pose proof (newGUID_db w) as Hx; by rewrite Hg in Hx).
    apply M_bind_Ok in H as (u & w2 & He%or_else_Ok_inv%enqueue_run & H).
    apply M_bind_Ok in H as (gs & w3 & Hc & H). apply mret_Ok_inv in H as [-> ->].
    destruct He as (a & Ha & Hp & Ho & Hrows). rewrite Hd in Hrows.
    rewrite insert_action_fresh in Hrows.
    2:{ rewrite Ha. apply NoDup_app in Hnd as (_ & Hnd & _). intros Hin. apply (Hnd g); [done|left]. }
    apply IH in Hc as (rows & Hw & H1 & H2 & H3).
    + exists (a :: rows). rewrite Hw, Hrows, <-app_assoc. split; [done|].
      split_and!; simpl; [by rewrite Ha, H1|by rewrite Hp, H2|by constructor].
    + rewrite Hrows, map_app, <-app_assoc. simpl. by rewrite Ha.
Qed.
Lemma enqueue_chunks_length user chunks w guids w' :
  enqueue_chunks user chunks w = (Ok guids, w') -> length guids = length chunks.
Proof.
  revert w guids. induction chunks as [|c chunks IH]; intros w guids H; cbn [enqueue_chunks] in H.
  - by apply mret_Ok_inv in H as [-> _].
  - apply M_bind_Ok in H as (g & w1 & _ & H). apply M_bind_Ok in H as (u & w2 & _ & H).
    apply M_bind_Ok in H as (gs & w3 & Hc & H). apply mret_Ok_inv in H as [-> ->]. simpl. f_equal. by eapply IH.
Qed.
(** What follows the queueing does not touch the queue. *)
Lemma exchange_keeps_queue m ks w r w' : ignore (UpsertGatewayExchange m ks) w = (r, w') ->
  cloud_actions (db w') = cloud_actions (db w).
Proof. apply run_keeps. unfold UpsertGatewayExchange, GetGatewayExchange. handler_tac; done. Qed.
Lemma audit_keeps_queue e a w r w' : ignore (PortalAuditLog e a) w = (r, w') ->
  cloud_actions (db w') = cloud_actions (db w).
Proof. apply run_keeps. unfold PortalAuditLog. handler_tac; done. Qed.
Definition batch_items (r : Request) : option (list injectBody) :=
  Decode (dec_struct batch_fields) [] r.
Lemma InjectBatch_throws r : throws (fun x => Status x <> 200) (InjectBatch r).
Proof.
  assert (forall user chunks, throws (fun x => Status x <> 200) (enqueue_chunks user chunks)) as Hc.
  { intros user chunks. induction chunks as [|c chunks IH]; simpl; [throws_tac|].
    throws_tac; apply throws_or_else; by intros. }
  unfold InjectBatch, approved_user, portalUser, userPortalAccess. throws_tac; try apply Hc.
Qed.

(** A batch answered with success is queued whole and in order: the new
    actions carry the guids of the answer, hold at most 30 parameters each and
    put together are the expanded parameters of the request; each one is
    pending, for the caller and the caller's cabinet. *)
Lemma batch_queued_whole (r : Request) (w w' : World) (resp : Resp) :
  serve (InjectBatch r) w = (resp, w') -> Status resp = 200 -> IsDryRun r = false ->
  exists user items guids, may_use (db w) r user /\ batch_items r = Some items /\
    (0 < length items <= 96)%nat /\
    let params := ExpandLegacyScenarioBlock (map (fun p => mkKV (IB_K p) (IB_V p)) items) in
    RespBody resp = BJson (OObj [("guid", OStr (default "" (head guids))); ("guids", oarr OStr guids);
      ("params", oarr out_kv params); ("count", OInt (Z.of_nat (length params)));
      ("chunks", OInt (Z.of_nat (length guids)))]) /\
    (NoDup (map A_GUID (cloud_actions (db w)) ++ guids) ->
     exists rows chunks, cloud_actions (db w') = cloud_actions (db w) ++ rows /\
       queued_rows user guids chunks rows /\ mjoin chunks = params /\
       Forall (fun c => Z.of_nat (length c) <= MaxFirmwareParamsPerAction) chunks).
Proof.
  intros Hs H200 Hdry. apply (serve_Ok _ _ _ _ _ (InjectBatch_throws r)) in Hs; [|by intros Hne; apply Hne].
  unfold InjectBatch in Hs. rewrite Hdry in Hs.
  apply M_bind_Ok in Hs as (user & w1 & Hu & Hs). apply approved_user_run in Hu as [Hd Hm].
  apply M_bind_Ok in Hs as (items & w2 & [Hb ->]%need_Ok_inv & Hs).
  apply M_bind_Ok in Hs as (u1 & w3 & [Hne ->]%check_Ok_inv & Hs).
  apply M_bind_Ok in Hs as (u2 & w4 & [H96 ->]%check_Ok_inv & Hs). cbv zeta in Hs.
  set (params := ExpandLegacyScenarioBlock _) in *.
  apply M_bind_Ok in Hs as (guids & w5 & Hq & Hs).
  apply M_bind_Ok in Hs as (m & w6 & [Hmach ->]%must_Ok_inv & Hs).
  apply M_bind_Ok in Hs as (u3 & w7 & Hx & Hs). apply M_bind_Ok in Hs as (email & w8 & [He ->]%must_Ok_inv & Hs).
  apply M_bind_Ok in Hs as (u4 & w9 & Ha & Hs). apply M_bind_Ok in Hs as (first & w10 & [Hf ->]%must_Ok_inv & Hs).
  apply mret_Ok_inv in Hs as [-> ->]. exists user, items, guids. fold params.
  pose proof (enqueue_chunks_length _ _ _ _ _ Hq) as Hlen.
  destruct (chunk_params_spec params MaxFirmwareParamsPerAction) as [Hcat Hmax].
  split; [done|]. split; [exact Hb|]. split; [lia|]. split.
  - rewrite Hf, Hlen. reflexivity.
  - intros Hnd. rewrite <-Hd in Hnd. apply enqueue_chunks_run in Hq as (rows & Hrows & Hr); [|done].
    exists rows, (ChunkExchangeParams params MaxFirmwareParamsPerAction).
    apply audit_keeps_queue in Ha. apply exchange_keeps_queue in Hx.
    split_and!; [by rewrite Ha, Hx, Hrows, Hd|done|done|].
    eapply Forall_impl; [exact Hmax|]. intros c [_ Hc]. by apply Hc.
Qed.
Definition batch_request : Request :=
  portal_request (JObj [("params", JArr [JObj [("k", JNum "613"); ("v", JStr "64")]; JObj [("k", JNum "349"); ("v", JStr "2")]])]).
