(* ===== verification/Session.v ===== *)
(** * The session of the portal

    Models [PortalSession], [Health] and [NewHandler] of
    [internal/handlers/portal.go]: what a signed-in user is shown of its gateway
    and its cabinet.  [hasInventory] says whether the inventory store is wired. *)
From S2P Require Import Prelude GoStr Exchange Accounts Lights Mac World Crypto PortalStore Json Inventory Http Portal Orders.
#[global] Open Scope Z_scope.

(** The stale time of the exchange table, two minutes when none is configured. *)
Definition NewHandler_TTL (exchangeStaleTTL : Duration) : Duration :=
  if exchangeStaleTTL <=? 0 then 120 * Second else exchangeStaleTTL.
Definition Health (r : Request) : HW Resp := mret (writeJSON 200 (OObj [("status", OStr "ok")])).
Definition session_time : Time -> out := OTime "RFC3339Nano".
Definition out_session_user (u : PortalUserInfo) : out :=
  OObj [("id", OInt (PU_ID u)); ("email", OStr (PU_Email u)); ("first_name", OStr (PU_FirstName u));
    ("last_name", OStr (PU_LastName u)); ("role", OStr (PU_Role u));
    ("linked_machine_id", oopt OInt (PU_LinkedMachineID u)); ("linked_gateway_id", oopt OStr (PU_LinkedGatewayID u));
    ("linked_armoire_id", oopt OInt (PU_LinkedArmoireID u))].
Definition out_session_gateway (g : PortalGatewayInfo) : out :=
  OObj [("id", OStr (PG_ID g)); ("hostname", OStr (PG_Hostname g)); ("ip", OStr (PG_IP g));
    ("online", OBool (PG_Online g)); ("last_seen", session_time (PG_LastSeen g))].
Definition out_session_armoire (a : PortalArmoireInfo) : out :=
  OObj ([("id", OInt (PA_ID a)); ("no_serie", OStr (PA_NoSerie a)); ("ip", OStr (PA_IP a));
    ("last_seen", session_time (PA_LastSeen a))] ++ omit_empty "geo_location" (PA_GeoLocation a)
    ++ [("remote", OBool (PA_Remote a)); ("online", OBool (PA_Online a))]).
Definition out_portal_session (s : PortalSessionResponse) : out :=
  OObj ([("user", out_session_user (PS_User s)); ("portal_access", OBool (PS_PortalAccess s))]
    ++ omit_none "gateway" out_session_gateway (PS_Gateway s) ++ omit_none "armoire" out_session_armoire (PS_Armoire s)).
(** The fields of a machine that the session shows. *)
Definition session_machine (m : Inventory.MachineDetail) : Accounts.MachineDetail :=
  Accounts.mkMachineDetail (Inventory.MD_ID m) (Inventory.MD_NoSerie m) (Inventory.MD_IP m) (Inventory.MD_LastSeen m)
    (Inventory.MD_GeoLocation m).

Section session.
Context (hasInventory : bool).
Definition resolveGateway (gatewayID : string) : HW (option World.GatewayStatus) :=
  if negb hasInventory then mret None else
  gateways ← attempt AdminInventoryStore.GetGateways;
  mret (match gateways with
        | Fail _ => None
        | Ok l => find (fun g => seqb (GT_Hostname g) gatewayID) l
        end).
(** The machine of an identifier, when there is one and it can be read. *)
Definition machine_by (id : option Z) : HW (option Inventory.MachineDetail) :=
  match id with
  | None => mret None
  | Some id => m ← attempt (AdminInventoryStore.GetMachineByID id); mret (res_value m)
  end.
Definition resolveArmoire (armoireID machineID : option Z) : HW (option Inventory.MachineDetail) :=
  if negb hasInventory then mret None else
  m ← machine_by armoireID;
  match m with Some m => mret (Some m) | None => machine_by machineID end.
Definition session_gateway (user : UserProfile) : HW (option PortalGatewayInfo) :=
  match UP_LinkedGatewayID user with
  | Some g =>
      if hasInventory && IsRemoteEligibleGateway (UP_LinkedGatewayID user) then
        o ← attempt (IsGatewayOnline g OnlineTimeout);
        let online := match o with Ok b => b | Fail _ => false end in
        gw ← resolveGateway g;
        mret (Some (match gw with
                    | Some gw => mkPortalGateway g (GT_Hostname gw) (GT_IP gw) online (GT_LastSeen gw)
                    | None => mkPortalGateway g "" "" online 0
                    end))
      else mret None
  | None => mret None
  end.
Definition PortalSession (r : Request) : HW Resp :=
  u ← portalUser r;
  user ← need (res_value u) (http_Error "User not found" 404);
  portalAccess ← userPortalAccess (Some user);
  let userInfo := mkPortalUser (UP_ID user) (UP_Email user) (UP_FirstName user) (UP_LastName user) (UP_Role user)
    (UP_LinkedMachineID user) (UP_LinkedGatewayID user) (UP_LinkedArmoireID user) in
  gateway ← session_gateway user;
  armoire ← (if hasInventory && portalAccess then resolveArmoire (UP_LinkedArmoireID user) (UP_LinkedMachineID user)
             else mret None);
  t ← now;
  mret (writeJSON 200 (out_portal_session
    (NewPortalSessionResponse userInfo portalAccess gateway (option_map session_machine armoire) t))).
End session.

(** ** What a user is shown *)
Lemma machine_by_reads I id : preserves (db_inv I) (machine_by id).
Proof. unfold machine_by, AdminInventoryStore.GetMachineByID. destruct id; handler_tac. Qed.
Lemma resolveArmoire_reads I inv a m : preserves (db_inv I) (resolveArmoire inv a m).
Proof. unfold resolveArmoire. destruct (negb inv); [handler_tac|]. apply preserves_bind; [apply machine_by_reads|]. intros [x|]; [handler_tac|apply machine_by_reads]. Qed.
Lemma session_gateway_reads I inv user : preserves (db_inv I) (session_gateway inv user).
Proof.
  unfold session_gateway, resolveGateway, IsGatewayOnline, GetGatewaySession, AdminInventoryStore.GetGateways. handler_tac.
Qed.
#[export] Hint Resolve machine_by_reads resolveArmoire_reads session_gateway_reads : preserves.
Lemma PortalSession_reads I inv r : preserves (db_inv I) (PortalSession inv r).
Proof. unfold PortalSession. handler_tac. Qed.
Lemma machine_by_run id w m w' : machine_by id w = (Ok (Some m), w') ->
  exists i row, id = Some i /\ row ∈ machines (db w) /\ M_ID row = i /\ m = AdminInventoryStore.machine_detail (db w) row.
Proof.
  destruct id as [i|]; [|done]. unfold machine_by, AdminInventoryStore.GetMachineByID. intros H. hrun.
  match goal with H : Some m = res_value ?x |- _ => destruct x; [injection H as <-|done] end. mrun.
  match goal with H : ?x = Ok m, H2 : ?x = _ |- _ => rewrite H2 in H; apply res_bind_Ok in H as (row & Hrow & Hm) end.
  subst. apply get_row_Ok in Hrow as [Hin Hid%Z.eqb_eq]. injection Hm as <-. by exists i, row.
Qed.
(** The machine shown is one of those the user is linked to. *)
Definition linked_machine (d : DB) (user : UserProfile) (m : Inventory.MachineDetail) : Prop :=
  exists row, row ∈ machines d /\ m = AdminInventoryStore.machine_detail d row /\
    (UP_LinkedArmoireID user = Some (M_ID row) \/ UP_LinkedMachineID user = Some (M_ID row)).
Lemma resolveArmoire_run inv user w m w' :
  resolveArmoire inv (UP_LinkedArmoireID user) (UP_LinkedMachineID user) w = (Ok (Some m), w') -> linked_machine (db w) user m.
Proof.
  unfold resolveArmoire. destruct (negb inv); [done|]. intros H. apply M_bind_Ok in H as ([x|] & w1 & H1 & H).
  - apply mret_Ok_inv in H as [[= ->] ->]. apply machine_by_run in H1 as (i & row & Hi & Hin & <- & ->). exists row. auto.
  - apply keeps_run in H1; [|apply machine_by_reads]. apply machine_by_run in H as (i & row & Hi & Hin & <- & ->).
    rewrite H1 in *. exists row. auto.
Qed.
Lemma resolveGateway_run inv id w gw w' : resolveGateway inv id w = (Ok (Some gw), w') -> GT_Hostname gw = id.
Proof.
  unfold resolveGateway. destruct (negb inv); [done|]. intros H. hrun.
  match goal with H : Some gw = match ?x with _ => _ end |- _ => destruct x; [symmetry in H; apply find_some in H as [_ H]|done] end.
  by apply seqb_spec.
Qed.
Lemma session_gateway_run inv user w g w' : session_gateway inv user w = (Ok (Some g), w') ->
  UP_LinkedGatewayID user = Some (PG_ID g) /\ IsRemoteEligibleGateway (UP_LinkedGatewayID user) = true /\
  (PG_Hostname g = PG_ID g \/ (PG_Hostname g = "" /\ PG_IP g = "")).
Proof.
  unfold session_gateway. destruct (UP_LinkedGatewayID user) as [g0|]; [|done].
  destruct (inv && IsRemoteEligibleGateway (Some g0)) eqn:E; [|done]. apply andb_true_iff in E as [_ E].
  intros H. hrun. match goal with H : resolveGateway _ _ _ = (Ok ?x, _) |- _ => destruct x as [gw|]; [apply resolveGateway_run in H|] end;
    match goal with H : Some g = Some _ |- _ => injection H as -> end; split_and!; auto.
Qed.
Lemma PortalSession_throws inv r : throws not_ok (PortalSession inv r).
Proof.
  unfold PortalSession, portalUser, userPortalAccess, session_gateway, resolveArmoire, resolveGateway, machine_by. throws_tac.
Qed.
(** What the session says of the account: the columns of its row. *)
Definition shown_user (u : User) : PortalUserInfo :=
  mkPortalUser (U_ID u) (U_Email u) (U_FirstName u) (U_LastName u) (U_Role u)
    (U_LinkedMachineID u) (U_LinkedGatewayID u) (U_LinkedArmoireID u).
(** The cabinet as it is shown at [t]. *)
Definition shown_armoire (m : Inventory.MachineDetail) (t : Time) : PortalArmoireInfo :=
  mkPortalArmoire (Inventory.MD_ID m) (Inventory.MD_NoSerie m) (Inventory.MD_IP m) (Inventory.MD_LastSeen m)
    (Inventory.MD_GeoLocation m) true (IsOnline (Inventory.MD_LastSeen m) t OnlineTimeout).
(** C39. The session of the portal only reads.  It shows the row of the account
    of the request as it is, column by column; its own gateway when that is one
    that can be reached from outside; access to the portal only to a user with
    an approved link and eligible links, and a cabinet only with that access:
    then a machine it is linked to, as the inventory has it, online exactly when
    it was heard of within two minutes of the answer. *)
Theorem portal_session_confined (inv : bool) (r : Request) (w w' : World) (resp : Resp) :
  serve (PortalSession inv r) w = (resp, w') ->
  db w' = db w /\
  (Status resp = 200 -> exists email row s,
    R_UserEmail r = Some email /\ get_row (fun u => seqb (U_Email u) email) (users (db w)) = Ok row /\
    resp = writeJSON 200 (out_portal_session s) /\ PS_User s = shown_user row /\
    (forall g, PS_Gateway s = Some g ->
       U_LinkedGatewayID row = Some (PG_ID g) /\ IsRemoteEligibleGateway (U_LinkedGatewayID row) = true /\
       (PG_Hostname g = PG_ID g \/ (PG_Hostname g = "" /\ PG_IP g = ""))) /\
    (PS_PortalAccess s = true -> may_use (db w) r (profile_of row)) /\
    (forall a, PS_Armoire s = Some a -> PS_PortalAccess s = true /\
       exists m, linked_machine (db w) (profile_of row) m /\ a = shown_armoire m (clock w'))).
Proof.
  intros H. split.
  { pose proof (preserves_serve _ _ _ _ _ (PortalSession_reads (eq (db w)) inv r) eq_refl H) as Hp. by rewrite Hp. }
  intros Hs. eapply serve_Ok in H; [|apply PortalSession_throws|by intros ?].
  unfold PortalSession in H. apply M_bind_Ok in H as (u & w1 & [Hd1 Hu]%portalUser_run & H).
  apply M_bind_Ok in H as (user & w2 & [Hv%res_value_Some ->]%need_Ok_inv & H). apply Hu in Hv as (email & He & Hrow).
  pose proof Hrow as (row & Hget & ->).
  apply M_bind_Ok in H as (access & w3 & Ha & H). apply M_bind_Ok in H as (g & w4 & Hg & H).
  apply M_bind_Ok in H as (a & w5 & Hm & H). apply M_bind_Ok in H as (t & w6 & Ht & H).
  apply mret_Ok_inv in H as [-> ->]. apply now_Ok_inv in Ht as (_ & _ & <-). exists email, row. eexists.
  split_and!; [exact He|exact Hget|reflexivity|reflexivity|..].
  - intros g' [= ->]. by apply session_gateway_run in Hg.
  - cbn. intros ->. apply userPortalAccess_run in Ha as (Hd3 & Helig & Hlink). rewrite Hd1 in Hlink.
    split; [by exists email|done].
  - cbn. intros a' Ha'. destruct a as [m|]; [|by destruct access]. cbn in Ha'. destruct access; [|done]. injection Ha' as <-.
    split; [done|]. apply userPortalAccess_run in Ha as (Hd3 & _ & _). exists m. split; [|done].
    destruct (inv && true); [|done]. apply resolveArmoire_run in Hm. apply keeps_run in Hg; [|apply session_gateway_reads].
    by rewrite Hg, Hd3, Hd1 in Hm.
Qed.
(** The user of cabinet 4, which was heard of a second ago. *)
Definition session_demo : World :=
  on_db (on_machines (fun _ => [mkMachine "hash" (Some "4") 4 None (Some 99) true None None None])) portal_demo.
Definition session_request : Request := portal_request JNull.
Lemma portal_session_confined_witness :
  let served := serve (PortalSession true session_request) session_demo in
  db served.2 = db session_demo /\ exists row s, U_ID row = 7 /\ served.1 = writeJSON 200 (out_portal_session s) /\
    PS_User s = shown_user row /\
    forall a, PS_Armoire s = Some a -> exists m, linked_machine (db session_demo) (profile_of row) m /\ PA_ID a = Inventory.MD_ID m.
Proof.
  intros served.
  destruct (portal_session_confined true session_request session_demo served.2 served.1 (surjective_pairing _)) as [Hd H].
  split; [exact Hd|]. destruct H as (email & row & s & [= <-] & Hu & Hr & Hus & _ & _ & Ha); [vm_compute; reflexivity|].
  exists row, s. split; [vm_compute in Hu; by injection Hu as <-|]. split_and!; [exact Hr|exact Hus|].
  intros a H. destruct (Ha a H) as (_ & m & Hm & ->). by exists m.
Defined.
Example session_shows_cabinet :
  exists rest, RespBody (serve (PortalSession true session_request) session_demo).1 =
    BJson (OObj (rest ++ [("armoire", OObj [("id", OInt 4); ("no_serie", OStr "UNKNOWN-hash"); ("ip", OStr "-");
      ("last_seen", session_time 99); ("remote", OBool true); ("online", OBool true)])])).
Proof. eexists [_; _]. vm_compute. reflexivity. Qed.
