(* ===== verification/SyncStore.v ===== *)
(** * Sync profiles and runs

    Models [internal/syncprofile/validate.go], [internal/domain/sync_profile.go],
    [internal/data/sync_profile_store.go] and [sync_alert.go].  The ids the
    database draws are represented by the numerals of a sequence; profile names
    are ordered by their bytes.  A text that is no UUID matches no row, where
    the database answers an error: both are errors of the call. *)
From S2P Require Import Prelude GoStr Exchange Accounts Lights World PortalStore.
#[global] Open Scope Z_scope.

(** ** validate.go *)
Definition MaxFirmwareIndicesPerCycle : Z := 30.
Fixpoint validate_ranges (i : Z) (ranges : list (Z * Z)) : res err unit :=
  match ranges with
  | [] => Ok tt
  | rg :: ranges =>
      if rg.1 >? rg.2 then
        Fail (Errorf "index_ranges[%d]: start %d > end %d" [AInt i; AInt rg.1; AInt rg.2])
      else if (rg.1 <? 0) || (rg.2 >? 4096) then Fail (Errorf "index_ranges[%d]: out of bounds" [AInt i])
      else validate_ranges (i + 1) ranges
  end.
Definition ValidateIndexRanges (ranges : list (Z * Z)) : res err unit :=
  if (length ranges =? 0)%nat then Fail (Errorf "index_ranges required" []) else validate_ranges 0 ranges.
Definition ExpectedIndexCount (ranges : list (Z * Z)) : Z :=
  foldl (fun n rg => n + (rg.2 - rg.1 + 1)) 0 ranges.
(** Go's integer division rounds towards zero. *)
Definition PullChunkCount (ranges : list (Z * Z)) : Z :=
  foldl (fun total rg => total + Z.quot (rg.2 - rg.1 + 1 + MaxFirmwareIndicesPerCycle - 1)
                                   MaxFirmwareIndicesPerCycle) 0 ranges.
Definition FlattenIndices (ranges : list (Z * Z)) : list Z :=
  mjoin (map (fun rg => seqZ rg.1 (rg.2 - rg.1 + 1)) ranges).

(** ** sync_profile.go *)
Definition SyncRunStatusPending : string := "pending".
Definition SyncRunStatusRunning : string := "running".
Definition SyncRunStatusSuccess : string := "success".
Definition SyncRunStatusPartial : string := "partial".
Definition SyncRunStatusFailed : string := "failed".
Record SyncProfile := mkProfile {
  P_ID : string; P_GatewayID : string; P_Name : string; P_IndexRanges : list (Z * Z);
  P_IntervalHours : Z; P_CronExpression : option string; P_PullFromArmoire : bool;
  P_PushToCloud : bool; P_Enabled : bool; P_ExcludeIndices : list Z; P_LastRunAt : option Time;
  P_CreatedAt : Time; P_UpdatedAt : Time; P_NextRunAt : option Time; P_LastRunStatus : option string }.
Record SyncRun := mkRun {
  Run_ID : string; Run_ProfileID : string; Run_GatewayID : string; Run_Status : string;
  Run_ExpectedCount : Z; Run_ReceivedCount : Z; Run_PushedCount : Z; Run_ErrorMessage : option string;
  Run_LogLines : list SyncLogLine; Run_StartedAt : option Time; Run_FinishedAt : option Time;
  Run_CreatedAt : Time }.
Record UpsertSyncProfileRequest := mkUpsert {
  UR_GatewayID : string; UR_Name : string; UR_IndexRanges : list (Z * Z); UR_IntervalHours : Z;
  UR_CronExpression : option string; UR_PullFromArmoire : option bool; UR_PushToCloud : option bool;
  UR_Enabled : option bool; UR_ExcludeIndices : list Z }.
Record SyncRunProgressRequest := mkProgress {
  PR_ReceivedCount : Z; PR_PushedCount : Z; PR_ChunkIndex : Z; PR_ChunkTotal : Z;
  PR_Phase : string; PR_Message : string; PR_Status : string; PR_ErrorMessage : string }.

(** ** Profiles *)
Definition decodeProfile (row : SyncProfileRow) (lastStatus : option string) : res err SyncProfile :=
  ranges ← ok_or (SP_IndexRanges row) (Errorf "json" []);
  exclude ← ok_or (SP_ExcludeIndices row) (Errorf "json" []);
  let cron := match SP_CronExpression row with
              | Some c => if is_empty c then None else Some c
              | None => None
              end in
  let next := match SP_LastRunAt row with
              | Some t => if SP_Enabled row && (SP_IntervalHours row >? 0)
                          then Some (t + wrap64 (SP_IntervalHours row * Hour)) else None
              | None => None
              end in
  Ok (mkProfile (SP_ID row) (SP_GatewayID row) (SP_Name row) ranges (SP_IntervalHours row) cron
        (SP_PullFromArmoire row) (SP_PushToCloud row) (SP_Enabled row) exclude (SP_LastRunAt row)
        (SP_CreatedAt row) (SP_UpdatedAt row) next lastStatus).
(** The sub-select of the last run's status. *)
Definition last_run_status (d : DB) (profileID : string) : option string :=
  SR_Status <$> head (order_desc SR_CreatedAt (select (fun r => seqb (SR_ProfileID r) profileID) (sync_runs d))).
Definition loaded (d : DB) (row : SyncProfileRow) : res err SyncProfile :=
  decodeProfile row (last_run_status d (SP_ID row)).
Fixpoint map_res {A B} (f : A -> res err B) (l : list A) : res err (list B) :=
  match l with
  | [] => Ok []
  | a :: l => b ← f a; bs ← map_res f l; Ok (b :: bs)
  end.
(** [ORDER BY p.name ASC] *)
Definition name_le (a b : SyncProfileRow) : Prop := str_ltb (SP_Name b) (SP_Name a) = false.
#[export] Instance name_le_dec a b : Decision (name_le a b).
Proof. unfold name_le. apply _. Defined.
Definition ListSyncProfiles (gatewayID : string) : MW (list SyncProfile) :=
  r ← query (fun d => map_res (loaded d) (merge_sort name_le
        (select (fun p => is_empty gatewayID || seqb (SP_GatewayID p) gatewayID || seqb (SP_GatewayID p) "")
           (sync_profiles d))));
  lift r.
Definition GetSyncProfile (id : string) : MW SyncProfile :=
  r ← query (fun d => row ← get_row (fun p => seqb (SP_ID p) id) (sync_profiles d); loaded d row);
  lift r.
(** The columns a request sets, with the defaults of its absent fields. *)
Definition profile_row (id : string) (req : UpsertSyncProfileRequest) (lastRun : option Time)
    (created updated : Time) : SyncProfileRow :=
  mkSyncProfile id (UR_GatewayID req) (UR_Name req) (Some (UR_IndexRanges req))
    (if UR_IntervalHours req <=? 0 then 3 else UR_IntervalHours req) (UR_CronExpression req)
    (default true (UR_PullFromArmoire req)) (default true (UR_PushToCloud req))
    (default true (UR_Enabled req)) (Some (UR_ExcludeIndices req)) lastRun created updated.
Definition CreateSyncProfile (req : UpsertSyncProfileRequest) : MW SyncProfile :=
  _ ← lift (ValidateIndexRanges (UR_IndexRanges req));
  _ ← stmt;
  _ ← guard_err (UR_IntervalHours req >? int4_max) ErrDB;
  n ← nextval "sync_profiles";
  t ← now;
  let id := Itoa n in
  _ ← modify (on_db (on_sync_profiles (fun rows => rows ++ [profile_row id req None t t])));
  GetSyncProfile id.
Definition not_found : err := Errorf "profile not found" [].
Definition UpdateSyncProfile (id : string) (req : UpsertSyncProfileRequest) : MW SyncProfile :=
  _ ← lift (ValidateIndexRanges (UR_IndexRanges req));
  _ ← stmt;
  _ ← guard_err (UR_IntervalHours req >? int4_max) ErrDB;
  t ← now;
  hit ← gets (fun w => existsb (fun p => seqb (SP_ID p) id) (sync_profiles (db w)));
  _ ← guard_err (negb hit) not_found;
  _ ← modify (on_db (on_sync_profiles (update_where (fun p => seqb (SP_ID p) id)
        (fun p => profile_row id req (SP_LastRunAt p) (SP_CreatedAt p) t))));
  GetSyncProfile id.
(** The runs of a deleted profile go with it. *)
Definition DeleteSyncProfile (id : string) : MW unit :=
  _ ← stmt;
  hit ← gets (fun w => existsb (fun p => seqb (SP_ID p) id) (sync_profiles (db w)));
  _ ← guard_err (negb hit) not_found;
  modify (on_db (fun d => on_sync_runs (delete_where (fun r => seqb (SR_ProfileID r) id))
    (on_sync_profiles (delete_where (fun p => seqb (SP_ID p) id)) d))).
Definition ListSyncProfilesForGateway (gatewayID : string) : MW (list SyncProfile) :=
  ListSyncProfiles gatewayID.
(** The gateway's own profile before a shared one. *)
Definition own_first (gatewayID : string) (p : SyncProfileRow) : Z :=
  if seqb (SP_GatewayID p) gatewayID then 0 else 1.
Definition visible_to (gatewayID : string) (p : SyncProfileRow) : bool :=
  seqb (SP_GatewayID p) "" || seqb (SP_GatewayID p) gatewayID.
Definition GetSyncProfileByNameForGateway (gatewayID name : string) : MW SyncProfile :=
  r ← query (fun d =>
    row ← ok_or (head (order_asc (own_first gatewayID)
            (select (fun p => seqb (SP_Name p) name && visible_to gatewayID p) (sync_profiles d)))) ErrNoRows;
    loaded d row);
  lift r.
Definition set_enabled (enabled : bool) (t : Time) (p : SyncProfileRow) : SyncProfileRow :=
  mkSyncProfile (SP_ID p) (SP_GatewayID p) (SP_Name p) (SP_IndexRanges p) (SP_IntervalHours p)
    (SP_CronExpression p) (SP_PullFromArmoire p) (SP_PushToCloud p) enabled (SP_ExcludeIndices p)
    (SP_LastRunAt p) (SP_CreatedAt p) t.
Definition SetSyncProfileEnabled (profileID gatewayID : string) (enabled : bool) : MW SyncProfile :=
  _ ← stmt;
  t ← now;
  let target p := seqb (SP_ID p) profileID && visible_to gatewayID p in
  hit ← gets (fun w => existsb target (sync_profiles (db w)));
  _ ← guard_err (negb hit) not_found;
  _ ← modify (on_db (on_sync_profiles (update_where target (set_enabled enabled t))));
  GetSyncProfile profileID.

(** ** Runs *)
Definition decodeSyncRun (row : SyncRunRow) : res err SyncRun :=
  logs ← ok_or (SR_LogLines row) (Errorf "json" []);
  Ok (mkRun (SR_ID row) (SR_ProfileID row) (SR_GatewayID row) (SR_Status row) (SR_ExpectedCount row)
        (SR_ReceivedCount row) (SR_PushedCount row) (SR_ErrorMessage row) logs (SR_StartedAt row)
        (SR_FinishedAt row) (SR_CreatedAt row)).
Definition decodeSyncRuns : list SyncRunRow -> res err (list SyncRun) := map_res decodeSyncRun.
Definition unfinished (gatewayID : string) (r : SyncRunRow) : bool :=
  seqb (SR_GatewayID r) gatewayID
  && (seqb (SR_Status r) SyncRunStatusPending || seqb (SR_Status r) SyncRunStatusRunning).
Definition ListPendingSyncRuns (gatewayID : string) : MW (list SyncRun) :=
  r ← query (fun d => decodeSyncRuns (order_asc SR_CreatedAt (select (unfinished gatewayID) (sync_runs d))));
  lift r.
Definition GetSyncRun (runID : string) : MW SyncRun :=
  r ← query (fun d => row ← get_row (fun r => seqb (SR_ID r) runID) (sync_runs d); decodeSyncRun row);
  lift r.
Definition ListSyncRunsForProfile (profileID : string) (lim : Z) : MW (list SyncRun) :=
  let lim := if lim <=? 0 then 20 else lim in
  r ← query (fun d => decodeSyncRuns (limit lim (order_desc SR_CreatedAt
        (select (fun r => seqb (SR_ProfileID r) profileID) (sync_runs d)))));
  lift r.
(** The profile must exist (a foreign key). *)
Definition CreateSyncRun (profileID gatewayID : string) (expected : Z) (initialLog : string) : MW SyncRun :=
  t0 ← now;
  _ ← stmt;
  _ ← guard_err (negb (int4 expected)) ErrDB;
  n ← nextval "sync_runs";
  known ← gets (fun w => existsb (fun p => seqb (SP_ID p) profileID) (sync_profiles (db w)));
  _ ← guard_err (negb known) ErrDB;
  t ← now;
  let id := Itoa n in
  _ ← modify (on_db (on_sync_runs (fun rows => rows ++
        [mkSyncRun id profileID gatewayID SyncRunStatusPending expected 0 0 None
           (Some [mkSyncLog t0 "info" initialLog]) None None t])));
  GetSyncRun id.
Definition startable (runID gatewayID : string) (r : SyncRunRow) : bool :=
  seqb (SR_ID r) runID && seqb (SR_GatewayID r) gatewayID && seqb (SR_Status r) SyncRunStatusPending.
Definition start_run (t : Time) (r : SyncRunRow) : SyncRunRow :=
  mkSyncRun (SR_ID r) (SR_ProfileID r) (SR_GatewayID r) SyncRunStatusRunning (SR_ExpectedCount r)
    (SR_ReceivedCount r) (SR_PushedCount r) (SR_ErrorMessage r) (SR_LogLines r) (Some t)
    (SR_FinishedAt r) (SR_CreatedAt r).
Definition StartSyncRun (runID gatewayID : string) : MW unit :=
  _ ← stmt;
  t ← now;
  hit ← gets (fun w => existsb (startable runID gatewayID) (sync_runs (db w)));
  _ ← guard_err (negb hit) (Errorf "run not found or not pending" []);
  modify (on_db (on_sync_runs (update_where (startable runID gatewayID) (start_run t)))).

(** ** sync_alert.go: whether the alert is logged *)
Definition syncConsecutiveFailureThreshold : Z := 3.
Definition failing (status : string) : bool :=
  seqb status SyncRunStatusFailed || seqb status SyncRunStatusPartial.
Definition maybeAlertConsecutiveFailures (profileID : string) : MW bool :=
  runs ← try (E' := err) (ListSyncRunsForProfile profileID syncConsecutiveFailureThreshold);
  match runs with
  | Fail _ => mret false
  | Ok runs =>
      if (Z.of_nat (length runs) <? syncConsecutiveFailureThreshold)
         || negb (forallb (fun r => failing (Run_Status r)) runs)
      then mret false
      else _ ← try (E' := err) (GetSyncProfile profileID); mret true
  end.

(** ** Progress of a run *)
Definition finished_status (s : string) : bool := seqb s SyncRunStatusSuccess || failing s.
(** The [CHECK] of the [status] column. *)
Definition known_status (s : string) : bool :=
  seqb s SyncRunStatusPending || seqb s SyncRunStatusRunning || finished_status s.
Definition progress_level (req : SyncRunProgressRequest) : string :=
  if negb (is_empty (PR_ErrorMessage req)) then "error"
  else if seqb (PR_Phase req) "done" then "success" else "info".
Definition progress_message (run : SyncRun) (req : SyncRunProgressRequest) : string :=
  if is_empty (PR_Message req) && (PR_ChunkTotal req >? 0) then
    (PR_Phase req ++ " — " ++ Itoa (PR_ReceivedCount req) ++ "/" ++ Itoa (Run_ExpectedCount run)
     ++ " octets (chunk " ++ Itoa (PR_ChunkIndex req) ++ "/" ++ Itoa (PR_ChunkTotal req) ++ ")")%string
  else PR_Message req.
Definition progress_status (run : SyncRun) (req : SyncRunProgressRequest) : string :=
  if negb (is_empty (PR_Status req)) then PR_Status req
  else if seqb (Run_Status run) SyncRunStatusPending then SyncRunStatusRunning else Run_Status run.
(** The row the [UPDATE] leaves, at the time [t]. *)
Definition progress_row (run : SyncRun) (req : SyncRunProgressRequest) (logs : list SyncLogLine)
    (t : Time) (r : SyncRunRow) : SyncRunRow :=
  let status := progress_status run req in
  mkSyncRun (SR_ID r) (SR_ProfileID r) (SR_GatewayID r) status (SR_ExpectedCount r)
    (if PR_ReceivedCount req >? 0 then PR_ReceivedCount req else Run_ReceivedCount run)
    (if PR_PushedCount req >? 0 then PR_PushedCount req else Run_PushedCount run)
    (nullIfEmpty (PR_ErrorMessage req)) (Some logs) (Some (default t (SR_StartedAt r)))
    (if finished_status status then Some t else SR_FinishedAt r) (SR_CreatedAt r).
Definition set_last_run (t : Time) (p : SyncProfileRow) : SyncProfileRow :=
  mkSyncProfile (SP_ID p) (SP_GatewayID p) (SP_Name p) (SP_IndexRanges p) (SP_IntervalHours p)
    (SP_CronExpression p) (SP_PullFromArmoire p) (SP_PushToCloud p) (SP_Enabled p)
    (SP_ExcludeIndices p) (Some t) (SP_CreatedAt p) t.
Definition run_of (runID gatewayID : string) (r : SyncRunRow) : bool :=
  seqb (SR_ID r) runID && seqb (SR_GatewayID r) gatewayID.
Definition progress_logs (run : SyncRun) (req : SyncRunProgressRequest) : MW (list SyncLogLine) :=
  let msg := progress_message run req in
  if is_empty msg then mret (Run_LogLines run)
  else t ← now; mret (Run_LogLines run ++ [mkSyncLog t (progress_level req) msg]).
Definition AppendSyncRunProgress (runID gatewayID : string) (req : SyncRunProgressRequest) : MW unit :=
  run ← GetSyncRun runID;
  _ ← guard_err (negb (seqb (Run_GatewayID run) gatewayID)) (Errorf "forbidden" []);
  logs ← progress_logs run req;
  let status := progress_status run req in
  _ ← stmt;
  t ← now;
  _ ← guard_err ((PR_ReceivedCount req >? int4_max) || (PR_PushedCount req >? int4_max)
                 || negb (known_status status)) ErrDB;
  _ ← modify (on_db (on_sync_runs (update_where (run_of runID gatewayID) (progress_row run req logs t))));
  if finished_status status then
    _ ← try (E' := err) (_ ← stmt; t ← now;
          modify (on_db (on_sync_profiles (update_where (fun p => seqb (SP_ID p) (Run_ProfileID run)) (set_last_run t)))));
    if failing status then _ ← maybeAlertConsecutiveFailures (Run_ProfileID run); mret tt else mret tt
  else mret tt.

(** ** Lemmas *)
Lemma validate_ranges_Ok i ranges : validate_ranges i ranges = Ok tt <->
  Forall (fun rg => 0 <= rg.1 <= rg.2 /\ rg.2 <= 4096) ranges.
Proof.
  revert i. induction ranges as [|rg ranges IH]; intros i; simpl; [by split|].
  destruct_if E1; [split; [done|]; intros [? _]%Forall_cons; lia|].
  destruct_if E2; [split; [done|]; intros [? _]%Forall_cons; lia|].
  rewrite IH, Forall_cons. split; [intros H; split; [lia|done]|tauto].
Qed.
Lemma ValidateIndexRanges_Ok ranges : ValidateIndexRanges ranges = Ok tt <->
  ranges <> [] /\ Forall (fun rg => 0 <= rg.1 <= rg.2 /\ rg.2 <= 4096) ranges.
Proof.
  unfold ValidateIndexRanges. destruct ranges as [|rg ranges]; [by split; [|intros [? _] ]|].
  cbn [length Nat.eqb]. rewrite validate_ranges_Ok. split; [done|tauto].
Qed.
Lemma foldl_add_acc {A} (f : A -> Z) l n : foldl (fun n a => n + f a) n l = n + foldl (fun n a => n + f a) 0 l.
Proof.
  revert n. induction l as [|a l IH]; intros n; simpl; [lia|]. rewrite IH, (IH (0 + f a)). lia.
Qed.
Lemma sync_counts (ranges : list (Z * Z)) :
  Forall (fun rg => 0 <= rg.1 <= rg.2 /\ rg.2 <= 4096) ranges ->
  ExpectedIndexCount ranges = Z.of_nat (length (FlattenIndices ranges)) /\
  ExpectedIndexCount ranges <= 30 * PullChunkCount ranges <=
    ExpectedIndexCount ranges + 29 * Z.of_nat (length ranges) /\
  Z.of_nat (length ranges) <= ExpectedIndexCount ranges <= 4097 * Z.of_nat (length ranges).
Proof.
  unfold ExpectedIndexCount, PullChunkCount, FlattenIndices, MaxFirmwareIndicesPerCycle.
  induction 1 as [|rg ranges [H1 H2] HF IH]; [by vm_compute|].
  cbn [foldl map length]. rewrite mjoin_cons, length_app, length_seqZ. cbn [map] in *.
  rewrite (foldl_add_acc (fun rg => rg.2 - rg.1 + 1)).
  rewrite (foldl_add_acc (fun rg => Z.quot (rg.2 - rg.1 + 1 + 30 - 1) 30)).
  set (e := foldl _ 0 ranges) in *. set (c := foldl _ 0 ranges) in *.
  rewrite Z.quot_div_nonneg by lia.
  pose proof (Z.div_mod (rg.2 - rg.1 + 1 + 30 - 1) 30 ltac:(lia)) as Hdm.
  pose proof (Z.mod_pos_bound (rg.2 - rg.1 + 1 + 30 - 1) 30 ltac:(lia)) as Hmb.
  destruct IH as (IH1 & IH2 & IH3). split_and!; lia.
Qed.

(** The index ranges of a profile: exactly the non-empty lists of ranges
    in order within 0..4096 are accepted; for those the expected count is the
    number of indices the ranges enumerate, the indices are those inside some
    range, and the number of pull cycles is enough for 30 indices a cycle with
    at most one partial cycle per range. *)
Lemma index_ranges_spec (ranges : list (Z * Z)) :
  (ValidateIndexRanges ranges = Ok tt <->
     ranges <> [] /\ forall rg, rg ∈ ranges -> 0 <= rg.1 <= rg.2 /\ rg.2 <= 4096) /\
  (ValidateIndexRanges ranges = Ok tt ->
     ExpectedIndexCount ranges = Z.of_nat (length (FlattenIndices ranges)) /\
     (forall k, k ∈ FlattenIndices ranges <-> exists rg, rg ∈ ranges /\ rg.1 <= k <= rg.2) /\
     ExpectedIndexCount ranges <= MaxFirmwareIndicesPerCycle * PullChunkCount ranges <=
       ExpectedIndexCount ranges + 29 * Z.of_nat (length ranges)).
Proof.
  split; [by rewrite ValidateIndexRanges_Ok, Forall_forall|].
  intros [_ HF]%ValidateIndexRanges_Ok. destruct (sync_counts ranges HF) as (H1 & H2 & _).
  split_and!; [done| |apply H2..]. intros k. unfold FlattenIndices. rewrite list_elem_of_join.
  setoid_rewrite list_elem_of_fmap. split.
  - intros (l & Hk & rg & -> & Hin). exists rg. apply elem_of_seqZ in Hk. split; [done|lia].
  - intros (rg & Hin & Hk). eexists. split; [|by exists rg]. apply elem_of_seqZ. lia.
Qed.

(** ** Runs: who may change them, and how *)
Lemma GetSyncRun_run id w run w' : GetSyncRun id w = (Ok run, w') ->
  db w' = db w /\ exists row, get_row (fun r => seqb (SR_ID r) id) (sync_runs (db w)) = Ok row /\
    decodeSyncRun row = Ok run.
Proof.
  unfold GetSyncRun. intros H. mrun. subst.
  lazymatch goal with H : (_ ≫= _) = Ok run |- _ => apply res_bind_Ok in H as (row & Hrow & Hdec) end.
  split; [congruence|]. by exists row.
Qed.
Lemma decodeSyncRun_Ok row run : decodeSyncRun row = Ok run ->
  SR_LogLines row = Some (Run_LogLines run) /\ SR_GatewayID row = Run_GatewayID run /\ SR_ID row = Run_ID run /\
  SR_ProfileID row = Run_ProfileID run /\ SR_Status row = Run_Status run.
Proof. unfold decodeSyncRun. destruct (SR_LogLines row); [|done]. intros [= <-]. done. Qed.
Lemma GetSyncRun_keeps I id : preserves (db_inv I) (GetSyncRun id).
Proof. unfold GetSyncRun. preserves_tac. Qed.
Lemma GetSyncProfile_keeps I id : preserves (db_inv I) (GetSyncProfile id).
Proof. unfold GetSyncProfile. preserves_tac. Qed.
Lemma maybeAlert_keeps I id : preserves (db_inv I) (maybeAlertConsecutiveFailures id).
Proof.
  unfold maybeAlertConsecutiveFailures, ListSyncRunsForProfile. preserves_tac; apply GetSyncProfile_keeps.
Qed.
#[export] Hint Resolve GetSyncRun_keeps GetSyncProfile_keeps maybeAlert_keeps : preserves.

(** The life of one run: its identity is fixed, its log grows, its start is
    kept once set. *)
Definition log_prefix (a b : option (list SyncLogLine)) : Prop :=
  match a, b with Some l, Some k => l `prefix_of` k | Some _, None => False | None, b => b = None end.
Definition run_le (a b : SyncRunRow) : Prop :=
  SR_ID b = SR_ID a /\ SR_ProfileID b = SR_ProfileID a /\ SR_GatewayID b = SR_GatewayID a /\
  SR_ExpectedCount b = SR_ExpectedCount a /\ SR_CreatedAt b = SR_CreatedAt a /\
  (is_Some (SR_StartedAt a) -> is_Some (SR_StartedAt b)) /\ log_prefix (SR_LogLines a) (SR_LogLines b).
#[export] Instance run_le_refl : Reflexive run_le.
Proof. intros a. unfold run_le, log_prefix. destruct (SR_LogLines a); by split_and!. Qed.
Definition of_others (gatewayID : string) (r : SyncRunRow) : bool := negb (seqb (SR_GatewayID r) gatewayID).
(** What a call of gateway [g] leaves of the runs: those of the others are the
    same rows, its own evolve and new ones may be added. *)
Definition runs_by (g : string) (rows rows' : list SyncRunRow) : Prop :=
  select (of_others g) rows' = select (of_others g) rows /\
  exists kept new, rows' = kept ++ new /\ Forall2 run_le rows kept /\
    Forall (fun r => SR_GatewayID r = g /\ SR_Status r = SyncRunStatusPending) new.
Lemma runs_by_refl g rows : runs_by g rows rows.
Proof.
  split; [done|]. exists rows, []. rewrite app_nil_r. split_and!; [done| |constructor].
  apply Forall2_refl_on. done.
Qed.
Lemma runs_by_update g p f rows :
  (forall r, r ∈ rows -> p r = true -> SR_GatewayID r = g /\ run_le r (f r)) ->
  runs_by g rows (update_where p f rows).
Proof.
  intros Hp. unfold update_where. split.
  - unfold select, of_others. induction rows as [|r rows IH]; [done|]. cbn [map List.filter].
    rewrite IH by (intros r' Hr'; apply Hp; by right).
    destruct (p r) eqn:E; [|done]. destruct (Hp r) as [Hg Hle]; [left|done|].
    destruct Hle as (_ & _ & -> & _). by rewrite Hg, seqb_refl.
  - exists (map (fun r => if p r then f r else r) rows), []. rewrite app_nil_r.
    split_and!; [done| |constructor]. induction rows as [|r rows IH]; simpl; constructor.
    + destruct (p r) eqn:E; [|done]. apply Hp; [left|done].
    + apply IH. intros r' Hr'. apply Hp. by right.
Qed.
Lemma start_run_le t r : run_le r (start_run t r).
Proof. unfold run_le, log_prefix. simpl. destruct (SR_LogLines r); split_and!; try done; by eexists. Qed.

(** The calls after the row is written cannot fail. *)
Definition after_progress (profileID status : string) : MW unit :=
  if finished_status status then
    _ ← try (E' := err) (_ ← stmt; t ← now;
          modify (on_db (on_sync_profiles (update_where (fun p => seqb (SP_ID p) profileID) (set_last_run t)))));
    if failing status then _ ← maybeAlertConsecutiveFailures profileID; mret tt else mret tt
  else mret tt.
Lemma maybeAlert_never id : never_fails (maybeAlertConsecutiveFailures id).
Proof.
  unfold maybeAlertConsecutiveFailures. apply never_bind; [apply never_try|]. intros [runs|e]; [|apply never_ret].
  destruct (_ || _); [apply never_ret|]. apply never_bind; [apply never_try|]. intros _. apply never_ret.
Qed.
Lemma after_progress_never id s : never_fails (after_progress id s).
Proof.
  unfold after_progress. destruct (finished_status s); [|apply never_ret].
  apply never_bind; [apply never_try|]. intros _. destruct (failing s); [|apply never_ret].
  apply never_bind; [apply maybeAlert_never|]. intros _. apply never_ret.
Qed.
Lemma after_progress_runs id s w r w' : after_progress id s w = (r, w') ->
  sync_runs (db w') = sync_runs (db w) /\
  (finished_status s = false -> sync_profiles (db w') = sync_profiles (db w)).
Proof.
  intros H. split.
  - revert H. apply (run_keeps sync_runs). unfold after_progress. preserves_tac.
    apply preserves_modify. intros w0 Hw0. exact Hw0.
  - intros Hf. unfold after_progress in H. rewrite Hf in H. by injection H as _ <-.
Qed.
Lemma progress_logs_keeps I run req : preserves (db_inv I) (progress_logs run req).
Proof. unfold progress_logs. preserves_tac. Qed.
#[export] Hint Resolve progress_logs_keeps : preserves.
Lemma progress_logs_run run req w logs w' : progress_logs run req w = (Ok logs, w') ->
  logs = Run_LogLines run \/ exists t', logs =
    Run_LogLines run ++ [mkSyncLog t' (progress_level req) (progress_message run req)].
Proof.
  unfold progress_logs. destruct (is_empty _); intros H; mrun; [by left|]. subst. right. by eexists.
Qed.
Lemma progress_clean runID g req : fails_clean (AppendSyncRunProgress runID g req).
Proof.
  unfold AppendSyncRunProgress. apply clean_bind; [intros; preserves_tac|]. intros run.
  apply clean_bind; [intros; preserves_tac|]. intros _. apply clean_bind; [intros; preserves_tac|]. intros logs.
  apply clean_bind; [intros; preserves_tac|]. intros _. apply clean_bind; [intros; preserves_tac|]. intros t.
  apply clean_bind; [intros; preserves_tac|]. intros _. apply clean_never, never_bind; [apply never_modify|].
  intros _. apply after_progress_never.
Qed.

Lemma progress_run runID g req w w' : AppendSyncRunProgress runID g req w = (Ok tt, w') ->
  exists row run logs t,
      get_row (fun r => seqb (SR_ID r) runID) (sync_runs (db w)) = Ok row /\ decodeSyncRun row = Ok run /\
      Run_GatewayID run = g /\ known_status (progress_status run req) = true /\ clock w <= t /\
      (logs = Run_LogLines run \/ exists t', logs =
         Run_LogLines run ++ [mkSyncLog t' (progress_level req) (progress_message run req)]) /\
      sync_runs (db w') = update_where (run_of runID g) (progress_row run req logs t) (sync_runs (db w)) /\
      (finished_status (progress_status run req) = false -> sync_profiles (db w') = sync_profiles (db w)).
Proof.
  intros H.
  unfold AppendSyncRunProgress in H. apply M_bind_Ok in H as (run & w1 & Hr & H).
  assert (clock w <= clock w1) as Hc1 by (eapply clock_run; [|exact Hr]; unfold GetSyncRun; since_tac).
  apply GetSyncRun_run in Hr as (Hd1 & row & Hrow & Hdec).
  apply M_bind_Ok in H as (u1 & w2 & [Hg ->]%guard_Ok_inv & H).
  apply M_bind_Ok in H as (logs & w3 & Hl & H).
  assert (clock w1 <= clock w3) as Hc3 by (eapply clock_run; [|exact Hl]; unfold progress_logs; since_tac).
  assert (db w3 = db w1) as Hd3 by (eapply keeps_run; [|exact Hl]; preserves_tac).
  apply progress_logs_run in Hl. cbv zeta in H. apply M_bind_Ok in H as (u2 & w4 & Hs & H).
  assert (clock w4 = clock w3) as Hc4 by (by rewrite <-(stmt_clock w3), Hs). apply stmt_Ok_inv in Hs.
  apply M_bind_Ok in H as (t & w5 & (Hd5 & Hc5 & _)%now_Ok_inv & H).
  apply M_bind_Ok in H as (u3 & w6 & [Hk ->]%guard_Ok_inv & H).
  apply M_bind_Ok in H as (u4 & w7 & ->%modify_Ok_inv & H).
  change (after_progress (Run_ProfileID run) (progress_status run req)
    (on_db (on_sync_runs (update_where (run_of runID g) (progress_row run req logs t))) w5) = (Ok tt, w')) in H.
  apply after_progress_runs in H as [Hruns Hprof]. cbn [db on_db sync_runs sync_profiles on_sync_runs] in Hruns, Hprof.
  assert (db w5 = db w) as Hd by congruence. rewrite Hd in Hruns, Hprof.
  exists row, run, logs, t. split_and!; try done; try lia.
  - by apply negb_false_iff, seqb_spec in Hg.
Qed.

(** Progress of a run, on every branch: only the gateway the run belongs to
    may report; the row takes the reported status (a pending run starts), keeps
    a count the report does not give, gains at most one log line, is dated when
    it finishes, and only then touches its profile's last run.  On an error
    nothing changed. *)
Lemma sync_progress_spec (runID g : string) (req : SyncRunProgressRequest) (w w' : World) (r : res err unit) :
  AppendSyncRunProgress runID g req w = (r, w') ->
  match r with
  | Fail _ => db w' = db w
  | Ok _ => exists row run logs t,
      get_row (fun r => seqb (SR_ID r) runID) (sync_runs (db w)) = Ok row /\ decodeSyncRun row = Ok run /\
      Run_GatewayID run = g /\ known_status (progress_status run req) = true /\ clock w <= t /\
      (logs = Run_LogLines run \/ exists t', logs =
         Run_LogLines run ++ [mkSyncLog t' (progress_level req) (progress_message run req)]) /\
      sync_runs (db w') = update_where (run_of runID g) (progress_row run req logs t) (sync_runs (db w)) /\
      (finished_status (progress_status run req) = false -> sync_profiles (db w') = sync_profiles (db w))
  end.
Proof. destruct r as [[]|e]; [apply progress_run|apply progress_clean]. Qed.
Definition run_demo : World :=
  on_db (on_sync_runs (fun _ => [mkSyncRun "1" "1" "gw" SyncRunStatusPending 88 0 0 None (Some []) None None 5]))
    (empty_world 10 []).

(** One call of gateway [g] on the runs, with any arguments and any faults. *)
Inductive run_call (g : string) : World -> World -> Prop :=
  | rc_create p n l w : run_call g w (CreateSyncRun p g n l w).2
  | rc_start id w : run_call g w (StartSyncRun id g w).2
  | rc_progress id req w : run_call g w (AppendSyncRunProgress id g req w).2.
Lemma runs_by_insert g rows r : SR_GatewayID r = g -> SR_Status r = SyncRunStatusPending ->
  runs_by g rows (rows ++ [r]).
Proof.
  intros Hg Hs. split.
  - unfold select. rewrite filter_app_list. cbn [List.filter]. unfold of_others at 2. rewrite Hg, seqb_refl.
    by rewrite app_nil_r.
  - exists rows, [r]. split_and!; [done|by apply Forall2_refl_on|by repeat constructor].
Qed.
Lemma progress_run_le runID g run req logs t rows row r :
  NoDup (map SR_ID rows) -> get_row (fun r => seqb (SR_ID r) runID) rows = Ok row -> decodeSyncRun row = Ok run ->
  (logs = Run_LogLines run \/ exists t', logs =
     Run_LogLines run ++ [mkSyncLog t' (progress_level req) (progress_message run req)]) ->
  r ∈ rows -> run_of runID g r = true -> SR_GatewayID r = g /\ run_le r (progress_row run req logs t r).
Proof.
  intros Hnd [Hin Hid]%get_row_Ok Hdec Hl Hr Hof. unfold run_of in Hof. apply andb_true_iff in Hof as [H1 H2].
  apply seqb_spec in H1, H2, Hid. split; [done|].
  assert (r = row) as -> by (eapply (NoDup_key_eq SR_ID); [exact Hnd|done|done|congruence]).
  apply decodeSyncRun_Ok in Hdec as (Hlog & _). unfold run_le, log_prefix. simpl. rewrite Hlog.
  split_and!; try done. destruct Hl as [-> |[t' ->] ]; [done|by eexists].
Qed.

(** C13. A gateway works on its own runs: a call of one gateway, on any run and
    whatever fails, leaves the runs of every other gateway as they are; its own
    runs keep their identity, their log only grows and a start stays recorded;
    a run it adds is pending. *)
Theorem sync_runs_isolated (g : string) (w w' : World) :
  NoDup (map SR_ID (sync_runs (db w))) -> run_call g w w' ->
  runs_by g (sync_runs (db w)) (sync_runs (db w')).
Proof.
  intros Hnd Hc. destruct Hc as [p n l w|id w|id req w].
  - assert (writes_once (fun f => exists r, SR_GatewayID r = g /\ SR_Status r = SyncRunStatusPending /\
      f = on_sync_runs (fun rows => rows ++ [r])) (CreateSyncRun p g n l)) as Ho.
    { unfold CreateSyncRun. do 7 (apply once_read; [intros; preserves_tac|intros ?]).
      apply once_write; [eexists; split_and!; [| |reflexivity]; done|intros; preserves_tac]. }
    destruct (CreateSyncRun p g n l w) as [r w'] eqn:E. apply Ho in E as [E|(f & (row & Hg & Hs & ->) & E)];
      simpl; rewrite E; [apply runs_by_refl|by apply runs_by_insert].
  - destruct (StartSyncRun id g w) as [[u|e] w'] eqn:E.
    + unfold StartSyncRun in E. mrun. subst w'. cbn [snd db on_db sync_runs on_sync_runs].
      match goal with |- runs_by _ _ (update_where _ _ (sync_runs ?d)) => replace d with (db w) by congruence end.
      apply runs_by_update. intros r _ Hr.
      unfold startable in Hr. rewrite !andb_true_iff in Hr. destruct Hr as [[_ Hg%seqb_spec] _].
      split; [done|apply start_run_le].
    + assert (fails_clean (StartSyncRun id g)) as Hf.
      { unfold StartSyncRun. repeat (apply clean_bind; [intros; preserves_tac|intros ?]). apply clean_never, never_modify. }
      apply Hf in E. simpl. rewrite E. apply runs_by_refl.
  - destruct (AppendSyncRunProgress id g req w) as [[[]|e] w'] eqn:E.
    + apply progress_run in E as (row & run & logs & t & Hrow & Hdec & _ & _ & _ & Hl & Hr & _).
      simpl. rewrite Hr. apply runs_by_update. intros r Hin Hof. by eapply progress_run_le.
    + apply progress_clean in E. simpl. rewrite E. apply runs_by_refl.
Qed.
Lemma sync_runs_isolated_witness :
  runs_by "other" (sync_runs (db run_demo)) (sync_runs (db (StartSyncRun "1" "other" run_demo).2)).
Proof.
  apply (sync_runs_isolated "other" run_demo (StartSyncRun "1" "other" run_demo).2).
  - repeat constructor. apply not_elem_of_nil.
  - apply rc_start.
Defined.
