(* ===== verification/GatewayApi.v ===== *)
(** * The gateway's handlers

    Models [internal/handlers/gateway.go], [gateway_sync.go] and
    [gateway_sync_profile.go].  The gateway's identity in the request is the one
    its middleware checked. *)
From S2P Require Import Prelude GoStr Exchange Accounts Lights Mac World Crypto PortalStore Json Http Portal SyncStore.
#[global] Open Scope Z_scope.

(** ** The queue, the heartbeat and the exchange cache *)
Definition out_time : Time -> out := OTime "RFC3339Nano".
Definition out_action (a : CloudAction) : out :=
  OObj ([("guid", OStr (CA_GUID a)); ("user_id", OInt (CA_UserID a))]
    ++ omit_none "machine_id" OInt (CA_MachineID a)
    ++ [("params", oarr out_kv (CA_Params a)); ("status", OStr (CA_Status a));
        ("created_at", out_time (CA_CreatedAt a))]).
Definition PendingActions (r : Request) : HW Resp :=
  gatewayID ← must (R_GatewayID r);
  actions ← or_else (FetchPendingActionsForGateway gatewayID 20) (fun _ => http_Error "Fetch failed" 500);
  mret (writeJSON 200 (oarr out_action actions)).
Definition ActionDone (r : Request) : HW Resp :=
  let guid := URLParam r "guid" in
  _ ← check (negb (is_empty guid)) (http_Error "guid required" 400);
  _ ← or_else (MarkActionDone guid) (fun _ => http_Error "Not found" 404);
  mret (writeJSON 200 (OObj [("status", OStr "done")])).
Definition Heartbeat (r : Request) : HW Resp :=
  gatewayID ← must (R_GatewayID r);
  _ ← or_else (TouchGatewayHeartbeat gatewayID) (fun _ => http_Error "Heartbeat failed" 500);
  mret (writeJSON 200 (OObj [("status", OStr "ok")])).
Definition kv_fields : fields ExchangeKV :=
  [("k", set_field K (fun x p => mkKV x (V p)) dec_int); ("v", set_field V (fun x p => mkKV (K p) x) dec_string)].
Definition push_fields : fields (list ExchangeKV) :=
  [("keys", fun j l => dec_slice (dec_struct kv_fields) (mkKV 0 "") j l)].
Definition PushExchange (r : Request) : HW Resp :=
  gatewayID ← must (R_GatewayID r);
  machineID ← or_else (MachineIDForGateway gatewayID) (fun _ => http_Error "Unknown gateway" 401);
  let required := http_Error "keys required" 400 in
  keys ← need (Decode (dec_struct push_fields) [] r) required;
  _ ← check (negb (length keys =? 0)%nat) required;
  _ ← or_else (UpsertGatewayExchange machineID keys) (fun _ => http_Error "Store failed" 500);
  mret (writeJSON 200 (OObj [("status", OStr "ok")])).

(** ** Registration *)
Definition empty_reg : GatewayRegistration := mkReg "" "" 0 "" "".
Definition register_fields : fields GatewayRegistration :=
  [("gateway_id", set_field Reg_GatewayID (fun x b => mkReg x (Reg_Token b) (Reg_MachineID b) (Reg_Eth0MAC b) (Reg_Eth1MAC b)) dec_string);
   ("token", set_field Reg_Token (fun x b => mkReg (Reg_GatewayID b) x (Reg_MachineID b) (Reg_Eth0MAC b) (Reg_Eth1MAC b)) dec_string);
   ("machine_id", set_field Reg_MachineID (fun x b => mkReg (Reg_GatewayID b) (Reg_Token b) x (Reg_Eth0MAC b) (Reg_Eth1MAC b)) dec_int);
   ("eth0_mac", set_field Reg_Eth0MAC (fun x b => mkReg (Reg_GatewayID b) (Reg_Token b) (Reg_MachineID b) x (Reg_Eth1MAC b)) dec_string);
   ("eth1_mac", set_field Reg_Eth1MAC (fun x b => mkReg (Reg_GatewayID b) (Reg_Token b) (Reg_MachineID b) (Reg_Eth0MAC b) x) dec_string)].
Definition mac_text (raw : string) : string := default "" (res_value (NormalizeMAC raw)).
Definition RegisterGateway (r : Request) : HW Resp :=
  let required := http_Error "token, machine_id, eth0_mac, eth1_mac required" 400 in
  reg ← need (Decode (dec_struct register_fields) empty_reg r) required;
  _ ← check (negb (is_empty (Reg_Token reg))) required;
  _ ← check ((0 <? Reg_MachineID reg) && negb (is_empty (Reg_Eth0MAC reg)) && negb (is_empty (Reg_Eth1MAC reg)))
        required;
  _ ← or_else (RegisterGatewaySession reg) (fun e => http_ErrorOf "Register failed: " e 400);
  let gatewayID := if is_empty (Reg_GatewayID reg)
                   then default "" (res_value (GatewayIDFromEth0MAC (Reg_Eth0MAC reg))) else Reg_GatewayID reg in
  mret (writeJSON 201 (OObj [("gateway_id", OStr gatewayID); ("machine_id", OInt (Reg_MachineID reg));
    ("eth0_mac", OStr (mac_text (Reg_Eth0MAC reg))); ("eth1_mac", OStr (mac_text (Reg_Eth1MAC reg)))])).
Definition out_session (g : GatewaySession) : out :=
  OObj ([("gateway_id", OStr (GS_GatewayID g))] ++ omit_none "machine_id" OInt (GS_MachineID g)
    ++ omit_none "eth0_mac" OStr (GS_Eth0MAC g) ++ omit_none "eth1_mac" OStr (GS_Eth1MAC g)
    ++ omit_none "last_seen" out_time (GS_LastSeen g)).
Definition ListGatewaySessionsHandler (r : Request) : HW Resp :=
  rows ← or_else ListGatewaySessions (fun _ => http_Error "List failed" 500);
  mret (writeJSON 200 (oarr out_session rows)).

(** ** Sync profiles and runs *)
Definition out_range (rg : Z * Z) : out := OArr [OInt rg.1; OInt rg.2].
Definition out_profile (p : SyncProfile) : out :=
  OObj ([("id", OStr (P_ID p)); ("gateway_id", OStr (P_GatewayID p)); ("name", OStr (P_Name p));
    ("index_ranges", oarr out_range (P_IndexRanges p)); ("interval_hours", OInt (P_IntervalHours p))]
    ++ omit_none "cron_expression" OStr (P_CronExpression p)
    ++ [("pull_from_armoire", OBool (P_PullFromArmoire p)); ("push_to_cloud", OBool (P_PushToCloud p));
        ("enabled", OBool (P_Enabled p)); ("exclude_indices", oarr OInt (P_ExcludeIndices p))]
    ++ omit_none "last_run_at" out_time (P_LastRunAt p)
    ++ [("created_at", out_time (P_CreatedAt p)); ("updated_at", out_time (P_UpdatedAt p))]
    ++ omit_none "next_run_at" out_time (P_NextRunAt p) ++ omit_none "last_run_status" OStr (P_LastRunStatus p)).
Definition out_log (l : SyncLogLine) : out :=
  OObj [("time", out_time (SL_Time l)); ("level", OStr (SL_Level l)); ("message", OStr (SL_Message l))].
Definition out_run (r : SyncRun) : out :=
  OObj ([("id", OStr (Run_ID r)); ("profile_id", OStr (Run_ProfileID r)); ("gateway_id", OStr (Run_GatewayID r));
    ("status", OStr (Run_Status r)); ("expected_count", OInt (Run_ExpectedCount r));
    ("received_count", OInt (Run_ReceivedCount r)); ("pushed_count", OInt (Run_PushedCount r))]
    ++ omit_none "error_message" OStr (Run_ErrorMessage r) ++ [("log_lines", oarr out_log (Run_LogLines r))]
    ++ omit_none "started_at" out_time (Run_StartedAt r) ++ omit_none "finished_at" out_time (Run_FinishedAt r)
    ++ [("created_at", out_time (Run_CreatedAt r))]).
Definition SyncConfig (r : Request) : HW Resp :=
  gatewayID ← must (R_GatewayID r);
  profiles ← or_else (ListSyncProfilesForGateway gatewayID) (fun _ => http_Error "List profiles failed" 500);
  pending ← or_else (ListPendingSyncRuns gatewayID) (fun _ => http_Error "List runs failed" 500);
  mret (writeJSON 200 (OObj [("profiles", oarr out_profile profiles); ("pending_runs", oarr out_run pending)])).
Definition SyncRunStart (r : Request) : HW Resp :=
  gatewayID ← must (R_GatewayID r);
  _ ← or_else (StartSyncRun (URLParam r "id") gatewayID) (fun e => http_ErrorOf "" e 409);
  mret (writeJSON 200 (OObj [("status", OStr "running")])).
Definition empty_progress : SyncRunProgressRequest := mkProgress 0 0 0 0 "" "" "" "".
Definition progress_fields : fields SyncRunProgressRequest :=
  [("received_count", set_field PR_ReceivedCount (fun x p => mkProgress x (PR_PushedCount p) (PR_ChunkIndex p) (PR_ChunkTotal p) (PR_Phase p) (PR_Message p) (PR_Status p) (PR_ErrorMessage p)) dec_int);
   ("pushed_count", set_field PR_PushedCount (fun x p => mkProgress (PR_ReceivedCount p) x (PR_ChunkIndex p) (PR_ChunkTotal p) (PR_Phase p) (PR_Message p) (PR_Status p) (PR_ErrorMessage p)) dec_int);
   ("chunk_index", set_field PR_ChunkIndex (fun x p => mkProgress (PR_ReceivedCount p) (PR_PushedCount p) x (PR_ChunkTotal p) (PR_Phase p) (PR_Message p) (PR_Status p) (PR_ErrorMessage p)) dec_int);
   ("chunk_total", set_field PR_ChunkTotal (fun x p => mkProgress (PR_ReceivedCount p) (PR_PushedCount p) (PR_ChunkIndex p) x (PR_Phase p) (PR_Message p) (PR_Status p) (PR_ErrorMessage p)) dec_int);
   ("phase", set_field PR_Phase (fun x p => mkProgress (PR_ReceivedCount p) (PR_PushedCount p) (PR_ChunkIndex p) (PR_ChunkTotal p) x (PR_Message p) (PR_Status p) (PR_ErrorMessage p)) dec_string);
   ("message", set_field PR_Message (fun x p => mkProgress (PR_ReceivedCount p) (PR_PushedCount p) (PR_ChunkIndex p) (PR_ChunkTotal p) (PR_Phase p) x (PR_Status p) (PR_ErrorMessage p)) dec_string);
   ("status", set_field PR_Status (fun x p => mkProgress (PR_ReceivedCount p) (PR_PushedCount p) (PR_ChunkIndex p) (PR_ChunkTotal p) (PR_Phase p) (PR_Message p) x (PR_ErrorMessage p)) dec_string);
   ("error_message", set_field PR_ErrorMessage (fun x p => mkProgress (PR_ReceivedCount p) (PR_PushedCount p) (PR_ChunkIndex p) (PR_ChunkTotal p) (PR_Phase p) (PR_Message p) (PR_Status p) x) dec_string)].
Definition SyncRunProgress (r : Request) : HW Resp :=
  gatewayID ← must (R_GatewayID r);
  let runID := URLParam r "id" in
  req ← need (Decode (dec_struct progress_fields) empty_progress r) (http_Error "Bad Request" 400);
  _ ← or_else (AppendSyncRunProgress runID gatewayID req) (fun e => http_ErrorOf "" e 400);
  run ← attempt (GetSyncRun runID);
  mret (writeJSON 200 (oopt out_run (res_value run))).
Record gatewayCreateSyncRunRequest := mkCreateRun { GC_ProfileID : string; GC_Source : string }.
Definition create_run_fields : fields gatewayCreateSyncRunRequest :=
  [("profile_id", set_field GC_ProfileID (fun x b => mkCreateRun x (GC_Source b)) dec_string);
   ("source", set_field GC_Source (fun x b => mkCreateRun (GC_ProfileID b) x) dec_string)].
(** A profile of no gateway is open to all. *)
Definition SyncRunCreate (r : Request) : HW Resp :=
  gatewayID ← must (R_GatewayID r);
  req ← need (Decode (dec_struct create_run_fields) (mkCreateRun "" "") r) (http_Error "Bad Request" 400);
  _ ← check (negb (is_empty (GC_ProfileID req))) (http_Error "profile_id required" 400);
  profile ← or_else (GetSyncProfile (GC_ProfileID req)) (fun _ => http_Error "Profile not found" 404);
  _ ← check (is_empty (P_GatewayID profile) || seqb (P_GatewayID profile) gatewayID) (http_Error "Forbidden" 403);
  let msg := ("Sync planifiée — " ++ P_Name profile ++
              (if is_empty (GC_Source req) then "" else " (" ++ GC_Source req ++ ")"))%string in
  run ← or_else (CreateSyncRun (GC_ProfileID req) gatewayID (ExpectedIndexCount (P_IndexRanges profile)) msg)
          (fun _ => http_Error "Create run failed" 500);
  mret (writeJSON 201 (OObj [("run", out_run run)])).
Definition enabled_fields : fields bool := [("enabled", fun j b => dec_bool j b)].
Definition PatchScenariosSyncProfile (r : Request) : HW Resp :=
  _ ← check (seqb (R_Method r) "PATCH") (http_Error "Method not allowed" 405);
  gatewayID ← must (R_GatewayID r);
  enabled ← need (Decode (dec_struct enabled_fields) false r) (http_Error "Bad Request" 400);
  profile ← or_else (GetSyncProfileByNameForGateway gatewayID "Scénarios")
              (fun _ => http_Error "Scénarios profile not found" 404);
  updated ← or_else (SetSyncProfileEnabled (P_ID profile) gatewayID enabled) (fun e => http_ErrorOf "" e 500);
  mret (writeJSON 200 (OObj [("profile", out_profile updated)])).
