(* ===== verification/Import.v ===== *)
(** * The import of the machines of the support site

    Models [cmd/import-machines/main.go] over [ImportMachine] of [LegacyStore]:
    the file is given as its first JSON value, the order in which Go ranges over
    a map is a parameter.  Flags, the connection and the log are left out. *)
From S2P Require Import Prelude GoStr Exchange Accounts World PortalStore Json LegacyStore Http.
#[global] Open Scope Z_scope.

Record importMachine := mkImportMachine { IM_NoSerie : string; IM_IsActive : bool; IM_HashedPkey : string }.
Record importDetail := mkImportDetail {
  ID_NoSerie : string; ID_IP : string; ID_LastSeen : Time; ID_RawAuth : string; ID_RawDecoded : string }.
Record persistenceData := mkPersistence {
  Machines : gmap string (option importMachine); Details : gmap string (option importDetail) }.
Definition importMachine_fields : fields importMachine :=
  [("no_serie", set_field IM_NoSerie (fun x m => mkImportMachine x (IM_IsActive m) (IM_HashedPkey m)) dec_string);
   ("is_active", set_field IM_IsActive (fun x m => mkImportMachine (IM_NoSerie m) x (IM_HashedPkey m)) dec_bool);
   ("hashed_pkey", set_field IM_HashedPkey (fun x m => mkImportMachine (IM_NoSerie m) (IM_IsActive m) x) dec_string)].
Definition importDetail_fields : fields importDetail :=
  [("no_serie", set_field ID_NoSerie (fun x d => mkImportDetail x (ID_IP d) (ID_LastSeen d) (ID_RawAuth d) (ID_RawDecoded d)) dec_string);
   ("ip", set_field ID_IP (fun x d => mkImportDetail (ID_NoSerie d) x (ID_LastSeen d) (ID_RawAuth d) (ID_RawDecoded d)) dec_string);
   ("last_seen", set_field ID_LastSeen (fun x d => mkImportDetail (ID_NoSerie d) (ID_IP d) x (ID_RawAuth d) (ID_RawDecoded d)) dec_time);
   ("raw_auth", set_field ID_RawAuth (fun x d => mkImportDetail (ID_NoSerie d) (ID_IP d) (ID_LastSeen d) x (ID_RawDecoded d)) dec_string);
   ("raw_decoded", set_field ID_RawDecoded (fun x d => mkImportDetail (ID_NoSerie d) (ID_IP d) (ID_LastSeen d) (ID_RawAuth d) x) dec_string)].
Definition persistence_fields : fields persistenceData :=
  [("machines", set_field Machines (fun x p => mkPersistence x (Details p))
     (dec_str_map (dec_ptr (dec_struct importMachine_fields) (mkImportMachine "" false "")) None));
   ("details", set_field Details (fun x p => mkPersistence (Machines p) x)
     (dec_str_map (dec_ptr (dec_struct importDetail_fields) (mkImportDetail "" "" 0 "" "")) None))].
Definition Decode_persistence (file : json) : option persistenceData :=
  dec_struct persistence_fields file (mkPersistence ∅ ∅).

(** What is stored of one machine: the number of its detail when it has one. *)
Definition detail_auth (d : importDetail) : json :=
  JObj [("raw_auth", JStr (ID_RawAuth d)); ("raw_decoded", JStr (ID_RawDecoded d))].
Definition client_of (m : importMachine) (detail : option importDetail) : string :=
  match detail with
  | Some d => if is_empty (ID_NoSerie d) then IM_NoSerie m else ID_NoSerie d
  | None => IM_NoSerie m
  end.
Definition import_machine (hash : string) (m : importMachine) (detail : option importDetail) : MW unit :=
  LegacyIoTStore.ImportMachine hash (client_of m detail) (from_option ID_IP "" detail) (IM_IsActive m)
    (from_option ID_LastSeen 0 detail) (detail_auth <$> detail).
Definition nil_dereference : err := Sentinel "nil pointer dereference".
(** The loop over the machines: an entry that cannot be stored is skipped, a
    [null] entry ends the process. *)
Fixpoint import_loop (details : gmap string (option importDetail)) (l : list (string * option importMachine)) (imported : Z) : MW Z :=
  match l with
  | [] => mret imported
  | (hash, m) :: l =>
      if is_empty hash then import_loop details l imported else
      m ← lift (ok_or m nil_dereference);
      r ← try (E := err) (E' := err) (import_machine hash m (mjoin (details !! hash)));
      import_loop details l (match r with Ok _ => imported + 1 | Fail _ => imported end)
  end.
Definition import_all (range : gmap string (option importMachine) -> list (string * option importMachine))
    (pd : persistenceData) : MW Z :=
  import_loop (Details pd) (range (Machines pd)) 0.

(** ** Importing again changes nothing *)
Section again.
Context (details : gmap string (option importDetail)).
Definition detail_of (hash : string) : option importDetail := mjoin (details !! hash).
(** What the statement takes of an entry: nothing of a hash that is empty or of
    a text that PostgreSQL refuses. *)
Definition stored (e : string * option importMachine) : bool :=
  match e with
  | (hash, Some m) =>
      let d := detail_of hash in
      negb (is_empty hash)
      && (text_ok hash && text_ok (client_of m d) && text_ok (from_option ID_IP "" d))
      && negb (has_nul (default JNull (detail_auth <$> d)))
  | _ => false
  end.
Definition null_machine (e : string * option importMachine) : bool :=
  match e with (hash, None) => negb (is_empty hash) | _ => false end.
(** The stored row of an entry, over the row that was there. *)
Definition over (hash : string) (m : importMachine) : MachineRow -> MachineRow :=
  let d := detail_of hash in
  LegacyIoTStore.import_over (client_of m d) (LegacyIoTStore.nullString (from_option ID_IP "" d)) (IM_IsActive m)
    (from_option ID_LastSeen 0 d) (detail_auth <$> d).
(** An entry that is there as the file has it. *)
Definition settled (rows : list MachineRow) (e : string * option importMachine) : Prop :=
  forall m, e.2 = Some m -> stored e = true ->
    existsb (is_machine e.1) rows = true /\
    forall r, r ∈ rows -> is_machine e.1 r = true -> over e.1 m r = r.
Definition place (hash : string) (m : importMachine) (id : Z) (rows : list MachineRow) : list MachineRow :=
  let d := detail_of hash in
  if existsb (is_machine hash) rows
  then update_where (is_machine hash) (over hash m) rows
  else rows ++ [mkMachine hash (Some (client_of m d)) id (LegacyIoTStore.nullString (from_option ID_IP "" d))
                 (Some (from_option ID_LastSeen 0 d)) (IM_IsActive m) None None (detail_auth <$> d)].

Lemma over_idemp hash m row : over hash m (over hash m row) = over hash m row.
Proof.
  unfold over, LegacyIoTStore.import_over. destruct row as [h c id ip ls act mac geo auth]. cbn [M_ClientID M_HashedPkey M_ID M_IP M_LastSeen M_IsActive M_MAC M_Geo M_AuthDecoded]. f_equal.
  - destruct c as [c|]; [destruct (LegacyIoTStore.all_digits c) eqn:E; [by rewrite E|]|]; by destruct_if E'.
  - by destruct (LegacyIoTStore.nullString _).
  - by destruct act, (IM_IsActive m).
  - by destruct (detail_of hash).
Qed.
Lemma is_machine_over hash h m row : is_machine h (over hash m row) = is_machine h row.
Proof. done. Qed.
Lemma place_settles hash m id rows : settled (place hash m id rows) (hash, Some m).
Proof.
  intros m' [= <-] _. cbn [fst]. unfold place. destruct_if E.
  - split.
    + apply existsb_elem in E as (r & Hr & E). apply existsb_elem. exists (over hash m r).
      split; [|done]. apply elem_of_update_where. exists r. by rewrite E.
    + intros r (r0 & Hr & ->)%elem_of_update_where. destruct_if E0; [by rewrite over_idemp|congruence].
  - split.
    + apply existsb_elem. eexists. split; [apply elem_of_app; right; by left|apply seqb_refl].
    + intros r [Hr| ->%list_elem_of_singleton]%elem_of_app Hh.
      * exfalso. revert E. apply not_false_iff_true, existsb_elem. eauto.
      * intros. unfold over, LegacyIoTStore.import_over. cbn [M_ClientID M_HashedPkey M_ID M_IP M_LastSeen M_IsActive M_MAC M_Geo M_AuthDecoded].
        f_equal; [by destruct_if E'|by destruct (LegacyIoTStore.nullString _)|apply orb_diag|by destruct (detail_of hash)].
Qed.
Lemma place_other hash m id rows e : e.1 <> hash -> settled rows e -> settled (place hash m id rows) e.
Proof.
  intros Hne He m' Hm Hs. destruct (He m' Hm Hs) as [Hex Hall]. unfold place. destruct_if E.
  - split.
    + apply existsb_elem in Hex as (r & Hr & Hh). apply existsb_elem.
      exists (if is_machine hash r then over hash m r else r).
      split; [apply elem_of_update_where; eauto|by destruct_if E0].
    + intros r (r0 & Hr & ->)%elem_of_update_where. destruct_if E0; [|by apply Hall].
      intros Hh. rewrite is_machine_over in Hh. apply seqb_spec in E0, Hh. congruence.
  - split; [rewrite existsb_app, Hex; done|].
    intros r [Hr| ->%list_elem_of_singleton]%elem_of_app Hh; [by apply Hall|].
    apply seqb_spec in Hh. by destruct Hne.
Qed.
Lemma place_same hash m id rows : stored (hash, Some m) = true -> settled rows (hash, Some m) -> place hash m id rows = rows.
Proof.
  intros Hs He. destruct (He m eq_refl Hs) as [Hex Hall]. unfold place. cbn [fst] in Hex. rewrite Hex.
  unfold update_where. transitivity (map (fun r => r) rows); [|apply map_id]. apply map_ext_in. intros r Hr%list_elem_of_In.
  cbn [fst] in Hall. destruct_if E; [by rewrite Hall|done].
Qed.
Lemma import_machine_run hash m w : faults w = [] -> is_empty hash = false ->
  if stored (hash, Some m) then exists w' id, import_machine hash m (detail_of hash) w = (Ok tt, w') /\ faults w' = [] /\
      machines (db w') = place hash m id (machines (db w))
  else import_machine hash m (detail_of hash) w = (Fail ErrDB, w).
Proof.
  intros Hf Hh. unfold import_machine, LegacyIoTStore.ImportMachine, stored. rewrite M_bind_run, stmt_ok by done.
  rewrite M_bind_run, guard_run, Hh.
  destruct (text_ok hash && text_ok (client_of m (detail_of hash)) && text_ok (from_option ID_IP "" (detail_of hash)));
    cbn [negb andb orb]; [|done].
  destruct (has_nul _); cbn [negb andb orb]; [done|]. rewrite M_bind_run. eexists _, _. by split.
Qed.
Lemma import_loop_run l n w : faults w = [] -> NoDup l.*1 -> existsb null_machine l = false ->
  exists w', import_loop details l n w = (Ok (n + Z.of_nat (length (List.filter stored l))), w') /\ faults w' = [] /\
    (forall e, e.1 ∉ l.*1 -> settled (machines (db w)) e -> settled (machines (db w')) e) /\
    (forall e, e ∈ l -> settled (machines (db w')) e) /\
    ((forall e, e ∈ l -> settled (machines (db w)) e) -> machines (db w') = machines (db w)).
Proof.
  revert n w. induction l as [|[hash o] l IH]; intros n w Hf Hnd Hnull.
  { exists w. cbn. rewrite Z.add_0_r. split_and!; [done|done|done|by intros e ?%elem_of_nil|done]. }
  apply NoDup_cons in Hnd as [Hin Hnd]. cbn [existsb] in Hnull. apply orb_false_iff in Hnull as [Hm Hnull].
  cbn [import_loop List.filter]. destruct (is_empty hash) eqn:Hh.
  { replace (stored (hash, o)) with false by (destruct o; cbn [stored]; [by rewrite Hh|done]).
    destruct (IH n w Hf Hnd Hnull) as (w' & -> & Hf' & Hoth & Hset & Hsame). exists w'. split_and!; try done.
    - intros e He. apply Hoth. intros ?. apply He. by right.
    - intros e [-> |He]%elem_of_cons; [|by apply Hset]. intros m [= ->]. cbn [stored]. by rewrite Hh.
    - intros Hs. apply Hsame. intros e He. apply Hs. by right. }
  destruct o as [m|]; [|by cbn [null_machine] in Hm; rewrite Hh in Hm].
  rewrite M_bind_run. cbn [lift ok_or]. rewrite M_bind_run. unfold try.
  pose proof (import_machine_run hash m w Hf Hh) as Hrun. destruct (stored (hash, Some m)) eqn:Hst.
  - destruct Hrun as (w1 & id & Hrun & Hf1 & Hrows). fold (detail_of hash). rewrite Hrun.
    destruct (IH (n + 1) w1 Hf1 Hnd Hnull) as (w' & -> & Hf' & Hoth & Hset & Hsame). exists w'. split_and!; try done.
    + f_equal. f_equal. cbn [length]. lia.
    + intros e He Hs. cbn [fmap list_fmap] in He. apply not_elem_of_cons in He as [He1 He2].
      apply Hoth; [done|]. rewrite Hrows. by apply place_other.
    + intros e [-> |He]%elem_of_cons; [|by apply Hset]. apply Hoth; [done|]. rewrite Hrows. apply place_settles.
    + intros Hs. assert (machines (db w1) = machines (db w)) as H1.
      { rewrite Hrows. apply place_same; [done|apply Hs; by left]. }
      rewrite <-H1. apply Hsame. rewrite H1. intros e He. apply Hs. by right.
  - fold (detail_of hash). rewrite Hrun. destruct (IH n w Hf Hnd Hnull) as (w' & -> & Hf' & Hoth & Hset & Hsame).
    exists w'. split_and!; try done.
    + intros e He. apply Hoth. intros ?. apply He. by right.
    + intros e [-> |He]%elem_of_cons; [|by apply Hset]. intros m' _. congruence.
    + intros Hs. apply Hsame. intros e He. apply Hs. by right.
Qed.
End again.

(** C40. When the database answers and no entry of the file is [null], the
    import ends and counts the entries PostgreSQL takes, whatever the order in
    which Go ranges over the map; and importing the same file again, in any
    other order, counts as many and leaves the table of the machines exactly
    as the first import left it. *)
Theorem import_idempotent (range1 range2 : gmap string (option importMachine) -> list (string * option importMachine))
    (pd : persistenceData) (w : World) :
  (forall m, range1 m ≡ₚ map_to_list m) -> (forall m, range2 m ≡ₚ map_to_list m) ->
  faults w = [] -> existsb null_machine (map_to_list (Machines pd)) = false ->
  let n := Z.of_nat (length (List.filter (stored (Details pd)) (map_to_list (Machines pd)))) in
  exists w1 w2, import_all range1 pd w = (Ok n, w1) /\ import_all range2 pd w1 = (Ok n, w2) /\
    machines (db w2) = machines (db w1).
Proof.
  intros H1 H2 Hf Hnull n.
  assert (forall r, (forall m, r m ≡ₚ map_to_list m) ->
    NoDup (r (Machines pd)).*1 /\ existsb null_machine (r (Machines pd)) = false /\
    Z.of_nat (length (List.filter (stored (Details pd)) (r (Machines pd)))) = n) as Hr.
  { intros r Hr. split_and!.
    - rewrite Hr. apply NoDup_fst_map_to_list.
    - apply not_true_iff_false. intros (e & He & E)%existsb_elem. rewrite Hr in He.
      revert Hnull. apply not_false_iff_true, existsb_elem. eauto.
    - unfold n. f_equal. apply Permutation_length, Permutation_filter_list. done. }
  destruct (Hr _ H1) as (Hd1 & Hn1 & Hc1), (Hr _ H2) as (Hd2 & Hn2 & Hc2). unfold import_all.
  destruct (import_loop_run (Details pd) _ 0 w Hf Hd1 Hn1) as (w1 & E1 & Hf1 & _ & Hset & _).
  destruct (import_loop_run (Details pd) _ 0 w1 Hf1 Hd2 Hn2) as (w2 & E2 & _ & _ & _ & Hsame).
  exists w1, w2. rewrite E1, E2, Hc1, Hc2. split_and!; [done..|]. apply Hsame. intros e He. apply Hset. rewrite H1. by rewrite <-H2.
Qed.

(** A file of three entries: one is already there under a cabinet's number, one
    is new, one has no hash. *)
Definition import_demo_file : persistenceData :=
  mkPersistence
    {["aa" := Some (mkImportMachine "S1" true ""); "bb" := Some (mkImportMachine "S2" false ""); "" := None]}
    {["aa" := Some (mkImportDetail "" "10.0.0.1" 5 "u" "v")]}.
Definition import_demo_world : World :=
  on_db (on_machines (fun _ => [mkMachine "aa" (Some "12") 1 None None false None None None])) (empty_world 0 []).
Example import_demo_rows :
  map (fun r => (M_HashedPkey r, M_ClientID r, M_IP r, M_IsActive r))
    (machines (db (import_all map_to_list import_demo_file import_demo_world).2)) =
  [("aa", Some "12", Some "10.0.0.1", true); ("bb", Some "S2", None, false)].
Proof. vm_compute. reflexivity. Qed.
Lemma import_idempotent_witness : exists w1 w2,
  import_all map_to_list import_demo_file import_demo_world = (Ok 2, w1) /\
  import_all (fun m => rev (map_to_list m)) import_demo_file w1 = (Ok 2, w2) /\ machines (db w2) = machines (db w1).
Proof.
  apply (import_idempotent map_to_list (fun m => rev (map_to_list m)) import_demo_file import_demo_world);
    [done|intros m; symmetry; apply Permutation_rev|done|by vm_compute].
Defined.
