(* ===== verification/Middleware.v ===== *)
(** * Authentication, account status and rate limits

    Models [internal/middleware/]: [auth.go], [admin_auth.go],
    [user_status.go] and [rate_limit.go], with the routes of
    [internal/portal/routes.go] that send orders.  A handler becomes a handler
    behind a middleware.  The verification of a token by the JWT library is a
    parameter: the algorithms the caller accepts and the text give the claims,
    or nothing when the token is refused. *)
From S2P Require Import Prelude GoStr Exchange Scenario Accounts Lights Mac World Crypto PortalStore AccountStore.
From S2P Require Import Json Http Portal ScenarioApi LightNames Orders.
#[global] Open Scope Z_scope.

Definition Handler : Type := Request -> HW Resp.
Definition with_context (r : Request) (email role gateway : option string) : Request :=
  mkRequest (R_Method r) email role gateway (R_URLParam r) (R_Query r) (R_Header r) (R_RemoteAddr r) (R_Body r).
Definition withUserContext (r : Request) (email role : string) : Request :=
  with_context r (Some email) (Some role) (R_GatewayID r).

(** ** rate_limit.go *)
Definition within_window (window : Duration) (t s : Time) : bool := Sub t s <=? window.
Definition limiter_key (key : string) : string := if is_empty key then "unknown" else key.
(** One attempt of a key with the attempts kept for it. *)
Definition allow_step (limit : nat) (window : Duration) (t : Time) (times : list Time) : bool * list Time :=
  let kept := List.filter (within_window window t) times in
  if (limit <=? length kept)%nat then (false, kept) else (true, kept ++ [t]).
(** [Allow] of the limiter [name]. *)
Definition Allow (name : string) (limit : nat) (window : Duration) (key : string) : HW bool :=
  let key := limiter_key key in
  t ← now;
  counts ← gets (fun w => default ∅ (limiters w !! name));
  let '(ok, kept) := allow_step limit window t (default [] (counts !! key)) in
  _ ← modify (on_limiters (<[name := <[key := kept]> counts]>));
  mret ok.
Definition exceeded : Resp := http_Error "Rate limit exceeded" 429.
Definition RateLimit (name : string) (limit : nat) (window : Duration) (next : Handler) : Handler := fun r =>
  let auth := Header r "Authorization" in
  ok ← Allow name limit window (if is_empty auth then R_RemoteAddr r else auth);
  _ ← check ok exceeded;
  next r.
(** The part before the last colon. *)
Fixpoint host_part (l : list ascii) : option (list ascii) :=
  match l with
  | [] => None
  | c :: l =>
      match host_part l with
      | Some h => Some (c :: h)
      | None => if ord c =? 58 then Some [] else None
      end
  end.
Definition before_last_colon (s : string) : string :=
  match host_part (bytes s) with Some h => str h | None => s end.
Definition first_part (s : string) : string := TrimSpace (default "" (head (Split s (chr 44)))).
Definition ClientIP (r : Request) : string :=
  if negb (is_empty (Header r "X-Forwarded-For")) then first_part (Header r "X-Forwarded-For")
  else if negb (is_empty (Header r "X-Real-IP")) then TrimSpace (Header r "X-Real-IP")
  else before_last_colon (R_RemoteAddr r).
Definition RateLimitByIP (name : string) (limit : nat) (window : Duration) (next : Handler) : Handler := fun r =>
  ok ← Allow name limit window (ClientIP r);
  _ ← check ok exceeded;
  next r.

(** ** user_status.go *)
(** What the middleware asks of a user store. *)
Class ActiveUserStore := store_user_by_email : string -> MW (option User).
#[export] Instance user_store : ActiveUserStore := UserStore.GetUserByEmail.
Definition WriteAccountForbidden : Resp :=
  writeJSON 403 (OObj [("error", OStr "account_forbidden"); ("redirect", OStr ForbiddenRedirectPath)]).
Definition WritePasswordChangeRequired : Resp :=
  writeJSON 409 (OObj [("error", OStr "password_change_required"); ("redirect", OStr ChangePasswordRedirectPath)]).
Definition unauthorized : Resp := http_Error "Unauthorized" 401.
Section status.
Context `{users : ActiveUserStore}.
(** No user at all for an empty address. *)
Definition resolveActiveUser (email : string) : HW (option User) :=
  if is_empty email then mret None else
  user ← or_else (store_user_by_email email) (fun _ => http_Error "Internal Server Error" 500);
  _ ← check (is_some user) unauthorized;
  _ ← check (negb (IsUserForbidden user)) WriteAccountForbidden;
  mret user.
Definition enforceActiveUser (email : string) : HW (option User) :=
  user ← resolveActiveUser email;
  _ ← check (negb (PasswordChangeRequired user)) WritePasswordChangeRequired;
  mret user.
Definition enforceActiveUserAllowPasswordChange (email : string) : HW (option User) := resolveActiveUser email.
(** The handler behind the check: the role is the one of the database. *)
Definition with_active_user (enforce : string -> HW (option User)) (next : Handler) : Handler := fun r =>
  let email := default "" (R_UserEmail r) in
  user ← enforce email;
  u ← must user;
  next (withUserContext r email (U_Role u)).
End status.

(** ** auth.go and admin_auth.go *)
Section auth.
Context (jwt_Parse : (string -> bool) -> string -> option (gmap string json)).
Definition hmac_method (alg : string) : bool := bool_decide (alg ∈ ["HS256"; "HS384"; "HS512"]).
Definition claim_string (claims : gmap string json) (name : string) : string :=
  match claims !! name with Some (JStr s) => s | _ => "" end.
Definition bearer (r : Request) : string := TrimPrefix (Header r "Authorization") "Bearer ".
Definition UserJWT (next : Handler) : Handler := fun r =>
  let tokenStr := bearer r in
  _ ← check (negb (is_empty tokenStr)) unauthorized;
  claims ← need (jwt_Parse hmac_method tokenStr) unauthorized;
  let email := claim_string claims "sub" in
  _ ← check (negb (is_empty email)) unauthorized;
  next (withUserContext r email (claim_string claims "role")).
Definition admin_role (role : string) : bool :=
  seqb role "admin_global" || seqb role "support" || seqb role "admin_local".
(** The key function of [AdminJWT] does not look at the algorithm. *)
Definition AdminJWT (next : Handler) : Handler := fun r =>
  let tokenStr := bearer r in
  _ ← check (negb (is_empty tokenStr)) unauthorized;
  claims ← need (jwt_Parse (fun _ => true) tokenStr) unauthorized;
  let role := claim_string claims "role" in
  _ ← check (admin_role role) (http_Error "Forbidden" 403);
  next (withUserContext r (claim_string claims "sub") role).
(** The static token first, then a token with an administration role; a
    refused token and a token without [sub] differ. *)
Definition AdminAuth (ADMIN_TOKEN : string) (next : Handler) : Handler := fun r =>
  let tokenStr := bearer r in
  if negb (is_empty ADMIN_TOKEN) && seqb tokenStr ADMIN_TOKEN then next r
  else
    let denied := http_Error "Unauthorized Admin Access" 401 in
    _ ← check (negb (is_empty tokenStr)) denied;
    claims ← need (jwt_Parse hmac_method tokenStr) denied;
    let role := claim_string claims "role" in
    _ ← check (admin_role role) (http_Error "Forbidden: Insufficient Permissions" 403);
    match claims !! "sub" with
    | Some (JStr sub) => next (withUserContext r sub role)
    | _ => next r
    end.
Definition GatewayAuth (next : Handler) : Handler := fun r =>
  let gatewayID := Header r "X-Gateway-ID" in
  let token := bearer r in
  _ ← check (negb (is_empty gatewayID) && negb (is_empty token)) unauthorized;
  ok ← or_else (ValidateGatewayRequest gatewayID token (Header r "X-Gateway-Eth0-MAC") (Header r "X-Gateway-Eth1-MAC"))
         (fun _ => unauthorized);
  _ ← check ok unauthorized;
  next (with_context r (R_UserEmail r) (R_UserRole r) (Some gatewayID)).
Definition UserJWTWithStore (next : Handler) : Handler :=
  UserJWT (with_active_user enforceActiveUser next).
Definition AdminJWTWithStore (next : Handler) : Handler :=
  AdminJWT (with_active_user enforceActiveUser next).
Definition UserJWTAllowPasswordChange (next : Handler) : Handler :=
  UserJWT (with_active_user enforceActiveUserAllowPasswordChange next).
Definition AdminAuthWithStore (ADMIN_TOKEN : string) (next : Handler) : Handler :=
  AdminAuth ADMIN_TOKEN (fun r =>
    if is_empty (default "" (R_UserEmail r)) then next r else with_active_user enforceActiveUser next r).

(** ** portal/routes.go: the routes of the orders *)
Definition injectLimiter : Handler -> Handler := RateLimit "inject" 30 Minute.
Definition portal_route (o : Order) : Handler :=
  let h := order_handler o in
  UserJWTWithStore
    (match o with
     | OInject | OInjectBatch | OLaunchScenario | ORestoreScenario => injectLimiter h
     | OWebActions | OPutScenario => h
     | OPutLightTimer | OPutLightName => AdminJWTWithStore h
     end).
End auth.

(** ** The limiter against a sliding window *)
(** Attempts one after the other on the same limiter. *)
Fixpoint allow_all (name : string) (limit : nat) (window : Duration) (keys : list string) : HW (list bool) :=
  match keys with
  | [] => mret []
  | key :: keys => b ← Allow name limit window key; bs ← allow_all name limit window keys; mret (b :: bs)
  end.
(** The reference: every accepted attempt is remembered, and an attempt is
    accepted when fewer than [limit] accepted ones of its key are in the window. *)
Definition recent (window : Duration) (t : Time) (key : string) (hist : list (Time * string)) : list Time :=
  List.filter (within_window window t) (map fst (List.filter (fun a => seqb a.2 key) hist)).
Fixpoint sliding_window (limit : nat) (window : Duration) (hist attempts : list (Time * string)) : list bool :=
  match attempts with
  | [] => []
  | (t, key) :: attempts =>
      let key := limiter_key key in
      let ok := (length (recent window t key hist) <? limit)%nat in
      ok :: sliding_window limit window (if ok then hist ++ [(t, key)] else hist) attempts
  end.
(** The kept attempts are the remembered ones, as far as a later attempt can see. *)
Definition tracks (window : Duration) (t0 : Time) (counts : gmap string (list Time))
    (hist : list (Time * string)) : Prop :=
  forall key t, t0 <= t ->
    List.filter (within_window window t) (default [] (counts !! key)) = recent window t key hist.
Lemma within_mono window t0 t s : t0 <= t -> within_window window t s = true -> within_window window t0 s = true.
Proof. unfold within_window, Sub. lia. Qed.
Lemma filter_twice window t0 t l : t0 <= t ->
  List.filter (within_window window t) (List.filter (within_window window t0) l) =
  List.filter (within_window window t) l.
Proof.
  intros Hle. induction l as [|s l IH]; [done|]. cbn [List.filter].
  destruct (within_window window t0 s) eqn:E0; cbn [List.filter]; rewrite IH.
  - done.
  - destruct (within_window window t s) eqn:E; [|done]. apply (within_mono window t0) in E; [|done]. congruence.
Qed.
Lemma tracks_step limit window t counts hist key ok kept :
  tracks window t counts hist -> allow_step limit window t (default [] (counts !! key)) = (ok, kept) ->
  ok = (length (recent window t key hist) <? limit)%nat /\
  tracks window t (<[key := kept]> counts) (if ok then hist ++ [(t, key)] else hist).
Proof.
  intros Ht. unfold allow_step. rewrite (Ht key t) by lia. intros Hs.
  assert (forall hist', (forall key', key' <> key -> forall t', recent window t' key' hist' = recent window t' key' hist) ->
    (forall t', t <= t' -> List.filter (within_window window t') kept = recent window t' key hist') ->
    tracks window t (<[key := kept]> counts) hist') as Hnew.
  { intros hist' Ho Hk key' t' Hle. destruct (decide (key = key')) as [<-|Hne].
    - rewrite lookup_insert_eq. by apply Hk.
    - rewrite lookup_insert_ne, Ho by congruence. by apply Ht. }
  assert (forall t', t <= t' -> List.filter (within_window window t') (recent window t key hist) =
    recent window t' key hist) as Hrec by (intros t' Hle; unfold recent; by apply filter_twice).
  destruct (limit <=? _)%nat eqn:E; injection Hs as <- <-.
  - split; [apply Nat.leb_le in E; symmetry; apply Nat.ltb_ge; lia|]. by apply Hnew.
  - apply Nat.leb_gt in E. split; [symmetry; by apply Nat.ltb_lt|]. apply Hnew.
    + intros key' Hne t'. unfold recent. rewrite filter_app_list. cbn [List.filter snd].
      destruct (seqb key key') eqn:Ek; [by apply seqb_spec in Ek|]. by rewrite app_nil_r.
    + intros t' Hle. rewrite filter_app_list, Hrec by done. unfold recent. rewrite filter_app_list.
      cbn [List.filter snd]. rewrite seqb_refl, map_app, filter_app_list. done.
Qed.
(** What the next [n] readings of the clock give. *)
Fixpoint readings (n : nat) (w : World) : list Time :=
  match n with
  | O => []
  | S n => match @now Resp w with (Ok t, w') => t :: readings n w' | (Fail _, _) => [] end
  end.
Lemma readings_clock n w w' : clock w' = clock w -> ticks w' = ticks w -> readings n w' = readings n w.
Proof.
  revert w w'. induction n as [|n IH]; intros w w' Hc Ht; [done|]. cbn [readings]. unfold now. rewrite Ht, Hc.
  destruct (ticks w) as [|d ds] eqn:E; f_equal; apply IH; cbn; congruence.
Qed.
(** An attempt reads the clock once and always answers. *)
Lemma Allow_run name limit window key w : exists t w1 ok kept,
  @now Resp w = (Ok t, w1) /\ clock w <= t /\ clock w1 = t /\
  allow_step limit window t (default [] (default ∅ (limiters w !! name) !! limiter_key key)) = (ok, kept) /\
  Allow name limit window key w =
    (Ok ok, on_limiters (<[name := <[limiter_key key := kept]> (default ∅ (limiters w !! name))]>) w1).
Proof.
  destruct (@now_Ok Resp w) as (t & Ht & _). destruct (@now Resp w) as [x w1] eqn:Hn. cbn in Ht. subst x.
  assert (limiters w1 = limiters w) as Hl by (revert Hn; unfold now; by destruct (ticks w); intros [= _ <-]).
  pose proof Hn as (_ & Hle & Hc)%now_Ok_inv.
  destruct (allow_step limit window t (default [] (default ∅ (limiters w !! name) !! limiter_key key))) as [ok kept] eqn:E.
  exists t, w1, ok, kept. split_and!; [done..|]. unfold Allow. rewrite M_bind_run, Hn, M_bind_run. cbn [gets]. by rewrite Hl, E.
Qed.
Lemma allow_all_run name limit window keys w hist :
  tracks window (clock w) (default ∅ (limiters w !! name)) hist ->
  (allow_all name limit window keys w).1 = Ok (sliding_window limit window hist (zip (readings (length keys) w) keys)).
Proof.
  revert w hist. induction keys as [|key keys IH]; intros w hist Ht; [done|]. cbn [allow_all length readings].
  destruct (Allow_run name limit window key w) as (t & w1 & ok & kept & Hn & Hle & Hc & Hs & Ha). rewrite M_bind_run, Ha, Hn.
  assert (tracks window t (default ∅ (limiters w !! name)) hist) as Ht' by (intros k t' Ht'; apply Ht; lia).
  destruct (tracks_step _ _ _ _ _ _ _ _ Ht' Hs) as [Hb Hnext]. cbn [zip zip_with sliding_window]. rewrite <-Hb.
  set (w2 := on_limiters _ w1). rewrite M_bind_run. specialize (IH w2 (if ok then hist ++ [(t, limiter_key key)] else hist)).
  rewrite (readings_clock _ w1 w2) in IH by done.
  destruct (allow_all name limit window keys w2) as [r w3]. cbn [fst] in *. rewrite IH; [done|].
  unfold w2. cbn. rewrite lookup_insert_eq. by rewrite Hc.
Qed.

(** C12. The rate limiter is an exact sliding window: over any sequence of
    attempts on a fresh limiter, each at the instant the clock reads then, every
    attempt is answered, and accepted if and only if fewer than [limit]
    accepted attempts of its key lie within the window, although the limiter
    forgets the attempts that left it. *)
Theorem rate_limiter_sliding_window (name : string) (limit : nat) (window : Duration) (keys : list string) (w : World) :
  limiters w !! name = None ->
  (allow_all name limit window keys w).1 = Ok (sliding_window limit window [] (zip (readings (length keys) w) keys)).
Proof. intros Hn. apply allow_all_run. intros key t _. rewrite Hn. simpl. by rewrite lookup_empty. Qed.
Definition limiter_demo : World := on_ticks (fun _ => [0; 1; 2; 0; 3]%N) (empty_world 10 []).
Lemma rate_limiter_sliding_window_witness :
  readings 5 limiter_demo = [10; 11; 13; 13; 16] /\
  Ok [true; true; false; true; true] =
    Ok (E := Resp) (sliding_window 2 5 [] (zip (readings 5 limiter_demo) ["a"; "a"; "a"; "b"; "a"])).
Proof.
  split; [vm_compute; reflexivity|].
  pose proof (rate_limiter_sliding_window "inject" 2 5 ["a"; "a"; "a"; "b"; "a"] limiter_demo eq_refl) as H.
  etrans; [|exact H]. vm_compute. reflexivity.
Defined.

(** ** What stands before an order *)
Definition active (u : User) : Prop := U_ForbiddenAt u = None /\ U_PasswordChangeRequiredAt u = None.
Lemma Allow_keeps I name limit window key : preserves (db_inv I) (Allow name limit window key).
Proof.
  unfold Allow. handler_tac. done.
Qed.
Lemma enforceActiveUser_keeps I email : preserves (db_inv I) (enforceActiveUser email).
Proof.
  unfold enforceActiveUser, resolveActiveUser, store_user_by_email, user_store, UserStore.GetUserByEmail.
  handler_tac.
Qed.
#[export] Hint Resolve Allow_keeps enforceActiveUser_keeps : preserves.
Lemma enforceActiveUser_run email w u w' : enforceActiveUser email w = (Ok (Some u), w') ->
  db w' = db w /\ get_row (fun x => seqb (U_Email x) email) (users (db w)) = Ok u /\ active u.
Proof.
  intros H. split; [eapply keeps_run; [apply enforceActiveUser_keeps|exact H]|].
  unfold enforceActiveUser, resolveActiveUser in H. destruct (is_empty email).
  { hrun. congruence. }
  hrun. lazymatch goal with Hq : store_user_by_email _ _ = _ |- _ => rename Hq into Hr end.
  apply query_text_Ok_inv in Hr as [Hr _].
  match goal with Hu : Some u = ?x |- _ => rewrite <-Hu in * end. split; [apply res_value_Some; by symmetry|].
  unfold active. unfold IsUserForbidden, PasswordChangeRequired in *.
  destruct (U_ForbiddenAt u); [done|]. destruct (U_PasswordChangeRequiredAt u); [done|]. done.
Qed.
(** The two handlers behind a token and an active account: nothing changed, or
    the handler ran for the account of the token. *)
Definition runs_as (jwt_Parse : (string -> bool) -> string -> option (gmap string json)) (accept : string -> bool)
    (next : Handler) (r : Request) (w : World) (resp : Resp) (w' : World) : Prop :=
  exists claims u w1, jwt_Parse accept (bearer r) = Some claims /\
    get_row (fun x => seqb (U_Email x) (claim_string claims "sub")) (users (db w)) = Ok u /\ active u /\
    db w1 = db w /\ serve (next (withUserContext r (claim_string claims "sub") (U_Role u))) w1 = (resp, w').
Lemma with_active_user_run next r w resp w' : serve (with_active_user enforceActiveUser next r) w = (resp, w') ->
  db w' = db w \/ exists u w1,
    get_row (fun x => seqb (U_Email x) (default "" (R_UserEmail r))) (users (db w)) = Ok u /\ active u /\
    db w1 = db w /\ serve (next (withUserContext r (default "" (R_UserEmail r)) (U_Role u))) w1 = (resp, w').
Proof.
  intros H. unfold with_active_user in H. apply serve_bind in H as [(user & w1 & He & H)|H];
    [|left; eapply keeps_run; [|exact H]; apply enforceActiveUser_keeps].
  apply serve_bind in H as [(u & w2 & [-> ->]%must_Ok_inv & H)|H].
  - apply enforceActiveUser_run in He as (Hd & Hu & Ha). right. by exists u, w1.
  - left. apply keeps_run in H; [|handler_tac]. rewrite H.
    eapply keeps_run; [|exact He]. apply enforceActiveUser_keeps.
Qed.
Section jwt.
Context (jwt_Parse : (string -> bool) -> string -> option (gmap string json)).
Lemma UserJWTWithStore_run next r w resp w' : serve (UserJWTWithStore jwt_Parse next r) w = (resp, w') ->
  db w' = db w \/ runs_as jwt_Parse hmac_method next r w resp w'.
Proof.
  intros H. unfold UserJWTWithStore, UserJWT in H.
  apply serve_bind in H as [(u1 & w1 & [_ ->]%check_Ok_inv & H)|H]; [|left; eapply keeps_run; [|exact H]; handler_tac].
  apply serve_bind in H as [(claims & w1 & [Hc ->]%need_Ok_inv & H)|H]; [|left; eapply keeps_run; [|exact H]; handler_tac].
  apply serve_bind in H as [(u2 & w1 & [_ ->]%check_Ok_inv & H)|H]; [|left; eapply keeps_run; [|exact H]; handler_tac].
  apply with_active_user_run in H as [H|(u & w1 & Hu & Ha & Hd & H)]; [by left|]. right. by exists claims, u, w1.
Qed.
Lemma AdminJWTWithStore_run next r w resp w' : serve (AdminJWTWithStore jwt_Parse next r) w = (resp, w') ->
  db w' = db w \/ runs_as jwt_Parse (fun _ => true) next r w resp w'.
Proof.
  intros H. unfold AdminJWTWithStore, AdminJWT in H.
  apply serve_bind in H as [(u1 & w1 & [_ ->]%check_Ok_inv & H)|H]; [|left; eapply keeps_run; [|exact H]; handler_tac].
  apply serve_bind in H as [(claims & w1 & [Hc ->]%need_Ok_inv & H)|H]; [|left; eapply keeps_run; [|exact H]; handler_tac].
  apply serve_bind in H as [(u2 & w1 & [_ ->]%check_Ok_inv & H)|H]; [|left; eapply keeps_run; [|exact H]; handler_tac].
  apply with_active_user_run in H as [H|(u & w1 & Hu & Ha & Hd & H)]; [by left|]. right. by exists claims, u, w1.
Qed.
Lemma RateLimit_run name limit window next r w resp w' :
  serve (RateLimit name limit window next r) w = (resp, w') ->
  db w' = db w \/ exists w1, db w1 = db w /\ serve (next r) w1 = (resp, w').
Proof.
  intros H. unfold RateLimit in H. apply serve_bind in H as [(ok & w1 & Ha & H)|H];
    [|left; eapply keeps_run; [|exact H]; apply Allow_keeps].
  apply keeps_run in Ha; [|apply Allow_keeps].
  apply serve_bind in H as [(u & w2 & [_ ->]%check_Ok_inv & H)|H].
  - right. by exists w1.
  - left. rewrite <-Ha. eapply keeps_run; [|exact H]. handler_tac.
Qed.
End jwt.

(** What is known when an order behind the middleware changed the tables. *)
Definition order_by_account (jwt_Parse : (string -> bool) -> string -> option (gmap string json))
    (o : Order) (r : Request) (w w' : World) : Prop :=
  exists accept claims u,
    jwt_Parse accept (bearer r) = Some claims /\
    get_row (fun x => seqb (U_Email x) (claim_string claims "sub")) (users (db w)) = Ok u /\ active u /\
    IsDryRun r = false /\
    (admin_only o = true -> U_Role u = RoleAdminLocal \/ U_Role u = RoleAdminGlobal) /\
    UserPortalAccessEligible (U_LinkedMachineID u) (U_LinkedGatewayID u) (U_LinkedArmoireID u) = true /\
    own_writes (profile_of u) (db w) (db w').
Lemma runs_as_order jwt_Parse accept o r w resp w' :
  runs_as jwt_Parse accept (order_handler o) r w resp w' ->
  db w' = db w \/ order_by_account jwt_Parse o r w w'.
Proof.
  intros (claims & u & w1 & Hj & Hu & Ha & Hd & Hs). apply order_confined in Hs.
  unfold confined in Hs. rewrite Hd in Hs. destruct Hs as [Hs|(Hdry & user & Hm & Hrole & Hw)]; [by left|].
  right. exists accept, claims, u.
  assert (user = profile_of u) as ->.
  { symmetry. eapply may_use_unique; [exact Hm|]. eexists. split; [reflexivity|]. by exists u. }
  destruct Hm as (_ & Helig & _). split_and!; try done; apply Ha.
Qed.

(** C7. From the network to the cabinet: an order of the portal changes the
    tables only when its bearer token was accepted by the JWT library, the
    account the token names exists and is neither forbidden nor waiting for a
    password change, the request is no dry run, the account has portal access
    (and is an administrator for the light settings, by its role in the
    database); what changes is then confined: new pending actions of that
    account for its linked cabinet, the exchange cache and the light names of
    that cabinet, and the audit log. *)
Theorem portal_orders_authenticated (jwt_Parse : (string -> bool) -> string -> option (gmap string json))
    (o : Order) (r : Request) (w w' : World) (resp : Resp) :
  serve (portal_route jwt_Parse o r) w = (resp, w') ->
  db w' = db w \/ order_by_account jwt_Parse o r w w'.
Proof.
  unfold portal_route. intros H. apply UserJWTWithStore_run in H as [H|(claims & u & w1 & Hj & Hu & Ha & Hd & Hs)];
    [by left|].
  assert (forall w2, db w2 = db w -> serve (order_handler o (withUserContext r (claim_string claims "sub") (U_Role u))) w2
    = (resp, w') -> db w' = db w \/ order_by_account jwt_Parse o r w w') as Hdirect.
  { intros w2 Hd2 Hs2. apply (runs_as_order _ hmac_method _ _ _ resp). by exists claims, u, w2. }
  destruct o; try (by apply (Hdirect w1));
    try (apply RateLimit_run in Hs as [Hs|(w2 & Hd2 & Hs)];
         [left; congruence|apply (Hdirect w2); [congruence|done] ]).
  all: apply AdminJWTWithStore_run in Hs as [Hs|Hs]; [left; congruence|];
    apply runs_as_order in Hs; unfold order_by_account in *; rewrite Hd in Hs; exact Hs.
Qed.
(** A token of the user of [portal_demo]. *)
Definition demo_jwt (accept : string -> bool) (token : string) : option (gmap string json) :=
  if seqb token "tok" && accept "HS256" then Some {["sub" := JStr "a@b.c"; "role" := JStr "user"]} else None.
Definition demo_order : Request :=
  mkRequest "POST" None None None ∅ ∅ {["Authorization" := "Bearer tok"]} "10.0.0.1:5000"
    (Some (mkBody (JObj [("k", JNum "613"); ("v", JStr "64"); ("guid", JStr "g1")]) 40 None)).
Lemma portal_orders_authenticated_witness :
  order_by_account demo_jwt OInject demo_order portal_demo
    (serve (portal_route demo_jwt OInject demo_order) portal_demo).2.
Proof.
  destruct (portal_orders_authenticated demo_jwt OInject demo_order portal_demo
    (serve (portal_route demo_jwt OInject demo_order) portal_demo).2
    (serve (portal_route demo_jwt OInject demo_order) portal_demo).1) as [H|H]; [| |exact H].
  - vm_compute. reflexivity.
  - exfalso. apply (f_equal (fun d => length (cloud_actions d))) in H. vm_compute in H. discriminate H.
Defined.

(** Behind the gateway authentication a handler runs only for a registered
    gateway: the token has the stored digest and, when both addresses were
    registered, the request names both; the handler then acts as that gateway.
    Otherwise the answer is 401 and nothing changed. *)
Lemma gateway_auth_spec (next : Handler) (r : Request) (w w' : World) (resp : Resp) :
  serve (GatewayAuth next r) w = (resp, w') ->
  (resp = unauthorized /\ db w' = db w) \/
  exists g w1, get_row (fun g => seqb (GS_GatewayID g) (Header r "X-Gateway-ID")) (gateway_sessions (db w)) = Ok g /\
    bearer r <> "" /\ GS_TokenHash g = hashToken (bearer r) /\
    (forall e0 e1, GS_Eth0MAC g = Some e0 -> GS_Eth1MAC g = Some e1 ->
       NormalizeMAC (Header r "X-Gateway-Eth0-MAC") = Ok e0 /\ NormalizeMAC (Header r "X-Gateway-Eth1-MAC") = Ok e1) /\
    db w1 = db w /\
    serve (next (with_context r (R_UserEmail r) (R_UserRole r) (Some (Header r "X-Gateway-ID")))) w1 = (resp, w').
Proof.
  intros H. unfold GatewayAuth in H.
  apply serve_bind in H as [(u1 & w1 & [Hne ->]%check_Ok_inv & H)|H].
  2:{ left. split; [|eapply keeps_run; [|exact H]; handler_tac].
      revert H. unfold check. destruct (_ && _); [done|]. by intros [= <- _]. }
  apply serve_bind in H as [(ok & w1 & Hv & H)|H].
  2:{ left. unfold ValidateGatewayRequest, GetGatewaySession in H. split; [|eapply keeps_run; [|exact H]; handler_tac].
      revert H. unfold or_else, map_err. match goal with |- context [match ?m with _ => _ end] => destruct m as [[]] end;
        [done|]. by intros [= <- _]. }
  assert (db w1 = db w) as Hd by (eapply keeps_run; [|exact Hv];
    unfold ValidateGatewayRequest, GetGatewaySession; handler_tac).
  apply serve_bind in H as [(u2 & w2 & [-> ->]%check_Ok_inv & H)|H].
  2:{ left. revert H. unfold check. destruct ok; [done|]. by intros [= <- <-]. }
  right. apply or_else_Ok_inv in Hv. unfold ValidateGatewayRequest in Hv.
  apply M_bind_Ok in Hv as (res & w2 & Ht & Hv). apply mret_Ok_inv in Hv as [Hv ->].
  unfold try in Ht. destruct (GetGatewaySession _ w) as [res0 w3] eqn:Eg. injection Ht as -> ->.
  destruct res as [g|e]; [|done]. unfold GetGatewaySession in Eg. mrun. subst. exists g. eexists. apply andb_true_iff in Hne as [_ Hne].
  destruct (seqb (GS_TokenHash g) _) eqn:Eh; [|done]. apply seqb_spec in Eh. cbn [negb] in Hv.
  split_and!; [done| |done| |exact Hd|exact H].
  - intros Hx. by rewrite Hx in Hne.
  - intros e0 e1 H0 Hx1. rewrite H0, Hx1 in Hv.
    destruct (NormalizeMAC (Header r "X-Gateway-Eth0-MAC")) as [n0|]; [|done].
    destruct (NormalizeMAC (Header r "X-Gateway-Eth1-MAC")) as [n1|]; [|done].
    symmetry in Hv. apply andb_true_iff in Hv as [->%seqb_spec ->%seqb_spec]. done.
Qed.
