(* ===== verification/Legacy.v ===== *)
(** * Devices on the wide area network: protocol and routes

    Models [internal/legacyiot/] and [internal/middleware/basic_auth.go].  The
    firmware authenticates with its key, polls the indices it should report,
    posts its status in a JSON without quotes around the names, and fetches
    and completes the actions of its cabinet. *)
From S2P Require Import Prelude GoStr Regex Json JsonText Geo Exchange Accounts Lights Mac World Crypto PortalStore.
From S2P Require Import Inventory LegacyStore AccountStore Http Portal ScenarioApi LightNames Orders Middleware.
#[global] Open Scope Z_scope.

(** ** pull_groups.go and rotator.go *)
Definition DefaultCommandIndices : list Z :=
  [613; 607; 615; 590; 349; 350; 351; 352; 363; 425; 426; 920; 566; 567; 568; 569; 570; 571; 572;
   574; 575; 576; 577; 578; 582; 583; 584; 585].
Definition IdentityIndices : list Z := [0; 1; 5; 6; 7; 8; 9; 945; 947; 948; 949; 950; 951; 952].
Definition info_slots : list (list Z) := [DefaultCommandIndices; IdentityIndices].
(** The rotation is shared by all devices; its mutex makes [Next] one step. *)
Definition Next : HW (list Z) :=
  slot ← gets info_slot;
  _ ← modify (on_info_slot (fun n => n + 1));
  mret (default [] (info_slots !! Z.to_nat (slot mod Z.of_nat (length info_slots)))).

(** ** json_normalizer.go *)
(** The names the firmware leaves bare, with their quotes. *)
Definition bare (before name : string) : string * string :=
  ((before ++ name ++ ":")%string, (before ++ qt ++ name ++ qt ++ ":")%string).
Definition normalizations : list (string * string) :=
  [("\{k:", snd (bare "{" "k")); (",v:", snd (bare "," "v")); ("\[k:", "[{" ++ qt ++ "k" ++ qt ++ ":")%string;
   ("\{version:", snd (bare "{" "version")); (",version:", snd (bare "," "version")); (",ek:", snd (bare "," "ek"))].
Definition normalize (input : list Z) : list Z :=
  foldl (fun l p => replace_all (S (length l)) (MustCompile p.1) (quote p.2) ([], l)) input normalizations.
(** The normal text with its tree, or nothing when it is no JSON. *)
Definition NormalizeJSON (input : list Z) : option json :=
  match input with [] => None | _ => parse_json (normalize input) end.

(** ** legacy_iot.go and legacy_actions.go *)
Definition legacy_kv_fields : fields ExchangeKV :=
  [("k", set_field K (fun x p => mkKV x (V p)) dec_int); ("v", set_field V (fun x p => mkKV (K p) x) dec_string)].
Definition my_status_fields : fields MyStatusPayload :=
  [("version", set_field MS_Version (fun x q => mkMyStatus x (MS_EK q)) dec_string);
   ("ek", set_field MS_EK (fun x q => mkMyStatus (MS_Version q) x) (dec_slice (dec_struct legacy_kv_fields) (mkKV 0 "")))].
Record LegacyAction := mkLegacyAction { LA_GUID : string; LA_Params : list ExchangeKV }.
(** The answer with its members in their order; no alarm command is ever set. *)
Definition MarshalJSON (actions : list LegacyAction) : out :=
  OObj [("_de67f", ONull);
        ("actions", oarr (fun a => OObj [("guid", OStr (LA_GUID a)); ("params", oarr out_kv (LA_Params a))]) actions)].

(** ** handlers.go: the context carries the names the middleware found *)
Definition LegacyHandler : Type := string -> string -> Request -> HW Resp.
Section legacy.
Context (ip_api : string -> option geoAPIResponse) (hasPortal : bool).
Definition ServerInfos : LegacyHandler := fun clientID hashedPkey r =>
  indices ← Next;
  mret (writeJSON 200 (OObj [("isconnected", OBool true); ("infos", oarr OInt indices); ("newversion", OStr "no")])).
Definition created : Resp := mkResp 201 (BText "" None).
(** [body] is what [io.ReadAll] gave, or nothing for its error. *)
Definition MyStatus (body : option (list Z)) : LegacyHandler := fun clientID hashedPkey r =>
  let bad := http_Error "Bad Request" 400 in
  body ← need body bad;
  tree ← need (NormalizeJSON body) bad;
  payload ← need (dec_struct my_status_fields tree (mkMyStatus "" [])) bad;
  _ ← ignore (LegacyIoTStore.SaveClientData clientID hashedPkey (MS_Version payload) (MS_EK payload));
  mret created.
Definition MyActions : LegacyHandler := fun clientID hashedPkey r =>
  actions ← (if hasPortal && negb (is_empty hashedPkey) then
               id ← attempt (LegacyIoTStore.PortalMachineIDFromHashedPkey hashedPkey);
               match id with
               | Fail _ => mret []
               | Ok machineID =>
                   a ← attempt (FetchPendingActionsForMachine machineID 20);
                   mret (match a with
                         | Ok l => map (fun act => mkLegacyAction (CA_GUID act) (CA_Params act)) l
                         | Fail _ => []
                         end)
               end
             else mret []);
  mret (writeJSON 200 (MarshalJSON actions)).
Definition Done : LegacyHandler := fun clientID hashedPkey r =>
  let guid := URLParam r "guid" in
  _ ← check (negb (is_empty guid)) (http_Error "guid required" 400);
  _ ← check hasPortal (http_Error "Not configured" 503);
  _ ← or_else (MarkActionDone guid) (fun _ => http_Error "Action not found" 404);
  mret (writeJSON 200 (OObj [])).
Definition dec_services : decoder (option (gmap string bool)) := fun j old =>
  match j with
  | JObj kvs => Some <$> foldl (fun m '(k, v) => m ← m; b ← dec_bool v false; Some (<[k := b]> m)) (Some (default ∅ old)) kvs
  | JNull => Some None
  | _ => None
  end.
Definition dec_object : decoder (option json) := fun j old =>
  match j with JObj _ => Some (Some j) | JNull => Some None | _ => None end.
Definition gateway_fields : fields World.GatewayStatus :=
  [("hostname", set_field GT_Hostname AdminInventoryStore.set_Hostname dec_string);
   ("timestamp", set_field GT_Timestamp (fun x g => mkGatewayStatus (GT_Hostname g) x (GT_CPU g) (GT_Memory g) (GT_Disk g) (GT_Services g) (GT_ClientCount g) (GT_IP g) (GT_LastSeen g) (GT_GeoLocation g) (GT_Lat g) (GT_Lon g)) dec_float);
   ("cpu_usage_percent", set_field GT_CPU (fun x g => mkGatewayStatus (GT_Hostname g) (GT_Timestamp g) x (GT_Memory g) (GT_Disk g) (GT_Services g) (GT_ClientCount g) (GT_IP g) (GT_LastSeen g) (GT_GeoLocation g) (GT_Lat g) (GT_Lon g)) dec_float);
   ("memory", set_field GT_Memory (fun x g => mkGatewayStatus (GT_Hostname g) (GT_Timestamp g) (GT_CPU g) x (GT_Disk g) (GT_Services g) (GT_ClientCount g) (GT_IP g) (GT_LastSeen g) (GT_GeoLocation g) (GT_Lat g) (GT_Lon g)) dec_object);
   ("disk", set_field GT_Disk (fun x g => mkGatewayStatus (GT_Hostname g) (GT_Timestamp g) (GT_CPU g) (GT_Memory g) x (GT_Services g) (GT_ClientCount g) (GT_IP g) (GT_LastSeen g) (GT_GeoLocation g) (GT_Lat g) (GT_Lon g)) dec_object);
   ("services", set_field GT_Services (fun x g => mkGatewayStatus (GT_Hostname g) (GT_Timestamp g) (GT_CPU g) (GT_Memory g) (GT_Disk g) x (GT_ClientCount g) (GT_IP g) (GT_LastSeen g) (GT_GeoLocation g) (GT_Lat g) (GT_Lon g)) dec_services);
   ("client_count", set_field GT_ClientCount (fun x g => mkGatewayStatus (GT_Hostname g) (GT_Timestamp g) (GT_CPU g) (GT_Memory g) (GT_Disk g) (GT_Services g) x (GT_IP g) (GT_LastSeen g) (GT_GeoLocation g) (GT_Lat g) (GT_Lon g)) dec_int);
   ("ip", set_field GT_IP (fun x g => mkGatewayStatus (GT_Hostname g) (GT_Timestamp g) (GT_CPU g) (GT_Memory g) (GT_Disk g) (GT_Services g) (GT_ClientCount g) x (GT_LastSeen g) (GT_GeoLocation g) (GT_Lat g) (GT_Lon g)) dec_string);
   ("last_seen", set_field GT_LastSeen AdminInventoryStore.set_LastSeen dec_time);
   ("geo_location", set_field GT_GeoLocation (fun x g => set_place (x, GT_Lat g, GT_Lon g) g) dec_string);
   ("lat", set_field GT_Lat (fun x g => set_place (GT_GeoLocation g, x, GT_Lon g) g) dec_float);
   ("lon", set_field GT_Lon (fun x g => set_place (GT_GeoLocation g, GT_Lat g, x) g) dec_float)].
Definition zero_gateway : World.GatewayStatus := mkGatewayStatus "" "0" "0" None None None 0 "" 0 "" "0" "0".
Definition set_IP (x : string) (g : World.GatewayStatus) : World.GatewayStatus :=
  mkGatewayStatus (GT_Hostname g) (GT_Timestamp g) (GT_CPU g) (GT_Memory g) (GT_Disk g) (GT_Services g)
    (GT_ClientCount g) x (GT_LastSeen g) (GT_GeoLocation g) (GT_Lat g) (GT_Lon g).
Definition GatewayInfos : LegacyHandler := fun clientID hashedPkey r =>
  payload ← need (Decode (dec_struct gateway_fields) zero_gateway r) (http_Error "Bad Request" 400);
  let host := match SplitHostPort (R_RemoteAddr r) with Some (h, _) => h | None => R_RemoteAddr r end in
  let fwd := Header r "X-Forwarded-For" in
  t ← now;
  let payload := AdminInventoryStore.set_LastSeen t (set_IP (if is_empty fwd then host else fwd) payload) in
  _ ← ignore (LegacyIoTStore.SaveGateway ip_api payload);
  mret (mkResp 200 (BText "" None)).

(** ** basic_auth.go *)
(** [base64.StdEncoding.DecodeString]: line breaks are skipped, the padding is
    required. *)
Definition b64_value (c : ascii) : option Z :=
  let x := ord c in
  if (65 <=? x) && (x <=? 90) then Some (x - 65)
  else if (97 <=? x) && (x <=? 122) then Some (x - 71)
  else if (48 <=? x) && (x <=? 57) then Some (x + 4)
  else if x =? 43 then Some 62 else if x =? 47 then Some 63 else None.
Definition is_pad (c : ascii) : bool := ord c =? 61.
Fixpoint b64_groups (l : list ascii) : option (list Z) :=
  match l with
  | [] => Some []
  | a :: b :: c :: d :: r =>
      x ← b64_value a;
      y ← b64_value b;
      if is_pad c && is_pad d then (if bool_decide (r = []) then Some [x * 4 + y / 16] else None)
      else
        z ← b64_value c;
        if is_pad d then (if bool_decide (r = []) then Some [x * 4 + y / 16; (y mod 16) * 16 + z / 4] else None)
        else
          u ← b64_value d;
          rest ← b64_groups r;
          Some ([x * 4 + y / 16; (y mod 16) * 16 + z / 4; (z mod 4) * 64 + u] ++ rest)
  | _ => None
  end.
Definition DecodeString (s : string) : option string :=
  l ← b64_groups (List.filter (fun c => negb ((ord c =? 10) || (ord c =? 13))) (bytes s));
  Some (str (map chr l)).
(** [strings.SplitN(credentials, ":", 2)] with its two parts. *)
Definition SplitN2 (s : string) : option (string * string) :=
  i ← Geo.index_of colon_char (bytes s);
  Some (str (take i (bytes s)), str (drop (S i) (bytes s))).
Definition clientIPFromRequest (r : Request) : string :=
  if negb (is_empty (Header r "X-Forwarded-For")) then first_part (Header r "X-Forwarded-For")
  else if negb (is_empty (Header r "X-Real-IP")) then TrimSpace (Header r "X-Real-IP")
  else match SplitHostPort (R_RemoteAddr r) with Some (host, _) => host | None => R_RemoteAddr r end.
(** What the header says: the encoded text, the decoded text, the key. *)
Definition basic_credentials (authHeader : string) : option (string * string * string) :=
  if is_empty authHeader || negb (HasPrefix authHeader "Basic ") then None else
  let encoded := drop_string 6 authHeader in
  credentials ← DecodeString encoded;
  '(username, password) ← SplitN2 credentials;
  Some (encoded, credentials, (username ++ password)%string).
(** What the middleware asks of a store of machines. *)
Class LegacyMachineStore := {
  machine_by_key : string -> MW (option LegacyMachine);
  machine_register : string -> MW (option LegacyMachine);
  machine_seen_at : string -> string -> string -> string -> MW unit }.
#[export] Instance legacy_machine_store : LegacyMachineStore :=
  {| machine_by_key := LegacyIoTStore.GetMachineByHashedPkey;
     machine_register := LegacyIoTStore.RegisterUnknownMachine;
     machine_seen_at := LegacyIoTStore.UpdateMachineStatus ip_api |}.
Context `{store : LegacyMachineStore}.
Definition basicUnauthorized : Resp := http_Error "Unauthorized" 401.
Definition BasicAuth (strict : bool) (next : LegacyHandler) : Handler := fun r =>
  let anonymous := if strict then reject basicUnauthorized else next "anonymous" "" r in
  match basic_credentials (Header r "Authorization") with
  | None => anonymous
  | Some (encoded, credentials, hashedPkey) =>
      found ← attempt (machine_by_key hashedPkey);
      machine ← (match found with
                 | Ok (Some m) => mret (Some m)
                 | _ => m ← attempt (machine_register hashedPkey);
                        match m with
                        | Ok m => m ← must m; mret (Some m)
                        | Fail _ => mret None
                        end
                 end);
      match machine with
      | None => anonymous
      | Some m =>
          _ ← attempt (machine_seen_at hashedPkey (clientIPFromRequest r) encoded credentials);
          _ ← check (LM_IsActive m || negb strict) (http_Error "Machine inactive" 403);
          next (LM_NoSerie m) hashedPkey r
      end
  end.
End legacy.

(** ** routes.go *)
Inductive LegacyRoute := GetMyActions | PostDone | GetServerInfos | PostMyStatus (body : option (list Z)) | PostInfos.
Definition strict_route (o : LegacyRoute) : bool :=
  match o with GetMyActions | PostDone => true | _ => false end.
Definition legacy_handler (ip_api : string -> option geoAPIResponse) (hasPortal : bool) (o : LegacyRoute) : LegacyHandler :=
  match o with
  | GetMyActions => MyActions hasPortal
  | PostDone => Done hasPortal
  | GetServerInfos => ServerInfos
  | PostMyStatus body => MyStatus body
  | PostInfos => GatewayInfos ip_api
  end.
Definition legacy_route (ip_api : string -> option geoAPIResponse) (hasPortal : bool) (o : LegacyRoute) : Handler :=
  @BasicAuth (legacy_machine_store ip_api) (strict_route o) (legacy_handler ip_api hasPortal o).
