(* ===== verification/Support.v ===== *)
(** * Support reports

    Models [internal/data/support_report_store.go] and [internal/support/]:
    the GitHub client ([github.go]), the service ([service.go]), the worker
    that retries and refreshes ([syncer.go]) and the routes ([routes.go]).

    GitHub is a parameter: what it answers to a request after the ones before
    it, the status and the bytes, or nothing when the exchange fails.  The
    client logs every request it sends ([gh_log]) and keeps one installation
    token ([gh_token]).  The signature of the app token is a parameter.  A
    response carries no headers here: [Retry-After] repeats a member of the
    body. *)
From S2P Require Import Prelude GoStr Regex Json JsonText Exchange Accounts Lights World Sensitive Crypto AccountStore Http.
From S2P Require Import Portal Middleware.
#[global] Open Scope Z_scope.

(** ** support_report_store.go *)
Definition SupportStatusPending : string := "pending".
Definition SupportStatusOpen : string := "open".
Definition SupportStatusResolved : string := "resolved".
Definition SupportStatusClosed : string := "closed".
Definition ErrSyncLockBusy : err := Sentinel "support sync lock held by another instance".
Module SupportReportStore.
Definition is_report (id : Z) (r : SupportReport) : bool := SU_ID r =? id.
(** [jsonb] holds no NUL character. *)
Fixpoint jsonb_ok (j : json) : bool :=
  match j with
  | JStr s => negb (Contains s (str [chr 0]))
  | JArr l => forallb jsonb_ok l
  | JObj ms => forallb (fun m => negb (Contains m.1 (str [chr 0])) && jsonb_ok m.2) ms
  | _ => true
  end.
Definition report_fits (r : SupportReport) : bool :=
  varchar 16 (SU_PublicRef r) && bool_decide (SU_Kind r ∈ [KindBug; KindIncident]) && varchar 160 (SU_Title r)
  && jsonb_ok (SU_Payload r).
Definition Create (publicRef : string) (userID : Z) (kind title : string) (payload : json) : MW SupportReport :=
  _ ← stmt;
  id ← nextval "support_reports";
  t ← now;
  let r := mkSupport id publicRef userID kind title payload SupportStatusPending None None None 0 None t t None in
  ok ← gets (fun w => existsb (is_user userID) (users (db w)) &&
         negb (existsb (fun x => seqb (SU_PublicRef x) publicRef) (support_reports (db w))));
  _ ← guard_err (negb (ok && report_fits r)) ErrDB;
  _ ← modify (on_db (on_support_reports (fun rows => rows ++ [r])));
  mret r.
Definition newer (a b : SupportReport) : Prop :=
  SU_CreatedAt b < SU_CreatedAt a \/ (SU_CreatedAt a = SU_CreatedAt b /\ SU_ID b <= SU_ID a).
Global Instance newer_dec a b : Decision (newer a b).
Proof. unfold newer. apply _. Defined.
Definition ListByUser (userID : Z) : MW (list SupportReport) :=
  query (fun d => limit 200 (merge_sort newer (select (fun r => SU_UserID r =? userID) (support_reports d)))).
(** [COUNT] and [MIN]; the zero time when there is none. *)
Definition recent (userID : Z) (since : Time) (r : SupportReport) : bool := (SU_UserID r =? userID) && (since <? SU_CreatedAt r).
Definition min_time (ts : list Time) : Time := match ts with [] => 0 | t :: ts => foldl Z.min t ts end.
Definition CountSince (userID : Z) (since : Time) : MW (Z * Time) :=
  query (fun d => let rows := select (recent userID since) (support_reports d) in
                  (Z.of_nat (length rows), min_time (map SU_CreatedAt rows))).
Definition sent (repo : string) (number : Z) (url : string) (t : Time) (r : SupportReport) : SupportReport :=
  mkSupport (SU_ID r) (SU_PublicRef r) (SU_UserID r) (SU_Kind r) (SU_Title r) (JObj []) SupportStatusOpen (Some repo)
    (Some number) (Some url) (SU_Attempts r + 1) None (SU_CreatedAt r) t (Some t).
Definition MarkSent (id : Z) (repo : string) (number : Z) (url : string) : MW unit :=
  _ ← stmt;
  t ← now;
  there ← gets (fun w => existsb (is_report id) (support_reports (db w)));
  _ ← guard_err (negb (text_ok repo && int4 number && text_ok url) || (there && negb (varchar 128 repo))) ErrDB;
  modify (on_db (on_support_reports (update_where (is_report id) (sent repo number url t)))).
Definition failed_send (msg : string) (t : Time) (r : SupportReport) : SupportReport :=
  mkSupport (SU_ID r) (SU_PublicRef r) (SU_UserID r) (SU_Kind r) (SU_Title r) (SU_Payload r) (SU_Status r) (SU_Repo r)
    (SU_IssueNumber r) (SU_IssueURL r) (SU_Attempts r + 1) (Some msg) (SU_CreatedAt r) t (SU_SyncedAt r).
(** The message is cut at 300 bytes. *)
Definition MarkFailed (id : Z) (msg : string) : MW unit :=
  let msg := str (take 300 (bytes msg)) in
  _ ← stmt;
  t ← now;
  _ ← guard_err (negb (text_ok msg)) ErrDB;
  modify (on_db (on_support_reports (update_where (is_report id) (failed_send msg t)))).
(** Due: never tried, or last touched more than 1, 2, 4... minutes ago. *)
Definition due (t : Time) (r : SupportReport) : bool :=
  seqb (SU_Status r) SupportStatusPending && (SU_Attempts r <? 10)
  && ((SU_Attempts r =? 0) || (SU_UpdatedAt r <? t - Minute * 2 ^ (SU_Attempts r - 1))).
Definition ListPending (n : Z) : MW (list SupportReport) :=
  _ ← stmt;
  t ← now;
  gets (fun w => limit n (order_asc SU_CreatedAt (select (due t) (support_reports (db w))))).
(** Those never synchronised first. *)
Definition stale (olderThan : Time) (r : SupportReport) : bool :=
  seqb (SU_Status r) SupportStatusOpen && match SU_SyncedAt r with None => true | Some t => t <? olderThan end.
Definition ListOpenToSync (olderThan : Time) (n : Z) : MW (list SupportReport) :=
  query (fun d => let rows := select (stale olderThan) (support_reports d) in
    limit n (select (fun r => negb (is_some (SU_SyncedAt r))) rows
             ++ order_asc (fun r => default 0 (SU_SyncedAt r)) (select (fun r => is_some (SU_SyncedAt r)) rows))).
Definition refreshed (status : string) (t : Time) (r : SupportReport) : SupportReport :=
  mkSupport (SU_ID r) (SU_PublicRef r) (SU_UserID r) (SU_Kind r) (SU_Title r) (SU_Payload r) status (SU_Repo r)
    (SU_IssueNumber r) (SU_IssueURL r) (SU_Attempts r) (SU_LastError r) (SU_CreatedAt r)
    (if seqb (SU_Status r) status then SU_UpdatedAt r else t) (Some t).
Definition UpdateStatus (id : Z) (status : string) : MW unit :=
  _ ← stmt;
  t ← now;
  _ ← guard_err (negb (bool_decide (status ∈ [SupportStatusPending; SupportStatusOpen; SupportStatusResolved; SupportStatusClosed])))
        ErrDB;
  modify (on_db (on_support_reports (update_where (is_report id) (refreshed status t)))).
(** A connection of its own, the lock, the call, the unlock. *)
Definition WithSyncLock (fn : MW unit) : MW unit :=
  _ ← stmt;
  _ ← stmt;
  busy ← gets sync_lock;
  _ ← guard_err busy ErrSyncLockBusy;
  r ← try fn;
  _ ← try (E' := err) stmt;
  lift r.
End SupportReportStore.

(** ** github.go *)
Record Issue := mkIssue { I_Number : Z; I_NodeID : string; I_HTMLURL : string; I_State : string; I_StateReason : string }.
Record IssueInput := mkIssueInput { II_Title : string; II_Body : string; II_Labels : list string; II_Type : string }.
(** [APIError] is told from the other errors. *)
Inductive gh_err := APIError (status : Z) (message : string) | OtherError (e : err).
Abbreviation GH := (M World gh_err).
Record GitHub := mkGitHub {
  CreateIssue : string -> IssueInput -> GH Issue;
  AddToProject : string -> string -> GH unit;
  GetIssue : string -> Z -> GH Issue }.
Definition issue_fields : fields Issue :=
  [("number", set_field I_Number (fun x i => mkIssue x (I_NodeID i) (I_HTMLURL i) (I_State i) (I_StateReason i)) dec_int);
   ("node_id", set_field I_NodeID (fun x i => mkIssue (I_Number i) x (I_HTMLURL i) (I_State i) (I_StateReason i)) dec_string);
   ("html_url", set_field I_HTMLURL (fun x i => mkIssue (I_Number i) (I_NodeID i) x (I_State i) (I_StateReason i)) dec_string);
   ("state", set_field I_State (fun x i => mkIssue (I_Number i) (I_NodeID i) (I_HTMLURL i) x (I_StateReason i)) dec_string);
   ("state_reason", set_field I_StateReason (fun x i => mkIssue (I_Number i) (I_NodeID i) (I_HTMLURL i) (I_State i) x) dec_string)].
Definition zero_issue : Issue := mkIssue 0 "" "" "" "".
Definition issue_json (i : IssueInput) : json :=
  JObj ([("title", JStr (II_Title i)); ("body", JStr (II_Body i))]
    ++ match II_Labels i with [] => [] | l => [("labels", JArr (map JStr l))] end
    ++ (if is_empty (II_Type i) then [] else [("type", JStr (II_Type i))])).
Module AppClient.
Section client.
Context (AppID InstallationID BaseURL : string) (jwt_SignRS256 : string -> Time -> Time -> option string).
Context (gh_Do : list GHRequest -> GHRequest -> option (Z * list Z)).
(** The message of a refusal; a body that does not decode leaves it empty. *)
Definition message_of (raw : list Z) : string :=
  match parse_json raw with
  | Some (JObj ms) => default "" (dec_struct [("message", fun j old => Some (match j with JStr s => s | _ => old end))] (JObj ms) "")
  | _ => ""
  end.
Definition do (method path bearer : string) (body : option json) : GH (list Z) :=
  let req := mkGHRequest method (BaseURL ++ path) bearer body in
  before ← gets gh_log;
  _ ← modify (on_gh_log (fun l => l ++ [req]));
  '(status, raw) ← lift (ok_or (gh_Do before req) (OtherError (Sentinel "transport")));
  let raw := take (2 ^ 20) raw in
  _ ← guard_err ((status <? 200) || (299 <? status)) (APIError status (message_of raw));
  mret raw.
Definition Unmarshal {A} (d : decoder A) (zero : A) (raw : list Z) : GH A :=
  lift (ok_or (j ← parse_json raw; d j zero) (OtherError (Sentinel "json"))).
Definition appJWT : GH string :=
  t ← now;
  lift (ok_or (jwt_SignRS256 AppID (t - 60 * Second) (t + 9 * Minute)) (OtherError (Sentinel "jwt"))).
Definition token_fields : fields (string * Time) :=
  [("token", set_field fst (fun x p => (x, p.2)) dec_string); ("expires_at", set_field snd (fun x p => (p.1, x)) dec_time)].
(** The clock is read only for a token that is there. *)
Definition cached_token : GH (option string) :=
  '(token, exp) ← gets gh_token;
  if is_empty token then mret None else
  t ← now;
  mret (if Before t (exp - 5 * Minute) then Some token else None).
Definition installationToken : GH string :=
  cached ← cached_token;
  match cached with
  | Some token => mret token
  | None =>
      signed ← appJWT;
      raw ← do "POST" ("/app/installations/" ++ InstallationID ++ "/access_tokens") signed None;
      out ← Unmarshal (dec_struct token_fields) ("", 0) raw;
      _ ← modify (on_gh_token (fun _ => out));
      mret out.1
  end.
Definition authed (method path : string) (body : option json) : GH (list Z) :=
  tok ← installationToken;
  do method path tok body.
Definition post_issue (repo : string) (i : IssueInput) : GH Issue :=
  raw ← authed "POST" ("/repos/" ++ repo ++ "/issues") (Some (issue_json i));
  Unmarshal (dec_struct issue_fields) zero_issue raw.
(** Without its type when the organisation has none of that name. *)
Definition CreateIssue (repo : string) (i : IssueInput) : GH Issue :=
  r ← try (post_issue repo i);
  match r with
  | Fail (APIError 422 _) =>
      if is_empty (II_Type i) then lift r
      else post_issue repo (mkIssueInput (II_Title i) (II_Body i) (II_Labels i) "")
  | _ => lift r
  end.
Definition GetIssue (repo : string) (number : Z) : GH Issue :=
  raw ← authed "GET" ("/repos/" ++ repo ++ "/issues/" ++ Itoa number) None;
  Unmarshal (dec_struct issue_fields) zero_issue raw.
Definition project_query : string :=
  "mutation($p:ID!,$c:ID!){addProjectV2ItemById(input:{projectId:$p,contentId:$c}){item{id}}}".
Definition errors_fields : fields (list string) :=
  [("errors", dec_slice (dec_struct [("message", dec_string)]) "")].
Definition AddToProject (projectID contentNodeID : string) : GH unit :=
  raw ← authed "POST" "/graphql" (Some (JObj [("query", JStr project_query);
    ("variables", JObj [("c", JStr contentNodeID); ("p", JStr projectID)])]));
  errors ← Unmarshal (dec_struct errors_fields) [] raw;
  match errors with [] => mret tt | m :: _ => throw (APIError 200 m) end.
Definition github : GitHub := mkGitHub CreateIssue AddToProject GetIssue.
End client.
(** [NewAppClient]: the address without its last slashes. *)
Fixpoint trim_slashes (l : list ascii) : list ascii :=
  match l with c :: r => if ord c =? 47 then trim_slashes r else l | [] => [] end.
Definition NewAppClient (appID installationID baseURL : string) :=
  let baseURL := if is_empty baseURL then "https://api.github.com" else baseURL in
  github appID installationID (str (rev (trim_slashes (rev (bytes baseURL))))).
End AppClient.

(** ** service.go *)
Definition LabelToTriage : string := "a-valider".
Definition maxTitleLen : Z := 120.
Definition maxTextLen : Z := 4000.
Definition DefaultLimit : Z := 5.
Definition DefaultWindow : Duration := 24 * Hour.
Class Store := {
  st_Create : string -> Z -> string -> string -> json -> MW SupportReport;
  st_ListByUser : Z -> MW (list SupportReport);
  st_CountSince : Z -> Time -> MW (Z * Time);
  st_MarkSent : Z -> string -> Z -> string -> MW unit;
  st_MarkFailed : Z -> string -> MW unit;
  st_ListPending : Z -> MW (list SupportReport);
  st_ListOpenToSync : Time -> Z -> MW (list SupportReport);
  st_UpdateStatus : Z -> string -> MW unit;
  st_WithSyncLock : MW unit -> MW unit }.
#[export] Instance support_report_store : Store :=
  {| st_Create := SupportReportStore.Create; st_ListByUser := SupportReportStore.ListByUser;
     st_CountSince := SupportReportStore.CountSince; st_MarkSent := SupportReportStore.MarkSent;
     st_MarkFailed := SupportReportStore.MarkFailed; st_ListPending := SupportReportStore.ListPending;
     st_ListOpenToSync := SupportReportStore.ListOpenToSync; st_UpdateStatus := SupportReportStore.UpdateStatus;
     st_WithSyncLock := SupportReportStore.WithSyncLock |}.
Record Settings := mkSettings {
  PseudonymKey : list ascii; PublicRepo : string; PrivateRepo : string; ProjectID : string; S_Limit : Z; S_Window : Duration }.
(** [NewService] *)
Definition with_defaults (s : Settings) : Settings :=
  mkSettings (PseudonymKey s) (PublicRepo s) (PrivateRepo s) (ProjectID s)
    (if S_Limit s <=? 0 then DefaultLimit else S_Limit s) (if S_Window s <=? 0 then DefaultWindow else S_Window s).
Record Input := mkInput { In_Kind : string; In_Title : string; In_Fields : Fields }.
Inductive SubmitError :=
  | FieldError (field reason : string)
  | SensitiveError (field category : string)
  | RateLimitError (retryAt : Time)
  | StoreError (e : err).
Definition allowed (name v : string) : bool :=
  if seqb name "app" then bool_decide (v ∈ ["web"; "ios"; "android"; "gateway"; "other"])
  else if seqb name "mode" then bool_decide (v ∈ ["cloud"; "lan"; "unknown"])
  else if seqb name "impact" then bool_decide (v ∈ ["module"; "local"; "remote"; "hardware"; "unknown"])
  else false.
Definition free_fields (f : Fields) : list (string * string) :=
  [("version", F_Version f); ("since", F_Since f); ("actual", F_Actual f); ("expected", F_Expected f); ("steps", F_Steps f);
   ("tried", F_Tried f)].
Definition closed_fields (f : Fields) : list (string * string) := [("app", F_App f); ("mode", F_Mode f); ("impact", F_Impact f)].
Definition is_blank (s : string) : bool := is_empty (TrimSpace s).
Definition closed_bad (kv : string * string) : bool := negb (is_empty kv.2) && negb (allowed kv.1 kv.2).
Definition too_long (kv : string * string) : bool := maxTextLen <? RuneCountInString kv.2.
Definition is_sensitive (kv : string * string) : bool := negb (is_empty (DetectSensitive kv.2)).
Definition field_check (bad : bool) (field reason : string) : res SubmitError unit :=
  if bad then Fail (FieldError field reason) else Ok tt.
(** The payload: the fields as JSON, those left empty omitted but for one. *)
Definition fields_json (f : Fields) : json :=
  let omit name v := if is_empty v then [] else [(name, JStr v)] in
  JObj (omit "app" (F_App f) ++ omit "version" (F_Version f) ++ omit "mode" (F_Mode f) ++ omit "since" (F_Since f)
    ++ omit "impact" (F_Impact f) ++ [("actual", JStr (F_Actual f))] ++ omit "expected" (F_Expected f)
    ++ omit "steps" (F_Steps f) ++ omit "tried" (F_Tried f)).
Definition zero_fields : Fields := mkFields "" "" "" "" "" "" "" "" "".
Definition fields_fields {A} (get : A -> Fields) (put : Fields -> A -> A) : fields A :=
  let on (g : Fields -> string) (s : string -> Fields -> Fields) := set_field (fun a => g (get a)) (fun x a => put (s x (get a)) a) dec_string in
  [("app", on F_App (fun x f => mkFields x (F_Version f) (F_Mode f) (F_Since f) (F_Impact f) (F_Actual f) (F_Expected f) (F_Steps f) (F_Tried f)));
   ("version", on F_Version (fun x f => mkFields (F_App f) x (F_Mode f) (F_Since f) (F_Impact f) (F_Actual f) (F_Expected f) (F_Steps f) (F_Tried f)));
   ("mode", on F_Mode (fun x f => mkFields (F_App f) (F_Version f) x (F_Since f) (F_Impact f) (F_Actual f) (F_Expected f) (F_Steps f) (F_Tried f)));
   ("since", on F_Since (fun x f => mkFields (F_App f) (F_Version f) (F_Mode f) x (F_Impact f) (F_Actual f) (F_Expected f) (F_Steps f) (F_Tried f)));
   ("impact", on F_Impact (fun x f => mkFields (F_App f) (F_Version f) (F_Mode f) (F_Since f) x (F_Actual f) (F_Expected f) (F_Steps f) (F_Tried f)));
   ("actual", on F_Actual (fun x f => mkFields (F_App f) (F_Version f) (F_Mode f) (F_Since f) (F_Impact f) x (F_Expected f) (F_Steps f) (F_Tried f)));
   ("expected", on F_Expected (fun x f => mkFields (F_App f) (F_Version f) (F_Mode f) (F_Since f) (F_Impact f) (F_Actual f) x (F_Steps f) (F_Tried f)));
   ("steps", on F_Steps (fun x f => mkFields (F_App f) (F_Version f) (F_Mode f) (F_Since f) (F_Impact f) (F_Actual f) (F_Expected f) x (F_Tried f)));
   ("tried", on F_Tried (fun x f => mkFields (F_App f) (F_Version f) (F_Mode f) (F_Since f) (F_Impact f) (F_Actual f) (F_Expected f) (F_Steps f) x))].
Definition dec_fields : decoder Fields := dec_struct (fields_fields (fun f => f) (fun x _ => x)).
(** The fields of the embedded struct are those of the input. *)
Definition input_fields : fields Input :=
  ("kind", set_field In_Kind (fun x i => mkInput x (In_Title i) (In_Fields i)) dec_string)
  :: ("title", set_field In_Title (fun x i => mkInput (In_Kind i) x (In_Fields i)) dec_string)
  :: fields_fields In_Fields (fun f i => mkInput (In_Kind i) (In_Title i) f).
Definition errorSummary (e : gh_err) : string :=
  match e with APIError status m => ("github: " ++ Itoa status ++ " " ++ m)%string | OtherError _ => "transport error" end.
Definition StatusFromIssue (i : Issue) : string :=
  if negb (seqb (I_State i) "closed") then SupportStatusOpen
  else if seqb (I_StateReason i) "completed" then SupportStatusResolved
  else SupportStatusClosed.

Section service.
(** The store; GitHub, or nothing while it is not configured; the order of a
    run over the map of the closed fields. *)
Context `{Store} (gh : option GitHub) (settings : Settings) (range_closed : list (string * string) -> list (string * string)).
(** The input with its title trimmed. *)
Definition validate (i : Input) : res SubmitError Input :=
  let i := mkInput (In_Kind i) (TrimSpace (In_Title i)) (In_Fields i) in
  let f := In_Fields i in
  let free := free_fields f in
  _ ← field_check (negb (seqb (In_Kind i) KindBug) && negb (seqb (In_Kind i) KindIncident)) "kind" "invalid";
  _ ← field_check (is_empty (In_Title i)) "title" "required";
  _ ← field_check (maxTitleLen <? RuneCountInString (In_Title i)) "title" "too_long";
  _ ← field_check (is_blank (F_Actual f)) "actual" "required";
  _ ← (match find closed_bad (range_closed (closed_fields f)) with
       | Some kv => Fail (FieldError kv.1 "invalid")
       | None => Ok tt
       end);
  _ ← field_check (seqb (In_Kind i) KindBug && is_empty (F_App f)) "app" "required";
  _ ← field_check (seqb (In_Kind i) KindIncident && is_empty (F_Impact f)) "impact" "required";
  _ ← (match find too_long free with Some kv => Fail (FieldError kv.1 "too_long") | None => Ok tt end);
  match find is_sensitive (("title", In_Title i) :: free) with
  | Some kv => Fail (SensitiveError kv.1 (DetectSensitive kv.2))
  | None => Ok i
  end.
Definition repoFor (kind : string) : string :=
  if seqb kind KindIncident then PrivateRepo settings else PublicRepo settings.
Definition issue_input (rep : SupportReport) (f : Fields) : IssueInput :=
  let incident := seqb (SU_Kind rep) KindIncident in
  mkIssueInput (IssueTitle (SU_Kind rep) (SU_Title rep))
    (IssueBody (SU_Kind rep) f (UserPseudonym (PseudonymKey settings) (SU_UserID rep)) (SU_PublicRef rep))
    (if incident then ["incident"; "via-portal"; LabelToTriage] else ["bug"; "via-portal"; LabelToTriage])
    (if incident then "Support" else "Bug").
(** The report as the caller sees it afterwards. *)
Definition sent_report (repo url : string) (r : SupportReport) : SupportReport :=
  mkSupport (SU_ID r) (SU_PublicRef r) (SU_UserID r) (SU_Kind r) (SU_Title r) (SU_Payload r) SupportStatusOpen (Some repo)
    (SU_IssueNumber r) (Some url) (SU_Attempts r) (SU_LastError r) (SU_CreatedAt r) (SU_UpdatedAt r) (SU_SyncedAt r).
Definition send (gh : GitHub) (rep : SupportReport) : GH SupportReport :=
  match dec_fields (SU_Payload rep) zero_fields with
  | None => _ ← try (st_MarkFailed (SU_ID rep) "payload: unreadable"); throw (OtherError (Sentinel "json"))
  | Some f =>
      let repo := repoFor (SU_Kind rep) in
      created ← try (CreateIssue gh repo (issue_input rep f));
      match created with
      | Fail e => _ ← try (st_MarkFailed (SU_ID rep) (errorSummary e)); throw e
      | Ok iss =>
          _ ← (if negb (is_empty (ProjectID settings)) && negb (is_empty (I_NodeID iss))
               then r ← try (AddToProject gh (ProjectID settings) (I_NodeID iss)); (fun _ => mret tt) (r : res gh_err unit)
               else mret tt);
          _ ← map_err OtherError (st_MarkSent (SU_ID rep) repo (I_Number iss) (I_HTMLURL iss));
          mret (sent_report repo (I_HTMLURL iss) rep)
      end
  end.
Definition Submit (user : User) (i : Input) : M World SubmitError SupportReport :=
  i ← lift (validate i);
  t ← now;
  '(n, oldest) ← map_err StoreError (st_CountSince (U_ID user) (t - S_Window settings));
  _ ← guard_err (S_Limit settings <=? n) (RateLimitError (oldest + S_Window settings));
  ref ← map_err StoreError NewReportRef;
  rep ← map_err StoreError (st_Create ref (U_ID user) (In_Kind i) (In_Title i) (fields_json (In_Fields i)));
  match gh with
  | None => mret rep
  | Some gh => r ← try (send gh rep); mret (match (r : res gh_err SupportReport) with Ok rep => rep | Fail _ => rep end)
  end.
Definition List_ (user : User) : MW (list SupportReport) := st_ListByUser (U_ID user).

(** ** syncer.go *)
Definition RefreshAfter : Duration := 10 * Minute.
Fixpoint send_each (gh : GitHub) (reps : list SupportReport) : MW unit :=
  match reps with
  | [] => mret tt
  | r :: reps => sent ← try (send gh r); (fun _ => send_each gh reps) (sent : res gh_err SupportReport)
  end.
Fixpoint refresh_each (gh : GitHub) (reps : list SupportReport) : MW unit :=
  match reps with
  | [] => mret tt
  | r :: reps =>
      _ ← (match SU_Repo r, SU_IssueNumber r with
           | Some repo, Some number =>
               found ← try (GetIssue gh repo number);
               match (found : res gh_err Issue) with
               | Ok iss => st_UpdateStatus (SU_ID r) (StatusFromIssue iss)
               | Fail _ => mret tt
               end
           | _, _ => mret tt
           end);
      refresh_each gh reps
  end.
Definition sync_work (gh : GitHub) : MW unit :=
  pending ← st_ListPending 50;
  _ ← send_each gh pending;
  t ← now;
  open ← st_ListOpenToSync (t - RefreshAfter) 100;
  refresh_each gh open.
Definition SyncOnce : MW unit :=
  match gh with
  | None => mret tt
  | Some gh =>
      r ← try (st_WithSyncLock (sync_work gh));
      match (r : res err unit) with
      | Fail e => if bool_decide (e = ErrSyncLockBusy) then mret tt else throw e
      | Ok _ => mret tt
      end
  end.

(** ** routes.go *)
Definition fieldMessages : list (string * string) :=
  [("required", "Ce champ est obligatoire."); ("too_long", "Ce texte est trop long."); ("invalid", "Valeur non reconnue.")].
Definition sensitiveMessages : list (string * string) :=
  [(CategoryPassword, "Ce texte semble contenir un mot de passe. Retirez-le : nous ne vous le demanderons jamais.");
   (CategorySecret, "Ce texte semble contenir un code secret ou une clé. Retirez-le avant d'envoyer.");
   (CategoryPostalAddress, "Ce texte semble contenir une adresse postale. Retirez-la : elle n'est pas utile pour traiter le problème.");
   (CategoryEmail, "Ce texte contient une adresse email. Retirez-la : nous vous répondrons via votre compte.")].
Definition report_user (r : Request) : HW User :=
  found ← or_else (UserStore.GetUserByEmail (default "" (R_UserEmail r))) (fun _ => http_Error "Internal Server Error" 500);
  need found (http_Error "Unauthorized" 401).
(** The address of an incident's issue would name the private repository. *)
Definition view (r : SupportReport) : out :=
  OObj ([("ref", OStr (SU_PublicRef r)); ("kind", OStr (SU_Kind r)); ("title", OStr (SU_Title r)); ("status", OStr (SU_Status r));
         ("created_at", OTime "RFC3339Nano" (SU_CreatedAt r))]
    ++ match SU_IssueURL r with
       | Some url => if seqb (SU_Kind r) KindBug then omit_empty "issue_url" url else []
       | None => []
       end).
(** The seconds until a time, rounded up, at least one. *)
Definition retry_after (retryAt t : Time) : Z := Z.max 1 (- ((t - retryAt) / Second)).
Definition unreadable : Resp :=
  writeJSON 400 (OObj [("error", OStr "invalid_json"); ("message", OStr "Requête illisible.")]).
Definition submit_error (t : Time) (e : SubmitError) : Resp :=
  match e with
  | FieldError f why => writeJSON 400 (OObj [("error", OStr "invalid_field"); ("field", OStr f);
      ("message", OStr (label_of fieldMessages why)); ("reason", OStr why)])
  | SensitiveError f cat => writeJSON 422 (OObj [("category", OStr cat); ("error", OStr "sensitive_content"); ("field", OStr f);
      ("message", OStr (label_of sensitiveMessages cat))])
  | RateLimitError at_ => writeJSON 429 (OObj [("error", OStr "rate_limited");
      ("message", OStr "Vous avez atteint la limite de 5 signalements par 24 heures."); ("retry_after", OInt (retry_after at_ t));
      ("retry_at", OTime "RFC3339" at_)])
  | StoreError _ => http_Error "Internal Server Error" 500
  end.
Definition max_report_bytes : Z := 64 * 1024.
(** The first value of the body, which must end within the limit. *)
Definition decode_input (r : Request) : option Input :=
  b ← R_Body r;
  if B_End b <=? max_report_bytes then dec_struct input_fields (B_Value b) (mkInput "" "" zero_fields) else None.
Definition create_report (r : Request) : HW Resp :=
  user ← report_user r;
  i ← need (decode_input r) unreadable;
  rep ← try (Submit user i);
  match rep with
  | Ok rep => mret (writeJSON 201 (view rep))
  | Fail (RateLimitError at_) => t ← now; mret (submit_error t (RateLimitError at_))
  | Fail e => mret (submit_error 0 e)
  end.
Definition list_reports (r : Request) : HW Resp :=
  user ← report_user r;
  reps ← or_else (List_ user) (fun _ => http_Error "Internal Server Error" 500);
  mret (writeJSON 200 (OObj [("reports", oarr view reps)])).
Inductive SupportRoute := RCreateReport | RListReports.
Definition support_handler (o : SupportRoute) : Handler :=
  match o with RCreateReport => create_report | RListReports => list_reports end.
Definition support_route (jwt_Parse : (string -> bool) -> string -> option (gmap string json)) (o : SupportRoute) : Handler :=
  UserJWTWithStore jwt_Parse (support_handler o).
End service.
