(* ===== verification/Devices.v ===== *)
(** * What the device protocol guarantees

    Theorems about [Legacy]: the status of a device survives the repair of its
    JSON, the polls rotate over every group of indices, and a device reaches
    the actions of a cabinet only once an administrator has activated it. *)
From S2P Require Import Prelude GoStr Regex Json JsonText Geo Exchange Accounts Lights Mac World Mail Crypto PortalStore.
From S2P Require Import Inventory LegacyStore AccountStore Http Portal Orders Middleware Legacy.
#[global] Open Scope Z_scope.

(** ** The status of a device *)
(** The texts of a message: what opens it, an empty list, the first element,
    the second name of an element, a further element, and the end. *)
Record pieces := mkPieces {
  p_open : list Z; p_none : list Z; p_first : list Z; p_value : list Z; p_next : list Z; p_end : list Z }.
Section message.
Context (p : pieces).
Definition element_text (kv : ExchangeKV) : list Z := quote (Itoa (K kv)) ++ p_value p ++ quoted (V kv).
Fixpoint elements_text (eks : list ExchangeKV) : list Z :=
  match eks with [] => p_end p | kv :: eks => p_next p ++ element_text kv ++ elements_text eks end.
Definition message_text (version : string) (eks : list ExchangeKV) : list Z :=
  p_open p ++ quoted version ++
  match eks with [] => p_none p | kv :: eks => p_first p ++ element_text kv ++ elements_text eks end.
End message.
(** What the firmware sends: no quotes around the names. *)
Definition firmware : pieces :=
  mkPieces (quote "{version:") (quote ",ek:[]}") (quote ",ek:[{k:") (quote ",v:") (quote "},{k:") (quote "}]}").
(** A text the firmware can send as it is: printable ASCII without quote,
    backslash, comma, brace or bracket opening. *)
Definition plain_char (c : ascii) : bool :=
  (32 <=? ord c) && (ord c <? 127) && negb (bool_decide (ord c ∈ [34; 92; 44; 123; 91])).
Definition plain (s : string) : bool := forallb plain_char (bytes s).
Definition plain_status (version : string) (eks : list ExchangeKV) : Prop :=
  plain version = true /\ Forall (fun kv => plain (V kv) = true /\ in_int64 (K kv) = true) eks.

(** *** The repair *)
Lemma plain_no c s : c ∈ [123; 44; 91] -> plain s = true -> c ∉ quoted s.
Proof.
  intros Hc Hs H. unfold quoted, quote in H. rewrite elem_of_cons, elem_of_app, list_elem_of_singleton in H.
  assert (c <> 34) as Hq by (rewrite !elem_of_cons, elem_of_nil in Hc; lia).
  destruct H as [H|[H|H] ]; [done| |done]. apply list_elem_of_fmap in H as (a & -> & Ha).
  unfold plain in Hs. rewrite forallb_elem in Hs. apply Hs in Ha. unfold plain_char in Ha.
  rewrite !andb_true_iff, negb_true_iff, bool_decide_eq_false in Ha. destruct Ha as [_ Ha]. apply Ha.
  rewrite !elem_of_cons, elem_of_nil in *. tauto.
Qed.
Lemma itoa_no c z : c ∈ [123; 44; 91] -> c ∉ quote (Itoa z).
Proof.
  intros Hc H. unfold quote in H. apply list_elem_of_fmap in H as (a & -> & Ha).
  pose proof (Itoa_chars z) as Hn. rewrite forallb_elem in Hn. apply Hn in Ha. unfold num_char, is_digit in Ha.
  rewrite !elem_of_cons, elem_of_nil in Hc. lia.
Qed.
(** A round that rewrites each piece by itself rewrites the message. *)
Section round.
Context (c : Z) (old new : list Z) (a b : pieces).
Let rep (l : list Z) : list Z := ReplaceAll l (c :: old) new.
Definition rewrites (x y : list Z) : Prop := forall rest, rep (x ++ rest) = y ++ rep rest.
Lemma round_message version eks : c ∈ [123; 44; 91] -> plain_status version eks ->
  rewrites (p_open a) (p_open b) -> rewrites (p_none a) (p_none b) -> rewrites (p_first a) (p_first b) ->
  rewrites (p_value a) (p_value b) -> rewrites (p_next a) (p_next b) -> rewrites (p_end a) (p_end b) ->
  rep (message_text a version eks) = message_text b version eks.
Proof.
  intros Hc [Hv He] H1 H2 H3 H4 H5 H6.
  assert (forall s rest, plain s = true -> rep (quoted s ++ rest) = quoted s ++ rep rest) as Hq.
  { intros s rest Hs. apply replace_passes. by apply plain_no. }
  assert (forall z rest, rep (quote (Itoa z) ++ rest) = quote (Itoa z) ++ rep rest) as Hn.
  { intros z rest. apply replace_passes. by apply itoa_no. }
  assert (forall kv rest, plain (V kv) = true -> rep (element_text a kv ++ rest) = element_text b kv ++ rep rest) as Hel.
  { intros kv rest Hk. unfold element_text. rewrite <-!(assoc_L (++)), Hn, H4, Hq by done. done. }
  assert (forall x y, rewrites x y -> rep x = y) as Hlast.
  { intros x y H. specialize (H []). rewrite !app_nil_r in H. exact H. }
  unfold message_text. rewrite H1, Hq by done. do 2 f_equal. destruct eks as [|kv eks]; [by apply Hlast|].
  rewrite H3. f_equal. apply Forall_cons in He as [ [Hk _] He]. rewrite Hel by done. f_equal. clear kv Hk.
  induction eks as [|kv eks IH]; cbn [elements_text]; [by apply Hlast|]. apply Forall_cons in He as [ [Hk _] He].
  rewrite H5, Hel, IH by done. done.
Qed.
End round.
Definition strict_json : pieces :=
  mkPieces (quote ("{" ++ qt ++ "version" ++ qt ++ ":")%string) (quote ("," ++ qt ++ "ek" ++ qt ++ ":[]}")%string)
    (quote ("," ++ qt ++ "ek" ++ qt ++ ":[{" ++ qt ++ "k" ++ qt ++ ":")%string) (quote ("," ++ qt ++ "v" ++ qt ++ ":")%string)
    (quote ("},{" ++ qt ++ "k" ++ qt ++ ":")%string) (quote "}]}").
(** The pieces after one and two rounds, and after four. *)
Definition round1 : pieces :=
  mkPieces (p_open firmware) (p_none firmware) (quote (",ek:[{" ++ qt ++ "k" ++ qt ++ ":")%string) (p_value firmware)
    (p_next strict_json) (p_end firmware).
Definition round2 : pieces :=
  mkPieces (p_open firmware) (p_none firmware) (p_first round1) (p_value strict_json) (p_next strict_json) (p_end firmware).
Definition round4 : pieces :=
  mkPieces (p_open strict_json) (p_none firmware) (p_first round1) (p_value strict_json) (p_next strict_json) (p_end firmware).
Lemma round_text c old new a b version eks fuel : c ∈ [123; 44; 91] -> plain_status version eks ->
  (length (message_text a version eks) < fuel)%nat ->
  rewrites c old new (p_open a) (p_open b) -> rewrites c old new (p_none a) (p_none b) ->
  rewrites c old new (p_first a) (p_first b) -> rewrites c old new (p_value a) (p_value b) ->
  rewrites c old new (p_next a) (p_next b) -> rewrites c old new (p_end a) (p_end b) ->
  replace_all fuel (literal_re (c :: old)) new ([], message_text a version eks) = message_text b version eks.
Proof. intros Hc H Hf. intros. rewrite literal_replace by done. by apply round_message. Qed.
Ltac round c old a b :=
  rewrite (round_text c old _ a b) by (try done; try lia; try (intros rest; reflexivity); set_solver).
Lemma normalize_firmware version eks : plain_status version eks ->
  normalize (message_text firmware version eks) = message_text strict_json version eks.
Proof.
  intros H. unfold normalize, normalizations. cbn [foldl fst snd].
  change (MustCompile "\{k:") with (literal_re (123 :: quote "k:")).
  change (MustCompile ",v:") with (literal_re (44 :: quote "v:")).
  change (MustCompile "\[k:") with (literal_re (91 :: quote "k:")).
  change (MustCompile "\{version:") with (literal_re (123 :: quote "version:")).
  change (MustCompile ",version:") with (literal_re (44 :: quote "version:")).
  change (MustCompile ",ek:") with (literal_re (44 :: quote "ek:")).
  round 123 (quote "k:") firmware round1. round 44 (quote "v:") round1 round2. round 91 (quote "k:") round2 round2.
  round 123 (quote "version:") round2 round4. round 44 (quote "version:") round4 round4.
  round 44 (quote "ek:") round4 strict_json. done.
Qed.

(** *** The parse *)
Definition object_of (kv : ExchangeKV) : json := JObj [("k", JNum (Itoa (K kv))); ("v", JStr (V kv))].
Definition status_tree (version : string) (eks : list ExchangeKV) : json :=
  JObj [("version", JStr version); ("ek", JArr (map object_of eks))].
Lemma plain_self s : plain s = true -> forallb self_char (quote s) = true.
Proof.
  unfold plain, quote. induction (bytes s) as [|c l IH]; [done|]. cbn [forallb map]. rewrite !andb_true_iff.
  intros [Hc Hl]. split; [|by apply IH]. unfold plain_char in Hc. rewrite !andb_true_iff, negb_true_iff, bool_decide_eq_false in Hc.
  destruct Hc as [Hc Hn]. rewrite !elem_of_cons in Hn. unfold self_char. lia.
Qed.
Lemma element_value fuel d kv rest : (4 <= fuel)%nat -> d < maxNestingDepth -> plain (V kv) = true ->
  value fuel d (123 :: quoted "k" ++ 58 :: element_text strict_json kv ++ 125 :: rest) = Some (object_of kv, rest).
Proof.
  intros Hf Hd Hv. destruct fuel as [|[|[|[|fuel] ] ] ]; try lia.
  apply value_object; [done|]. unfold element_text. rewrite <-!(assoc_L (++)).
  eapply (members_more _ _ "k"); [done|by apply value_int|].
  apply (members_last _ _ "v"); [done|]. apply value_string. by apply plain_self.
Qed.
Lemma elements_status fuel d kv eks : (length eks + 5 <= fuel)%nat -> d < maxNestingDepth ->
  Forall (fun kv => plain (V kv) = true /\ in_int64 (K kv) = true) (kv :: eks) ->
  elements fuel d (123 :: quoted "k" ++ 58 :: element_text strict_json kv ++ elements_text strict_json eks)
  = Some (map object_of (kv :: eks), [125]).
Proof.
  intros Hf Hd He. revert fuel kv Hf He. induction eks as [|kv' eks IH]; intros [|fuel] kv Hf He; cbn [length] in Hf; try lia;
    apply Forall_cons in He as [ [Hv _] He].
  - apply elements_last. apply (element_value fuel d kv [93; 125]); [lia|done..].
  - eapply elements_more; [|apply IH; [lia|done] ]. cbn [elements_text].
    apply (element_value fuel d kv (44 :: 123 :: quoted "k" ++ 58 :: element_text strict_json kv' ++ elements_text strict_json eks)); [lia|done..].
Qed.
Lemma elements_text_length p eks : (length (p_next p) <> 0)%nat -> (length eks <= length (elements_text p eks))%nat.
Proof.
  intros Hp. induction eks as [|kv eks IH]; cbn [elements_text length]; [lia|]. rewrite !length_app. lia.
Qed.
Lemma parse_status version eks : plain_status version eks ->
  parse_json (message_text strict_json version eks) = Some (status_tree version eks).
Proof.
  intros [Hv He]. unfold parse_json.
  assert (forall fuel, (length eks + 10 <= fuel)%nat ->
    value fuel 0 (message_text strict_json version eks) = Some (status_tree version eks, [])) as Hp.
  { intros fuel Hf. destruct fuel as [|[|[|[|fuel] ] ] ]; try lia. apply value_object; [done|].
    apply (members_more _ _ "version" _ _ (quoted "ek" ++ 58 :: match eks with [] => [91; 93; 125] | kv :: eks =>
      91 :: 123 :: quoted "k" ++ 58 :: element_text strict_json kv ++ elements_text strict_json eks end)); [done| |].
    - destruct eks as [|kv eks]; apply value_string; by apply plain_self.
    - apply members_last; [done|]. destruct eks as [|kv eks]; [by apply value_empty_array|].
      apply value_array; [done..|]. apply elements_status; [cbn [length] in Hf; lia|done..]. }
  rewrite Hp; [done|]. unfold message_text. rewrite !length_app.
  change (length (p_open strict_json)) with 11%nat.
  destruct eks as [|kv eks]; [cbn [length]; lia|]. rewrite !length_app. pose proof (elements_text_length strict_json eks ltac:(done)).
  cbn [length]. lia.
Qed.

(** *** The decoded status *)
Lemma decode_element kv : in_int64 (K kv) = true -> dec_struct legacy_kv_fields (object_of kv) (mkKV 0 "") = Some kv.
Proof.
  intros H. unfold object_of, dec_struct. cbn [foldl].
  change (find_field legacy_kv_fields "k") with (Some (set_field K (fun x p => mkKV x (V p)) dec_int)).
  change (find_field legacy_kv_fields "v") with (Some (set_field V (fun x p => mkKV (K p) x) dec_string)).
  cbn [mbind option_bind]. unfold set_field at 2. unfold dec_int. rewrite Atoi_Itoa_id by done. by destruct kv.
Qed.
Lemma decode_elements eks : Forall (fun kv => plain (V kv) = true /\ in_int64 (K kv) = true) eks ->
  mapM (fun x => dec_struct legacy_kv_fields x (mkKV 0 "")) (map object_of eks) = Some eks.
Proof.
  induction 1 as [|kv eks [_ Hk] _ IH]; [done|]. cbn [map mapM]. rewrite decode_element by done. cbn [mbind option_bind]. by rewrite IH.
Qed.
Definition decode_status (l : list Z) : option MyStatusPayload :=
  tree ← NormalizeJSON l;
  dec_struct my_status_fields tree (mkMyStatus "" []).
Lemma decode_firmware version eks : plain_status version eks ->
  decode_status (message_text firmware version eks) = Some (mkMyStatus version eks).
Proof.
  intros H. unfold decode_status, NormalizeJSON.
  assert (exists c l, message_text firmware version eks = c :: l) as (c & l & E) by (eexists _, _; reflexivity).
  rewrite E, <-E, normalize_firmware, parse_status by done. destruct H as [_ He].
  unfold status_tree, dec_struct. cbn [mbind option_bind foldl].
  change (find_field my_status_fields "version") with
    (Some (set_field MS_Version (fun x q => mkMyStatus x (MS_EK q)) dec_string)).
  change (find_field my_status_fields "ek") with
    (Some (set_field MS_EK (fun x q => mkMyStatus (MS_Version q) x) (dec_slice (dec_struct legacy_kv_fields) (mkKV 0 "")))).
  cbn [mbind option_bind]. unfold set_field, dec_slice, dec_string. cbn [fmap option_fmap option_map mbind option_bind MS_EK MS_Version].
  by rewrite decode_elements.
Qed.
Lemma need_then {A B} (x : A) bad (f : A -> HW B) w : (need (Some x) bad ≫= f) w = f x w.
Proof. done. Qed.
Lemma MyStatus_decoded clientID key body p r w : decode_status body = Some p ->
  MyStatus (Some body) clientID key r w =
  (_ ← ignore (LegacyIoTStore.SaveClientData clientID key (MS_Version p) (MS_EK p)); mret created) w.
Proof.
  unfold decode_status, MyStatus. cbn [mbind option_bind]. intros H.
  destruct (NormalizeJSON body) as [tree|] eqn:E; [|done]. cbn [mbind option_bind] in H.
  by rewrite need_then, E, need_then, H.
Qed.
(** C36. The status a device sends in its own notation, with no quotes around
    the names, comes back from the repair and the decoder of [MyStatus] as the
    version and the pairs the device meant, in their order, for every text of
    printable characters without delimiters and every 64-bit key: the handler
    stores exactly these and answers 201. *)
Theorem device_status_roundtrip clientID key r w version eks : plain_status version eks ->
  MyStatus (Some (message_text firmware version eks)) clientID key r w =
  (_ ← ignore (LegacyIoTStore.SaveClientData clientID key version eks); mret created) w.
Proof. intros H. exact (MyStatus_decoded _ _ _ (mkMyStatus version eks) _ _ (decode_firmware _ _ H)). Qed.
Lemma device_status_roundtrip_witness :
  let eks := [mkKV 613 "1"; mkKV (-2) "ab]} c"] in
  plain_status "V37" eks /\ forall clientID key r w,
    MyStatus (Some (message_text firmware "V37" eks)) clientID key r w =
    (_ ← ignore (LegacyIoTStore.SaveClientData clientID key "V37" eks); mret created) w.
Proof.
  intros eks. assert (plain_status "V37" eks) as H by (split; [done|repeat constructor]).
  split; [exact H|]. intros. exact (device_status_roundtrip _ _ _ _ _ _ H).
Defined.

(** ** The gate in front of the actions *)
(** A device with this key showed up: of its row the address, the place, the
    credentials and the time may have changed; an unknown key has a new row,
    inactive and bound to no cabinet. Every other row and table is as it was. *)
Definition identity (m : MachineRow) := (M_HashedPkey m, M_ClientID m, M_ID m, M_IsActive m, M_MAC m).
Definition seen_row (key : string) (m m' : MachineRow) : Prop := m' = m \/ (M_HashedPkey m = key /\ identity m' = identity m).
Definition unknown_row (key : string) (m : MachineRow) : Prop :=
  M_HashedPkey m = key /\ M_IsActive m = false /\ M_ClientID m = Some ("UNKNOWN-" ++ prefix_of 8 key)%string /\ M_MAC m = None.
Definition sealed (key : string) (d d' : DB) : Prop :=
  on_machines (fun _ => machines d) d' = d /\
  exists rows new, machines d' = rows ++ new /\ Forall2 (seen_row key) (machines d) rows /\
    (new = [] \/ existsb (is_machine key) (machines d) = false /\ exists m, new = [m] /\ unknown_row key m).
Lemma seen_key key m m' : seen_row key m m' -> M_HashedPkey m' = M_HashedPkey m /\ M_IsActive m' = M_IsActive m.
Proof. intros [->|[_ Hi] ]; [done|]. unfold identity in Hi. by injection Hi as -> _ _ -> _. Qed.
Lemma sealed_refl key d : sealed key d d.
Proof.
  split; [by destruct d|]. exists (machines d), []. rewrite app_nil_r. split_and!; [done| |by left].
  apply Forall2_refl_on. by left.
Qed.
(** A key with no row had none before. *)
Lemma sealed_known key d d1 : sealed key d d1 -> existsb (is_machine key) (machines d1) = false ->
  existsb (is_machine key) (machines d) = false /\ Forall2 (seen_row key) (machines d) (machines d1).
Proof.
  intros [_ (rows & new & -> & Hr & Hn)] He. rewrite existsb_app, orb_false_iff in He. destruct He as [He Hnew]. split.
  - clear Hn. induction Hr as [|m m' l k Hm _ IH]; [done|]. cbn [existsb] in *. apply orb_false_iff in He as [He1 He2].
    rewrite IH, orb_false_r by done. apply seen_key in Hm as [Hk _]. unfold is_machine in *. by rewrite <-Hk.
  - destruct Hn as [->|(_ & m & -> & Hk & _)]; [by rewrite app_nil_r|]. cbn in Hnew. unfold is_machine in Hnew. by rewrite Hk, seqb_refl in Hnew.
Qed.
Lemma sealed_update key d d1 f : (forall m, identity (f m) = identity m) ->
  sealed key d d1 -> sealed key d (on_machines (update_where (is_machine key) f) d1).
Proof.
  intros Hf [H1 (rows & new & Hm & Hr & Hn)]. split; [by rewrite <-H1|].
  exists (update_where (is_machine key) f rows), (update_where (is_machine key) f new). split_and!.
  - cbn. rewrite Hm. apply map_app.
  - unfold update_where. apply Forall2_fmap_r. eapply Forall2_impl; [exact Hr|]. intros m m' Hs. cbn. destruct (is_machine key m') eqn:E; [|done].
    apply seqb_spec in E. right. pose proof (seen_key _ _ _ Hs) as [Hk _]. split; [congruence|]. rewrite Hf.
    by destruct Hs as [->|[_ Hs] ].
  - destruct Hn as [->|(He & m & -> & Hu)]; [by left|]. right. split; [done|]. cbn. eexists. split; [done|].
    specialize (Hf m). unfold identity in Hf. injection Hf as ? ? ? ? ?. destruct Hu as (? & ? & ? & ?), (is_machine key m);
      unfold unknown_row; split_and!; congruence.
Qed.
Definition known_active (d : DB) (key : string) : Prop :=
  exists row, row ∈ machines d /\ M_HashedPkey row = key /\ M_IsActive row = true.
Lemma sealed_active key d d1 k : sealed key d d1 -> known_active d1 k -> known_active d k.
Proof.
  intros [_ (rows & new & Hm & H & Hn)] (row & Hr & Hk & Ha). rewrite Hm in Hr. apply elem_of_app in Hr as [Hr|Hr].
  - apply list_elem_of_lookup in Hr as (i & Hi). apply (Forall2_lookup_r _ _ _ _ _ H) in Hi as (m & Hi & Hs).
    apply seen_key in Hs as [??]. exists m. split_and!; [by eapply list_elem_of_lookup_2|congruence..].
  - destruct Hn as [->|(_ & m & -> & _ & Hb & _)]; [by apply elem_of_nil in Hr|]. apply list_elem_of_singleton in Hr as ->. congruence.
Qed.
Lemma preserves_machine_by_key I key : preserves (db_inv I) (LegacyIoTStore.GetMachineByHashedPkey key).
Proof. unfold LegacyIoTStore.GetMachineByHashedPkey, LegacyIoTStore.not_nil. preserves_tac. Qed.
#[export] Hint Resolve preserves_machine_by_key : preserves.
Lemma sealed_seen ip_api d key ip a b : preserves (db_inv (sealed key d)) (LegacyIoTStore.UpdateMachineStatus ip_api key ip a b).
Proof.
  unfold LegacyIoTStore.UpdateMachineStatus, resolveAndSaveMachineGeo. handler_tac.
  all: by apply sealed_update.
Qed.
Definition insert_row (key : string) (row : MachineRow) (rows : list MachineRow) : list MachineRow :=
  if existsb (is_machine key) rows then rows else rows ++ [row].
Lemma sealed_insert d d1 key row : unknown_row key row -> sealed key d d1 -> sealed key d (on_machines (insert_row key row) d1).
Proof.
  intros Hr Hs. unfold insert_row. destruct (existsb (is_machine key) (machines d1)) eqn:E.
  - assert (on_machines (fun rows => if existsb (is_machine key) rows then rows else rows ++ [row]) d1 = d1) as ->; [|done].
    unfold on_machines. rewrite E. by destruct d1.
  - destruct (sealed_known _ _ _ Hs E) as [He Hf]. split; [by rewrite <-(proj1 Hs)|]. exists (machines d1), [row]. cbn. rewrite E.
    split_and!; [done|done|]. right. eauto.
Qed.
Lemma insert_row_known key row rows : M_HashedPkey row = key -> exists m, m ∈ insert_row key row rows /\ is_machine key m = true.
Proof.
  intros <-. unfold insert_row. destruct (existsb _ _) eqn:E.
  - apply existsb_exists in E as (m & Hm & Hk). exists m. by rewrite list_elem_of_In.
  - exists row. unfold is_machine. rewrite seqb_refl. split; [|done]. apply elem_of_app. right. by apply list_elem_of_singleton.
Qed.
Lemma sealed_register d key : preserves (db_inv (sealed key d)) (LegacyIoTStore.RegisterUnknownMachine key).
Proof. unfold LegacyIoTStore.RegisterUnknownMachine. handler_tac. by apply sealed_insert. Qed.
Lemma query_row_run s p w r w' :
  (r ← query_text s (fun d => get_row p (machines d)); lift r) w = (r, w') ->
  db w' = db w /\ (r = Fail ErrDB \/ r = get_row p (machines (db w))).
Proof.
  intros H. split.
  { assert (preserves (db_inv (fun d => d = db w)) (r ← query_text s (fun d => get_row p (machines d)); lift r)) as Hp
      by preserves_tac. specialize (Hp w eq_refl). by rewrite H in Hp. }
  unfold query_text in H. rewrite !M_bind_run in H. destruct (stmt w) as [[u|e] w1] eqn:E.
  - apply stmt_Ok_inv in E. rewrite M_bind_run in H. destruct (text_ok s); cbn in H; injection H as <- _; [right; by rewrite E|by left].
  - injection H as <- _. left. revert E. unfold stmt. by destruct (faults w) as [|[] ?]; intros [= <- _].
Qed.
Lemma GetMachine_run key w m w' : LegacyIoTStore.GetMachineByHashedPkey key w = (Ok m, w') ->
  db w' = db w /\
  match m with
  | Some m => exists row, row ∈ machines (db w) /\ M_HashedPkey row = key /\ M_IsActive row = LM_IsActive m
  | None => forall row, row ∈ machines (db w) -> is_machine key row = false
  end.
Proof.
  unfold LegacyIoTStore.GetMachineByHashedPkey, LegacyIoTStore.not_nil. intros H. mrun. subst. unfold try in H1.
  match type of H1 with context [match ?t with _ => _ end] => destruct t as [r w2] eqn:E end. injection H1 as <- <-. apply query_row_run in E as [Hd Hr].
  destruct r as [row|e].
  - mrun. subst. split; [done|]. destruct Hr as [Hr|Hr]; [done|]. symmetry in Hr. apply get_row_Ok in Hr as [Hi Hk].
    cbn. apply seqb_spec in Hk. by exists row.
  - case_bool_decide as He; mrun; [|done]. subst. split; [done|]. destruct Hr as [Hr|Hr]; [done|]. symmetry in Hr.
    apply get_row_Fail in Hr as [_ Hr]. done.
Qed.
Lemma Register_run key w m w' : LegacyIoTStore.RegisterUnknownMachine key w = (Ok m, w') ->
  exists m0, m = Some m0 /\ (LM_IsActive m0 = true -> known_active (db w) key).
Proof.
  unfold LegacyIoTStore.RegisterUnknownMachine. intros H. apply M_bind_Ok in H as (u & w1 & Hins & H).
  assert (sealed key (db w) (db w1) /\ exists row, row ∈ machines (db w1) /\ is_machine key row = true) as [Hs (row & Hr & Hk)].
  { clear H. mrun. subst. split; [|by apply insert_row_known].
    apply (sealed_insert (db w)); [done|]. match goal with |- sealed _ _ ?d => replace d with (db w) by congruence end. apply sealed_refl. }
  apply M_bind_Ok in H as (r & w2 & Ht & H). apply mret_Ok_inv in H as [-> ->]. unfold try in Ht.
  destruct (LegacyIoTStore.GetMachineByHashedPkey key w1) as [r0 w3] eqn:E. injection Ht as <- <-.
  destruct r0 as [m|e]; [|by eexists]. apply GetMachine_run in E as [_ E]. destruct m as [m|]; [|by rewrite E in Hk].
  exists m. split; [done|]. intros Ha. apply (sealed_active _ _ _ _ Hs). destruct E as (row' & ? & ? & ?).
  exists row'. split_and!; congruence.
Qed.

Lemma attempt_never {A} (m : MW A) w e w' : attempt m w <> (Fail e, w').
Proof. unfold attempt, try. by destruct (m w). Qed.
(** What the middleware goes on with: the machine of the key, or the one it
    registers. *)
Definition registered (ip_api : string -> option geoAPIResponse) (key : string) (found : res err (option LegacyMachine)) :
    HW (option LegacyMachine) :=
  match found with
  | Ok (Some m) => mret (Some m)
  | _ => m ← attempt (@machine_register (legacy_machine_store ip_api) key);
         match m with
         | Ok m => m ← must m; mret (Some m)
         | Fail _ => mret None
         end
  end.
Lemma registered_run ip_api key found w w1 r w2 :
  attempt (LegacyIoTStore.GetMachineByHashedPkey key) w = (Ok found, w1) -> registered ip_api key found w1 = (r, w2) ->
  exists m, r = Ok m /\ sealed key (db w) (db w2) /\ forall m0, m = Some m0 -> LM_IsActive m0 = true -> known_active (db w) key.
Proof.
  intros Hf%attempt_Ok_inv Hr.
  assert (db w1 = db w) as Hd.
  { pose proof (preserves_machine_by_key (fun d => d = db w) key w eq_refl) as Hp. by rewrite Hf in Hp. }
  assert ((exists m, found = Ok (Some m)) \/ registered ip_api key found = registered ip_api key (Ok None)) as [ [m ->]|Hn].
  { destruct found as [[m|]|e]; [left; by exists m|by right..]. }
  - injection Hr as <- <-. exists (Some m). rewrite Hd. split_and!; [done|apply sealed_refl|]. intros m0 [= <-] Ha.
    apply GetMachine_run in Hf as [_ (row & ? & ? & ?)]. exists row. split_and!; [done|done|congruence].
  - rewrite Hn in Hr. clear Hn. cbn [registered] in Hr. unfold attempt in Hr. rewrite M_bind_run in Hr.
    change (@machine_register (legacy_machine_store ip_api)) with LegacyIoTStore.RegisterUnknownMachine in Hr.
    unfold try in Hr. destruct (LegacyIoTStore.RegisterUnknownMachine key w1) as [r1 w3] eqn:E.
    assert (sealed key (db w) (db w3)) as Hs.
    { pose proof (sealed_register (db w) key w1) as Hp. unfold db_inv in Hp. rewrite E, Hd in Hp. apply Hp, sealed_refl. }
    destruct r1 as [m|e].
    + apply Register_run in E as (m0 & -> & Ha). rewrite Hd in Ha. injection Hr as <- <-. exists (Some m0). split_and!; [done..|].
      by intros m1 [= <-].
    + injection Hr as <- <-. by exists None.
Qed.
(** *** What the handlers do to the machines *)
(** No row is active without an active row of its key before. *)
Definition none_activated (rows rows' : list MachineRow) : Prop :=
  forall m', m' ∈ rows' -> M_IsActive m' = true -> exists m, m ∈ rows /\ M_HashedPkey m = M_HashedPkey m' /\ M_IsActive m = true.
Lemma sealed_none_activated key d d' : sealed key d d' -> none_activated (machines d) (machines d').
Proof. intros Hs m' Hm Ha. apply (sealed_active _ _ _ _ Hs). by exists m'. Qed.
Lemma none_activated_update rows p f d : (forall m, M_HashedPkey (f m) = M_HashedPkey m /\ M_IsActive (f m) = M_IsActive m) ->
  none_activated rows (machines d) -> none_activated rows (machines (on_machines (update_where p f) d)).
Proof.
  intros Hf H m' (m & Hm & ->)%elem_of_update_where Ha. destruct (Hf m) as [Hk Hb].
  destruct (H m) as (m0 & ? & ? & ?); [done|destruct (p m); congruence|]. exists m0. destruct (p m); split_and!; congruence.
Qed.
Lemma keeps_next I : preserves (db_inv I) Next.
Proof. unfold Next. preserves_tac. by intros w Hw. Qed.
#[local] Hint Resolve keeps_next : preserves.
Lemma keeps_mark_all (I : list MachineRow -> Prop) l : preserves (db_inv (fun d => I (machines d))) (mark_all_delivered l).
Proof. induction l as [|a l IH]; cbn [mark_all_delivered]; unfold mark_delivered; handler_tac; done. Qed.
#[local] Hint Resolve keeps_mark_all : preserves.
Lemma handler_none_activated ip_api hasPortal o serie key r rows :
  preserves (db_inv (fun d => none_activated rows (machines d))) (legacy_handler ip_api hasPortal o serie key r).
Proof.
  destruct o; cbn [legacy_handler].
  - unfold MyActions, FetchPendingActionsForMachine, LegacyIoTStore.PortalMachineIDFromHashedPkey. handler_tac; done.
  - unfold Done, MarkActionDone. handler_tac; done.
  - unfold ServerInfos. handler_tac.
  - unfold MyStatus, LegacyIoTStore.SaveClientData, LegacyIoTStore.persistMachineMAC. handler_tac; try done.
    all: by apply none_activated_update.
  - unfold GatewayInfos, LegacyIoTStore.SaveGateway, resolveAndSaveGatewayGeo. handler_tac; done.
Qed.
Lemma strict_keeps_machines ip_api hasPortal o serie key r rows : strict_route o = true ->
  preserves (db_inv (fun d => machines d = rows)) (legacy_handler ip_api hasPortal o serie key r).
Proof.
  destruct o; intros [=]; cbn [legacy_handler].
  - unfold MyActions, FetchPendingActionsForMachine, LegacyIoTStore.PortalMachineIDFromHashedPkey. handler_tac; first [done|apply (keeps_mark_all (fun l => l = rows))].
  - unfold Done, MarkActionDone. handler_tac; done.
Qed.
(** What stands in front of a handler, strict or not: it refuses, goes on
    without a name, or goes on with the machine of the key. *)
Lemma basic_auth_run ip_api strict (next : LegacyHandler) r w resp w' :
  serve (@BasicAuth (legacy_machine_store ip_api) strict next r) w = (resp, w') ->
  (basic_credentials (Header r "Authorization") = None /\
     serve (if strict then reject basicUnauthorized else next "anonymous" "" r) w = (resp, w')) \/
  exists encoded credentials key w1, basic_credentials (Header r "Authorization") = Some (encoded, credentials, key) /\
    sealed key (db w) (db w1) /\
    (serve (if strict then reject basicUnauthorized else next "anonymous" "" r) w1 = (resp, w') \/
     (strict = true /\ resp = http_Error "Machine inactive" 403 /\ w' = w1) \/
     exists serie, (strict = true -> known_active (db w) key) /\ serve (next serie key r) w1 = (resp, w')).
Proof.
  unfold BasicAuth. intros H.
  destruct (basic_credentials _) as [ [ [encoded credentials] key] |]; [|by left]. right. exists encoded, credentials, key.
  apply serve_bind in H as [(found & w1 & Hf & H)|H]; [|by apply attempt_never in H].
  apply serve_bind in H as [(m & w2 & Hr & H)|H].
  2:{ apply (registered_run ip_api _ _ _ _ _ _ Hf) in H as (m & [=] & _). }
  apply (registered_run ip_api _ _ _ _ _ _ Hf) in Hr as (m0 & [= <-] & Hs & Ha).
  destruct m as [m|]; [|exists w2; split; [done|]; split; [done|by left] ].
  apply serve_bind in H as [(u & w3 & Hu%attempt_Ok_inv & H)|H]; [|by apply attempt_never in H].
  assert (sealed key (db w) (db w3)) as Hs3.
  { pose proof (sealed_seen ip_api (db w) key (clientIPFromRequest r) encoded credentials w2 Hs) as Hp. unfold db_inv in Hp.
    change (machine_seen_at key) with (LegacyIoTStore.UpdateMachineStatus ip_api key) in Hu. by rewrite Hu in Hp. }
  exists w3. split; [done|]. split; [done|]. right. apply serve_bind in H as [(u2 & w4 & [Hok ->]%check_Ok_inv & H)|H].
  - right. exists (LM_NoSerie m). split; [|exact H]. intros ->. rewrite orb_false_r in Hok. eauto.
  - left. revert H. unfold check. destruct (LM_IsActive m), strict; try done. by intros [= <- <-].
Qed.
Lemma serve_keeps (I : DB -> Prop) h w resp w' : preserves (db_inv I) h -> serve h w = (resp, w') -> I (db w) -> I (db w').
Proof. intros Hp H Hw. specialize (Hp w Hw). unfold serve in H. by destruct (h w) as [ [] ?]; injection H as _ <-. Qed.
(** C35. The routes that hand out and complete the actions of a cabinet answer
    401 or 403 unless the request carries the key of a machine an administrator
    had activated; only then does the handler run, with that key, and it leaves
    the machines as they were. Before that, and when they refuse, at most the row
    of the device itself changes (its address, place, credentials and time), or an
    unknown key gets one row, inactive and bound to no cabinet. No request of a
    device, on any of its routes, makes a machine active. *)
Theorem device_actions_need_activation ip_api hasPortal o r w resp w' :
  serve (legacy_route ip_api hasPortal o r) w = (resp, w') ->
  none_activated (machines (db w)) (machines (db w')) /\
  (strict_route o = true ->
   (basic_credentials (Header r "Authorization") = None /\ resp = basicUnauthorized /\ w' = w) \/
   exists encoded credentials key w1,
     basic_credentials (Header r "Authorization") = Some (encoded, credentials, key) /\ sealed key (db w) (db w1) /\
     ((resp ∈ [basicUnauthorized; http_Error "Machine inactive" 403] /\ w' = w1) \/
      exists serie, known_active (db w) key /\ machines (db w') = machines (db w1) /\
        serve (legacy_handler ip_api hasPortal o serie key r) w1 = (resp, w'))).
Proof.
  unfold legacy_route. intros H. apply basic_auth_run in H.
  assert (forall serie key w1, serve (legacy_handler ip_api hasPortal o serie key r) w1 = (resp, w') ->
    none_activated (machines (db w)) (machines (db w1)) -> none_activated (machines (db w)) (machines (db w'))) as Hnone.
  { intros serie key w1 Hh Hw1. exact (serve_keeps _ _ _ _ _ (handler_none_activated _ _ _ _ _ _ _) Hh Hw1). }
  assert (forall w1, serve (if strict_route o then reject basicUnauthorized
      else legacy_handler ip_api hasPortal o "anonymous" "" r) w1 = (resp, w') ->
    none_activated (machines (db w)) (machines (db w1)) ->
    none_activated (machines (db w)) (machines (db w')) /\ (strict_route o = true -> resp = basicUnauthorized /\ w' = w1)) as Hano.
  { intros w1 Ha Hw1. destruct (strict_route o); [by injection Ha as <- <-|]. split; [by eapply Hnone|done]. }
  destruct H as [ [Hc H]|(encoded & credentials & key & w1 & Hc & Hs & H)].
  - apply Hano in H as [Hn Hr]; [|by apply (sealed_none_activated ""), sealed_refl]. split; [done|]. intros [-> ->]%Hr. by left.
  - pose proof (sealed_none_activated _ _ _ Hs) as Hn1. enough (none_activated (machines (db w)) (machines (db w')) /\
      (strict_route o = true -> (resp ∈ [basicUnauthorized; http_Error "Machine inactive" 403] /\ w' = w1) \/
      exists serie, known_active (db w) key /\ machines (db w') = machines (db w1) /\
        serve (legacy_handler ip_api hasPortal o serie key r) w1 = (resp, w'))) as [Hn Hr].
    { split; [done|]. intros Ho. right. exists encoded, credentials, key, w1. auto. }
    destruct H as [H|[(Ho & -> & ->)|(serie & Ha & H)] ].
    + apply Hano in H as [Hn Hr]; [|done]. split; [done|]. intros [-> ->]%Hr. left. split; [left|done].
    + split; [done|]. intros _. left. split; [right; left|done].
    + split; [by eapply Hnone|]. intros Ho. right. exists serie. split_and!; [by apply Ha| |done].
      exact (serve_keeps _ _ _ _ _ (strict_keeps_machines _ _ _ _ _ _ (machines (db w1)) Ho) H eq_refl).
Qed.
Definition device_demo : World :=
  on_db (on_machines (fun _ => [mkMachine "ab" (Some "4") 4 None None true None None None]))
    (on_db (on_cloud_actions (fun _ => [mkAction "d" 1 (Some 4) (Some [mkKV 590 "3"]) "pending" 1 None None]))
      (empty_world 100 [])).
(** The credentials [a:b], whose key is [ab]. *)
Definition device_request : Request :=
  mkRequest "GET" None None None ∅ ∅ {["Authorization" := "Basic YTpi"]} "10.0.0.1:5000" None.
Lemma device_actions_need_activation_witness :
  let route := legacy_route (fun _ => None) true GetMyActions device_request in
  Status (serve route device_demo).1 = 200 /\
  exists encoded credentials key w1,
    basic_credentials (Header device_request "Authorization") = Some (encoded, credentials, key) /\
    sealed key (db device_demo) (db w1) /\
    exists serie, known_active (db device_demo) key /\ machines (db (serve route device_demo).2) = machines (db w1) /\
      serve (MyActions true serie key device_request) w1 = serve route device_demo.
Proof.
  intros route. assert (Status (serve route device_demo).1 = 200) as Hr by (vm_compute; reflexivity). split; [exact Hr|].
  destruct (device_actions_need_activation (fun _ => None) true GetMyActions device_request device_demo
    (serve route device_demo).1 (serve route device_demo).2 (surjective_pairing _)) as [_ H].
  destruct (H eq_refl) as [(_ & E & _)|(encoded & credentials & key & w1 & Hc & Hs & [ [E _]|(serie & Ha & Hm & Hh)])].
  - exfalso. rewrite E in Hr. discriminate Hr.
  - exfalso. rewrite !elem_of_cons, elem_of_nil in E. destruct E as [E|[E|[] ] ]; rewrite E in Hr; discriminate Hr.
  - exists encoded, credentials, key, w1. split; [exact Hc|]. split; [exact Hs|]. exists serie.
    rewrite <-surjective_pairing in Hh. by split_and!.
Defined.

(** ** The rotation of the polls *)
Definition poll : Type := (string * string * Request)%type.
Definition infos_answer (indices : list Z) : Resp :=
  writeJSON 200 (OObj [("isconnected", OBool true); ("infos", oarr OInt indices); ("newversion", OStr "no")]).
(** Polls one after the other, whoever sends them. *)
Fixpoint serve_polls (l : list poll) (w : World) : list Resp * World :=
  match l with
  | [] => ([], w)
  | (clientID, key, r) :: l =>
      let '(a, w) := serve (ServerInfos clientID key r) w in
      let '(answers, w) := serve_polls l w in
      (a :: answers, w)
  end.
Definition group (n : Z) : Resp := infos_answer (if n mod 2 =? 0 then DefaultCommandIndices else IdentityIndices).
Lemma turn n : default [] (info_slots !! Z.to_nat (n mod 2)) = if n mod 2 =? 0 then DefaultCommandIndices else IdentityIndices.
Proof. assert (n mod 2 = 0 \/ n mod 2 = 1) as [-> | ->] by (pose proof (Z.mod_pos_bound n 2); lia); done. Qed.
Lemma serve_poll clientID key r w :
  serve (ServerInfos clientID key r) w = (group (info_slot w), on_info_slot (fun n => n + 1) w).
Proof. unfold group. rewrite <-turn. done. Qed.
Lemma serve_polls_nth l w k a : (serve_polls l w).1 !! k = Some a -> a = group (info_slot w + Z.of_nat k).
Proof.
  revert w k. induction l as [|[ [c key] r] l IH]; intros w k; [done|]. cbn [serve_polls]. rewrite serve_poll.
  specialize (IH (on_info_slot (fun n => n + 1) w)). destruct (serve_polls l _) as [answers w'].
  destruct k as [|k]; cbn [fst lookup list_lookup].
  - intros [= <-]. f_equal. lia.
  - intros H. apply IH in H as ->. f_equal. cbn. lia.
Qed.
(** C38. The rotation asks for every index again and again: of two polls that
    follow each other one asks for the commands and the other for the identity
    of the device, whatever happened before.  The turn belongs to the server
    and not to the device: polls that are two apart ask for the same group, so
    that of two devices polling in turn each is asked for one group only. *)
Theorem rotation_fair l w k a b c :
  (serve_polls l w).1 !! k = Some a -> (serve_polls l w).1 !! S k = Some b -> (serve_polls l w).1 !! S (S k) = Some c ->
  ((a = infos_answer DefaultCommandIndices /\ b = infos_answer IdentityIndices) \/
   (a = infos_answer IdentityIndices /\ b = infos_answer DefaultCommandIndices)) /\ c = a.
Proof.
  intros ->%serve_polls_nth ->%serve_polls_nth ->%serve_polls_nth. unfold group.
  rewrite !Nat2Z.inj_succ. set (n := info_slot w + Z.of_nat k).
  replace (info_slot w + Z.succ (Z.of_nat k)) with (n + 1) by lia. replace (info_slot w + Z.succ (Z.succ (Z.of_nat k))) with (n + 1 * 2) by lia.
  rewrite Z.mod_add by done. rewrite (Z.add_mod n 1) by done.
  assert (n mod 2 = 0 \/ n mod 2 = 1) as [-> | ->] by (pose proof (Z.mod_pos_bound n 2); lia); cbn; auto.
Qed.
Lemma rotation_fair_witness :
  let p : poll := ("A", "a", device_request) in let q : poll := ("B", "b", device_request) in
  exists a b c, (serve_polls [p; q; p] device_demo).1 = [a; b; c] /\
  ((a = infos_answer DefaultCommandIndices /\ b = infos_answer IdentityIndices) \/
   (a = infos_answer IdentityIndices /\ b = infos_answer DefaultCommandIndices)) /\ c = a.
Proof.
  intros p q. eexists _, _, _. split; [reflexivity|]. by apply (rotation_fair [p; q; p] device_demo 0).
Defined.

(** ** The address of a device with a wildcard for a key *)
Lemma like_all t : like [37; 37] t = true.
Proof.
  assert (like [37] t = true) as H by (induction t as [|c t IH]; [done|exact IH]).
  change (like [37; 37] t) with ((fix any (text : list Z) : bool :=
    like [37] text || match text with [] => false | _ :: text => any text end) t).
  destruct t as [|c t]; [done|]. by rewrite H.
Qed.
(** A device whose key is a percent sign is registered as [UNKNOWN-%]; the
    address it reports is then set on every machine that has none. *)
Lemma wildcard_key_sets_every_mac key mac m : M_MAC m = None ->
  LegacyIoTStore.mac_target ("UNKNOWN-" ++ prefix_of 8 "%") (unknownHashPrefix ("UNKNOWN-" ++ prefix_of 8 "%")) key mac m = true.
Proof.
  intros H. unfold LegacyIoTStore.mac_target. rewrite H.
  change (unknownHashPrefix _) with "%"%string. unfold sql_like.
  change (rune_values ("%" ++ "%")) with [37; 37]. rewrite like_all. cbn. by rewrite !orb_true_r.
Qed.
