(* ===== verification/Identity.v ===== *)
(** * Login, passwords and remembered sessions

    Models [internal/identity/]: [handlers.go], [password_reset.go],
    [password_change.go], [forgot_password.go] and [remember.go], the token of
    [internal/middleware/jwt.go] and the rate limits of [routes.go].  The
    password hash, the signature of a token and the captcha belong to
    libraries and services: they are parameters.  A reset mail leaves in
    the background: it is sent before the answer here. *)
From S2P Require Import Prelude GoStr Exchange Scenario Accounts Lights Mac World Mail AuditStore Crypto PortalStore.
From S2P Require Import AccountStore Json Http Portal ScenarioApi LightNames Orders Middleware.
#[global] Open Scope Z_scope.

(** What the process was started with: the optional parts of [Handlers], the
    mail service, and the text of an error where it is written down. *)
Record Settings := mkSettings {
  turnstileEnforced : bool; hasTurnstile : bool; hasResets : bool; hasRemember : bool;
  hasAudit : bool; hasMailer : bool; mail : MailService; ErrorText : err -> string }.

(** ** Requests *)
Record RegisterRequest := mkRegister {
  RR_Email : string; RR_Password : string; RR_FirstName : string; RR_LastName : string;
  RR_TurnstileToken : string; RR_Website : string }.
Definition register_request_fields : fields RegisterRequest :=
  [("email", set_field RR_Email (fun x q => mkRegister x (RR_Password q) (RR_FirstName q) (RR_LastName q) (RR_TurnstileToken q) (RR_Website q)) dec_string);
   ("password", set_field RR_Password (fun x q => mkRegister (RR_Email q) x (RR_FirstName q) (RR_LastName q) (RR_TurnstileToken q) (RR_Website q)) dec_string);
   ("first_name", set_field RR_FirstName (fun x q => mkRegister (RR_Email q) (RR_Password q) x (RR_LastName q) (RR_TurnstileToken q) (RR_Website q)) dec_string);
   ("last_name", set_field RR_LastName (fun x q => mkRegister (RR_Email q) (RR_Password q) (RR_FirstName q) x (RR_TurnstileToken q) (RR_Website q)) dec_string);
   ("turnstile_token", set_field RR_TurnstileToken (fun x q => mkRegister (RR_Email q) (RR_Password q) (RR_FirstName q) (RR_LastName q) x (RR_Website q)) dec_string);
   ("website", set_field RR_Website (fun x q => mkRegister (RR_Email q) (RR_Password q) (RR_FirstName q) (RR_LastName q) (RR_TurnstileToken q) x) dec_string)].
Record LoginRequest := mkLogin { LG_Email : string; LG_Password : string; LG_RememberMe : bool }.
Definition login_fields : fields LoginRequest :=
  [("email", set_field LG_Email (fun x q => mkLogin x (LG_Password q) (LG_RememberMe q)) dec_string);
   ("password", set_field LG_Password (fun x q => mkLogin (LG_Email q) x (LG_RememberMe q)) dec_string);
   ("remember_me", set_field LG_RememberMe (fun x q => mkLogin (LG_Email q) (LG_Password q) x) dec_bool)].
(** A request of two strings under the given names. *)
Definition two_fields (a b : string) : fields (string * string) :=
  [(a, set_field fst (fun x q => (x, q.2)) dec_string); (b, set_field snd (fun x q => (q.1, x)) dec_string)].
Definition one_field (a : string) : fields string := [(a, fun j s => dec_string j s)].
Record ProfileRequest := mkProfileRequest { PF_FirstName : string; PF_LastName : string; PF_Password : string }.
Definition profile_fields : fields ProfileRequest :=
  [("first_name", set_field PF_FirstName (fun x q => mkProfileRequest x (PF_LastName q) (PF_Password q)) dec_string);
   ("last_name", set_field PF_LastName (fun x q => mkProfileRequest (PF_FirstName q) x (PF_Password q)) dec_string);
   ("password", set_field PF_Password (fun x q => mkProfileRequest (PF_FirstName q) (PF_LastName q) x) dec_string)].
Definition links_fields : fields (option Z * option string) :=
  [("linked_machine_id", set_field fst (fun x q => (x, q.2)) (dec_ptr dec_int 0));
   ("linked_gateway_id", set_field snd (fun x q => (q.1, x)) (dec_ptr dec_string ""))].

(** ** Answers *)
Definition message (code : Z) (text : string) : Resp := writeJSON code (OObj [("message", OStr text)]).
Definition error_json (code : Z) (text : string) : Resp := writeJSON code (OObj [("error", OStr text)]).
Definition error_message (code : Z) (e text : string) : Resp :=
  writeJSON code (OObj [("error", OStr e); ("message", OStr text)]).
(** [w.WriteHeader(http.StatusOK)] with no body. *)
Definition done : Resp := mkResp 200 (BText "" None).
Definition out_user (u : UserResponse) : out :=
  OObj [("id", OInt (UR_ID u)); ("email", OStr (UR_Email u)); ("role", OStr (UR_Role u));
        ("first_name", OStr (UR_FirstName u)); ("last_name", OStr (UR_LastName u));
        ("provider", OStr (UR_Provider u)); ("linked_machine_id", oopt OInt (UR_LinkedMachineID u));
        ("linked_gateway_id", oopt OStr (UR_LinkedGatewayID u));
        ("linked_armoire_id", oopt OInt (UR_LinkedArmoireID u))].
Definition server_error : Resp := error_json 500 "server_error".

Section identity.
Context (cfg : Settings)
        (bcrypt_Generate : string -> list ascii -> option string)
        (bcrypt_Compare : string -> string -> bool)
        (jwt_Sign : gmap string json -> option string)
        (turnstile_Verify : string -> string -> bool).

(** ** Passwords and tokens *)
(** [bcrypt.GenerateFromPassword]: sixteen random bytes of salt. *)
Definition GenerateFromPassword (password : string) : HW (res err string) :=
  salt ← attempt (rand_read 16);
  mret (salt ← salt; ok_or (bcrypt_Generate password salt) (Sentinel "bcrypt")).
(** Seconds since 1970. *)
Definition Unix (t : Time) : Z := t / Second - 62135596800.
Definition token_claims (email role : string) (expirationTime : Time) : gmap string json :=
  <["sub" := JStr email]> (<["role" := JStr role]> (<["exp" := JNum (Itoa (Unix expirationTime))]>
    (<["iss" := JStr "essensys-backend"]> ∅))).
Definition GenerateJWT (email role : string) (expirationTime : Time) : option string :=
  jwt_Sign (token_claims email role expirationTime).

(** ** The audit entries of the flows *)
(** [auditReset], [auditPasswordChanged] and [auditRemember]. *)
Definition audit_user (userID : Z) (email action ip details : string) : HW unit :=
  if negb (hasAudit cfg) then mret tt else
  t ← now;
  ignore (CreateAuditLog (mkAuditLog 0 userID email action "USER" (Itoa userID) ip details t)).

(** ** handlers.go *)
(** The captcha: a token must be given, the service configured, the token accepted. *)
Definition captcha_ok (token ip : string) (missing failed : Resp) (blocked : string -> HW unit) : HW unit :=
  if negb (turnstileEnforced cfg) then mret tt else
  let token := TrimSpace token in
  if is_empty token then _ ← blocked "missing token"; reject missing
  else if negb (hasTurnstile cfg) then _ ← blocked "not configured"; reject failed
  else if negb (turnstile_Verify token ip) then _ ← blocked "verify failed"; reject failed
  else mret tt.
Definition Register (r : Request) : HW Resp :=
  req ← need (Decode (dec_struct register_request_fields) (mkRegister "" "" "" "" "" "") r)
          (message 400 "Invalid request body");
  _ ← check (negb (is_empty (RR_Email req) || is_empty (RR_Password req)))
        (message 400 "Email and password are required");
  _ ← check (is_empty (TrimSpace (RR_Website req))) (message 400 "Invalid request");
  _ ← captcha_ok (RR_TurnstileToken req) (ClientIP r) (message 400 "Captcha verification required")
        (message 403 "Captcha verification failed") (fun _ => mret tt);
  existing ← or_else (UserStore.GetUserByEmail (RR_Email req)) (fun _ => message 500 "Database error");
  _ ← check (negb (is_some existing)) (message 409 "User already exists");
  h ← GenerateFromPassword (RR_Password req);
  hashed ← need (res_value h) (message 500 "Failed to process password");
  created ← now;
  login ← now;
  _ ← or_else (UserStore.CreateUser (mkUser 0 (RR_Email req) hashed RoleGuestLocal (RR_FirstName req)
         (RR_LastName req) ProviderEmail "" created login None None None None None None None))
        (fun _ => message 500 "Failed to create user");
  mret (message 201 "User registered successfully").
(** remember.go: the 30-day session of a login. *)
Definition maxUserAgentLen : nat := 255.
Definition issueRememberSession (userID : Z) (r : Request) : HW (res err (string * Time)) :=
  attempt (
    '(plain, digest) ← remember.Generate;
    t ← now;
    let expiresAt := t + remember.Lifetime in
    let ua := str (take maxUserAgentLen (bytes (Header r "User-Agent"))) in
    _ ← RememberSessionStore.Create userID digest expiresAt ua t;
    mret (plain, expiresAt)).
(** The members of the answer that hold the token, the user and the lock. *)
Definition token_members (token : string) (user : User) : list (string * out) :=
  [("token", OStr token); ("user", out_user (UserToResponse (Some user)));
   ("password_change_required", OBool (PasswordChangeRequired (Some user)))].
(** The checks of [Login] before any write; the last one reads the clock. *)
Definition authenticate (req : LoginRequest) : HW User :=
  found ← or_else (UserStore.GetUserByEmail (LG_Email req)) (fun _ => http_Error "Database error" 500);
  let invalid := http_Error "Invalid credentials" 401 in
  user ← need found invalid;
  _ ← check (negb (IsUserForbidden (Some user))) WriteAccountForbidden;
  _ ← check (seqb (U_Provider user) ProviderEmail || negb (is_empty (U_PasswordHash user)))
        (http_Error ("Please login with " ++ U_Provider user) 401);
  _ ← check (bcrypt_Compare (U_PasswordHash user) (LG_Password req)) invalid;
  t ← now;
  _ ← check (negb (TempPasswordExpired (Some user) t)) (error_json 401 "temporary_password_expired");
  mret user.
Definition Login (r : Request) : HW Resp :=
  req ← need (Decode (dec_struct login_fields) (mkLogin "" "" false) r) (http_Error "Invalid request body" 400);
  user ← authenticate req;
  _ ← ignore (UserStore.UpdateLastLogin (U_ID user));
  t ← now;
  token ← need (GenerateJWT (U_Email user) (U_Role user) (t + 24 * Hour)) (http_Error "Failed to generate token" 500);
  extra ← (if LG_RememberMe req && hasRemember cfg then
             s ← issueRememberSession (U_ID user) r;
             '(rememberToken, expiresAt) ← need (res_value s) (http_Error "Failed to create session" 500);
             _ ← audit_user (U_ID user) (U_Email user) "REMEMBER_SESSION_CREATED" (ClientIP r)
                   "30-day remembered session created";
             mret [("remember_token", OStr rememberToken); ("remember_expires_at", OTime "RFC3339" expiresAt)]
           else mret []);
  mret (writeJSON 200 (OObj (token_members token user ++ extra))).
(** The user behind the token of the request. *)
Definition profile_user (r : Request) (refused : Resp) : HW User :=
  email ← must (R_UserEmail r);
  u ← attempt (UserStore.GetUserByEmail email);
  need (match u with Ok u => u | Fail _ => None end) refused.
Definition user_not_found : Resp := http_Error "User not found" 404.
Definition GetProfile (r : Request) : HW Resp :=
  user ← profile_user r user_not_found;
  mret (writeJSON 200 (out_user (UserToResponse (Some user)))).
Definition UpdateProfile (r : Request) : HW Resp :=
  user ← profile_user r user_not_found;
  req ← need (Decode (dec_struct profile_fields) (mkProfileRequest "" "" "") r) (http_Error "Bad Request" 400);
  hash ← (if is_empty (PF_Password req) then mret ""
          else h ← GenerateFromPassword (PF_Password req); need (res_value h) (http_Error "Server Error" 500));
  _ ← or_else (UserStore.UpdateUser (U_ID user) (PF_FirstName req) (PF_LastName req) hash)
        (fun _ => http_Error "Internal Server Error" 500);
  mret done.
Definition DeleteProfile (r : Request) : HW Resp :=
  user ← profile_user r user_not_found;
  _ ← or_else (UserStore.DeleteUser (U_ID user)) (fun _ => http_Error "Internal Server Error" 500);
  mret done.
Definition UpdateProfileLinks (r : Request) : HW Resp :=
  user ← profile_user r user_not_found;
  '(machineID, gatewayID) ← need (Decode (dec_struct links_fields) (None, None) r) (http_Error "Bad Request" 400);
  _ ← or_else (UserStore.UpdateUserLinks (U_ID user) machineID gatewayID None)
        (fun _ => http_Error "Internal Server Error" 500);
  mret done.
Definition NearbyDevices (r : Request) : HW Resp :=
  mret (writeJSON 200 (OObj [("machines", OArr []); ("gateways", OArr []); ("user_ip", OStr (ClientIP r))])).

(** ** password_reset.go *)
Definition reset_link_state (code : Z) (reason : string) : Resp :=
  writeJSON code (OObj [("valid", OBool false); ("reason", OStr reason)]).
Definition ValidateResetToken (r : Request) : HW Resp :=
  _ ← check (hasResets cfg) (reset_link_state 503 "unavailable");
  let plain := TrimSpace (Query r "token") in
  let invalid := reset_link_state 400 "invalid" in
  _ ← check (negb (is_empty plain)) invalid;
  found ← or_else (PasswordResetStore.GetByHash (pwreset.Hash plain)) (fun _ => reset_link_state 500 "error");
  tok ← need found invalid;
  t ← now;
  _ ← (match TokenState (Some tok) t with
       | PasswordResetTokenExpired => reject (reset_link_state 410 "expired")
       | PasswordResetTokenUsed | PasswordResetTokenInvalidated => reject (reset_link_state 410 "used")
       | _ => mret tt
       end);
  u ← attempt (UserStore.GetUserByID (T_UserID tok));
  user ← need (match u with Ok u => u | Fail _ => None end) invalid;
  mret (writeJSON 200 (OObj [("valid", OBool true); ("email_masked", OStr (pwreset.MaskEmail (U_Email user)))])).
Definition weak_password : Resp :=
  error_message 400 "weak_password" "Le mot de passe doit contenir au moins 8 caractères.".
Definition password_reused : Resp :=
  error_message 400 "password_reused" "Choisissez un mot de passe différent de l'ancien.".
(** [len([]rune(password)) >= 8] *)
Definition long_enough (password : string) : bool := pwreset.MinPasswordLength <=? RuneCountInString password.
Definition reset_invalid (userID : Z) (email ip details : string) {A} : HW A :=
  _ ← audit_user userID email "PASSWORD_RESET_TOKEN_INVALID" ip details;
  reject (error_json 400 "invalid_token").
Definition ResetPassword (r : Request) : HW Resp :=
  _ ← check (hasResets cfg) (error_json 503 "unavailable");
  '(token, password) ← need (Decode (dec_struct (two_fields "token" "password")) ("", "") r)
                         (error_json 400 "invalid_request");
  let ip := ClientIP r in
  let plain := TrimSpace token in
  _ ← (if is_empty plain then reset_invalid 0 "" ip "empty token" else mret tt);
  let tokenHash := pwreset.Hash plain in
  tok ← or_else (PasswordResetStore.GetByHash tokenHash) (fun _ => server_error);
  tok ← (match tok with
         | None => reset_invalid 0 "" ip "token not usable"
         | Some k => t ← now;
                     if TokenUsable tok t then mret k else reset_invalid 0 "" ip "token not usable"
         end);
  u ← or_else (UserStore.GetUserByID (T_UserID tok)) (fun _ => server_error);
  user ← (match u with Some u => mret u | None => reset_invalid 0 "" ip "user missing" end);
  _ ← (if IsUserForbidden (Some user) then
         _ ← ignore (PasswordResetStore.InvalidateForUser (U_ID user));
         _ ← audit_user (U_ID user) (U_Email user) "PASSWORD_RESET_TOKEN_INVALID" ip "account forbidden";
         reject (error_json 403 "account_forbidden")
       else mret tt);
  _ ← check (long_enough password) weak_password;
  _ ← check (negb (negb (is_empty (U_PasswordHash user)) && bcrypt_Compare (U_PasswordHash user) password))
        password_reused;
  h ← GenerateFromPassword password;
  hashed ← need (res_value h) server_error;
  c ← attempt (PasswordResetStore.ConsumeAndSetPassword tokenHash hashed ip);
  userID ← (match c with
            | Ok id => mret id
            | Fail _ => reset_invalid (U_ID user) (U_Email user) ip "consume failed"
            end);
  _ ← audit_user userID (U_Email user) "PASSWORD_RESET_COMPLETED" ip "password updated";
  mret (message 200 "Mot de passe mis à jour.").

(** ** password_change.go *)
Definition ChangePassword (r : Request) : HW Resp :=
  let email := default "" (R_UserEmail r) in
  u ← attempt (UserStore.GetUserByEmail email);
  user ← need (match u with Ok u => u | Fail _ => None end) (error_json 401 "unauthorized");
  '(current, new) ← need (Decode (dec_struct (two_fields "current_password" "new_password")) ("", "") r)
                      (error_json 400 "invalid_request");
  _ ← check (bcrypt_Compare (U_PasswordHash user) current) (error_json 401 "invalid_current_password");
  _ ← check (long_enough new) weak_password;
  _ ← check (negb (seqb new current)) password_reused;
  h ← GenerateFromPassword new;
  hashed ← need (res_value h) server_error;
  _ ← or_else (UserStore.ClearPasswordChangeRequired (U_ID user) hashed) (fun _ => server_error);
  _ ← audit_user (U_ID user) (U_Email user) "PASSWORD_CHANGED_AFTER_TEMPORARY" (ClientIP r)
        "Password changed, lock cleared";
  mret (message 200 "Mot de passe mis à jour.").

(** ** forgot_password.go *)
Definition forgotMessage : string :=
  "Si un compte existe pour cette adresse, un email de réinitialisation a été envoyé.".
Definition maxTokensPerAccountPerHour : Z := 3.
Definition resetVars (user : User) (plain : string) (expiresAt t : Time) : TemplateVars :=
  <["reset_url" := pwreset.BuildResetURL (pwreset.ResetLinkBaseURL (Getenv (mail cfg) "PASSWORD_RESET_BASE_URL")) plain]>
  (<["expires_in" := Itoa (pwreset.ExpiresInMinutes expiresAt t)]>
  (<["temporary_password" := ""]> (BaseUserVars (mail cfg) user))).
(** The background task, run at once. *)
Definition dispatchMail (user : User) (plain : string) (expiresAt : Time) : HW unit :=
  if negb (hasMailer cfg) then mret tt else
  t ← now;
  sent ← attempt (SendTemplate (mail cfg) EmailSlugPasswordReset (U_Email user) (resetVars user plain expiresAt t) None true);
  match sent with
  | Ok (mkResult _ None) => mret tt
  | Ok (mkResult _ (Some e)) | Fail e =>
      audit_user (U_ID user) (U_Email user) "PASSWORD_RESET_EMAIL_FAILED" "" (ErrorText cfg e)
  end.
Definition burn : HW unit := ignore pwreset.Burn.
Definition issueResetIfEligible (email ip : string) : HW unit :=
  let requested id em details := audit_user id em "PASSWORD_RESET_REQUESTED" ip details in
  found ← attempt (UserStore.GetUserByEmail email);
  match found with
  | Fail _ => requested 0 email "lookup error"
  | Ok None => _ ← burn; requested 0 email "unknown address"
  | Ok (Some user) =>
      if IsUserForbidden (Some user) then _ ← burn; requested (U_ID user) (U_Email user) "account forbidden"
      else
        recent ← attempt (PasswordResetStore.CountRecentForUser (U_ID user) Hour);
        if match recent with Ok n => maxTokensPerAccountPerHour <=? n | Fail _ => false end then
          _ ← burn;
          audit_user (U_ID user) (U_Email user) "PASSWORD_RESET_THROTTLED_ACCOUNT" ip
            ("already issued " ++ Itoa (match recent with Ok n => n | Fail _ => 0 end) ++ " in the last hour")
        else
          issued ← attempt (PasswordResetStore.Issue (U_ID user) ip);
          match issued with
          | Fail _ => requested (U_ID user) (U_Email user) "issue failed"
          | Ok (plain, expiresAt) =>
              _ ← requested (U_ID user) (U_Email user) "reset link issued";
              dispatchMail user plain expiresAt
          end
  end.
Definition ForgotPassword (r : Request) : HW Resp :=
  '(email, token) ← need (Decode (dec_struct (two_fields "email" "turnstile_token")) ("", "") r)
                      (error_json 400 "invalid_request");
  let ip := ClientIP r in
  let email := TrimSpace email in
  _ ← check (negb (is_empty email) && Contains email "@") (error_json 400 "invalid_email");
  _ ← captcha_ok token ip (error_json 400 "captcha_required") (error_json 403 "captcha_failed")
        (audit_user 0 email "PASSWORD_RESET_BLOCKED_TURNSTILE" ip);
  _ ← check (hasResets cfg) (error_json 503 "unavailable");
  _ ← issueResetIfEligible email ip;
  mret (message 202 forgotMessage).

(** ** remember.go *)
Definition rememberInvalid : Resp := error_json 401 "remember_invalid".
Definition RememberRefresh (r : Request) : HW Resp :=
  _ ← check (hasRemember cfg) (error_json 503 "unavailable");
  token ← need (Decode (dec_struct (one_field "remember_token")) "" r) (error_json 400 "invalid_request");
  let plain := TrimSpace token in
  _ ← check (negb (is_empty plain)) rememberInvalid;
  sess ← or_else (RememberSessionStore.GetByHash (remember.Hash plain)) (fun _ => server_error);
  t ← now;
  _ ← check (RememberUsable sess t) rememberInvalid;
  s ← must sess;
  u ← or_else (UserStore.GetUserByID (RS_UserID s)) (fun _ => server_error);
  user ← need u rememberInvalid;
  _ ← check (negb (IsUserForbidden (Some user))) WriteAccountForbidden;
  token ← need (GenerateJWT (U_Email user) (U_Role user) (t + 24 * Hour)) server_error;
  _ ← ignore (RememberSessionStore.Touch (RS_ID s) t);
  mret (writeJSON 200 (OObj (token_members token user))).
Definition Logout (r : Request) : HW Resp :=
  _ ← check (hasRemember cfg) done;
  token ← need (Decode (dec_struct (one_field "remember_token")) "" r) done;
  let plain := TrimSpace token in
  _ ← check (negb (is_empty plain)) done;
  t ← now;
  _ ← or_else (RememberSessionStore.RevokeByHash (remember.Hash plain) t) (fun _ => done);
  _ ← audit_user 0 "" "REMEMBER_SESSION_REVOKED" (ClientIP r) "remembered session revoked at logout";
  mret done.

(** ** routes.go: the limits by address and the routes *)
Definition limited (name : string) (lim : nat) (window : Duration) (refused : Resp) (next : Handler) : Handler := fun r =>
  ok ← Allow name lim window (ClientIP r);
  _ ← check ok refused;
  next r.
Definition too_many : Resp := message 429 "Trop de tentatives. Merci de réessayer plus tard.".
Definition registerRateLimitMiddleware (lim : nat) (window : Duration) : Handler -> Handler :=
  limited "register" lim window (message 429 "Too many registration attempts. Please try again later.").
Definition resetRateLimitMiddleware (name : string) (lim : nat) : Handler -> Handler := limited name lim Hour too_many.
Definition changePasswordRateLimitMiddleware : Handler -> Handler := limited "change" 10 Hour too_many.
Definition rememberRateLimitMiddleware : Handler -> Handler := limited "remember" 60 Hour (error_json 429 "rate_limited").
(** The routes of [Mount], without those of the external providers. *)
Inductive IdentityRoute :=
  | PostRegister | PostLogin | PostForgot | GetValidate | PostReset | PostLogout | PostRefresh
  | GetProfileRoute | PutProfile | DeleteProfileRoute | PutProfileLinks | GetNearby | PostChange.
(** Behind [UserJWTWithStore]. *)
Definition behind_login (o : IdentityRoute) : bool :=
  match o with
  | GetProfileRoute | PutProfile | DeleteProfileRoute | PutProfileLinks | GetNearby => true
  | _ => false
  end.
Definition identity_handler (o : IdentityRoute) : Handler :=
  match o with
  | PostRegister => Register | PostLogin => Login | PostForgot => ForgotPassword | GetValidate => ValidateResetToken
  | PostReset => ResetPassword | PostLogout => Logout | PostRefresh => RememberRefresh
  | GetProfileRoute => GetProfile | PutProfile => UpdateProfile | DeleteProfileRoute => DeleteProfile
  | PutProfileLinks => UpdateProfileLinks | GetNearby => NearbyDevices | PostChange => ChangePassword
  end.
(** [rate] and [window] are the configured limit of the registrations; a
    configured value that is not positive gives five an hour. *)
Definition identity_route (jwt_Parse : (string -> bool) -> string -> option (gmap string json))
    (rate window : Z) (o : IdentityRoute) : Handler :=
  let h := identity_handler o in
  match o with
  | PostRegister => registerRateLimitMiddleware (Z.to_nat (if rate <=? 0 then 5 else rate))
                      (if window <=? 0 then Hour else window) h
  | PostForgot => resetRateLimitMiddleware "forgot" 5 h
  | PostReset => resetRateLimitMiddleware "reset" 10 h
  | PostRefresh => rememberRateLimitMiddleware h
  | PostChange => changePasswordRateLimitMiddleware (UserJWTAllowPasswordChange jwt_Parse h)
  | _ => if behind_login o then UserJWTWithStore jwt_Parse h else h
  end.
End identity.
