(* ===== verification/OAuth.v ===== *)
(** * Sign-in through Google and Apple

    Models [internal/identity/oauth.go].  The providers are parameters: what
    the exchange of a code answers, what the page of the user answers, what the
    token endpoint of Apple answers; so are the OAuth library's address, the
    signed secret of the Apple client and the reading of an unverified token.
    [net/http] parses the cookie and the form: a request gives them here.  A
    redirect is its status and its address. *)
From S2P Require Import Prelude GoStr Json JsonText Exchange Accounts Lights World Crypto AccountStore Http.
From S2P Require Import Portal Middleware Identity.
#[global] Open Scope Z_scope.

(** A text cut at commas; spaces around a name do not count. *)
Definition isAdminEmail (email adminList : string) : bool :=
  existsb (fun a => seqb (TrimSpace a) email) (Split adminList (chr 44)).
Definition redirect (code : Z) (location : string) : Resp := mkResp code (BText location None).
Definition TemporaryRedirect : Z := 307.
Definition SeeOther : Z := 303.
Definition redirectMaintenance : Resp := redirect TemporaryRedirect ForbiddenRedirectPath.
(** What the callback of a provider receives. *)
Record Callback := mkCallback { CB_Cookie : option string; CB_Form : gmap string string }.
Definition FormValue (c : Callback) (name : string) : string := default "" (CB_Form c !! name).
(** The cookie set at the start of a sign-in, and where the browser goes. *)
Record SignInStart := mkStart { ST_Cookie : string; ST_Expires : Time; ST_Location : string }.
Record Provider := mkProvider { PV_Name : string; PV_Failed : Resp; PV_Code : Z }.
Definition Google : Provider := mkProvider ProviderGoogle (redirect TemporaryRedirect "/") TemporaryRedirect.
Definition Apple : Provider := mkProvider ProviderApple (redirect SeeOther "/") SeeOther.

Section oauth.
Context (Getenv : string -> string) (jwt_Sign : gmap string json -> option string).
(** The address the library builds for a state. *)
Context (google_AuthCodeURL apple_AuthCodeURL : string -> string).
(** The access token for a code, then the body of the page of the user. *)
Context (google_Exchange : string -> option string) (google_userinfo : string -> option (list Z)).
(** The private key of the key file, the secret signed with it at two readings of
    the clock, and what the token endpoint answers to the secret and a code: its
    status and its body, when that can be read. *)
Context (apple_key : option string) (apple_SignedString : string -> Time -> Time -> option string).
Context (apple_token : string -> string -> option (Z * option (list Z))).
Context (jwt_ParseUnverified : string -> option (gmap string json)).

(** The error of [rand.Read] is dropped, leaving zero bytes. *)
Definition generateState : HW string := fun w =>
  match rand_read 16 w with
  | (Ok b, w') => (Ok (RawURLEncoding b ++ "==")%string, w')
  | (Fail _, w') => (Ok (RawURLEncoding (repeat (chr 0) 16) ++ "==")%string, w')
  end.
Definition start (url : string -> string) : HW SignInStart :=
  state ← generateState;
  t ← now;
  mret (mkStart state (t + 20 * Minute) (url state)).
Definition GoogleLogin : HW SignInStart := start google_AuthCodeURL.
Definition AppleLogin : HW SignInStart := start apple_AuthCodeURL.
(** The state of the form must be the one of the cookie. *)
Definition check_state (p : Provider) (c : Callback) : HW unit :=
  cookie ← need (CB_Cookie c) (redirect TemporaryRedirect "/");
  check (seqb (FormValue c "state") cookie) (PV_Failed p).
Definition new_role (email : string) : string :=
  if isAdminEmail email (Getenv "ADMIN_EMAILS") then RoleAdminGlobal else RoleUser.
(** The role of the account of an address, which is created when there is none. *)
Definition sign_in_role (p : Provider) (email providerID : string) : HW string :=
  found ← or_else (UserStore.GetUserByEmail email) (fun _ => PV_Failed p);
  match found with
  | None =>
      created ← now;
      login ← now;
      _ ← or_else (UserStore.CreateUser (mkUser 0 email "" (new_role email) "" "" (PV_Name p) providerID created login
             None None None None None None None)) (fun _ => PV_Failed p);
      mret (new_role email)
  | Some user =>
      _ ← check (negb (IsUserForbidden (Some user))) redirectMaintenance;
      _ ← ignore (UserStore.UpdateLastLogin (U_ID user));
      mret (U_Role user)
  end.
Definition frontendURL : string := let url := Getenv "FRONTEND_URL" in if is_empty url then "/" else url.
Definition sign_in (p : Provider) (email providerID : string) : HW Resp :=
  role ← sign_in_role p email providerID;
  t ← now;
  token ← need (GenerateJWT jwt_Sign email role (t + 24 * Hour)) (http_Error "Internal Server Error" 500);
  mret (redirect (PV_Code p) (frontendURL ++ "admin#token=" ++ token ++ "&role=" ++ role)).
(** Whatever status the page answers with. *)
Definition getUserDataFromGoogle (code : string) : option (list Z) := token ← google_Exchange code; google_userinfo token.
Definition google_fields : fields (string * string) :=
  [("email", set_field fst (fun x q => (x, q.2)) dec_string); ("id", set_field snd (fun x q => (q.1, x)) dec_string)].
Definition google_user (data : list Z) : option (string * string) :=
  j ← parse_json data; dec_struct google_fields j ("", "").
Definition GoogleCallback (c : Callback) : HW Resp :=
  _ ← check_state Google c;
  data ← need (getUserDataFromGoogle (FormValue c "code")) (redirect TemporaryRedirect "/");
  '(email, id) ← need (google_user data) (http_Error "Failed to parse user data" 500);
  sign_in Google email id.
Definition apple_fields : fields string := [("id_token", fun j s => dec_string j s)].
Definition generateAppleClientSecret : HW string :=
  privateKey ← need apple_key (http_Error "Internal Server Error" 500);
  iat ← now;
  exp ← now;
  need (apple_SignedString privateKey iat (exp + 5 * Minute)) (http_Error "Internal Server Error" 500).
(** The claims of the token, which the transport alone vouches for. *)
Definition apple_claims (body : list Z) : option (gmap string json) :=
  j ← parse_json body; idToken ← dec_struct apple_fields j ""; jwt_ParseUnverified idToken.
Definition AppleCallback (c : Callback) : HW Resp :=
  _ ← check_state Apple c;
  let code := FormValue c "code" in
  _ ← check (negb (is_empty code)) (http_Error "No code returned from Apple" 400);
  clientSecret ← generateAppleClientSecret;
  '(status, read) ← need (apple_token clientSecret code) (redirect TemporaryRedirect "/");
  body ← need read (redirect SeeOther "/");
  _ ← check (status =? 200) (redirect SeeOther "/");
  claims ← need (apple_claims body) (redirect SeeOther "/");
  sign_in Apple (claim_string claims "email") "".

(** ** What a sign-in guarantees *)
Inductive OAuthRoute := OGoogle | OApple.
Definition provider (o : OAuthRoute) : Provider := match o with OGoogle => Google | OApple => Apple end.
Definition oauth_callback (o : OAuthRoute) : Callback -> HW Resp :=
  match o with OGoogle => GoogleCallback | OApple => AppleCallback end.
(** The address the provider vouches for, for the code of the callback. *)
Definition provider_says (o : OAuthRoute) (c : Callback) (email providerID : string) : Prop :=
  let code := FormValue c "code" in
  match o with
  | OGoogle => exists data, getUserDataFromGoogle code = Some data /\ google_user data = Some (email, providerID)
  | OApple => providerID = "" /\ exists key t1 t2 secret body claims,
      apple_key = Some key /\ apple_SignedString key t1 t2 = Some secret /\
      apple_token secret code = Some (200, Some body) /\ apple_claims body = Some claims /\ email = claim_string claims "email"
  end.
Definition refusals : list Resp :=
  [redirect TemporaryRedirect "/"; redirect SeeOther "/"; redirectMaintenance; http_Error "Internal Server Error" 500;
   http_Error "Failed to parse user data" 500; http_Error "No code returned from Apple" 400].
(** The account of the address in [d], and the tables after the sign-in. *)
Definition signed_in (p : Provider) (email providerID role : string) (d d' : DB) : Prop :=
  (exists user, get_row (fun u => seqb (U_Email u) email) (users d) = Ok user /\ U_ForbiddenAt user = None /\ role = U_Role user /\
    (d' = d \/ exists t, d' = on_users (update_where (is_user (U_ID user)) (set_LastLogin t)) d)) \/
  ((forall u, u ∈ users d -> U_Email u <> email) /\ role = new_role email /\
   exists row, U_Email row = email /\ U_Role row = role /\ U_Provider row = PV_Name p /\ U_ProviderID row = providerID /\
     U_LinkedMachineID row = None /\ U_LinkedGatewayID row = None /\ U_LinkedArmoireID row = None /\
     d' = on_users (fun rows => rows ++ [row]) d).
Lemma no_row email d : res_value (get_row (fun u => seqb (U_Email u) email) (users d)) = None ->
  forall u, u ∈ users d -> U_Email u <> email.
Proof.
  destruct (get_row _ _) as [r|e] eqn:E; [done|]. intros _ u Hu Heq. apply get_row_Fail in E as [_ E].
  specialize (E u Hu). cbn in E. rewrite Heq, seqb_refl in E. done.
Qed.
Lemma get_no_row email d : (forall u, u ∈ users d -> U_Email u <> email) ->
  existsb (fun x => seqb (U_Email x) email) (users d) = false.
Proof.
  intros H. destruct (existsb _ _) eqn:E; [|done]. apply existsb_elem in E as (u & Hu & Heq).
  by apply seqb_spec, (H u) in Heq.
Qed.
(** A login time that could not be written is not looked at. *)
Lemma ignored_login id w r w' : ignore (UserStore.UpdateLastLogin id) w = (r, w') ->
  db w' = db w \/ exists t, db w' = on_users (update_where (is_user id) (set_LastLogin t)) (db w).
Proof.
  unfold ignore, try, UserStore.UpdateLastLogin. rewrite M_bind_run. destruct ((now ≫= _) w) as [x w1] eqn:H.
  intros [= _ <-]. apply M_bind_any in H as [(e & _ & H)|(t & w2 & Ht & H)].
  - by apply never_now in H.
  - apply now_Ok_inv in Ht as (Hd & _). rewrite <-Hd. destruct x as [[]|e].
    + apply exec_Ok_inv in H. right. by exists t.
    + left. apply M_bind_any in H as [(e' & _ & H)|(u & w3 & _ & [=])]. rewrite <-(stmt_db w2). by rewrite H.
Qed.
Lemma sign_in_role_run p email pid w role w' : sign_in_role p email pid w = (Ok role, w') ->
  signed_in p email pid role (db w) (db w').
Proof.
  unfold sign_in_role. intros H. apply M_bind_Ok in H as (found & w1 & [-> Hd]%or_else_Ok_inv%query_text_Ok_inv & H).
  destruct (res_value _) as [user|] eqn:Hrow.
  - left. exists user. apply res_value_Some in Hrow. hrun. rewrite <-Hd.
    match goal with Hf : negb _ = true |- _ => apply negb_true_iff in Hf; unfold IsUserForbidden in Hf end.
    split_and!; [by rewrite Hd|by destruct (U_ForbiddenAt user)|done|by eapply ignored_login].
  - right. pose proof (no_row _ _ Hrow) as Hno. split; [done|]. apply M_bind_Ok in H as (created & w2 & Hc & H).
    apply M_bind_Ok in H as (login & w3 & Hl & H). apply M_bind_Ok in H as (id & w4 & Hu%or_else_Ok_inv & H).
    apply mret_Ok_inv in H as [-> ->]. split; [done|]. unfold UserStore.CreateUser in Hu. mrun. subst. eexists.
    split_and!; [..|cbn [db on_db]; rewrite <-Hd; repeat match goal with H : db _ = db _ |- _ => rewrite <-H; clear H end; reflexivity]; done.
Qed.
Definition refusal (resp : Resp) : Prop := resp ∈ refusals.
#[local] Hint Extern 1 (refusal _) => repeat (apply list_elem_of_here || apply list_elem_of_further) : throws.
Lemma sign_in_role_refuses o email pid w resp w' :
  sign_in_role (provider o) email pid w = (Fail resp, w') -> refusal resp /\ db w' = db w.
Proof.
  intros H. split.
  { revert w resp w' H. change (throws refusal (sign_in_role (provider o) email pid)).
    unfold sign_in_role. destruct o; throws_tac. }
  revert w resp w' H. change (fails_clean (sign_in_role (provider o) email pid)). unfold sign_in_role.
  apply clean_bind; [intros; handler_tac|]. intros [user|].
  - apply clean_bind; [intros; handler_tac|]. intros _. apply clean_never. unfold ignore. eauto with never.
  - do 2 (apply clean_bind; [intros; handler_tac|]; intros).
    apply clean_last; [apply clean_or_else|intros; apply never_ret]. unfold UserStore.CreateUser.
    do 4 (apply clean_bind; [intros; auto with preserves|intros]). apply clean_never. eauto with never.
Qed.
Definition answer (p : Provider) (email role : string) (t : Time) : Resp :=
  match GenerateJWT jwt_Sign email role (t + 24 * Hour) with
  | Some token => redirect (PV_Code p) (frontendURL ++ "admin#token=" ++ token ++ "&role=" ++ role)
  | None => http_Error "Internal Server Error" 500
  end.
Definition refused (resp : Resp) (w w' : World) : Prop := refusal resp /\ db w' = db w.
(** The account signed in, and the answer, its token valid for a day. *)
Definition let_in (p : Provider) (email providerID : string) (resp : Resp) (w w' : World) : Prop :=
  exists role, signed_in p email providerID role (db w) (db w') /\ resp = answer p email role (clock w').
Lemma sign_in_run o email pid w resp w' : serve (sign_in (provider o) email pid) w = (resp, w') ->
  refused resp w w' \/ let_in (provider o) email pid resp w w'.
Proof.
  unfold sign_in. intros H. apply serve_bind in H as [(role & w1 & Hr & H)|H]; [|left; by eapply sign_in_role_refuses].
  apply sign_in_role_run in Hr. right. exists role.
  apply serve_bind in H as [(t & w2 & Ht & H)|H]; [|by apply never_now in H].
  apply now_Ok_inv in Ht as (Hd & _ & <-). rewrite <-Hd in Hr. revert H. unfold answer, serve, need, ok_or, lift.
  destruct (GenerateJWT _ _ _ _) eqn:E; intros [= <- <-]; by rewrite E.
Qed.
Lemma check_state_run o c w u w' : check_state (provider o) c w = (Ok u, w') -> CB_Cookie c = Some (FormValue c "state").
Proof.
  unfold check_state. intros H. apply M_bind_Ok in H as (cookie & w1 & [-> ->]%need_Ok_inv & H).
  by apply check_Ok_inv in H as [->%seqb_spec _].
Qed.
#[local] Hint Unfold check_state generateAppleClientSecret : handler.
(** C17. A callback of Google or Apple either refuses and leaves the tables as
    they were, or the state of its form is the one of its cookie, the provider
    vouched for the address, and one account is let in with a token for a day and
    its role: the account of that address, which is not forbidden and changes at
    most in its last login, or, when there is none, a new one without links whose
    role is an administrator's exactly when the environment lists the address. *)
Theorem oauth_sign_in_spec (o : OAuthRoute) (c : Callback) (w w' : World) (resp : Resp) :
  serve (oauth_callback o c) w = (resp, w') ->
  refused resp w w' \/
  exists email providerID,
    CB_Cookie c = Some (FormValue c "state") /\ provider_says o c email providerID /\
    let_in (provider o) email providerID resp w w'.
Proof.
  intros H. destruct o; unfold oauth_callback, GoogleCallback, AppleCallback in H.
  - early refusal H as (u & w1 & Hc & Hd & H). apply (check_state_run OGoogle) in Hc.
    early refusal H as (data & w2 & [Hg _]%need_Ok_inv & Hd2 & H). early refusal H as ([email id] & w3 & [Hu _]%need_Ok_inv & Hd3 & H).
    apply (sign_in_run OGoogle) in H. unfold refused, let_in in *. rewrite Hd3 in H.
    destruct H as [H|H]; [by left|right]. exists email, id. split_and!; [done| |done]. by exists data.
  - early refusal H as (u & w1 & Hc & Hd & H). apply (check_state_run OApple) in Hc. early refusal H as (u2 & w2 & _ & Hd2 & H).
    early refusal H as (secret & w3 & Hs & Hd3 & H). unfold generateAppleClientSecret in Hs. hrun.
    early refusal H as ([status read] & w4 & [Ht _]%need_Ok_inv & Hd4 & H). early refusal H as (body & w5 & [Hb _]%need_Ok_inv & Hd5 & H).
    early refusal H as (u3 & w6 & [->%Z.eqb_eq _]%check_Ok_inv & Hd6 & H). early refusal H as (claims & w7 & [Hl _]%need_Ok_inv & Hd7 & H).
    apply (sign_in_run OApple) in H. unfold refused, let_in in *. rewrite Hd7 in H.
    destruct H as [H|H]; [by left|right]. exists (claim_string claims "email"), "". subst read. split_and!; [done| |done].
    split; [done|]. do 6 eexists. split_and!; (eassumption || reflexivity).
Qed.
End oauth.

(** ** On a small world *)
Definition page (text : string) : option (list Z) := Some (map ord (bytes text)).
Definition q : string := str [chr 34].
(** Google vouches for the head of the list of administrators. *)
Definition google_page : option (list Z) :=
  page ("{" ++ q ++ "email" ++ q ++ ":" ++ q ++ "boss@b.c" ++ q ++ "," ++ q ++ "id" ++ q ++ ":" ++ q ++ "77" ++ q ++ "}").
Definition oauth_env (name : string) : string := if seqb name "ADMIN_EMAILS" then "root@b.c, boss@b.c" else "".
Definition oauth_callback_demo : Callback :=
  mkCallback (Some "st") (<["state" := "st"]> (<["code" := "c0"]> ∅)).
Definition oauth_world : World := empty_world 10 [].
Abbreviation google_demo env content := (serve (oauth_callback env (fun _ => Some "jwt") (fun _ => Some "access")
  (fun _ => content) None (fun _ _ _ => None) (fun _ _ => None) (fun _ => None) OGoogle oauth_callback_demo) oauth_world).
Lemma oauth_sign_in_spec_witness :
  let served := google_demo oauth_env google_page in
  served.1 = redirect 307 "/admin#token=jwt&role=admin_global" /\
  let_in oauth_env (fun _ => Some "jwt") Google "boss@b.c" "77" served.1 oauth_world served.2.
Proof.
  intros served. assert (served.1 = redirect 307 "/admin#token=jwt&role=admin_global") as E by (vm_compute; reflexivity).
  split; [exact E|].
  destruct (oauth_sign_in_spec oauth_env (fun _ => Some "jwt") (fun _ => Some "access") (fun _ => google_page) None
    (fun _ _ _ => None) (fun _ _ => None) (fun _ => None) OGoogle oauth_callback_demo oauth_world served.2 served.1
    (surjective_pairing _)) as [ [H _]|(email & id & _ & (data & H1 & H2) & H)].
  - exfalso. change (refusal served.1) in H. rewrite E in H.
    repeat (apply elem_of_cons in H as [H|H]; [discriminate H|]). by apply elem_of_nil in H.
  - cbn in H1. injection H1 as <-. vm_compute in H2. injection H2 as <- <-. exact H.
Defined.
(** A page without an address, and no administrator in the environment. *)
Example oauth_empty_address :
  let served := google_demo (fun _ => "") (page "{}") in
  served.1 = redirect 307 "/admin#token=jwt&role=admin_global" /\
  map (fun u => (U_Email u, U_Role u)) (users (db served.2)) = [("", RoleAdminGlobal)].
Proof. vm_compute. done. Qed.
