(* ===== verification/Admin.v ===== *)
(** * Administration

    Models [internal/admin/]: who may do what to whom ([authz.go]), the
    accounts ([handlers.go]), mail ([transactional.go], [email_handlers.go]),
    the two ways back into an account ([password_reset.go],
    [temporary_password.go]), the sync profiles and the routes. *)
From S2P Require Import Prelude GoStr Json Exchange Scenario Accounts Lights Mac World Mail AuditStore Crypto PortalStore.
From S2P Require Import Inventory LegacyStore AccountStore Http Newsletter Portal ScenarioApi LightNames Orders SyncStore GatewayApi.
From S2P Require Import Middleware Identity.
#[global] Open Scope Z_scope.

(** ** authz.go *)
Definition errForbidden : err := Sentinel "forbidden".
Definition errNotFound : err := Sentinel "not found".
Definition errSelfAction : err := Sentinel "self action".
Definition errLastAdmin : err := Sentinel "last admin".
Definition errInvalidRole : err := Sentinel "invalid role".
Inductive AdminAction := ActionUpdateRole | ActionUpdateLinks | ActionForbid | ActionUnforbid | ActionDelete.
Definition isPrivilegedRole (role : string) : bool :=
  seqb role RoleAdminGlobal || seqb role RoleAdminLocal || seqb role RoleSupport.
Definition isLocalManageableRole (role : string) : bool := seqb role RoleUser || seqb role RoleGuestLocal.
Definition callerOwnsTarget (caller target : User) : bool :=
  match U_LinkedMachineID caller, U_LinkedMachineID target with
  | Some a, Some b => a =? b
  | _, _ => false
  end.
Class AdminUserStore := { user_by_id : Z -> MW (option User); count_admin_global : MW Z }.
#[export] Instance admin_user_store : AdminUserStore :=
  {| user_by_id := UserStore.GetUserByID; count_admin_global := UserStore.CountAdminGlobal |}.
Definition AuthorizeAdminTarget `{AdminUserStore} (caller : User) (targetUserID : Z) (action : AdminAction)
    (newRole : string) : MW User :=
  found ← user_by_id targetUserID;
  target ← lift (ok_or found errNotFound);
  if seqb (U_Role caller) RoleAdminGlobal then
    _ ← (match action with
         | ActionDelete =>
             _ ← guard_err (U_ID caller =? U_ID target) errSelfAction;
             if seqb (U_Role target) RoleAdminGlobal then
               count ← count_admin_global; guard_err (count <=? 1) errLastAdmin
             else mret tt
         | ActionForbid | ActionUnforbid => guard_err (U_ID caller =? U_ID target) errSelfAction
         | ActionUpdateRole | ActionUpdateLinks => mret tt
         end);
    mret target
  else if seqb (U_Role caller) RoleAdminLocal then
    _ ← guard_err (negb (callerOwnsTarget caller target)) errForbidden;
    _ ← guard_err (isPrivilegedRole (U_Role target)) errForbidden;
    _ ← (match action with
         | ActionUpdateRole => guard_err (negb (isLocalManageableRole newRole)) errInvalidRole
         | _ => guard_err (negb (isLocalManageableRole (U_Role target))) errForbidden
         end);
    mret target
  else throw errForbidden.
Definition internal_error : Resp := http_Error "Internal Server Error" 500.
Definition writeAuthzError (e : err) : Resp :=
  if errors_Is e errNotFound then http_Error "User not found" 404
  else if errors_Is e errSelfAction then http_Error "Forbidden: cannot perform this action on your own account" 403
  else if errors_Is e errLastAdmin then http_Error "Conflict: cannot remove the last global admin" 409
  else if errors_Is e errInvalidRole then http_Error "Forbidden: invalid role for local admin" 403
  else if errors_Is e errForbidden then http_Error "Forbidden: Insufficient Permissions" 403
  else internal_error.

(** ** The parts a process has *)
Record Deps := mkDeps {
  d_Audit : bool; d_Inventory : bool; d_IoT : bool; d_News : bool; d_Templates : bool; d_Portal : bool; d_Resets : bool;
  d_Mail : MailService; ADMIN_TOKEN : string }.

(** ** Answers *)
Definition out_admin_user (u : User) : out :=
  OObj ([("id", OInt (U_ID u)); ("email", OStr (U_Email u)); ("role", OStr (U_Role u)); ("first_name", OStr (U_FirstName u));
    ("last_name", OStr (U_LastName u)); ("provider", OStr (U_Provider u)); ("created_at", time_json (U_CreatedAt u));
    ("last_login", time_json (U_LastLogin u))] ++ omit_none "forbidden_at" time_json (U_ForbiddenAt u)
    ++ [("linked_machine_id", oopt OInt (U_LinkedMachineID u)); ("linked_gateway_id", oopt OStr (U_LinkedGatewayID u));
        ("linked_armoire_id", oopt OInt (U_LinkedArmoireID u))]
    ++ omit_none "password_change_required_at" time_json (U_PasswordChangeRequiredAt u)
    ++ omit_none "temp_password_expires_at" time_json (U_TempPasswordExpiresAt u)).
Definition out_stats (s : AdminStatsResponse) : out :=
  OObj [("connected_clients", OInt (ConnectedClients s)); ("total_machines", OInt (TotalMachines s));
        ("total_gateways", OInt (TotalGateways s))].
Definition out_machine (m : Inventory.MachineDetail) : out :=
  OObj [("id", OInt (MD_ID m)); ("no_serie", OStr (MD_NoSerie m)); ("mac_address", OStr (MD_MacAddress m));
    ("ip", OStr (MD_IP m)); ("last_seen", time_json (MD_LastSeen m)); ("raw_auth", OStr (MD_RawAuth m));
    ("raw_decoded", OStr (MD_RawDecoded m)); ("geo_location", OStr (MD_GeoLocation m)); ("lat", ORaw (JNum (MD_Lat m)));
    ("lon", ORaw (JNum (MD_Lon m)))].
(** The members of [services] come in the order of their names. *)
Definition out_gateway (g : World.GatewayStatus) : out :=
  OObj [("hostname", OStr (GT_Hostname g)); ("timestamp", ORaw (JNum (GT_Timestamp g)));
    ("cpu_usage_percent", ORaw (JNum (GT_CPU g))); ("memory", ORaw (default JNull (GT_Memory g)));
    ("disk", ORaw (default JNull (GT_Disk g)));
    ("services", oopt (fun m => OObj (map (fun kv => (kv.1, OBool kv.2)) (map_to_list m))) (GT_Services g));
    ("client_count", OInt (GT_ClientCount g)); ("ip", OStr (GT_IP g)); ("last_seen", time_json (GT_LastSeen g));
    ("geo_location", OStr (GT_GeoLocation g)); ("lat", ORaw (JNum (GT_Lat g))); ("lon", ORaw (JNum (GT_Lon g)))].
Definition out_audit (l : AuditLog) : out :=
  OObj [("id", OInt (AL_ID l)); ("user_id", OInt (AL_UserID l)); ("username", OStr (AL_Username l));
    ("action", OStr (AL_Action l)); ("resource_type", OStr (AL_ResourceType l)); ("resource_id", OStr (AL_ResourceID l));
    ("ip_address", OStr (AL_IPAddress l)); ("details", OStr (AL_Details l)); ("created_at", time_json (AL_CreatedAt l))].
Definition out_template (t : EmailTemplate) : out :=
  OObj [("slug", OStr (ET_Slug t)); ("name", OStr (ET_Name t)); ("subject", OStr (ET_Subject t));
    ("body_html", OStr (ET_BodyHTML t)); ("body_text", OStr (ET_BodyText t)); ("enabled", OBool (ET_Enabled t));
    ("auto_send", OBool (ET_AutoSend t)); ("created_at", time_json (ET_CreatedAt t)); ("updated_at", time_json (ET_UpdatedAt t))].

Section admin.
Context (deps : Deps) (bcrypt_Generate : string -> list ascii -> option string).
Definition clientIP (r : Request) : string :=
  let fwd := Header r "X-Forwarded-For" in if is_empty fwd then R_RemoteAddr r else fwd.
Definition logAudit (userID : Z) (username action resourceType resourceID ip details : string) : HW unit :=
  if negb (d_Audit deps) then mret tt else
  t ← now;
  ignore (CreateAuditLog (mkAuditLog 0 userID username action resourceType resourceID ip details t)).
(** The account behind the request, read again from the database. *)
Definition caller_email (r : Request) : string := default "" (R_UserEmail r).
Definition current_user (r : Request) : HW User :=
  u ← attempt (UserStore.GetUserByEmail (caller_email r));
  need (match u with Ok u => u | Fail _ => None end) unauthorized.
Definition requireAdminGlobal (r : Request) : HW User :=
  user ← current_user r;
  _ ← check (seqb (U_Role user) RoleAdminGlobal) (http_Error "Forbidden" 403);
  mret user.
(** A store that may be missing is dereferenced. *)
Definition deref_store (present : bool) : HW unit := check present panicked.

(** ** transactional.go *)
Definition passwordFallback : string := "contactez votre administrateur".
Definition email_unavailable : err := Errorf "email service unavailable" [].
Definition gateway_vars (gatewayID : string) (gateways : list World.GatewayStatus) (vars : TemplateVars) : TemplateVars :=
  match find (fun g => seqb (GT_Hostname g) gatewayID) gateways with
  | Some g => <["gateway_name" := GT_Hostname g]> (<["gateway_ip" := GT_IP g]> vars)
  | None => <["gateway_name" := gatewayID]> vars
  end.
Definition armoire_vars (armoireID : Z) (machines : list Inventory.MachineDetail) (vars : TemplateVars) : TemplateVars :=
  match find (fun m => MD_ID m =? armoireID) machines with
  | Some m => <["armoire_label" := MD_NoSerie m]> (<["armoire_ip" := MD_IP m]> vars)
  | None => vars
  end.
Definition enrichDeviceVars (user : User) (vars : TemplateVars) : HW TemplateVars :=
  if negb (d_Inventory deps) then mret vars else
  vars ← (match U_LinkedGatewayID user with
          | Some g => if is_empty g then mret vars else
                      gateways ← attempt AdminInventoryStore.GetGateways;
                      mret (match gateways with Ok l => gateway_vars g l vars | Fail _ => vars end)
          | None => mret vars
          end);
  match U_LinkedArmoireID user with
  | Some a => machines ← attempt AdminInventoryStore.GetMachines;
              mret (match machines with Ok l => armoire_vars a l vars | Fail _ => vars end)
  | None => mret vars
  end.
Definition buildTemplateVars (user : User) (tempPassword : string) : HW TemplateVars :=
  let vars := <["temporary_password" := tempPassword]> (BaseUserVars (d_Mail deps) user) in
  enrichDeviceVars user (<["gateway_name" := ""]> (<["gateway_ip" := ""]>
    (<["armoire_label" := ""]> (<["armoire_ip" := ""]> vars)))).
(** The [sendResult] of the code is the [Result] of [Mail]. *)
Definition sendTemplateEmailWithVars (slug : string) (user : User) (tempPassword : string) (extra : TemplateVars)
    (adminID : Z) (adminEmail ip : string) (requireEnabled : bool) : HW Result :=
  if negb (d_Templates deps) then mret (failed email_unavailable) else
  found ← attempt (EmailTemplateStore.Get slug);
  match found with
  | Fail e => mret (failed e)
  | Ok tpl =>
      let pwd := TrimSpace tempPassword in
      let pwd := if is_empty pwd && Contains (ET_BodyHTML tpl ++ ET_Subject tpl) "{{temporary_password}}"
                 then passwordFallback else pwd in
      vars ← buildTemplateVars user pwd;
      let vars := extra ∪ vars in
      let adminPtr := if adminID =? 0 then None else Some adminID in
      sent ← attempt (SendTemplate (d_Mail deps) slug (U_Email user) vars adminPtr requireEnabled);
      let details := ("to=" ++ U_Email user ++ " template=" ++ slug)%string in
      match sent with
      | Ok (mkResult ok None) =>
          _ ← logAudit adminID adminEmail "EMAIL_SENT" "EMAIL" slug ip details; mret (mkResult ok None)
      | Ok (mkResult _ (Some e)) | Fail e =>
          _ ← logAudit adminID adminEmail "EMAIL_SEND_FAILED" "EMAIL" slug ip details; mret (failed e)
      end
  end.
Definition sendTemplateEmail (slug : string) (user : User) (tempPassword : string) (adminID : Z) (adminEmail ip : string)
    (requireEnabled : bool) : HW Result :=
  sendTemplateEmailWithVars slug user tempPassword ∅ adminID adminEmail ip requireEnabled.
Definition tryAutoSend (slug : string) (user : User) (tempPassword : string) (adminID : Z) (adminEmail ip : string) : HW Result :=
  if negb (d_Templates deps) then mret (mkResult false None) else
  found ← attempt (EmailTemplateStore.Get slug);
  match found with
  | Ok tpl => if ET_Enabled tpl && ET_AutoSend tpl then sendTemplateEmail slug user tempPassword adminID adminEmail ip true
              else mret (mkResult false None)
  | Fail _ => mret (mkResult false None)
  end.

(** ** handlers.go *)
Definition admin_login_fields : fields string := [("token", fun j s => dec_string j s)].
Definition AdminLogin (r : Request) : HW Resp :=
  token ← need (Decode (dec_struct admin_login_fields) "" r) (http_Error "Bad Request" 400);
  _ ← check (negb (is_empty (ADMIN_TOKEN deps)) && seqb token (ADMIN_TOKEN deps)) (http_Error "Invalid Token" 401);
  mret done.
Definition Stats (r : Request) : HW Resp :=
  if negb (d_Inventory deps) then mret (writeJSON 200 (out_stats (mkStats 0 0 0))) else
  stats ← or_else AdminInventoryStore.GetStats (fun _ => internal_error);
  mret (writeJSON 200 (out_stats stats)).
Definition Machines (r : Request) : HW Resp :=
  if negb (d_Inventory deps) then mret (writeJSON 200 (OArr [])) else
  machines ← or_else AdminInventoryStore.GetMachines (fun _ => internal_error);
  mret (writeJSON 200 (oarr out_machine machines)).
Definition Gateways (r : Request) : HW Resp :=
  if negb (d_Inventory deps) then mret (writeJSON 200 (OArr [])) else
  gateways ← or_else AdminInventoryStore.GetGateways (fun _ => internal_error);
  mret (writeJSON 200 (oarr out_gateway gateways)).
Definition GetUsers (r : Request) : HW Resp :=
  _ ← check (negb (is_empty (caller_email r))) unauthorized;
  currentUser ← current_user r;
  users ← (if seqb (U_Role currentUser) RoleAdminGlobal then or_else UserStore.GetAllUsers (fun _ => internal_error)
           else if seqb (U_Role currentUser) RoleAdminLocal then
             match U_LinkedMachineID currentUser with
             | None => mret []
             | Some m => or_else (UserStore.GetUsersByMachineID m) (fun _ => internal_error)
             end
           else reject (http_Error "Forbidden" 403));
  mret (writeJSON 200 (oarr out_admin_user users)).
Definition target_id (r : Request) : HW Z := need (Atoi (URLParam r "id")) (http_Error "Invalid User ID" 400).
Definition role_fields : fields string := [("role", fun j s => dec_string j s)].
Definition UpdateUserRole (r : Request) : HW Resp :=
  currentUser ← current_user r;
  targetUserID ← target_id r;
  role ← need (Decode (dec_struct role_fields) "" r) (http_Error "Bad Request" 400);
  _ ← or_else (AuthorizeAdminTarget currentUser targetUserID ActionUpdateRole role) writeAuthzError;
  _ ← or_else (UserStore.UpdateUserRole targetUserID role) (fun _ => internal_error);
  _ ← logAudit (U_ID currentUser) (U_Email currentUser) "UPDATE_ROLE" "USER" (URLParam r "id") (clientIP r)
        ("Updated role for user " ++ URLParam r "id" ++ " to " ++ role);
  mret done.
(** The members of the answer that say what became of a mail. *)
Definition email_members (res : Result) : list (string * out) :=
  match Err res with Some e => [("email_error", OErr e)] | None => [] end ++ [("email_sent", OBool (Sent res))].
Definition CreateUser (r : Request) : HW Resp :=
  let adminEmail := caller_email r in
  adminID ← (if is_empty adminEmail then mret 0 else
             u ← attempt (UserStore.GetUserByEmail adminEmail);
             mret (match u with Ok (Some u) => U_ID u | _ => 0 end));
  req ← need (Decode (dec_struct register_request_fields) (mkRegister "" "" "" "" "" "") r)
          (http_Error "Invalid request body" 400);
  _ ← check (negb (is_empty (RR_Email req) || is_empty (RR_Password req)))
        (http_Error "Email and password are required" 400);
  existing ← or_else (UserStore.GetUserByEmail (RR_Email req)) (fun _ => http_Error "Database error" 500);
  _ ← check (negb (is_some existing)) (http_Error "User already exists" 409);
  h ← GenerateFromPassword bcrypt_Generate (RR_Password req);
  hashed ← need (res_value h) (http_Error "Failed to process password" 500);
  created ← now;
  login ← now;
  let user id := mkUser id (RR_Email req) hashed RoleGuestLocal (RR_FirstName req) (RR_LastName req) ProviderEmail ""
                   created login None None None None None None None in
  id ← or_else (UserStore.CreateUser (user 0)) (fun _ => http_Error "Failed to create user" 500);
  _ ← logAudit adminID adminEmail "CREATE_USER" "USER" (RR_Email req) (clientIP r) "Created user by admin";
  emailResult ← tryAutoSend EmailSlugUserWelcome (user id) (RR_Password req) adminID adminEmail (clientIP r);
  mret (writeJSON 200 (OObj (email_members emailResult ++ [("message", OStr "User created successfully")]))).
(** Activates the cabinet of a user that is not behind a gateway. *)
Definition bindArmoireForPortalDelivery (machineID armoireID : option Z) (gatewayID : option string) : MW unit :=
  if negb (d_Inventory deps && d_IoT deps) then mret tt else
  if is_some gatewayID && IsRemoteEligibleGateway gatewayID then mret tt else
  let positive o := match o with Some n => if 0 <? n then Some n else None | None => None end in
  match (match positive armoireID with Some n => Some n | None => positive machineID end) with
  | None => mret tt
  | Some portalID =>
      hashedPkey ← AdminInventoryStore.HashedPkeyByInventoryID portalID;
      LegacyIoTStore.BindMachineForPortalDelivery hashedPkey portalID
  end.
Record LinksRequest := mkLinksRequest { LK_MachineID : option Z; LK_GatewayID : option string; LK_ArmoireID : option Z }.
Definition admin_links_fields : fields LinksRequest :=
  [("linked_machine_id", set_field LK_MachineID (fun x q => mkLinksRequest x (LK_GatewayID q) (LK_ArmoireID q)) (dec_ptr dec_int 0));
   ("linked_gateway_id", set_field LK_GatewayID (fun x q => mkLinksRequest (LK_MachineID q) x (LK_ArmoireID q)) (dec_ptr dec_string ""));
   ("linked_armoire_id", set_field LK_ArmoireID (fun x q => mkLinksRequest (LK_MachineID q) (LK_GatewayID q) x) (dec_ptr dec_int 0))].
Definition UpdateUserLinks (r : Request) : HW Resp :=
  currentUser ← current_user r;
  id ← target_id r;
  _ ← or_else (AuthorizeAdminTarget currentUser id ActionUpdateLinks "") writeAuthzError;
  req ← need (Decode (dec_struct admin_links_fields) (mkLinksRequest None None None) r) (http_Error "Bad Request" 400);
  _ ← check (negb (is_some (LK_GatewayID req) && negb (IsRemoteEligibleGateway (LK_GatewayID req))
                   && (is_some (LK_ArmoireID req) || is_some (LK_MachineID req))))
        (http_Error RemoteBlockedMessage 400);
  _ ← map_err (fun e => http_ErrorOf "" e 400) (lift (ValidateAdminUserLinks (LK_MachineID req) (LK_GatewayID req) (LK_ArmoireID req)));
  u ← attempt (UserStore.GetUserByID id);
  target ← need (match u with Ok u => u | Fail _ => None end) user_not_found;
  _ ← or_else (UserStore.UpdateUserLinks id (LK_MachineID req) (LK_GatewayID req) (LK_ArmoireID req)) (fun _ => internal_error);
  _ ← ignore (bindArmoireForPortalDelivery (LK_MachineID req) (LK_ArmoireID req) (LK_GatewayID req));
  _ ← tryAutoSend EmailSlugDeviceAllocation target "" (U_ID currentUser) (caller_email r) (clientIP r);
  mret done.
Definition authorizeUserAction (r : Request) (action : AdminAction) : HW (User * User) :=
  caller ← current_user r;
  targetID ← target_id r;
  target ← or_else (AuthorizeAdminTarget caller targetID action "") writeAuthzError;
  mret (caller, target).
Definition no_content : Resp := mkResp 204 (BText "" None).
Definition ForbidUser (r : Request) : HW Resp :=
  '(caller, target) ← authorizeUserAction r ActionForbid;
  _ ← check (negb (IsUserForbidden (Some target))) (http_Error "User already forbidden" 409);
  _ ← or_else (UserStore.ForbidUser (U_ID target)) (fun _ => internal_error);
  _ ← logAudit (U_ID caller) (U_Email caller) "FORBID_USER" "USER" (URLParam r "id") (clientIP r)
        ("Forbidden user " ++ U_Email target);
  mret no_content.
Definition UnforbidUser (r : Request) : HW Resp :=
  '(caller, target) ← authorizeUserAction r ActionUnforbid;
  _ ← check (IsUserForbidden (Some target)) (http_Error "User is not forbidden" 409);
  _ ← or_else (UserStore.UnforbidUser (U_ID target)) (fun _ => internal_error);
  _ ← logAudit (U_ID caller) (U_Email caller) "UNFORBID_USER" "USER" (URLParam r "id") (clientIP r)
        ("Re-enabled user " ++ U_Email target);
  mret no_content.
Definition DeleteUser (r : Request) : HW Resp :=
  '(caller, target) ← authorizeUserAction r ActionDelete;
  _ ← or_else (UserStore.DeleteUser (U_ID target)) (fun _ => internal_error);
  _ ← logAudit (U_ID caller) (U_Email caller) "DELETE_USER" "USER" (URLParam r "id") (clientIP r)
        ("Deleted user " ++ U_Email target);
  mret no_content.
(** An integer of the query, or what was there when it is none. *)
Definition query_int (r : Request) (name : string) (other : Z) : Z := default other (Atoi (Query r name)).
Definition AuditLogs (r : Request) : HW Resp :=
  _ ← check (d_Audit deps) (http_Error "Audit Store not initialized" 503);
  currentUser ← current_user r;
  let filter m u := mkAuditFilter (query_int r "limit" 100) (query_int r "offset" 0) m u "" "" in
  let answer f := logs ← or_else (GetAuditLogs f) (fun _ => internal_error); mret (writeJSON 200 (oarr out_audit logs)) in
  let role := U_Role currentUser in
  if seqb role RoleAdminGlobal then answer (filter 0 0)
  else if seqb role RoleAdminLocal then
    match U_LinkedMachineID currentUser with
    | Some m => answer (filter m 0)
    | None => mret (writeJSON 200 (OArr []))
    end
  else if seqb role RoleUser then answer (filter 0 (U_ID currentUser))
  else reject (http_Error "Forbidden" 403).

(** ** password_reset.go and temporary_password.go *)
(** The account named in the path, which must not be forbidden. *)
Definition target_user (r : Request) : HW User :=
  userID ← target_id r;
  u ← attempt (UserStore.GetUserByID userID);
  need (match u with Ok u => u | Fail _ => None end) user_not_found.
Definition account_forbidden : Resp := error_json 409 "account_forbidden".
Definition rfc3339 : Time -> out := OTime "RFC3339".
Definition reset_base : string := pwreset.ResetLinkBaseURL (Getenv (d_Mail deps) "PASSWORD_RESET_BASE_URL").
Definition SendPasswordReset (r : Request) : HW Resp :=
  admin ← requireAdminGlobal r;
  _ ← check (d_Resets deps) (http_Error "Password reset store not initialized" 503);
  user ← target_user r;
  _ ← check (negb (IsUserForbidden (Some user))) account_forbidden;
  let ip := clientIP r in
  '(plain, expiresAt) ← or_else (PasswordResetStore.Issue (U_ID user) ip) (fun _ => internal_error);
  _ ← logAudit (U_ID admin) (U_Email admin) "PASSWORD_RESET_REQUESTED_BY_ADMIN" "USER" (URLParam r "id") ip
        ("Reset link issued for " ++ U_Email user);
  t ← now;
  let extra : TemplateVars :=
    <["reset_url" := pwreset.BuildResetURL reset_base plain]>
    (<["expires_in" := Itoa (pwreset.ExpiresInMinutes expiresAt t)]> {["temporary_password" := ""]}) in
  result ← sendTemplateEmailWithVars EmailSlugPasswordReset user "" extra (U_ID admin) (U_Email admin) ip true;
  mret (writeJSON 200 (OObj (match Err result with
    | Some e => [("email_sent", OBool false); ("expires_at", rfc3339 expiresAt); ("reason", OErr e)]
    | None => [("email_sent", OBool (Sent result)); ("expires_at", rfc3339 expiresAt)]
    end))).
Definition temporaryPasswordValidity : Duration := 72 * Hour.
Definition loginURL : string := (reset_base ++ "/login")%string.
Definition formatValidity (d : Duration) : string :=
  let hours := Z.quot d Hour in if hours =? 1 then "1 heure" else (Itoa hours ++ " heures")%string.
(** A value of the wrong type leaves the flag as it is. *)
Definition send_email_fields : fields bool :=
  [("send_email", fun j b => Some (match j with JBool x => x | _ => b end))].
Definition IssueTemporaryPassword (r : Request) : HW Resp :=
  admin ← requireAdminGlobal r;
  user ← target_user r;
  _ ← check (negb (IsUserForbidden (Some user))) account_forbidden;
  let sendEmail := default false (Decode (dec_struct send_email_fields) false r) in
  plain ← or_else temppass.Generate (fun _ => internal_error);
  h ← GenerateFromPassword bcrypt_Generate plain;
  hash ← need (res_value h) internal_error;
  t ← now;
  let expiresAt := t + temporaryPasswordValidity in
  _ ← or_else (UserStore.SetTemporaryPassword (U_ID user) hash expiresAt (U_ID admin)) (fun _ => internal_error);
  let ip := clientIP r in
  _ ← (if d_Resets deps then ignore (PasswordResetStore.InvalidateForUser (U_ID user)) else mret tt);
  _ ← logAudit (U_ID admin) (U_Email admin) "TEMPORARY_PASSWORD_ISSUED" "USER" (URLParam r "id") ip
        ("Temporary password issued for " ++ U_Email user ++ ", expires_at=" ++ Format_RFC3339 expiresAt);
  let answer sent reason := writeJSON 200 (OObj ([("email_sent", OBool sent); ("expires_at", rfc3339 expiresAt);
    ("password", OStr plain)] ++ reason)) in
  if sendEmail then
    result ← sendTemplateEmailWithVars EmailSlugTemporaryPassword user plain
               (<["login_url" := loginURL]> {["expires_in" := formatValidity temporaryPasswordValidity]})
               (U_ID admin) (U_Email admin) ip true;
    mret (match Err result with
          | Some e => answer false [("reason", OErr e)]
          | None => answer (Sent result) []
          end)
  else mret (answer false []).

(** ** email_handlers.go *)
Definition EmailHealth (r : Request) : HW Resp :=
  mret (writeJSON 200 (OObj [("configured", OBool (Configured (d_Mail deps)));
                             ("from", OStr (Getenv (d_Mail deps) "SMTP_FROM"))])).
Definition ListEmailTemplates (r : Request) : HW Resp :=
  _ ← requireAdminGlobal r;
  if negb (d_Templates deps) then mret (writeJSON 200 (OArr [])) else
  list ← or_else EmailTemplateStore.List (fun _ => internal_error);
  mret (writeJSON 200 (oarr out_template list)).
(** The template of a slug, 404 when it cannot be read. *)
Definition load_template (slug : string) : HW EmailTemplate :=
  _ ← deref_store (d_Templates deps);
  or_else (EmailTemplateStore.Get slug) (fun _ => nl_missing).
Definition GetEmailTemplate (r : Request) : HW Resp :=
  _ ← requireAdminGlobal r;
  tpl ← load_template (URLParam r "slug");
  mret (writeJSON 200 (out_template tpl)).
Definition zero_template : EmailTemplate := mkEmailTemplate "" "" "" "" "" false false 0 0.
Definition template_fields : fields EmailTemplate :=
  [("slug", set_field ET_Slug (fun x t => mkEmailTemplate x (ET_Name t) (ET_Subject t) (ET_BodyHTML t) (ET_BodyText t) (ET_Enabled t) (ET_AutoSend t) (ET_CreatedAt t) (ET_UpdatedAt t)) dec_string);
   ("name", set_field ET_Name (fun x t => mkEmailTemplate (ET_Slug t) x (ET_Subject t) (ET_BodyHTML t) (ET_BodyText t) (ET_Enabled t) (ET_AutoSend t) (ET_CreatedAt t) (ET_UpdatedAt t)) dec_string);
   ("subject", set_field ET_Subject (fun x t => mkEmailTemplate (ET_Slug t) (ET_Name t) x (ET_BodyHTML t) (ET_BodyText t) (ET_Enabled t) (ET_AutoSend t) (ET_CreatedAt t) (ET_UpdatedAt t)) dec_string);
   ("body_html", set_field ET_BodyHTML (fun x t => mkEmailTemplate (ET_Slug t) (ET_Name t) (ET_Subject t) x (ET_BodyText t) (ET_Enabled t) (ET_AutoSend t) (ET_CreatedAt t) (ET_UpdatedAt t)) dec_string);
   ("body_text", set_field ET_BodyText (fun x t => mkEmailTemplate (ET_Slug t) (ET_Name t) (ET_Subject t) (ET_BodyHTML t) x (ET_Enabled t) (ET_AutoSend t) (ET_CreatedAt t) (ET_UpdatedAt t)) dec_string);
   ("enabled", set_field ET_Enabled (fun x t => mkEmailTemplate (ET_Slug t) (ET_Name t) (ET_Subject t) (ET_BodyHTML t) (ET_BodyText t) x (ET_AutoSend t) (ET_CreatedAt t) (ET_UpdatedAt t)) dec_bool);
   ("auto_send", set_field ET_AutoSend (fun x t => mkEmailTemplate (ET_Slug t) (ET_Name t) (ET_Subject t) (ET_BodyHTML t) (ET_BodyText t) (ET_Enabled t) x (ET_CreatedAt t) (ET_UpdatedAt t)) dec_bool);
   ("created_at", set_field ET_CreatedAt (fun x t => mkEmailTemplate (ET_Slug t) (ET_Name t) (ET_Subject t) (ET_BodyHTML t) (ET_BodyText t) (ET_Enabled t) (ET_AutoSend t) x (ET_UpdatedAt t)) dec_time);
   ("updated_at", set_field ET_UpdatedAt (fun x t => mkEmailTemplate (ET_Slug t) (ET_Name t) (ET_Subject t) (ET_BodyHTML t) (ET_BodyText t) (ET_Enabled t) (ET_AutoSend t) (ET_CreatedAt t) x) dec_time)].
Definition with_slug (slug : string) (t : EmailTemplate) : EmailTemplate :=
  mkEmailTemplate slug (if is_empty (ET_Name t) then slug else ET_Name t) (ET_Subject t) (ET_BodyHTML t) (ET_BodyText t)
    (ET_Enabled t) (ET_AutoSend t) (ET_CreatedAt t) (ET_UpdatedAt t).
Definition PutEmailTemplate (r : Request) : HW Resp :=
  _ ← requireAdminGlobal r;
  let slug := URLParam r "slug" in
  req ← need (Decode (dec_struct template_fields) zero_template r) nl_bad;
  _ ← deref_store (d_Templates deps);
  _ ← or_else (EmailTemplateStore.Upsert (with_slug slug req)) (fun _ => http_Error "Failed to save template" 500);
  tpl ← attempt (EmailTemplateStore.Get slug);
  mret (writeJSON 200 (oopt out_template (res_value tpl))).
(** [map[string]string]: a value of another type leaves the empty string, and
    the error of the decoder is dropped with what was decoded. *)
Definition lenient_vars : decoder TemplateVars := fun j old =>
  Some (match j with
        | JObj kvs => foldl (fun m '(k, v) => <[k := match v with JStr s => s | _ => "" end]> m) old kvs
        | JNull => ∅
        | _ => old
        end).
Definition preview_vars (r : Request) : TemplateVars :=
  let vars := default ∅ (Decode (dec_struct [("vars", lenient_vars)]) ∅ r) in
  if bool_decide (vars = ∅) then SampleTemplateVars else vars.
(** The body of a preview and of a test: the text alone, without a frame. *)
Definition preview_body (tpl : EmailTemplate) (vars : TemplateVars) : string :=
  let html := Render (d_Mail deps) (ET_BodyHTML tpl) vars in
  if is_empty html then Render (d_Mail deps) (ET_BodyText tpl) vars else html.
Definition PreviewEmailTemplate (r : Request) : HW Resp :=
  _ ← requireAdminGlobal r;
  tpl ← load_template (URLParam r "slug");
  let vars := preview_vars r in
  mret (writeJSON 200 (OObj [("body_html", OStr (preview_body tpl vars));
                             ("subject", OStr (Render (d_Mail deps) (ET_Subject tpl) vars))])).
Definition slug_required : Resp := http_Error "template_slug required" 400.
Definition TestEmailTemplate (r : Request) : HW Resp :=
  admin ← requireAdminGlobal r;
  slug ← need (Decode (dec_struct (one_field "template_slug")) "" r) slug_required;
  _ ← check (negb (is_empty slug)) slug_required;
  tpl ← load_template slug;
  _ ← check (Configured (d_Mail deps)) (http_Error "SMTP configuration missing" 503);
  let vars : TemplateVars := <["email" := U_Email admin]> SampleTemplateVars in
  _ ← or_else (Send (d_Mail deps) (U_Email admin) ("[TEST] " ++ Render (d_Mail deps) (ET_Subject tpl) vars)
         (preview_body tpl vars)) (fun e => http_ErrorOf "" e 500);
  mret (writeJSON 200 (OObj [("status", OStr "sent"); ("to", OStr (U_Email admin))])).
Definition ResendUserEmail (r : Request) : HW Resp :=
  admin ← requireAdminGlobal r;
  user ← target_user r;
  '(slug, password) ← need (Decode (dec_struct (two_fields "template_slug" "password")) ("", "") r) slug_required;
  _ ← check (negb (is_empty slug)) slug_required;
  result ← sendTemplateEmail slug user password (U_ID admin) (U_Email admin) (clientIP r) false;
  match Err result with
  | Some e => mret (http_ErrorOf "" e 500)
  | None => mret (writeJSON 200 (OObj [("email", OStr (U_Email user)); ("sent", OBool (Sent result))]))
  end.

(** ** sync_handlers.go *)
Definition upsert_fields : fields UpsertSyncProfileRequest :=
  let set {A} (get : UpsertSyncProfileRequest -> A) put (d : decoder A) := set_field get put d in
  [("gateway_id", set UR_GatewayID (fun x q => mkUpsert x (UR_Name q) (UR_IndexRanges q) (UR_IntervalHours q) (UR_CronExpression q) (UR_PullFromArmoire q) (UR_PushToCloud q) (UR_Enabled q) (UR_ExcludeIndices q)) dec_string);
   ("name", set UR_Name (fun x q => mkUpsert (UR_GatewayID q) x (UR_IndexRanges q) (UR_IntervalHours q) (UR_CronExpression q) (UR_PullFromArmoire q) (UR_PushToCloud q) (UR_Enabled q) (UR_ExcludeIndices q)) dec_string);
   ("index_ranges", set UR_IndexRanges (fun x q => mkUpsert (UR_GatewayID q) (UR_Name q) x (UR_IntervalHours q) (UR_CronExpression q) (UR_PullFromArmoire q) (UR_PushToCloud q) (UR_Enabled q) (UR_ExcludeIndices q)) (dec_slice dec_pair (0, 0)));
   ("interval_hours", set UR_IntervalHours (fun x q => mkUpsert (UR_GatewayID q) (UR_Name q) (UR_IndexRanges q) x (UR_CronExpression q) (UR_PullFromArmoire q) (UR_PushToCloud q) (UR_Enabled q) (UR_ExcludeIndices q)) dec_int);
   ("cron_expression", set UR_CronExpression (fun x q => mkUpsert (UR_GatewayID q) (UR_Name q) (UR_IndexRanges q) (UR_IntervalHours q) x (UR_PullFromArmoire q) (UR_PushToCloud q) (UR_Enabled q) (UR_ExcludeIndices q)) (dec_ptr dec_string ""));
   ("pull_from_armoire", set UR_PullFromArmoire (fun x q => mkUpsert (UR_GatewayID q) (UR_Name q) (UR_IndexRanges q) (UR_IntervalHours q) (UR_CronExpression q) x (UR_PushToCloud q) (UR_Enabled q) (UR_ExcludeIndices q)) (dec_ptr dec_bool false));
   ("push_to_cloud", set UR_PushToCloud (fun x q => mkUpsert (UR_GatewayID q) (UR_Name q) (UR_IndexRanges q) (UR_IntervalHours q) (UR_CronExpression q) (UR_PullFromArmoire q) x (UR_Enabled q) (UR_ExcludeIndices q)) (dec_ptr dec_bool false));
   ("enabled", set UR_Enabled (fun x q => mkUpsert (UR_GatewayID q) (UR_Name q) (UR_IndexRanges q) (UR_IntervalHours q) (UR_CronExpression q) (UR_PullFromArmoire q) (UR_PushToCloud q) x (UR_ExcludeIndices q)) (dec_ptr dec_bool false));
   ("exclude_indices", set UR_ExcludeIndices (fun x q => mkUpsert (UR_GatewayID q) (UR_Name q) (UR_IndexRanges q) (UR_IntervalHours q) (UR_CronExpression q) (UR_PullFromArmoire q) (UR_PushToCloud q) (UR_Enabled q) x) (dec_slice dec_int 0))].
Definition zero_upsert : UpsertSyncProfileRequest := mkUpsert "" "" [] 0 None None None None [].
(** Three hours when no interval was given. *)
Definition with_interval (q : UpsertSyncProfileRequest) : UpsertSyncProfileRequest :=
  if 0 <? UR_IntervalHours q then q else
  mkUpsert (UR_GatewayID q) (UR_Name q) (UR_IndexRanges q) 3 (UR_CronExpression q) (UR_PullFromArmoire q) (UR_PushToCloud q)
    (UR_Enabled q) (UR_ExcludeIndices q).
Definition ListSyncProfilesHandler (r : Request) : HW Resp :=
  _ ← requireAdminGlobal r;
  if negb (d_Portal deps) then mret (writeJSON 200 (OArr [])) else
  list ← or_else (ListSyncProfiles (Query r "gateway_id")) (fun _ => http_Error "List failed" 500);
  mret (writeJSON 200 (oarr out_profile list)).
Definition CreateSyncProfileHandler (r : Request) : HW Resp :=
  _ ← requireAdminGlobal r;
  req ← need (Decode (dec_struct upsert_fields) zero_upsert r) nl_bad;
  _ ← check (negb (is_empty (UR_Name req) || (length (UR_IndexRanges req) =? 0)%nat))
        (http_Error "name and index_ranges required" 400);
  _ ← deref_store (d_Portal deps);
  p ← or_else (CreateSyncProfile (with_interval req)) (fun e => http_ErrorOf "" e 400);
  mret (writeJSON 201 (out_profile p)).
Definition UpdateSyncProfileHandler (r : Request) : HW Resp :=
  _ ← requireAdminGlobal r;
  req ← need (Decode (dec_struct upsert_fields) zero_upsert r) nl_bad;
  _ ← deref_store (d_Portal deps);
  p ← or_else (UpdateSyncProfile (URLParam r "id") (with_interval req)) (fun e => http_ErrorOf "" e 400);
  mret (writeJSON 200 (out_profile p)).
Definition DeleteSyncProfileHandler (r : Request) : HW Resp :=
  _ ← requireAdminGlobal r;
  _ ← deref_store (d_Portal deps);
  _ ← or_else (DeleteSyncProfile (URLParam r "id")) (fun e => http_ErrorOf "" e 404);
  mret (writeJSON 200 (OObj [("status", OStr "deleted")])).
Definition not_found_answer : Resp := http_Error "Not found" 404.
Definition RunSyncProfile (r : Request) : HW Resp :=
  _ ← requireAdminGlobal r;
  let id := URLParam r "id" in
  _ ← deref_store (d_Portal deps);
  profile ← or_else (GetSyncProfile id) (fun _ => not_found_answer);
  let gw := Query r "gateway_id" in
  let gatewayID := if is_empty gw then P_GatewayID profile else gw in
  _ ← check (negb (is_empty gatewayID)) (http_Error "gateway_id required (set on profile or ?gateway_id=)" 400);
  let expected := ExpectedIndexCount (P_IndexRanges profile) in
  let chunks := PullChunkCount (P_IndexRanges profile) in
  let msg := ("Sync demandée depuis admin — " ++ P_Name profile ++
    (if P_PullFromArmoire profile then
       " · " ++ Itoa expected ++ " octets · " ++ Itoa chunks ++ " cycle(s) firmware" else ""))%string in
  run ← or_else (CreateSyncRun id gatewayID expected msg) (fun _ => http_Error "Create run failed" 500);
  mret (writeJSON 202 (OObj [("run", out_run run); ("status", OStr "started")])).
Definition ListSyncProfileRuns (r : Request) : HW Resp :=
  _ ← requireAdminGlobal r;
  let n := query_int r "limit" 20 in
  _ ← deref_store (d_Portal deps);
  runs ← or_else (ListSyncRunsForProfile (URLParam r "id") (if 0 <? n then n else 20)) (fun _ => http_Error "List failed" 500);
  mret (writeJSON 200 (oarr out_run runs)).
Definition GetSyncRunHandler (r : Request) : HW Resp :=
  _ ← requireAdminGlobal r;
  _ ← deref_store (d_Portal deps);
  run ← or_else (GetSyncRun (URLParam r "runId")) (fun _ => not_found_answer);
  mret (writeJSON 200 (out_run run)).
End admin.

(** ** routes.go *)
Inductive AdminRoute :=
  | RStats | RAudit | RMachines | RGateways | RSubscribers | RAddSubscriber | RDeleteSubscriber | RNewsletters
  | RNewsletter (o : NewsletterOp) | RGetUsers | RCreateUser | RRole | RLinks | RForbid | RUnforbid | RDelete
  | RResendEmail | RPasswordReset | RTemporaryPassword | REmailHealth | RListTemplates | RGetTemplate | RPutTemplate
  | RPreview | RTestEmail | RListSync | RCreateSync | RUpdateSync | RDeleteSync | RRunSync | RSyncRuns | RSyncRun.
Section routes.
Context (deps : Deps) (bcrypt_Generate : string -> list ascii -> option string).
Definition admin_handler (o : AdminRoute) : Handler :=
  match o with
  | RStats => Stats deps | RAudit => AuditLogs deps | RMachines => Machines deps | RGateways => Gateways deps
  | RSubscribers => Subscribers (d_News deps) | RAddSubscriber => AddSubscriberHandler (d_News deps)
  | RDeleteSubscriber => DeleteSubscriberHandler (d_News deps) | RNewsletters => GetNewslettersHandler (d_News deps)
  | RNewsletter op => newsletter_handler (d_News deps) (d_Mail deps) op
  | RGetUsers => GetUsers | RCreateUser => CreateUser deps bcrypt_Generate | RRole => UpdateUserRole deps
  | RLinks => UpdateUserLinks deps | RForbid => ForbidUser deps | RUnforbid => UnforbidUser deps | RDelete => DeleteUser deps
  | RResendEmail => ResendUserEmail deps | RPasswordReset => SendPasswordReset deps
  | RTemporaryPassword => IssueTemporaryPassword deps bcrypt_Generate | REmailHealth => EmailHealth deps
  | RListTemplates => ListEmailTemplates deps | RGetTemplate => GetEmailTemplate deps | RPutTemplate => PutEmailTemplate deps
  | RPreview => PreviewEmailTemplate deps | RTestEmail => TestEmailTemplate deps | RListSync => ListSyncProfilesHandler deps
  | RCreateSync => CreateSyncProfileHandler deps | RUpdateSync => UpdateSyncProfileHandler deps
  | RDeleteSync => DeleteSyncProfileHandler deps | RRunSync => RunSyncProfile deps
  | RSyncRuns => ListSyncProfileRuns deps | RSyncRun => GetSyncRunHandler deps
  end.
Definition admin_route (jwt_Parse : (string -> bool) -> string -> option (gmap string json)) (o : AdminRoute) : Handler :=
  AdminAuthWithStore jwt_Parse (ADMIN_TOKEN deps) (admin_handler o).
(** The two routes outside the authentication. *)
Inductive OpenAdminRoute := OSubscribe | OAdminLogin.
Definition open_admin_route (o : OpenAdminRoute) : Handler :=
  match o with OSubscribe => Subscribe (d_News deps) | OAdminLogin => AdminLogin deps end.
End routes.
