(* ===== verification/Credentials.v ===== *)
(** * What the credential flows guarantee

    Theorems about [Identity]: the forgotten password answers the same to
    everyone, a reset link survives a refused password, who gets a token, and
    what a new password does to the lock of a temporary one. *)
From S2P Require Import Prelude GoStr Exchange Accounts Lights World Mail AuditStore Crypto PortalStore AccountStore.
From S2P Require Import Json Http Portal Orders Middleware Identity.
#[global] Open Scope Z_scope.

(** ** Audit entries and small calls *)
Lemma audit_user_never cfg id em a ip d : never_fails (audit_user cfg id em a ip d).
Proof.
  unfold audit_user, ignore, attempt. destruct (negb _); [apply never_ret|].
  apply never_bind; [apply never_now|]. intros t. apply never_bind; [apply never_try|intros; apply never_ret].
Qed.
Lemma audit_user_keeps I cfg id em a ip d :
  (forall d f, I d -> I (on_audit_logs f d)) -> preserves (db_inv I) (audit_user cfg id em a ip d).
Proof.
  intros HI. unfold audit_user, ignore, attempt. destruct (negb _); preserves_tac.
  by apply CreateAuditLog_preserves.
Qed.
Lemma never_attempt {A} (m : MW A) : never_fails (attempt m).
Proof. apply never_try. Qed.
Lemma never_ignore {A} (m : MW A) : never_fails (ignore m).
Proof. apply never_bind; [apply never_try|intros; apply never_ret]. Qed.
Lemma never_throws {A} P (m : HW A) : never_fails m -> throws P m.
Proof. intros Hm w e w' H. by apply Hm in H. Qed.
Lemma audit_user_throws P cfg id em a ip d : throws P (audit_user cfg id em a ip d).
Proof. apply never_throws, audit_user_never. Qed.
#[export] Hint Resolve audit_user_never never_attempt never_ignore : never.
#[export] Hint Resolve audit_user_throws : throws.

(** ** Answers that do not depend on the world *)
Definition replies (h : HW Resp) (resp : Resp) : Prop := forall w, (serve h w).1 = resp.
(** The same for a part of a handler: its value or the answer it ends with. *)
Definition settles {A} (m : HW A) (r : res Resp A) : Prop := forall w, (m w).1 = r.
Lemma replies_ret resp : replies (mret resp) resp.
Proof. done. Qed.
Lemma replies_never {A} (m : HW A) k resp :
  never_fails m -> (forall a, replies (k a) resp) -> replies (m ≫= k) resp.
Proof.
  intros Hm Hk w. specialize (fun a => Hk a). unfold serve. rewrite M_bind_run.
  destruct (m w) as [[a|e] w0] eqn:E; [apply (Hk a w0)|]. by apply Hm in E.
Qed.
Lemma replies_settled {A} (m : HW A) r k resp :
  settles m r -> match r with Ok a => replies (k a) resp | Fail e => resp = e end -> replies (m ≫= k) resp.
Proof.
  intros Hm Hk w. specialize (Hm w). unfold serve. rewrite M_bind_run. destruct (m w) as [r0 w0].
  simpl in Hm. subst r0. destruct r as [a|e]; [apply (Hk w0)|]. by subst.
Qed.
Lemma settles_check ok e : settles (check ok e) (if ok then Ok tt else Fail e).
Proof. by destruct ok. Qed.
Lemma settles_need {A} (o : option A) e : settles (need o e) (ok_or o e).
Proof. by destruct o. Qed.
Lemma settles_blocked (m : HW unit) (resp : Resp) :
  never_fails m -> settles (_ ← m; reject resp : HW unit) (Fail resp).
Proof. intros Hm w. rewrite M_bind_run. destruct (m w) as [[]] eqn:E; [done|]. by apply Hm in E. Qed.
Lemma issue_never cfg email ip : never_fails (issueResetIfEligible cfg email ip).
Proof.
  unfold issueResetIfEligible, burn, dispatchMail.
  repeat first [apply never_bind; [eauto with never|intros] | match goal with
    | |- never_fails (match ?x with _ => _ end) => destruct x
    | |- never_fails (modify _) => apply never_modify end | solve [eauto with never] ].
Qed.
(** What the captcha decides. *)
Definition captcha_verdict (cfg : Settings) (verify : string -> string -> bool) (token ip : string)
    (missing failed : Resp) : res Resp unit :=
  if negb (turnstileEnforced cfg) then Ok tt
  else if is_empty (TrimSpace token) then Fail missing
  else if negb (hasTurnstile cfg) || negb (verify (TrimSpace token) ip) then Fail failed
  else Ok tt.
Lemma captcha_settles cfg verify token ip missing failed blocked :
  (forall d, never_fails (blocked d)) ->
  settles (captcha_ok cfg verify token ip missing failed blocked) (captcha_verdict cfg verify token ip missing failed).
Proof.
  intros Hb. unfold captcha_ok, captcha_verdict. destruct (negb (turnstileEnforced cfg)); [done|].
  destruct (is_empty _); [by apply settles_blocked|].
  destruct (negb (hasTurnstile cfg)); simpl; [by apply settles_blocked|].
  destruct (negb _); [by apply settles_blocked|done].
Qed.
(** The answer of [ForgotPassword], from the request alone. *)
Definition forgot_answer (cfg : Settings) (verify : string -> string -> bool) (r : Request) : Resp :=
  match Decode (dec_struct (two_fields "email" "turnstile_token")) ("", "") r with
  | None => error_json 400 "invalid_request"
  | Some (email, token) =>
      if is_empty (TrimSpace email) || negb (Contains (TrimSpace email) "@") then error_json 400 "invalid_email"
      else match captcha_verdict cfg verify token (ClientIP r) (error_json 400 "captcha_required")
                   (error_json 403 "captcha_failed") with
           | Fail e => e
           | Ok _ => if hasResets cfg then message 202 forgotMessage else error_json 503 "unavailable"
           end
  end.

(** C30. The forgotten-password endpoint is not an account directory: its answer
    is a function of the request and the configuration, the same whatever
    accounts exist, forbidden or throttled, whatever statements fail and
    whatever the clock; an acceptable request always gets the one 202. *)
Theorem forgot_password_uniform (cfg : Settings) (verify : string -> string -> bool) (r : Request) (w : World) :
  (serve (ForgotPassword cfg verify r) w).1 = forgot_answer cfg verify r.
Proof.
  revert w. change (replies (ForgotPassword cfg verify r) (forgot_answer cfg verify r)).
  unfold ForgotPassword, forgot_answer. eapply replies_settled; [apply settles_need|].
  destruct (Decode _ _ _) as [ [email token]|]; simpl; [|done].
  eapply replies_settled; [apply settles_check|].
  destruct (is_empty _), (Contains _ _); simpl; try done.
  eapply replies_settled; [apply captcha_settles; eauto with never|].
  destruct (captcha_verdict _ _ _ _ _ _); [|done].
  eapply replies_settled; [apply settles_check|]. destruct (hasResets cfg); simpl; [|done].
  apply replies_never; [apply issue_never|]. intros _. apply replies_ret.
Qed.

(** ** Who gets a token at login *)
(** The invariant of a table that a call leaves alone, by a projection. *)
Definition fixes {B} (f : DB -> B) (b : B) (d : DB) : Prop := f d = b.
Definition identity_of (u : User) : User := set_LastLogin 0 u.
(** Users up to their last login, and the reset tokens. *)
Definition credentials (d : DB) : list User * list PasswordResetToken :=
  (map identity_of (users d), password_reset_tokens d).
Lemma map_update_same {A B} (f : A -> B) p g l : (forall a, f (g a) = f a) -> map f (update_where p g l) = map f l.
Proof.
  intros Hg. unfold update_where. rewrite map_map. apply map_ext. intros a. by destruct (p a).
Qed.
Lemma UpdateLastLogin_keeps b id : preserves (db_inv (fixes credentials b)) (UserStore.UpdateLastLogin id).
Proof.
  unfold UserStore.UpdateLastLogin. handler_tac; [].
  unfold fixes, credentials in *. cbn [users password_reset_tokens on_users]. by rewrite map_update_same.
Qed.
Lemma UpdateLastLogin_sessions b id : preserves (db_inv (fixes remember_sessions b)) (UserStore.UpdateLastLogin id).
Proof. unfold UserStore.UpdateLastLogin. handler_tac. done. Qed.
Lemma GetUserByEmail_reads I e : preserves (db_inv I) (UserStore.GetUserByEmail e).
Proof. unfold UserStore.GetUserByEmail. preserves_tac. Qed.
Lemma GetUserByID_reads I id : preserves (db_inv I) (UserStore.GetUserByID id).
Proof. unfold UserStore.GetUserByID. preserves_tac. Qed.
#[export] Hint Resolve GetUserByEmail_reads GetUserByID_reads : preserves.
Lemma authenticate_reads I compare req : preserves (db_inv I) (authenticate compare req).
Proof. unfold authenticate. handler_tac. Qed.
Lemma remember_Generate_reads I : preserves (db_inv I) remember.Generate.
Proof. unfold remember.Generate. preserves_tac. Qed.
Lemma Create_session_keeps b id h e ua t :
  preserves (db_inv (fixes credentials b)) (RememberSessionStore.Create id h e ua t).
Proof.
  unfold RememberSessionStore.Create. apply preserves_transaction. intros tx. handler_tac; done.
Qed.
#[export] Hint Resolve UpdateLastLogin_keeps UpdateLastLogin_sessions authenticate_reads remember_Generate_reads
  Create_session_keeps : preserves.
Lemma audit_keeps_fixes {B} (f : DB -> B) b cfg id em a ip d :
  (forall g d, f (on_audit_logs g d) = f d) -> preserves (db_inv (fixes f b)) (audit_user cfg id em a ip d).
Proof. intros Hf. apply audit_user_keeps. unfold fixes. intros d0 g <-. apply Hf. Qed.
#[export] Hint Extern 1 (preserves (db_inv (fixes _ _)) (audit_user _ _ _ _ _ _)) =>
  apply audit_keeps_fixes; intros; reflexivity : preserves.
Lemma Login_credentials b cfg compare sign r : preserves (db_inv (fixes credentials b)) (Login cfg compare sign r).
Proof. unfold Login, issueRememberSession. handler_tac. Qed.
Lemma Login_throws cfg compare sign r : throws (fun x => Status x <> 200) (Login cfg compare sign r).
Proof. unfold Login, authenticate, issueRememberSession. throws_tac. Qed.
Lemma authenticate_run compare req w user w' : authenticate compare req w = (Ok user, w') ->
  get_row (fun u => seqb (U_Email u) (LG_Email req)) (users (db w)) = Ok user /\
  U_ForbiddenAt user = None /\ compare (U_PasswordHash user) (LG_Password req) = true /\
  clock w <= clock w' /\ TempPasswordExpired (Some user) (clock w') = false /\ db w' = db w.
Proof.
  intros H. assert (clock w <= clock w') as Hc.
  { eapply clock_run; [|exact H]. unfold authenticate, or_else, UserStore.GetUserByEmail. since_tac. }
  assert (db w' = db w) as Hd by (eapply keeps_run; [apply authenticate_reads|exact H]).
  unfold authenticate in H. apply M_bind_Ok in H as (found & w1 & Hf%or_else_Ok_inv & H).
  apply query_text_Ok_inv in Hf as [-> Hd1]. hrun.
  lazymatch goal with Hn : now _ = _ |- _ => apply now_Ok_inv in Hn as (_ & _ & <-) end.
  repeat match goal with Hx : negb _ = true |- _ => apply negb_true_iff in Hx end.
  lazymatch goal with Hu : res_value _ = Some ?u |- _ => rename u into user0; rename Hu into Hrow end.
  split_and!; try done; [by apply res_value_Some|].
  unfold IsUserForbidden in *. by destruct (U_ForbiddenAt user0).
Qed.

Lemma fixes_run {A B} (f : DB -> B) (m : HW A) w r w' :
  (forall b, preserves (db_inv (fixes f b)) m) -> m w = (r, w') -> f (db w') = f (db w).
Proof. intros Hp H. eapply (run_keeps f); [|exact H]. apply (Hp (f (db w))). Qed.
(** Neither the audit log nor a new session turns the clock back. *)
Lemma audit_since cfg id em a ip d t0 : preserves (since t0 (fun _ => True)) (audit_user cfg id em a ip d).
Proof. unfold audit_user, ignore, CreateAuditLog. destruct (negb _); since_tac; done. Qed.
Lemma issue_since id r t0 : preserves (since t0 (fun _ => True)) (issueRememberSession id r).
Proof. unfold issueRememberSession, attempt, remember.Generate, RememberSessionStore.Create. since_tac; done. Qed.
Lemma issueRememberSession_run id r w plain e w' : issueRememberSession id r w = (Ok (Ok (plain, e) : res err (string * Time)), w') ->
  exists t new, clock w <= t /\ t <= clock w' /\ RS_UserID new = id /\ RS_TokenHash new = remember.Hash plain /\ RS_ExpiresAt new = e /\
    e = t + remember.Lifetime /\
    remember_sessions (db w') = RememberSessionStore.cap_sessions id t (remember_sessions (db w) ++ [new]).
Proof.
  unfold issueRememberSession. intros H%attempt_Ok_inv.
  apply M_bind_Ok in H as ([p d] & w1 & Hg & H). apply M_bind_Ok in H as (t & w2 & Hn & H).
  apply M_bind_Ok in H as ([] & w3 & Hc & H). apply mret_Ok_inv in H as [Hp ->].
  injection Hp as -> ->. apply now_Ok_inv in Hn as (Hd & Hle & Hct).
  assert (clock w <= clock w1) as Hc1 by (eapply clock_run; [|exact Hg]; unfold remember.Generate; since_tac).
  assert (clock w2 <= clock w3) as Hc3 by (eapply clock_run; [|exact Hc]; unfold RememberSessionStore.Create; since_tac; done).
  apply create_session_run in Hc as (new & _ & H1 & H2 & H3 & H4).
  assert (d = remember.Hash p) as ->.
  { unfold remember.Generate in Hg. apply M_bind_Ok in Hg as (b & w4 & _ & Hg). by injection Hg as <- <- _. }
  apply keeps_run in Hg; [|apply remember_Generate_reads]. rewrite Hd, Hg in H4. exists t, new. by split_and!; [lia|lia|..].
Qed.

(** C27. A login that answers 200 is for the account of the given address, whose
    password matches, which is not forbidden and whose temporary password has
    not expired; the token names that account and its stored role and ends 24
    hours after an instant of the request; the remembered session is the one of
    the answer, ends 30 days after an instant of the request, and is there only
    when asked.  Whatever the answer, a login changes no account beyond
    the date of the last login, and no reset token. *)
Theorem login_spec (cfg : Settings) (compare : string -> string -> bool) (sign : gmap string json -> option string)
    (r : Request) (w w' : World) (resp : Resp) :
  serve (Login cfg compare sign r) w = (resp, w') ->
  credentials (db w') = credentials (db w) /\
  (Status resp = 200 -> exists req user token t extra,
    Decode (dec_struct login_fields) (mkLogin "" "" false) r = Some req /\
    get_row (fun u => seqb (U_Email u) (LG_Email req)) (users (db w)) = Ok user /\
    U_ForbiddenAt user = None /\ compare (U_PasswordHash user) (LG_Password req) = true /\
    clock w <= t /\ t <= clock w' /\ (forall e, U_TempPasswordExpiresAt user = Some e -> clock w <= e) /\
    GenerateJWT sign (U_Email user) (U_Role user) (t + 24 * Hour) = Some token /\
    resp = writeJSON 200 (OObj (token_members token user ++ extra)) /\
    (if LG_RememberMe req && hasRemember cfg then
      exists plain t2 new, t <= t2 /\ t2 <= clock w' /\ RS_UserID new = U_ID user /\ RS_TokenHash new = remember.Hash plain /\
        RS_ExpiresAt new = t2 + remember.Lifetime /\
        extra = [("remember_token", OStr plain); ("remember_expires_at", OTime "RFC3339" (RS_ExpiresAt new))] /\
        remember_sessions (db w') =
          RememberSessionStore.cap_sessions (U_ID user) t2 (remember_sessions (db w) ++ [new])
     else extra = [] /\ remember_sessions (db w') = remember_sessions (db w))).
Proof.
  intros H. split.
  { pose proof (preserves_serve _ _ _ _ _ (Login_credentials (credentials (db w)) cfg compare sign r) eq_refl H) as Hp.
    exact Hp. }
  intros Hs. eapply serve_Ok in H; [|apply Login_throws|by intros ?].
  unfold Login in H. apply M_bind_Ok in H as (req & w1 & [Hreq ->]%need_Ok_inv & H).
  apply M_bind_Ok in H as (user & w2 & Ha & H). apply authenticate_run in Ha as (Hrow & Hf & Hcmp & Hc & He & Hd).
  apply M_bind_Ok in H as (u & w3 & Hl & H). apply M_bind_Ok in H as (t & w4 & Hn & H).
  apply M_bind_Ok in H as (token & w5 & [Htok ->]%need_Ok_inv & H).
  apply M_bind_Ok in H as (extra & w6 & Hx & H). apply mret_Ok_inv in H as [-> ->].
  assert (clock w3 <= t /\ clock w4 = t /\ db w4 = db w3) as (Hc3 & Hc4 & Hd4) by (apply now_Ok_inv in Hn; tauto).
  assert (clock w2 <= clock w3) as Hc2.
  { eapply clock_run; [|exact Hl]. unfold ignore, UserStore.UpdateLastLogin. since_tac. done. }
  assert (remember_sessions (db w4) = remember_sessions (db w)) as Hrs.
  { rewrite Hd4, <-Hd. eapply fixes_run; [|exact Hl]. intros b. handler_tac. }
  assert (clock w4 <= clock w6) as Hc6.
  { eapply clock_run; [|exact Hx]. destruct (_ && _); [|since_tac]. apply preserves_bind; [apply issue_since|]. intros s.
    apply preserves_bind; [apply preserves_need|]. intros [plain e]. apply preserves_bind; [apply audit_since|intros _; since_tac]. }
  exists req, user, token, t, extra. split_and!; try done; [lia|lia| |].
  - intros e Hexp. unfold TempPasswordExpired in He. rewrite Hexp in He. unfold After in He. lia.
  - destruct (LG_RememberMe req && hasRemember cfg); [|apply mret_Ok_inv in Hx as [-> ->]; by rewrite Hrs].
    apply M_bind_Ok in Hx as (s & w7 & Hi & Hx). apply M_bind_Ok in Hx as ([plain e] & w8 & [Hv ->]%need_Ok_inv & Hx).
    apply M_bind_Ok in Hx as (v & w9 & Hau & Hx). apply mret_Ok_inv in Hx as [-> ->].
    destruct s as [ [p0 e0]|]; [|done]. injection Hv as -> ->.
    apply issueRememberSession_run in Hi as (t2 & new & Hb1 & Hb2 & H1 & H2 & H3 & H4 & H5).
    assert (clock w7 <= clock w9) as Hc9 by (eapply clock_run; [|exact Hau]; apply audit_since).
    exists plain, t2, new. rewrite H3. split_and!; try done; [lia|lia|].
    rewrite <-Hrs, <-H5. eapply fixes_run; [|exact Hau]. intros b. handler_tac.
Qed.

(** ** What a reset link is good for *)
(** [served I h Q]: from tables in [I], [h] answers within [Q].  The rules
    follow the calls of the handler. *)
Definition served (I : DB -> Prop) (h : HW Resp) (Q : Resp -> DB -> Prop) : Prop :=
  forall w, I (db w) -> Q (serve h w).1 (db (serve h w).2).
Section served.
Context (I : DB -> Prop) (Q : Resp -> DB -> Prop) (HIQ : forall resp d, I d -> Q resp d).
Lemma served_ret resp : served I (mret resp) Q.
Proof using HIQ. intros w Hw. by apply HIQ. Qed.
Lemma served_bind {A} (m : HW A) k :
  preserves (db_inv I) m -> (forall a, served I (k a) Q) -> served I (m ≫= k) Q.
Proof using HIQ.
  intros Hm Hk w Hw. specialize (Hm w Hw). unfold serve. rewrite M_bind_run.
  destruct (m w) as [[a|e] w0]; [by apply (Hk a w0)|by apply HIQ].
Qed.
(** A part of the handler that always answers. *)
Lemma served_ends {A} (m : HW A) k :
  (forall w, I (db w) -> exists e w', m w = (Fail e, w') /\ Q e (db w')) -> served I (m ≫= k) Q.
Proof using Type.
  intros Hm w Hw. destruct (Hm w Hw) as (e & w' & He & Hq). unfold serve. by rewrite M_bind_run, He.
Qed.
(** A transaction: its changes, or the tables as they were. *)
Lemma served_transaction {A} (body : Time -> MW A) k :
  (forall a w, Q (serve (k (Ok a)) w).1 (db (serve (k (Ok a)) w).2)) -> (forall e, served I (k (Fail e)) Q) ->
  served I (attempt (transaction body) ≫= k) Q.
Proof using Type.
  intros Hok He w Hw. unfold serve, attempt, try. rewrite M_bind_run.
  destruct (transaction body w) as [[a|e] w0] eqn:E; [apply (Hok a w0)|].
  apply transaction_rollback in E. apply (He e w0). by rewrite E.
Qed.
End served.
(** The tables of the credentials. *)
Definition account_tables (d : DB) : list User * list PasswordResetToken * list RememberSession :=
  (users d, password_reset_tokens d, remember_sessions d).
Lemma GenerateFromPassword_reads I gen p : preserves (db_inv I) (GenerateFromPassword gen p).
Proof. unfold GenerateFromPassword. handler_tac. Qed.
Lemma GetByHash_reads I h : preserves (db_inv I) (PasswordResetStore.GetByHash h).
Proof. unfold PasswordResetStore.GetByHash. preserves_tac. Qed.
#[export] Hint Resolve GenerateFromPassword_reads GetByHash_reads : preserves.
Lemma reset_invalid_ends cfg id em ip d A (w : World) :
  exists w', (reset_invalid cfg id em ip d : HW A) w = (Fail (error_json 400 "invalid_token"), w') /\
    account_tables (db w') = account_tables (db w).
Proof.
  unfold reset_invalid. rewrite M_bind_run. destruct (audit_user _ _ _ _ _ _ w) as [[[]|e] w0] eqn:E.
  - exists w0. split; [done|]. eapply fixes_run; [|exact E]. intros b. handler_tac.
  - by apply audit_user_never in E.
Qed.
Lemma reset_invalid_keeps b cfg id em ip d A :
  preserves (db_inv (fixes account_tables b)) (reset_invalid cfg id em ip d : HW A).
Proof.
  intros w Hw. destruct (reset_invalid_ends cfg id em ip d A w) as (w' & -> & Hd).
  unfold db_inv, fixes in *. simpl. by rewrite Hd.
Qed.
#[export] Hint Resolve reset_invalid_keeps : preserves.
(** What a reset that is not a success may have touched. *)
Definition reset_outcome (X : list User * list PasswordResetToken * list RememberSession)
    (resp : Resp) (d : DB) : Prop :=
  Status resp = 200 \/ (Status resp = 403 /\ users d = X.1.1 /\ remember_sessions d = X.2) \/ account_tables d = X.
Lemma forbidden_ends X cfg user ip w : fixes account_tables X (db w) ->
  exists e w', (_ ← ignore (PasswordResetStore.InvalidateForUser (U_ID user));
    _ ← audit_user cfg (U_ID user) (U_Email user) "PASSWORD_RESET_TOKEN_INVALID" ip "account forbidden";
    reject (error_json 403 "account_forbidden") : HW unit) w = (Fail e, w') /\ reset_outcome X e (db w').
Proof.
  intros Hw. exists (error_json 403 "account_forbidden"). rewrite !M_bind_run.
  destruct (ignore _ w) as [[[]|e] w1] eqn:E1; [|by apply never_ignore in E1]. rewrite M_bind_run.
  match goal with |- context [audit_user ?c ?i ?e ?n ?p ?d w1] =>
    destruct (audit_user c i e n p d w1) as [[[]|x] w2] eqn:E2 end; [|by apply audit_user_never in E2].
  exists w2. split; [done|]. right. left. split; [done|].
  set (f := fun d => (users d, remember_sessions d)).
  assert (f (db w2) = f (db w)) as [= H1 H2]; [|by rewrite H1, H2, <-Hw].
  transitivity (f (db w1)); (eapply fixes_run; [|eassumption]); intros b; [handler_tac|].
  unfold PasswordResetStore.InvalidateForUser. handler_tac. done.
Qed.
Lemma serve_audited cfg id em a ip d resp w : (serve (_ ← audit_user cfg id em a ip d; mret resp) w).1 = resp.
Proof.
  unfold serve. rewrite M_bind_run. destruct (audit_user cfg id em a ip d w) as [[[]|x] w2] eqn:E; [done|].
  by apply audit_user_never in E.
Qed.
(** The sessions of a user after the revocation. *)
Lemma revoked_all_unusable id t rows s t' :
  s ∈ update_where (fun s => (RS_UserID s =? id) && negb (is_some (RS_RevokedAt s))) (UserStore.revoke_session t) rows ->
  RS_UserID s = id -> RememberUsable (Some s) t' = false.
Proof.
  intros (s0 & _ & ->)%elem_of_update_where Hid. apply not_true_iff_false. intros (Hn & _)%RememberUsable_spec.
  destruct ((RS_UserID s0 =? id) && negb (is_some (RS_RevokedAt s0))) eqn:E; [done|].
  by rewrite Hid, Z.eqb_refl, Hn in E.
Qed.
Lemma reset_served X cfg gen cmp r :
  served (fixes account_tables X) (ResetPassword cfg gen cmp r) (reset_outcome X).
Proof.
  assert (forall resp d, fixes account_tables X d -> reset_outcome X resp d) as HIQ by (intros; by right; right).
  unfold ResetPassword.
  apply served_bind; [done|handler_tac|intros _]. apply served_bind; [done|handler_tac|intros [token password] ].
  apply served_bind; [done|handler_tac|intros _]. apply served_bind; [done|handler_tac|intros tok0].
  apply served_bind; [done|handler_tac|intros tok]. apply served_bind; [done|handler_tac|intros u].
  apply served_bind; [done|handler_tac|intros user].
  destruct (IsUserForbidden (Some user)).
  { apply served_ends. intros w Hw. by apply forbidden_ends. }
  apply served_bind; [done|handler_tac|intros _]. apply served_bind; [done|handler_tac|intros _].
  apply served_bind; [done|handler_tac|intros _]. apply served_bind; [done|handler_tac|intros h].
  apply served_bind; [done|handler_tac|intros hashed].
  apply served_transaction; [|intros e; apply served_bind; [done|handler_tac|intros id];
    apply served_bind; [done|handler_tac|intros _]; by apply served_ret].
  intros uid w. left. exact (f_equal Status (serve_audited _ _ _ _ _ _ _ w)).
Qed.
Lemma reset_invalid_throws P cfg id em ip d A : P (error_json 400 "invalid_token") ->
  throws P (reset_invalid cfg id em ip d : HW A).
Proof.
  intros HP w e w' H. destruct (reset_invalid_ends cfg id em ip d A w) as (w0 & H' & _). rewrite H' in H.
  by injection H as <- _.
Qed.
#[export] Hint Extern 1 (throws _ (reset_invalid _ _ _ _ _)) => apply reset_invalid_throws : throws.
Lemma throws_reject P A resp : P resp -> throws P (reject resp : HW A).
Proof. intros HP w e w' [= <- _]. done. Qed.
#[export] Hint Extern 1 (throws _ (reject _)) => apply throws_reject : throws.
Lemma GenerateFromPassword_throws P gen p : throws P (GenerateFromPassword gen p).
Proof. unfold GenerateFromPassword. throws_tac. Qed.
#[export] Hint Resolve GenerateFromPassword_throws : throws.
Lemma ResetPassword_throws cfg gen cmp r : throws (fun x => Status x <> 200) (ResetPassword cfg gen cmp r).
Proof. unfold ResetPassword. throws_tac. Qed.
Lemma GenerateFromPassword_run gen p w h w' : GenerateFromPassword gen p w = (Ok (Ok h : res err string), w') ->
  exists salt, gen p salt = Some h.
Proof.
  unfold GenerateFromPassword. intros H. apply M_bind_Ok in H as (s & w1 & _ & H). apply mret_Ok_inv in H as [H _].
  destruct s as [salt|]; [|done]. simpl in H. exists salt. by destruct (gen p salt); [injection H as ->|].
Qed.

Lemma reset_invalid_not_Ok cfg id em ip d A (a : A) w w' : reset_invalid cfg id em ip d w <> (Ok a, w').
Proof. destruct (reset_invalid_ends cfg id em ip d A w) as (w0 & -> & _). done. Qed.
(** The calls of a reset that succeeds. *)
Lemma reset_success cfg gen cmp r w resp w' : ResetPassword cfg gen cmp r w = (Ok resp, w') ->
  exists token password tok user salt hashed uid w1 w2,
    Decode (dec_struct (two_fields "token" "password")) ("", "") r = Some (token, password) /\
    tok ∈ password_reset_tokens (db w) /\ T_TokenHash tok = pwreset.Hash (TrimSpace token) /\
    TokenUsable (Some tok) (clock w) = true /\
    get_row (is_user (T_UserID tok)) (users (db w)) = Ok user /\ U_ForbiddenAt user = None /\
    8 <= RuneCountInString password /\
    (U_PasswordHash user <> "" -> cmp (U_PasswordHash user) password = false) /\
    gen password salt = Some hashed /\ db w1 = db w /\
    PasswordResetStore.ConsumeAndSetPassword (pwreset.Hash (TrimSpace token)) hashed (ClientIP r) w1 = (Ok uid, w2) /\
    account_tables (db w') = account_tables (db w2).
Proof.
  unfold ResetPassword. intros H.
  apply M_bind_Ok in H as (? & ? & [_ ->]%check_Ok_inv & H).
  apply M_bind_Ok in H as ([token password] & ? & [Hdec ->]%need_Ok_inv & H).
  apply M_bind_Ok in H as (? & w0 & H0 & H). destruct (is_empty _); [by apply reset_invalid_not_Ok in H0|].
  apply mret_Ok_inv in H0 as [_ ->].
  apply M_bind_Ok in H as (found & w1 & Hfound%or_else_Ok_inv & H).
  assert (clock w <= clock w1) as Hc1 by (eapply clock_run; [|exact Hfound]; unfold PasswordResetStore.GetByHash; since_tac).
  apply query_Ok_inv in Hfound as [Hfound Hd1].
  apply M_bind_Ok in H as (tok & w2 & Htok & H). destruct found as [k|]; [|by apply reset_invalid_not_Ok in Htok].
  apply M_bind_Ok in Htok as (t & w3 & (Hd3 & Hle & _)%now_Ok_inv & Htok).
  destruct (TokenUsable (Some k) t) eqn:Huse; [|by apply reset_invalid_not_Ok in Htok].
  apply mret_Ok_inv in Htok as [-> ->].
  apply M_bind_Ok in H as (found_user & w4 & [Hrow Hd4]%or_else_Ok_inv%query_Ok_inv & H).
  apply M_bind_Ok in H as (user & w5 & Hu & H). destruct found_user as [u|]; [|by apply reset_invalid_not_Ok in Hu].
  apply mret_Ok_inv in Hu as [-> ->].
  apply M_bind_Ok in H as (? & w6 & Hf & H). destruct (IsUserForbidden (Some u)) eqn:Ef.
  { apply M_bind_Ok in Hf as (? & ? & _ & Hf). by apply M_bind_Ok in Hf as (? & ? & _ & Hf). }
  apply mret_Ok_inv in Hf as [_ ->].
  apply M_bind_Ok in H as (? & ? & [Hlen ->]%check_Ok_inv & H).
  apply M_bind_Ok in H as (? & ? & [Hcmp ->]%check_Ok_inv & H).
  apply M_bind_Ok in H as (h & w7 & Hgen & H). assert (db w7 = db w4) as Hd7
    by (eapply keeps_run; [apply GenerateFromPassword_reads|exact Hgen]).
  apply M_bind_Ok in H as (hashed & ? & [Hh ->]%need_Ok_inv & H). destruct h as [h|]; [|done]. injection Hh as ->.
  apply GenerateFromPassword_run in Hgen as [salt Hgen].
  apply M_bind_Ok in H as (c & w8 & Hc%attempt_Ok_inv & H). apply M_bind_Ok in H as (uid & w9 & Hid & H).
  destruct c as [uid'|]; [|by apply reset_invalid_not_Ok in Hid]. apply mret_Ok_inv in Hid as [-> ->].
  apply M_bind_Ok in H as (? & w10 & Ha & [_ ->]%mret_Ok_inv).
  symmetry in Hfound. apply res_value_Some, get_row_Ok in Hfound as [Hin Hhash%seqb_spec].
  exists token, password, k, u, salt, hashed, uid', w7, w8. split_and!; try done.
  - apply TokenUsable_spec. apply TokenUsable_spec in Huse. intuition lia.
  - apply res_value_Some. symmetry. rewrite Hrow. do 3 f_equal. congruence.
  - unfold IsUserForbidden in Ef. by destruct (U_ForbiddenAt u).
  - unfold long_enough, pwreset.MinPasswordLength in Hlen. lia.
  - intros Hne. destruct (U_PasswordHash u); [done|]. apply negb_true_iff in Hcmp. exact Hcmp.
  - congruence.
  - eapply fixes_run; [|exact Ha]. intros b. handler_tac.
Qed.

(** The consumed token is the only one with its digest. *)
Lemma consume_owner h p ip w uid w' tok : PasswordResetStore.ConsumeAndSetPassword h p ip w = (Ok uid, w') ->
  NoDup (map T_TokenHash (password_reset_tokens (db w))) -> tok ∈ password_reset_tokens (db w) -> T_TokenHash tok = h ->
  uid = T_UserID tok /\ users (db w') = update_where (is_user (T_UserID tok)) (set_PasswordHash p) (users (db w)).
Proof.
  intros (t & k & _ & _ & Hk & Huid & Hcons & Hd)%consume_run Hnd Hin Hhash.
  assert (k = tok) as ->.
  { eapply NoDup_key_eq; [exact Hnd|done|done|]. rewrite Hhash.
    unfold PasswordResetStore.consumable in Hcons. rewrite !andb_true_iff, seqb_spec in Hcons. by destruct_and!. }
  subst uid. by rewrite Hd.
Qed.
(** C14. A reset link is worth exactly one new password, and is not lost to a
    mistake.  Whatever the refusal (a weak or reused password, an unknown or
    spent link, a failed statement), accounts, links and sessions are as they
    were, except that the link of a forbidden account may be withdrawn (403).
    On success the link was usable, its owner is not forbidden, the new
    password is at least eight characters, differs from the old one, and its
    hash is the owner's; nobody else's changed, and no link or remembered
    session of the owner is usable any more. *)
Theorem reset_password_spec (cfg : Settings) (gen : string -> list ascii -> option string)
    (cmp : string -> string -> bool) (r : Request) (w w' : World) (resp : Resp) :
  serve (ResetPassword cfg gen cmp r) w = (resp, w') ->
  NoDup (map T_TokenHash (password_reset_tokens (db w))) ->
  (Status resp <> 200 ->
     users (db w') = users (db w) /\ remember_sessions (db w') = remember_sessions (db w) /\
     (Status resp <> 403 -> password_reset_tokens (db w') = password_reset_tokens (db w))) /\
  (Status resp = 200 -> exists token password tok user salt hashed,
     Decode (dec_struct (two_fields "token" "password")) ("", "") r = Some (token, password) /\
     tok ∈ password_reset_tokens (db w) /\ T_TokenHash tok = pwreset.Hash (TrimSpace token) /\
     TokenUsable (Some tok) (clock w) = true /\
     get_row (is_user (T_UserID tok)) (users (db w)) = Ok user /\ U_ForbiddenAt user = None /\
     8 <= RuneCountInString password /\
     (U_PasswordHash user <> "" -> cmp (U_PasswordHash user) password = false) /\
     gen password salt = Some hashed /\
     users (db w') = update_where (is_user (U_ID user)) (set_PasswordHash hashed) (users (db w)) /\
     (forall k t, k ∈ password_reset_tokens (db w') -> T_UserID k = U_ID user -> TokenUsable (Some k) t = false) /\
     (forall s t, s ∈ remember_sessions (db w') -> RS_UserID s = U_ID user -> RememberUsable (Some s) t = false)).
Proof.
  intros H Hnd. split.
  - intros Hs. pose proof (reset_served (account_tables (db w)) cfg gen cmp r w eq_refl) as Ho. rewrite H in Ho.
    destruct Ho as [Ho|[(Ho & Hu & Hr)|Ho] ]; [done|by split_and!|].
    injection Ho as Hu Ht Hr. by split_and!.
  - intros Hs. eapply serve_Ok in H; [|apply ResetPassword_throws|by intros ?].
    apply reset_success in H as (token & password & tok & user & salt & hashed & uid & w1 & w2 & Hdec & Hin & Hhash &
      Huse & Hrow & Hf & Hlen & Hcmp & Hgen & Hd1 & Hc & Hd2).
    pose proof Hc as Hc'. apply (consume_owner _ _ _ _ _ _ tok) in Hc as [-> Hd]; [|by rewrite Hd1..|done].
    apply consume_clears in Hc' as (t2 & _ & _ & Hspent & Hrev).
    assert (U_ID user = T_UserID tok) as Hid.
    { apply get_row_Ok in Hrow as [_ Hrow]. unfold is_user in Hrow. lia. }
    injection Hd2 as Hu2 Ht2 Hr2. rewrite Hu2, Ht2, Hr2.
    exists token, password, tok, user, salt, hashed. rewrite Hid. split_and!; try done.
    + by rewrite Hd, Hd1.
    + intros k' t' Hk' Hku. apply not_true_iff_false. intros (H1 & H2 & _)%TokenUsable_spec.
      destruct (Hspent k' Hk' Hku) as [Hx|Hx]; rewrite ?H1, ?H2 in Hx; by destruct Hx.
    + intros s t' Hs' Hsu. apply not_true_iff_false. intros (H1 & _)%RememberUsable_spec.
      specialize (Hrev s Hs' Hsu). rewrite H1 in Hrev. by destruct Hrev.
Qed.

(** ** The lock of a temporary password *)
(** What the code relies on of bcrypt: a hash matches its password and is not
    the empty text. *)
Definition bcrypt_laws (gen : string -> list ascii -> option string) (cmp : string -> string -> bool) : Prop :=
  forall p salt h, gen p salt = Some h -> cmp h p = true /\ h <> "".
Lemma get_row_unique {R} (key : R -> string) (rows : list R) r :
  NoDup (map key rows) -> r ∈ rows -> get_row (fun x => seqb (key x) (key r)) rows = Ok r.
Proof.
  intros Hnd Hin. destruct (get_row _ rows) as [r'|e] eqn:E.
  - apply get_row_Ok in E as [Hin' Hk%seqb_spec]. f_equal. by eapply NoDup_key_eq.
  - apply get_row_Fail in E as [_ E]. specialize (E r Hin). by rewrite seqb_refl in E.
Qed.

Lemma need_Some {A B} (a : A) e (k : A -> HW B) w : (need (Some a) e ≫= k) w = k a w.
Proof. done. Qed.
Lemma check_true {B} ok e (k : unit -> HW B) w : ok = true -> (check ok e ≫= k) w = k tt w.
Proof. by intros ->. Qed.
Lemma check_false {B} ok e (k : unit -> HW B) w : ok = false -> (check ok e ≫= k) w = (Fail e, w).
Proof. by intros ->. Qed.
(** Where the database answers, the reading of the clock alone decides over the
    right password. *)
Lemma authenticate_known cmp req w u t w1 : faults w = [] -> text_ok (LG_Email req) = true ->
  get_row (fun u => seqb (U_Email u) (LG_Email req)) (users (db w)) = Ok u ->
  U_ForbiddenAt u = None -> U_PasswordHash u <> "" -> cmp (U_PasswordHash u) (LG_Password req) = true ->
  @now Resp w = (Ok t, w1) ->
  authenticate cmp req w = (if TempPasswordExpired (Some u) t then Fail (error_json 401 "temporary_password_expired") else Ok u, w1).
Proof.
  intros Hf Htext Hrow Hforb Hne Hcmp Hn. unfold authenticate.
  rewrite M_bind_run. unfold or_else, map_err, UserStore.GetUserByEmail. rewrite query_text_ok, Hrow by done.
  cbn [res_value]. rewrite need_Some.
  rewrite check_true by (unfold IsUserForbidden; by rewrite Hforb).
  rewrite check_true by (destruct (U_PasswordHash u); [done|apply orb_true_r]).
  rewrite check_true by done. rewrite M_bind_run, Hn. by destruct (TempPasswordExpired _ _).
Qed.
Lemma now_run {E} w : exists t w1, @now E w = (Ok t, w1) /\ clock w <= t.
Proof. destruct (now w) as [[t|x] w1] eqn:En; [|by apply never_now in En]. exists t, w1. by apply now_Ok_inv in En as (_ & Hle & _). Qed.
Lemma login_expired cfg cmp sign r w req u e :
  Decode (dec_struct login_fields) (mkLogin "" "" false) r = Some req -> faults w = [] -> text_ok (LG_Email req) = true ->
  get_row (fun u => seqb (U_Email u) (LG_Email req)) (users (db w)) = Ok u ->
  U_ForbiddenAt u = None -> U_PasswordHash u <> "" -> cmp (U_PasswordHash u) (LG_Password req) = true ->
  U_TempPasswordExpiresAt u = Some e -> e < clock w ->
  (serve (Login cfg cmp sign r) w).1 = error_json 401 "temporary_password_expired".
Proof.
  intros Hdec Hf Htext Hrow Hforb Hne Hcmp Htemp Hexp. destruct (@now_run Resp w) as (t & w1 & Hn & Hle).
  unfold serve, Login. rewrite Hdec, need_Some, M_bind_run. rewrite (authenticate_known cmp req w u t w1) by done.
  unfold TempPasswordExpired, After. rewrite Htemp. assert ((e <? t) = true) as -> by lia. done.
Qed.
Lemma login_enters cfg cmp sign r w req u :
  Decode (dec_struct login_fields) (mkLogin "" "" false) r = Some req -> faults w = [] -> text_ok (LG_Email req) = true -> LG_RememberMe req = false ->
  get_row (fun u => seqb (U_Email u) (LG_Email req)) (users (db w)) = Ok u ->
  U_ForbiddenAt u = None -> U_PasswordHash u <> "" -> cmp (U_PasswordHash u) (LG_Password req) = true ->
  (forall claims, sign claims <> None) ->
  (forall t w1, @now Resp w = (Ok t, w1) -> TempPasswordExpired (Some u) t = false) ->
  Status (serve (Login cfg cmp sign r) w).1 = 200.
Proof.
  intros Hdec Hf Htext Hrem Hrow Hforb Hne Hcmp Hsign Hnot. destruct (@now_run Resp w) as (t & w1 & Hn & _).
  unfold serve, Login. rewrite Hdec, need_Some, M_bind_run. rewrite (authenticate_known cmp req w u t w1) by done.
  rewrite (Hnot t w1 Hn), M_bind_run. destruct (ignore _ w1) as [[ []|x] w2] eqn:Hi; [|by apply never_ignore in Hi].
  destruct (@now_run Resp w2) as (t2 & w3 & Hn2 & _). rewrite M_bind_run, Hn2. unfold GenerateJWT.
  destruct (sign _) as [token|] eqn:Hs; [|by apply Hsign in Hs]. rewrite need_Some, Hrem. done.
Qed.

(** C31. A reset does not lift the lock of a temporary password: when the
    temporary password of the account has expired, the owner who just chose a
    new password through a reset link is refused at login with that very
    password, as holding an expired temporary password. *)
Theorem reset_leaves_temporary_lock (cfg : Settings) (gen : string -> list ascii -> option string)
    (cmp : string -> string -> bool) (sign : gmap string json -> option string) (r rl : Request)
    (w w' : World) (resp : Resp) (token password : string) (tok : PasswordResetToken) (user : User)
    (e : Time) (rem : bool) :
  bcrypt_laws gen cmp ->
  serve (ResetPassword cfg gen cmp r) w = (resp, w') -> Status resp = 200 ->
  Decode (dec_struct (two_fields "token" "password")) ("", "") r = Some (token, password) ->
  NoDup (map T_TokenHash (password_reset_tokens (db w))) -> NoDup (map U_Email (users (db w))) ->
  tok ∈ password_reset_tokens (db w) -> T_TokenHash tok = pwreset.Hash (TrimSpace token) ->
  get_row (is_user (T_UserID tok)) (users (db w)) = Ok user ->
  U_TempPasswordExpiresAt user = Some e -> e < clock w' ->
  Decode (dec_struct login_fields) (mkLogin "" "" false) rl = Some (mkLogin (U_Email user) password rem) ->
  faults w' = [] ->
  (serve (Login cfg cmp sign rl) w').1 = error_json 401 "temporary_password_expired".
Proof.
  intros Hlaws H Hs Hdec Hnd Hemails Hin Hhash Hrow Htemp Hexp Hlogin Hf.
  eapply serve_Ok in H; [|apply ResetPassword_throws|by intros ?].
  apply reset_success in H as (token' & password' & tok' & user' & salt & hashed & uid & w1 & w2 & Hdec' & Hin' & Hhash' &
    _ & Hrow' & Hforb & _ & _ & Hgen & Hd1 & Hc & Hd2).
  rewrite Hdec in Hdec'. injection Hdec' as <- <-.
  assert (tok' = tok) as -> by (eapply NoDup_key_eq; [exact Hnd|done|done|congruence]).
  rewrite Hrow in Hrow'. injection Hrow' as <-. destruct (Hlaws _ _ _ Hgen) as [Hcmp Hne].
  pose proof Hc as Hfits. apply (consume_owner _ _ _ _ _ _ tok) in Hc as [-> Hc]; [|by rewrite Hd1..|done].
  injection Hd2 as Hu _ _. rewrite Hc, Hd1 in Hu.
  apply get_row_Ok in Hrow as [Huin Hid]. apply (consume_fits _ _ _ _ _ _ user) in Hfits; [|by rewrite Hd1|by apply Z.eqb_eq].
  apply (login_expired cfg cmp sign rl w' (mkLogin (U_Email user) password rem) (set_PasswordHash hashed user) e); try done.
  rewrite Hu. apply (get_row_unique U_Email _ (set_PasswordHash hashed user)); [by rewrite map_update_same|].
  apply elem_of_update_where. exists user. split; [done|]. by rewrite Hid.
Qed.

(** ** Changing a password *)
Lemma served_committed (I : DB -> Prop) (Q : Resp -> DB -> Prop) {A} (body : Time -> MW A) f k :
  (forall resp d, I d -> Q resp d) -> (forall a w, Q (serve (k a) w).1 (db (serve (k a) w).2)) ->
  served I (or_else (transaction body) f ≫= k) Q.
Proof.
  intros HIQ Hok w Hw. unfold serve, or_else, map_err. rewrite M_bind_run.
  destruct (transaction body w) as [[a|e] w0] eqn:E; [apply (Hok a w0)|].
  apply transaction_rollback in E. apply HIQ. simpl. by rewrite E.
Qed.
Lemma ChangePassword_served X cfg gen cmp r :
  served (fixes account_tables X) (ChangePassword cfg gen cmp r) (fun resp d => Status resp = 200 \/ account_tables d = X).
Proof.
  assert (forall resp d, fixes account_tables X d -> Status resp = 200 \/ account_tables d = X) as HIQ by (intros; by right).
  unfold ChangePassword. apply served_bind; [done|handler_tac|intros u].
  apply served_bind; [done|handler_tac|intros user]. apply served_bind; [done|handler_tac|intros [current new] ].
  do 3 (apply served_bind; [done|handler_tac|intros _]).
  apply served_bind; [done|handler_tac|intros h]. apply served_bind; [done|handler_tac|intros hashed].
  apply served_committed; [done|]. intros x w. left. by rewrite serve_audited.
Qed.
Lemma ChangePassword_throws cfg gen cmp r : throws (fun x => Status x <> 200) (ChangePassword cfg gen cmp r).
Proof. unfold ChangePassword. throws_tac. Qed.
(** The row after the change: the new hash and no mark of a temporary password. *)
Definition unlocked (hash : string) (u : User) : User :=
  set_TempPasswordIssuedBy None (set_TempPasswordExpiresAt None
    (set_PasswordChangeRequiredAt None (set_PasswordHash hash u))).
Lemma change_success cfg gen cmp r w resp w' : ChangePassword cfg gen cmp r w = (Ok resp, w') ->
  exists current new user salt hashed w1 w2,
    Decode (dec_struct (two_fields "current_password" "new_password")) ("", "") r = Some (current, new) /\
    get_row (fun u => seqb (U_Email u) (default "" (R_UserEmail r))) (users (db w)) = Ok user /\
    cmp (U_PasswordHash user) current = true /\ new <> current /\ 8 <= RuneCountInString new /\
    gen new salt = Some hashed /\ db w1 = db w /\
    UserStore.ClearPasswordChangeRequired (U_ID user) hashed w1 = (Ok tt, w2) /\
    account_tables (db w') = account_tables (db w2).
Proof.
  unfold ChangePassword. intros H.
  apply M_bind_Ok in H as (u & w1 & Hrow%attempt_Ok_inv & H).
  apply M_bind_Ok in H as (user & ? & [Hu ->]%need_Ok_inv & H).
  destruct u as [[u|]|]; [injection Hu as ->|done..]. apply query_text_Ok_inv in Hrow as [Hrow Hd1].
  apply M_bind_Ok in H as ([current new] & ? & [Hdec ->]%need_Ok_inv & H).
  apply M_bind_Ok in H as (? & ? & [Hcmp ->]%check_Ok_inv & H).
  apply M_bind_Ok in H as (? & ? & [Hlen ->]%check_Ok_inv & H).
  apply M_bind_Ok in H as (? & ? & [Hne ->]%check_Ok_inv & H).
  apply M_bind_Ok in H as (h & w2 & Hgen & H).
  assert (db w2 = db w1) as Hd2 by (eapply keeps_run; [apply GenerateFromPassword_reads|exact Hgen]).
  apply M_bind_Ok in H as (hashed & ? & [Hh ->]%need_Ok_inv & H). destruct h as [h|]; [injection Hh as ->|done].
  apply GenerateFromPassword_run in Hgen as [salt Hgen].
  apply M_bind_Ok in H as ([] & w3 & Hc%or_else_Ok_inv & H).
  apply M_bind_Ok in H as (? & w4 & Ha & [_ ->]%mret_Ok_inv).
  exists current, new, user, salt, hashed, w2, w3. split_and!; try done.
  - by apply res_value_Some.
  - intros ->. by rewrite seqb_refl in Hne.
  - unfold long_enough, pwreset.MinPasswordLength in Hlen. lia.
  - congruence.
  - eapply fixes_run; [|exact Ha]. intros b. handler_tac.
Qed.

(** C28. Changing a password is the way out of the lock of a temporary one, and
    only for who knows the current password.  An answer other than 200 leaves
    accounts, links and sessions as they were.  On success the current
    password matched, the new one differs from it and has eight characters;
    the account has its hash and neither a required change nor an expiring
    temporary password any more, the other accounts are untouched, and no
    remembered session of the account is usable. *)
Theorem change_password_unlocks (cfg : Settings) (gen : string -> list ascii -> option string)
    (cmp : string -> string -> bool) (r : Request) (w w' : World) (resp : Resp) :
  serve (ChangePassword cfg gen cmp r) w = (resp, w') ->
  (Status resp <> 200 -> account_tables (db w') = account_tables (db w)) /\
  (Status resp = 200 -> exists current new user salt hashed,
     Decode (dec_struct (two_fields "current_password" "new_password")) ("", "") r = Some (current, new) /\
     get_row (fun u => seqb (U_Email u) (default "" (R_UserEmail r))) (users (db w)) = Ok user /\
     cmp (U_PasswordHash user) current = true /\ new <> current /\ 8 <= RuneCountInString new /\
     gen new salt = Some hashed /\
     users (db w') = update_where (is_user (U_ID user)) (unlocked hashed) (users (db w)) /\
     (forall u t, u ∈ users (db w') -> U_ID u = U_ID user ->
        PasswordChangeRequired (Some u) = false /\ TempPasswordExpired (Some u) t = false) /\
     (forall s t, s ∈ remember_sessions (db w') -> RS_UserID s = U_ID user -> RememberUsable (Some s) t = false)).
Proof.
  intros H. split.
  - intros Hs. pose proof (ChangePassword_served (account_tables (db w)) cfg gen cmp r w eq_refl) as Ho.
    rewrite H in Ho. by destruct Ho.
  - intros Hs. eapply serve_Ok in H; [|apply ChangePassword_throws|by intros ?].
    apply change_success in H as (current & new & user & salt & hashed & w1 & w2 & Hdec & Hrow & Hcmp & Hne & Hlen &
      Hgen & Hd1 & Hc & Hd2).
    apply write_credential_run in Hc as [t Hd]. injection Hd2 as Hu _ Hr. rewrite Hd in Hu, Hr. rewrite Hd1 in Hu, Hr.
    exists current, new, user, salt, hashed. split_and!; try done.
    + intros u t' Hin Hid. rewrite Hu in Hin. apply elem_of_update_where in Hin as (u0 & _ & ->).
      destruct (is_user (U_ID user) u0) eqn:E; [done|]. unfold is_user in E. lia.
    + rewrite Hr. apply revoked_all_unusable.
Qed.

(** ** The flows on a small world *)
(** One account with a password, a remembered session and a reset link. *)
Definition demo_hash (password : string) (salt : list ascii) : option string :=
  if (72 <? String.length password)%nat then None else Some ("h:" ++ password)%string.
Definition demo_compare (hash password : string) : bool := seqb hash ("h:" ++ password)%string.
Definition demo_sign (claims : gmap string json) : option string := Some "signed".
Definition demo_settings : Settings := mkSettings false false true true true true
  (mkMailService (fun _ => "") (fun _ _ _ _ _ _ => None) map_to_list) (fun _ => "").
Definition demo_account (temporary : option Time) : World :=
  on_db (fun d => on_users (fun _ => [mkUser 7 "a@b.c" "h:old-password" "user" "" "" "email" "" 0 0 None None None None
                                        None temporary None])
    (on_password_reset_tokens (fun _ => [mkResetToken 1 7 (pwreset.Hash "link") 50 None None None None 0])
    (on_remember_sessions (fun _ => [mkRemember 1 7 (remember.Hash "kept") 0 100 None None None]) d)))
    (empty_world 10 (repeat "s"%char 64)).
Definition demo_post (members : list (string * json)) : Request :=
  mkRequest "POST" (Some "a@b.c") None None ∅ ∅ ∅ "10.0.0.1:5000" (Some (mkBody (JObj members) 99 None)).
Definition demo_login (password : string) : Request :=
  demo_post [("email", JStr "a@b.c"); ("password", JStr password); ("remember_me", JBool true)].
Definition demo_reset : Request := demo_post [("token", JStr "link"); ("password", JStr "new-password")].
Definition demo_change : Request :=
  demo_post [("current_password", JStr "old-password"); ("new_password", JStr "new-password")].
Lemma demo_bcrypt : bcrypt_laws demo_hash demo_compare.
Proof.
  intros p salt h. unfold demo_hash, demo_compare. destruct (_ <? _)%nat; [done|]. intros [= <-].
  split; [apply seqb_refl|done].
Qed.

Lemma login_spec_witness :
  credentials (db (serve (Login demo_settings demo_compare demo_sign (demo_login "old-password")) (demo_account None)).2)
    = credentials (db (demo_account None)) /\
  exists user, U_ForbiddenAt user = None /\ demo_compare (U_PasswordHash user) "old-password" = true.
Proof.
  destruct (login_spec demo_settings demo_compare demo_sign (demo_login "old-password") (demo_account None)
    (serve (Login demo_settings demo_compare demo_sign (demo_login "old-password")) (demo_account None)).2
    (serve (Login demo_settings demo_compare demo_sign (demo_login "old-password")) (demo_account None)).1) as [H1 H2];
    [vm_compute; reflexivity|].
  split; [exact H1|]. destruct H2 as (req & user & t & token & extra & Hreq & _ & Hf & Hcmp & _); [vm_compute; reflexivity|].
  exists user. split; [exact Hf|]. vm_compute in Hreq. injection Hreq as <-. exact Hcmp.
Defined.
Lemma reset_password_spec_witness :
  exists user, U_ForbiddenAt user = None /\
    get_row (is_user 7) (users (db (demo_account None))) = Ok user.
Proof.
  destruct (reset_password_spec demo_settings demo_hash demo_compare demo_reset (demo_account None)
    (serve (ResetPassword demo_settings demo_hash demo_compare demo_reset) (demo_account None)).2
    (serve (ResetPassword demo_settings demo_hash demo_compare demo_reset) (demo_account None)).1) as [_ H];
    [vm_compute; reflexivity|apply NoDup_singleton|].
  destruct H as (token & password & tok & user & salt & hashed & _ & Hin & _ & _ & Hrow & Hf & _);
    [vm_compute; reflexivity|].
  exists user. split; [exact Hf|]. apply list_elem_of_singleton in Hin. rewrite Hin in Hrow. exact Hrow.
Defined.
Lemma reset_leaves_temporary_lock_witness :
  (serve (Login demo_settings demo_compare demo_sign (demo_login "new-password"))
    (serve (ResetPassword demo_settings demo_hash demo_compare demo_reset) (demo_account (Some 5))).2).1
  = error_json 401 "temporary_password_expired".
Proof.
  eapply (reset_leaves_temporary_lock demo_settings demo_hash demo_compare demo_sign demo_reset (demo_login "new-password")
    (demo_account (Some 5)) _ (serve (ResetPassword demo_settings demo_hash demo_compare demo_reset) (demo_account (Some 5))).1
    "link" "new-password" _ _ 5 true demo_bcrypt).
  - apply surjective_pairing.
  - vm_compute. reflexivity.
  - vm_compute. reflexivity.
  - apply NoDup_singleton.
  - apply NoDup_singleton.
  - left.
  - vm_compute. reflexivity.
  - vm_compute. reflexivity.
  - vm_compute. reflexivity.
  - vm_compute. reflexivity.
  - vm_compute. reflexivity.
  - vm_compute. reflexivity.
Defined.
Lemma change_password_unlocks_witness :
  exists user hashed, users (db (serve (ChangePassword demo_settings demo_hash demo_compare demo_change)
      (demo_account (Some 5))).2) =
    update_where (is_user (U_ID user)) (unlocked hashed) (users (db (demo_account (Some 5)))).
Proof.
  destruct (change_password_unlocks demo_settings demo_hash demo_compare demo_change (demo_account (Some 5))
    (serve (ChangePassword demo_settings demo_hash demo_compare demo_change) (demo_account (Some 5))).2
    (serve (ChangePassword demo_settings demo_hash demo_compare demo_change) (demo_account (Some 5))).1) as [_ H];
    [vm_compute; reflexivity|].
  destruct H as (current & new & user & salt & hashed & _ & _ & _ & _ & _ & _ & Hu & _); [vm_compute; reflexivity|].
  exists user, hashed. exact Hu.
Defined.
