(* ===== verification/ResetRace.v ===== *)
(** * Reset links under simultaneous requests

    Requests to [ResetPassword] of [Identity] cut into their statements and
    interleaved: however many carry the same token, one at most is answered
    with success.  The transaction of [ConsumeAndSetPassword] is one step: its
    first statement locks the row of the token until it ends. *)
From S2P Require Import Prelude GoStr Json Exchange Accounts World Interleaving AuditStore Crypto AccountStore Http Middleware Identity Credentials.
#[global] Open Scope Z_scope.

Section reset.
Context (cfg : Settings) (bcrypt_Generate : string -> list ascii -> option string)
        (bcrypt_Compare : string -> string -> bool).
(** [ResetPassword], a turn for each of its calls. *)
Definition reset_proc (r : Request) : Proc Resp Resp :=
  _ ← call (check (hasResets cfg) (error_json 503 "unavailable"));
  '(token, password) ← call (need (Decode (dec_struct (two_fields "token" "password")) ("", "") r) (error_json 400 "invalid_request"));
  let ip := ClientIP r in
  let plain := TrimSpace token in
  _ ← call (if is_empty plain then reset_invalid cfg 0 "" ip "empty token" else mret tt);
  let tokenHash := pwreset.Hash plain in
  tok ← call (or_else (PasswordResetStore.GetByHash tokenHash) (fun _ => server_error));
  tok ← call (match tok with
              | None => reset_invalid cfg 0 "" ip "token not usable"
              | Some k => t ← now;
                          if TokenUsable tok t then mret k else reset_invalid cfg 0 "" ip "token not usable"
              end);
  u ← call (or_else (UserStore.GetUserByID (T_UserID tok)) (fun _ => server_error));
  user ← call (match u with Some u => mret u | None => reset_invalid cfg 0 "" ip "user missing" end);
  _ ← (if IsUserForbidden (Some user) then
         _ ← call (ignore (PasswordResetStore.InvalidateForUser (U_ID user)));
         _ ← call (audit_user cfg (U_ID user) (U_Email user) "PASSWORD_RESET_TOKEN_INVALID" ip "account forbidden");
         call (reject (error_json 403 "account_forbidden"))
       else mret tt);
  _ ← call (check (long_enough password) weak_password);
  _ ← call (check (negb (negb (is_empty (U_PasswordHash user)) && bcrypt_Compare (U_PasswordHash user) password)) password_reused);
  h ← call (GenerateFromPassword bcrypt_Generate password);
  hashed ← call (need (res_value h) server_error);
  c ← call (attempt (PasswordResetStore.ConsumeAndSetPassword tokenHash hashed ip));
  userID ← call (match c with
                 | Ok id => mret id
                 | Fail _ => reset_invalid cfg (U_ID user) (U_Email user) ip "consume failed"
                 end);
  _ ← call (audit_user cfg userID (U_Email user) "PASSWORD_RESET_COMPLETED" ip "password updated");
  mret (message 200 "Mot de passe mis à jour.").
Lemma reset_proc_alone r w : alone (reset_proc r) w = ResetPassword cfg bcrypt_Generate bcrypt_Compare r w.
Proof.
  unfold reset_proc, ResetPassword. apply alone_step; intros _ w1. apply alone_step; intros [token password] w2.
  apply alone_step; intros _ w3. apply alone_step; intros tok w4. apply alone_step; intros tok' w5. apply alone_step; intros u w6.
  apply alone_step; intros user w7.
  assert (forall (f : unit -> Proc Resp Resp) (g : unit -> HW Resp), (forall a w, alone (f a) w = g a w) ->
    alone ((if IsUserForbidden (Some user) then _ ← call (ignore (PasswordResetStore.InvalidateForUser (U_ID user)));
         _ ← call (audit_user cfg (U_ID user) (U_Email user) "PASSWORD_RESET_TOKEN_INVALID" (ClientIP r) "account forbidden");
         call (reject (error_json 403 "account_forbidden")) else mret tt) ≫= f) w7 =
    ((if IsUserForbidden (Some user) then
         _ ← ignore (PasswordResetStore.InvalidateForUser (U_ID user));
         _ ← audit_user cfg (U_ID user) (U_Email user) "PASSWORD_RESET_TOKEN_INVALID" (ClientIP r) "account forbidden";
         reject (error_json 403 "account_forbidden") else mret tt) ≫= g) w7) as Hif.
  { intros f g Hfg. rewrite alone_bind, !M_bind_run. destruct (IsUserForbidden (Some user)); [|apply Hfg].
    match goal with |- match alone ?p w7 with _ => _ end = match ?q w7 with _ => _ end => assert (alone p w7 = q w7) as -> end.
    { apply alone_step; intros _ w8. apply alone_step; intros _ w9. apply alone_call. }
    match goal with |- match ?x with _ => _ end = _ => destruct x as [ [ [] |e] w8] end; [apply Hfg|done]. }
  apply Hif. intros _ ?. do 2 (apply alone_step; intros _ ?). apply alone_step; intros h ?. apply alone_step; intros hashed ?.
  apply alone_step; intros c ?. apply alone_step; intros id ?. apply alone_step; intros _ ?. done.
Qed.
End reset.

(** ** A token that cannot be used any more *)
Definition dead_since (h : string) (t0 : Time) (d : DB) : Prop :=
  forall tok, tok ∈ password_reset_tokens d -> T_TokenHash tok = h -> dead t0 tok.
Definition spent (h : string) (w : World) : Prop := dead_since h (clock w) (db w).
(** A call that leaves spent tokens spent. *)
Definition keeps_spent {E A} (m : M World E A) : Prop := forall h t0, preserves (since t0 (dead_since h t0)) m.
Lemma spent_run {E A} (m : M World E A) h w : keeps_spent m -> spent h w -> spent h (m w).2.
Proof.
  intros Hm Hs. destruct (Hm h (clock w) w) as [Hc Hd]; [by split|]. intros tok Hin Hh.
  destruct (Hd tok Hin Hh) as [H|[H|H]]; [by left|by right; left|right; right; lia].
Qed.
Lemma dead_update h t0 p f d : (forall tok, token_le tok (f tok)) -> dead_since h t0 d ->
  dead_since h t0 (on_password_reset_tokens (update_where p f) d).
Proof.
  intros Hf Hd tok (tok0 & Hin & ->)%elem_of_update_where Hh. destruct (p tok0); [|by apply Hd].
  apply (dead_token_le _ tok0); [done|]. apply Hd; [done|]. by destruct (Hf tok0) as (_ & _ & <- & _).
Qed.
Lemma keeps_now {E} : keeps_spent (@now E).
Proof. intros h t0. apply since_now. Qed.
Lemma keeps_ret {E A} (a : A) : keeps_spent (mret a : M World E A).
Proof. intros h t0. apply preserves_ret. Qed.
Lemma keeps_throw {E A} (e : E) : keeps_spent (throw e : M World E A).
Proof. intros h t0. apply preserves_throw. Qed.
Lemma keeps_bind {E A B} (m : M World E A) (f : A -> M World E B) :
  keeps_spent m -> (forall a, keeps_spent (f a)) -> keeps_spent (m ≫= f).
Proof. intros Hm Hf h t0. apply preserves_bind; [apply Hm|intros a; apply Hf]. Qed.
Lemma keeps_try {E E' A} (m : M World E A) : keeps_spent m -> keeps_spent (try m : M World E' _).
Proof. intros Hm h t0. by apply preserves_try. Qed.
Lemma keeps_or_else {A} (m : MW A) f : keeps_spent m -> keeps_spent (or_else m f).
Proof. intros Hm h t0. by apply preserves_map_err. Qed.
Lemma keeps_check ok resp : keeps_spent (check ok resp).
Proof. intros h t0. destruct ok; [apply preserves_ret|apply preserves_throw]. Qed.
Lemma keeps_need {A} (o : option A) resp : keeps_spent (need o resp).
Proof. intros h t0. apply preserves_lift. Qed.
Lemma keeps_query {A} (f : DB -> A) : keeps_spent (query f).
Proof. intros h t0. apply since_query. Qed.
Create HintDb spent.
#[local] Hint Resolve keeps_now keeps_ret keeps_throw keeps_check keeps_need keeps_query keeps_or_else keeps_try : spent.
Lemma keeps_audit cfg id em a ip details : keeps_spent (audit_user cfg id em a ip details).
Proof.
  unfold audit_user. destruct (negb _); [auto with spent|]. apply keeps_bind; [auto with spent|]. intros t. unfold ignore.
  apply keeps_bind; [|auto with spent]. apply keeps_try. intros h t0. unfold CreateAuditLog. since_tac. done.
Qed.
Lemma keeps_invalid cfg id em ip details {A} : keeps_spent (reset_invalid cfg id em ip details (A := A)).
Proof. unfold reset_invalid, reject. apply keeps_bind; [apply keeps_audit|auto with spent]. Qed.
Lemma keeps_invalidate id : keeps_spent (ignore (PasswordResetStore.InvalidateForUser id)).
Proof.
  unfold ignore. apply keeps_bind; [|auto with spent]. apply keeps_try. intros h t0. unfold PasswordResetStore.InvalidateForUser.
  since_tac. apply dead_update; [apply token_le_invalidate|done].
Qed.
Lemma keeps_hash gen password : keeps_spent (GenerateFromPassword gen password).
Proof.
  unfold GenerateFromPassword. apply keeps_bind; [|auto with spent]. apply keeps_try. intros h t0. apply since_rand.
Qed.
Lemma keeps_consume h p ip : keeps_spent (PasswordResetStore.ConsumeAndSetPassword h p ip).
Proof.
  intros h' t0. unfold PasswordResetStore.ConsumeAndSetPassword. since_tac.
  - apply dead_update; [apply token_le_consume|done].
  - apply dead_update; [apply token_le_invalidate|done].
  - done.
Qed.
#[local] Hint Resolve keeps_audit keeps_invalid keeps_invalidate keeps_hash keeps_consume : spent.
(** A successful use spends a token that was not spent. *)
Lemma consume_spends h p ip w id : (PasswordResetStore.ConsumeAndSetPassword h p ip w).1 = Ok id ->
  ~ spent h w /\ spent h (PasswordResetStore.ConsumeAndSetPassword h p ip w).2.
Proof.
  destruct (PasswordResetStore.ConsumeAndSetPassword h p ip w) as [r w'] eqn:E. cbn. intros ->. split.
  - apply consume_run in E as (t & tok & Ht & _ & Hin & _ & Hc & _). intros Hs.
    assert (T_TokenHash tok = h) as Hh.
    { unfold PasswordResetStore.consumable in Hc. rewrite !andb_true_iff in Hc. by destruct Hc as [ [ [Hc%seqb_spec _] _] _]. }
    by rewrite (dead_not_consumable h (clock w) t tok Ht (Hs tok Hin Hh)) in Hc.
  - apply consume_clears in E as (t & Ht & Hd & _). intros tok Hin Hh.
    destruct (Hd tok Hin Hh) as [H|[H|H]]; [by left|by right; left|right; right; lia].
Qed.

(** ** At most one success *)
Definition answer_of (r : res Resp Resp) : Resp := match r with Ok resp => resp | Fail resp => resp end.
(** A request that leaves spent tokens spent. *)
Fixpoint calm (p : Proc Resp Resp) : Prop :=
  match p with Return _ => True | Call m k => keeps_spent m /\ forall r, calm (k r) end.
(** One that cannot be answered 200 unless it spends the token [h] first. *)
Fixpoint fresh (h : string) (p : Proc Resp Resp) : Prop :=
  match p with
  | Return r => not_ok (answer_of r)
  | Call m k => keeps_spent m /\ forall w,
      fresh h (k (m w).1) \/ (~ spent h w /\ spent h (m w).2 /\ calm (k (m w).1))
  end.
Lemma fresh_bind {A} h (m : HW A) f : keeps_spent m -> throws not_ok m -> (forall w a, (m w).1 = Ok a -> fresh h (f a)) ->
  fresh h (call m ≫= f).
Proof.
  intros Hm Ht Hf. split; [done|]. intros w. left. destruct (m w) as [ [a|e] w'] eqn:E; cbn.
  - apply (Hf w). by rewrite E.
  - by eapply Ht.
Qed.
Lemma calm_bind {A} (m : HW A) f : keeps_spent m -> (forall a, calm (f a)) -> calm (call m ≫= f).
Proof. intros Hm Hf. split; [done|]. by intros [a|e]; [apply Hf|]. Qed.
Lemma invalid_never cfg id em ip details {A} w (a : A) : (reset_invalid cfg id em ip details w).1 <> Ok a.
Proof. unfold reset_invalid. rewrite M_bind_run. by destruct (audit_user _ _ _ _ _ _ w) as [ [u|e] w1]. Qed.
Lemma invalid_throws cfg id em ip details {A} : throws not_ok (reset_invalid cfg id em ip details (A := A)).
Proof. unfold reset_invalid, audit_user, reject. throws_tac. intros w e w' [= <- _]. discriminate. Qed.
Lemma audit_throws cfg id em a ip details : throws not_ok (audit_user cfg id em a ip details).
Proof. unfold audit_user. throws_tac. Qed.
Lemma ignore_throws {A} (m : MW A) : throws not_ok (ignore m).
Proof. apply throws_ignore. Qed.
#[local] Hint Resolve invalid_throws audit_throws ignore_throws : throws.
(** The token of a request, digested. *)
Definition bears (h : string) (r : Request) : Prop :=
  exists token password, Decode (dec_struct (two_fields "token" "password")) ("", "") r = Some (token, password) /\
    pwreset.Hash (TrimSpace token) = h.
#[export] Instance bears_dec h r : Decision (bears h r).
Proof.
  unfold bears. destruct (Decode _ _ r) as [ [token password]|] eqn:E; [|right; by intros (? & ? & ? & _)].
  destruct (decide (pwreset.Hash (TrimSpace token) = h)) as [H|H]; [left; eauto|right].
  intros (t & p & [= <- <-] & Ht). done.
Defined.
Section reset.
Context (cfg : Settings) (bcrypt_Generate : string -> list ascii -> option string)
        (bcrypt_Compare : string -> string -> bool).
Lemma usable_keeps tok ip : keeps_spent (match tok with
  | None => reset_invalid cfg 0 "" ip "token not usable"
  | Some k => t ← now; if TokenUsable tok t then mret k else reset_invalid cfg 0 "" ip "token not usable" end).
Proof. destruct tok; [|auto with spent]. apply keeps_bind; [auto with spent|]. intros t. destruct (TokenUsable _ t); auto with spent. Qed.
Lemma usable_throws tok ip : throws not_ok (match tok with
  | None => reset_invalid cfg 0 "" ip "token not usable"
  | Some k => t ← now; if TokenUsable tok t then mret k else reset_invalid cfg 0 "" ip "token not usable" end).
Proof. throws_tac. Qed.
Lemma fresh_refusal h id email ip {A} (f : A -> Proc Resp Resp) :
  fresh h ((_ ← call (ignore (PasswordResetStore.InvalidateForUser id));
            _ ← call (audit_user cfg id email "PASSWORD_RESET_TOKEN_INVALID" ip "account forbidden");
            call (reject (error_json 403 "account_forbidden"))) ≫= f).
Proof.
  split; [auto with spent|]. intros w. left. destruct (ignore _ w) as [ [u|e] w'] eqn:E; cbn; [|by eapply ignore_throws].
  split; [auto with spent|]. intros w2. left. destruct (audit_user _ _ _ _ _ _ w2) as [ [u2|e] w3] eqn:E2; cbn; [|by eapply audit_throws].
  split; [apply keeps_throw|]. intros w4. left. discriminate.
Qed.
Lemma reset_fresh h r : bears h r -> fresh h (reset_proc cfg bcrypt_Generate bcrypt_Compare r).
Proof.
  intros (token & password & Hdec & <-). unfold reset_proc.
  apply fresh_bind; [auto with spent|throws_tac|intros _ _ _].
  apply fresh_bind; [auto with spent|throws_tac|]. rewrite Hdec. intros w1 [token' password'] [= <- <-].
  apply fresh_bind; [destruct (is_empty _); auto with spent|throws_tac|intros _ _ _].
  apply fresh_bind; [apply keeps_or_else, keeps_query|throws_tac|intros _ tok _].
  apply fresh_bind; [apply usable_keeps|apply usable_throws|intros _ tok' _].
  apply fresh_bind; [apply keeps_or_else, keeps_query|throws_tac|intros _ u _].
  apply fresh_bind; [destruct u; auto with spent|throws_tac|intros _ user _].
  destruct (IsUserForbidden (Some user)); [by apply fresh_refusal|]. change (mret ()) with (Return (E := Resp) (Ok tt)).
  unfold mbind at 1, Proc_bind at 1. cbn [proc_bind].
  apply fresh_bind; [auto with spent|throws_tac|intros _ _ _]. apply fresh_bind; [auto with spent|throws_tac|intros _ _ _].
  apply fresh_bind; [auto with spent|unfold GenerateFromPassword; throws_tac|intros _ hash _].
  apply fresh_bind; [auto with spent|throws_tac|intros _ hashed _].
  split; [apply keeps_try; auto with spent|]. intros w. unfold attempt, try.
  pose proof (consume_spends (pwreset.Hash (TrimSpace token)) hashed (ClientIP r) w) as Hsp.
  destruct (PasswordResetStore.ConsumeAndSetPassword _ _ _ w) as [ [id|e] w']; cbn in Hsp |- *.
  - right. destruct (Hsp id eq_refl) as [H1 H2]. split_and!; [done|done|auto with spent|]. intros [id'|e]; cbn; [|done].
    split; [auto with spent|]. by intros [ [] |e].
  - left. split; [auto with spent|]. intros w2. left. pose proof (invalid_never cfg (U_ID user) (U_Email user) (ClientIP r) "consume failed" (A := Z) w2) as Hn.
    pose proof (invalid_throws cfg (U_ID user) (U_Email user) (ClientIP r) "consume failed" (A := Z)) as Ht.
    destruct (reset_invalid _ _ _ _ _ w2) as [ [a|e'] w3] eqn:E; [by destruct (Hn a)|]. by eapply Ht.
Qed.
Lemma reset_calm r : calm (reset_proc cfg bcrypt_Generate bcrypt_Compare r).
Proof.
  unfold reset_proc. apply calm_bind; [auto with spent|intros _]. apply calm_bind; [auto with spent|intros [token password] ].
  apply calm_bind; [destruct (is_empty _); auto with spent|intros _]. apply calm_bind; [apply keeps_or_else, keeps_query|intros tok].
  apply calm_bind; [apply usable_keeps|intros tok']. apply calm_bind; [apply keeps_or_else, keeps_query|intros u].
  apply calm_bind; [destruct u; auto with spent|intros user].
  match goal with |- calm (_ ≫= ?f) => assert (forall u, calm (f u)) as Hf end.
  { intros _. do 2 (apply calm_bind; [auto with spent|intros _]). apply calm_bind; [auto with spent|intros hash].
    apply calm_bind; [auto with spent|intros hashed]. apply calm_bind; [apply keeps_try; auto with spent|intros c].
    apply calm_bind; [destruct c; auto with spent|intros id]. by apply calm_bind; [auto with spent|]. }
  destruct (IsUserForbidden (Some user)); [|exact (Hf tt)].
  split; [auto with spent|]. intros [ [] |e]; [|done]. split; [auto with spent|]. intros [ [] |e]; [|done].
  split; [apply keeps_throw|]. intros [ [] |e]; [exact (Hf tt)|done].
Qed.

Lemma calm_advance p w : calm p -> calm (advance p w).1.
Proof. destruct p as [r|E B m k]; [done|]. intros [_ H]. cbn. destruct (m w). apply H. Qed.
Lemma calm_spent h p w : calm p -> spent h w -> spent h (advance p w).2.
Proof.
  destruct p as [r|E B m k]; [done|]. intros [H _] Hs. cbn. apply (spent_run m) in Hs; [|done]. by destruct (m w).
Qed.
Lemma fresh_advance h p w : fresh h p ->
  fresh h (advance p w).1 \/ (~ spent h w /\ spent h (advance p w).2).
Proof.
  destruct p as [r|E B m k]; [by left|]. intros [_ H]. cbn. destruct (H w) as [H1|(H1 & H2 & _)]; destruct (m w); [by left|by right].
Qed.

(** Before a request succeeds every bearer of the token is [fresh]; after, the
    token is spent and every bearer but one is. *)
Definition all_calm (ps : Pool Resp Resp) : Prop := forall i p, ps !! i = Some p -> calm p.
Definition fresh_but (h : string) (rs : list Request) (winner : nat -> Prop) (ps : Pool Resp Resp) : Prop :=
  forall i r p, rs !! i = Some r -> bears h r -> ps !! i = Some p -> ~ winner i -> fresh h p.
Definition reset_inv (h : string) (rs : list Request) (ps : Pool Resp Resp) (w : World) : Prop :=
  all_calm ps /\ (fresh_but h rs (fun _ => False) ps \/ (spent h w /\ exists j, fresh_but h rs (eq j) ps)).
Lemma insert_cases {A} (l : list A) i j x y : <[i := x]> l !! j = Some y -> (i = j /\ y = x) \/ (i <> j /\ l !! j = Some y).
Proof. intros [(-> & -> & _)|?]%list_lookup_insert_Some; auto. Qed.
Lemma bearer_dec h (rs : list Request) (i : nat) : Decision (exists r, rs !! i = Some r /\ bears h r).
Proof.
  destruct (rs !! i) as [r|]; [|right; by intros (? & ? & _)].
  destruct (decide (bears h r)); [left; eauto|right]. by intros (? & [= <-] & ?).
Defined.
Lemma reset_step h rs ps w i p p' w' : reset_inv h rs ps w -> ps !! i = Some p -> advance p w = (p', w') ->
  reset_inv h rs (<[i := p']> ps) w'.
Proof.
  intros [Hc Hf] Hi Ha. split.
  - intros j q [ [_ ->]|[_ Hq] ]%insert_cases; [|by eapply Hc]. pose proof (calm_advance p w (Hc _ _ Hi)) as H. by rewrite Ha in H.
  - assert (forall win, fresh_but h rs win ps -> (forall r, rs !! i = Some r -> bears h r -> ~ win i -> fresh h p') ->
      fresh_but h rs win (<[i := p']> ps)) as Hkeep.
    { intros win Hw Hp j r q Hr Hb [ [<- ->]|[_ Hq] ]%insert_cases Hn; [by eapply Hp|by eapply Hw]. }
    assert (fresh h p -> fresh h p' \/ (~ spent h w /\ spent h w')) as Hstep.
    { intros Hp. pose proof (fresh_advance h p w Hp) as H. by rewrite Ha in H. }
    destruct Hf as [Hf|(Hs & j & Hf)].
    + destruct (bearer_dec h rs i) as [(r & Hr & Hb)|Hno].
      * destruct (Hstep (Hf i r p Hr Hb Hi (fun F => F))) as [Hp'|[_ Hs] ].
        { left. by apply Hkeep. }
        right. split; [done|]. exists i. apply Hkeep; [|done]. intros j r2 q H1 H2 H3 _. exact (Hf j r2 q H1 H2 H3 (fun F => F)).
      * left. apply Hkeep; [done|]. intros r Hr Hb. destruct Hno. by exists r.
    + right. pose proof (calm_spent h p w (Hc _ _ Hi) Hs) as Hs'. rewrite Ha in Hs'. split; [done|]. exists j.
      apply Hkeep; [done|]. intros r Hr Hb Hn. by destruct (Hstep (Hf i r p Hr Hb Hi Hn)) as [?|[? _] ].
Qed.
End reset.

(** C15. Requests to reset a password that run at the same time, interleaved
    statement by statement in any way, some failing, whatever else they carry:
    of those that carry one token at most one is answered with success, and once
    one is, the token is used up, superseded or expired in the table. *)
Theorem reset_race (cfg : Settings) (gen : string -> list ascii -> option string) (compare : string -> string -> bool)
    (rs : list Request) (schedule : list nat) (w : World) (h : string) :
  let '(ps, w') := interleave schedule (map (reset_proc cfg gen compare) rs, w) in
  forall i r a, rs !! i = Some r -> bears h r -> ps !! i = Some (Return a) -> Status (answer_of a) = 200 ->
  spent h w' /\
  forall j r2 b, rs !! j = Some r2 -> bears h r2 -> ps !! j = Some (Return b) -> Status (answer_of b) = 200 -> j = i.
Proof.
  destruct (interleave _ _) as [ps w'] eqn:E.
  assert (reset_inv h rs ps w') as [_ Hf].
  { change (reset_inv h rs (ps, w').1 (ps, w').2). rewrite <-E. apply interleave_inv; [|intros; by eapply reset_step].
    split; [|left]; intros i; rewrite list_lookup_fmap; [|intros r]; intros p H.
    - apply fmap_Some in H as (r & _ & ->). apply reset_calm.
    - intros Hb Hp _. rewrite H in Hp. injection Hp as <-. by apply reset_fresh. }
  intros i r a Hr Hb Hi Ha. destruct Hf as [Hf|(Hs & j & Hf)].
  - destruct (Hf i r _ Hr Hb Hi (fun F => F) Ha).
  - assert (forall k r k_ans, rs !! k = Some r -> bears h r -> ps !! k = Some (Return k_ans) -> Status (answer_of k_ans) = 200 -> j = k) as Hwin.
    { intros k r' b Hk Hbk Hpk Hok. destruct (decide (j = k)) as [|Hne]; [done|]. destruct (Hf k r' _ Hk Hbk Hpk Hne Hok). }
    split; [done|]. intros k r2 b Hk Hbk Hpk Hok. by rewrite <-(Hwin k r2 b), <-(Hwin i r a).
Qed.
(** Two requests with the same link, turn by turn: both find it usable, one uses it. *)
Definition two_resets : Pool Resp Resp * World :=
  interleave (round_robin 2 14) (map (reset_proc demo_settings demo_hash demo_compare) [demo_reset; demo_reset], demo_account None).
Lemma two_resets_answers : exists a, two_resets.1 = [Return (Ok (message 200 "Mot de passe mis à jour.")); Return a] /\ Status (answer_of a) = 400.
Proof. vm_compute. eexists. split; reflexivity. Qed.
Lemma demo_bears : bears (pwreset.Hash "link") demo_reset.
Proof. eexists _, _. split; reflexivity. Qed.
Lemma reset_race_witness : spent (pwreset.Hash "link") two_resets.2.
Proof.
  destruct two_resets_answers as (a & Ha & _). revert Ha. unfold two_resets.
  generalize (reset_race demo_settings demo_hash demo_compare [demo_reset; demo_reset] (round_robin 2 14) (demo_account None) (pwreset.Hash "link")).
  generalize (interleave (round_robin 2 14) (map (reset_proc demo_settings demo_hash demo_compare) [demo_reset; demo_reset], demo_account None)).
  intros [ps w'] H Ha. cbn [fst] in Ha. subst ps. exact (proj1 (H 0%nat demo_reset _ eq_refl demo_bears eq_refl eq_refl)).
Defined.
