(* ===== verification/Reports.v ===== *)
(** * Support reports: what they guarantee

    A report is refused when its text looks private, an account files at most
    so many in any window of time, and a stored report moves one way: waiting,
    then sent once to the repository of its kind, then resolved or closed. *)
From S2P Require Import Prelude GoStr Regex Json JsonText Exchange Accounts Lights World Sensitive Crypto AccountStore Http.
From S2P Require Import Portal Middleware Support.
#[global] Open Scope Z_scope.

(** ** What the service expects of the GitHub client *)
Class GitHubLaws (gh : GitHub) := {
  gh_create_quiet : forall repo i, quiets (CreateIssue gh repo i);
  gh_project_quiet : forall p c, quiets (AddToProject gh p c);
  gh_get_quiet : forall repo n, quiets (GetIssue gh repo n) }.
Section client.
Context (app inst base : string) (sign : string -> Time -> Time -> option string).
Context (answers : list GHRequest -> GHRequest -> option (Z * list Z)).
Lemma quiets_log f : quiets (modify (on_gh_log f) : GH unit).
Proof. by intros w. Qed.
Lemma quiets_token f : quiets (modify (on_gh_token f) : GH unit).
Proof. by intros w. Qed.
Hint Resolve quiets_log quiets_token : fixed.
Lemma do_quiets m p b body : quiets (AppClient.do base answers m p b body).
Proof. unfold AppClient.do. fixed_tac. Qed.
Hint Resolve do_quiets : fixed.
Lemma Unmarshal_quiets {A} (d : decoder A) z raw : quiets (AppClient.Unmarshal d z raw).
Proof. unfold AppClient.Unmarshal. fixed_tac. Qed.
Hint Resolve Unmarshal_quiets : fixed.
Lemma authed_quiets m p body : quiets (AppClient.authed app inst base sign answers m p body).
Proof. unfold AppClient.authed, AppClient.installationToken, AppClient.cached_token, AppClient.appJWT. fixed_tac. Qed.
Hint Resolve authed_quiets : fixed.
#[export] Instance app_client_laws : GitHubLaws (AppClient.github app inst base sign answers).
Proof.
  split; intros; cbn [CreateIssue AddToProject GetIssue AppClient.github].
  - unfold AppClient.CreateIssue, AppClient.post_issue. fixed_tac.
  - unfold AppClient.AddToProject. fixed_tac.
  - unfold AppClient.GetIssue. fixed_tac.
Qed.
End client.

(** ** The statements on one report *)
(** At most one write, of a row with the given id, by one of the changes of [F]. *)
Definition touches (F : (SupportReport -> SupportReport) -> Prop) (id : Z) (w w' : World) : Prop :=
  sequences w' = sequences w /\
  (db w' = db w \/ exists f, F f /\ db w' = on_support_reports (update_where (SupportReportStore.is_report id) f) (db w)).
Lemma touches_quiet F id w w' : quiet w w' -> touches F id w w'.
Proof. intros [H1 H2]. split; [done|by left]. Qed.
Lemma quiet_touches F id w w1 w' : quiet w w1 -> touches F id w1 w' -> touches F id w w'.
Proof. intros [H1 H2] [H3 H4]. split; [congruence|]. by rewrite <-H1. Qed.
Lemma touches_impl (F G : (SupportReport -> SupportReport) -> Prop) id w w' :
  (forall f, F f -> G f) -> touches F id w w' -> touches G id w w'.
Proof. intros HFG [H1 [H2|(f & Hf & H2)]]; split; eauto. Qed.
(** A call that reads, then writes last. *)
Definition touching {E A} (F : (SupportReport -> SupportReport) -> Prop) (id : Z) (m : M World E A) : Prop :=
  forall w, touches F id w (m w).2.
Lemma touching_read {E A B} F id (m : M World E A) (f : A -> M World E B) :
  quiets m -> (forall a, touching F id (f a)) -> touching F id (m ≫= f).
Proof.
  intros Hm Hf w. rewrite M_bind_run. pose proof (quiets_at m w Hm) as Hq. destruct (m w) as [[a|e] w1]; [|by apply touches_quiet].
  eapply quiet_touches; [exact Hq|apply Hf].
Qed.
Lemma touching_write {E} (F : (SupportReport -> SupportReport) -> Prop) id f : F f ->
  touching F id (modify (on_db (on_support_reports (update_where (SupportReportStore.is_report id) f))) : M World E unit).
Proof. intros Hf w. split; [done|]. right. by exists f. Qed.
Ltac touching_tac := repeat first [apply touching_read; [fixed_tac|intros] | apply touching_write; eauto].
Definition sends (repo : string) (f : SupportReport -> SupportReport) : Prop :=
  exists number url t, f = SupportReportStore.sent repo number url t.
Definition fails_send (f : SupportReport -> SupportReport) : Prop := exists msg t, f = SupportReportStore.failed_send msg t.
Definition refreshes (f : SupportReport -> SupportReport) : Prop :=
  exists status t, status ∈ [SupportStatusOpen; SupportStatusResolved; SupportStatusClosed] /\ f = SupportReportStore.refreshed status t.
Lemma MarkSent_touching id repo number url : touching (sends repo) id (SupportReportStore.MarkSent id repo number url).
Proof. unfold SupportReportStore.MarkSent. touching_tac. unfold sends. eauto. Qed.
Lemma MarkFailed_touching id msg : touching fails_send id (SupportReportStore.MarkFailed id msg).
Proof. unfold SupportReportStore.MarkFailed. touching_tac. unfold fails_send. eauto. Qed.
Lemma UpdateStatus_touching id i : touching refreshes id (SupportReportStore.UpdateStatus id (StatusFromIssue i)).
Proof.
  unfold SupportReportStore.UpdateStatus. touching_tac. unfold refreshes. do 2 eexists. split; [|done].
  unfold StatusFromIssue. destruct (negb _); [left|]. destruct (seqb _ _); [right; left|right; right; left].
Qed.
Lemma touching_then {E A B} F id (m : M World E A) (f : A -> M World E B) :
  touching F id m -> (forall a, quiets (f a)) -> touching F id (m ≫= f).
Proof.
  intros Hm Hf w. rewrite M_bind_run. specialize (Hm w). destruct (m w) as [[a|e] w1]; [|exact Hm].
  destruct Hm as [H1 H2]. destruct (quiets_at (f a) w1 (Hf a)) as [H3 H4]. unfold touches. by rewrite H3, H4.
Qed.
Lemma touching_try {E E' A} F id (m : M World E A) : touching F id m -> touching F id (try m : M World E' (res E A)).
Proof. intros Hm w. specialize (Hm w). unfold try. by destruct (m w). Qed.
Lemma touching_map_err {E E' A} F id (f : E -> E') (m : M World E A) : touching F id m -> touching F id (map_err f m).
Proof. intros Hm w. specialize (Hm w). unfold map_err. by destruct (m w) as [[]]. Qed.
Lemma touching_weaken {E A} (F G : (SupportReport -> SupportReport) -> Prop) id (m : M World E A) :
  (forall f, F f -> G f) -> touching F id m -> touching G id m.
Proof. intros HFG Hm w. by eapply touches_impl. Qed.

(** ** The life of a report *)
Section service.
Context (gh : GitHub) {Hgh : GitHubLaws gh} (settings : Settings).
Context (range_closed : list (string * string) -> list (string * string)).
#[local] Hint Resolve gh_create_quiet gh_project_quiet gh_get_quiet : fixed.
Definition send_writes (kind : string) (f : SupportReport -> SupportReport) : Prop := sends (repoFor settings kind) f \/ fails_send f.
Lemma send_touching rep : touching (send_writes (SU_Kind rep)) (SU_ID rep) (send settings gh rep).
Proof using Hgh.
  assert (forall msg (e : gh_err), touching (send_writes (SU_Kind rep)) (SU_ID rep)
    (_ ← try (st_MarkFailed (SU_ID rep) msg); throw e : GH SupportReport)) as Hfail.
  { intros msg e. apply touching_then; [|intros; fixed_tac]. apply touching_try.
    eapply touching_weaken; [|apply MarkFailed_touching]. intros f Hf. by right. }
  unfold send. destruct (dec_fields _ _) as [f|]; [|apply Hfail].
  apply touching_read; [fixed_tac|]. intros [iss|e]; [|apply Hfail].
  apply touching_read; [fixed_tac|]. intros _.
  apply touching_then; [|intros; fixed_tac]. apply touching_map_err.
  eapply touching_weaken; [|apply MarkSent_touching]. intros g Hg. by left.
Qed.

Definition sent_states : list string := [SupportStatusOpen; SupportStatusResolved; SupportStatusClosed].
Definition same_report (a b : SupportReport) : Prop :=
  SU_ID b = SU_ID a /\ SU_PublicRef b = SU_PublicRef a /\ SU_UserID b = SU_UserID a /\ SU_Kind b = SU_Kind a /\
  SU_Title b = SU_Title a /\ SU_CreatedAt b = SU_CreatedAt a /\ SU_Attempts a <= SU_Attempts b.
(** The repository of a kind: public for a bug, private for an incident. *)
Definition in_repository (kind : string) (repo : option string) : Prop :=
  (kind = KindBug -> repo = Some (PublicRepo settings)) /\ (kind = KindIncident -> repo = Some (PrivateRepo settings)).
Lemma repoFor_in kind : in_repository kind (Some (repoFor settings kind)).
Proof. by split; intros ->. Qed.
(** Waiting with its text; sent, its text cleared; refreshed; or at its end. *)
Definition report_le (a b : SupportReport) : Prop :=
  same_report a b /\
  (b = a
   \/ (SU_Status a = SupportStatusPending /\ SU_Status b = SupportStatusPending /\ SU_Payload b = SU_Payload a)
   \/ (SU_Status a = SupportStatusPending /\ SU_Status b ∈ sent_states /\ SU_Payload b = JObj [] /\
       in_repository (SU_Kind a) (SU_Repo b))
   \/ (SU_Status a = SupportStatusOpen /\ SU_Status b ∈ sent_states /\ SU_Payload b = SU_Payload a /\
       SU_Repo b = SU_Repo a /\ SU_IssueNumber b = SU_IssueNumber a /\ SU_IssueURL b = SU_IssueURL a)).
Lemma report_le_refl a : report_le a a.
Proof. split; [unfold same_report; split_and!; done || lia|by left]. Qed.
Lemma sent_not_pending s : s ∈ sent_states -> s <> SupportStatusPending.
Proof. unfold sent_states. rewrite !elem_of_cons, elem_of_nil. by intros [ ->|[ ->|[ ->|[] ] ] ]. Qed.
Lemma report_le_trans a b c : report_le a b -> report_le b c -> report_le a c.
Proof.
  intros [(H1 & H2 & H3 & H4 & H5 & H6 & H7) Hab] [(K1 & K2 & K3 & K4 & K5 & K6 & K7) Hbc].
  split; [unfold same_report; split_and!; congruence || lia|].
  destruct Hab as [->|[(A1 & A2 & A3)|[(A1 & A2 & A3 & A4)|(A1 & A2 & A3 & A4 & A5 & A6)] ] ]; [exact Hbc|..].
  - destruct Hbc as [->|[(B1 & B2 & B3)|[(B1 & B2 & B3 & B4)|(B1 & _)] ] ].
    + right; left. done.
    + right; left. split_and!; congruence.
    + right; right; left. rewrite <-H4. done.
    + rewrite A2 in B1. discriminate B1.
  - right; right; left. destruct Hbc as [->|[(B1 & _)|[(B1 & _)|(B1 & B2 & B3 & B4 & B5 & B6)] ] ]; [done|..].
    1, 2: by apply sent_not_pending in A2. split; [done|]. split; [done|]. split; [congruence|by rewrite B4].
  - right; right; right. destruct Hbc as [->|[(B1 & _)|[(B1 & _)|(B1 & B2 & B3 & B4 & B5 & B6)] ] ]; [done|..].
    1, 2: by apply sent_not_pending in A2. split_and!; congruence || done.
Qed.
Lemma send_writes_le kind f r : send_writes kind f -> SU_Status r = SupportStatusPending -> SU_Kind r = kind -> report_le r (f r).
Proof.
  intros [(number & url & t & ->)|(msg & t & ->)] Hs <-; (split; [unfold same_report; split_and!; done || (cbn; lia)|]).
  - right; right; left. split; [done|]. split; [left|]. split; [done|apply repoFor_in].
  - right; left. by split_and!.
Qed.
Lemma refreshes_le f r : refreshes f -> SU_Status r = SupportStatusOpen -> report_le r (f r).
Proof.
  intros (status & t & Hin & ->) Hs. split; [unfold same_report; split_and!; done || (cbn; lia)|].
  right; right; right. cbn. by split_and!.
Qed.

(** *** From one world to a later one *)
Definition with_reports (rows : list SupportReport) : DB -> DB := on_support_reports (fun _ => rows).
Definition advanced (w w' : World) : Prop :=
  sequences w' = sequences w /\
  exists rows, db w' = with_reports rows (db w) /\ Forall2 report_le (support_reports (db w)) rows.
Lemma advanced_refl w w' : quiet w w' -> advanced w w'.
Proof.
  intros [H1 H2]. split; [done|]. exists (support_reports (db w)). rewrite H1. split; [by destruct (db w)|].
  apply Forall2_refl_on. intros a _. apply report_le_refl.
Qed.
Lemma advanced_trans w1 w2 w3 : advanced w1 w2 -> advanced w2 w3 -> advanced w1 w3.
Proof.
  intros [H1 (rows & H2 & H3)] [K1 (rows' & K2 & K3)]. split; [congruence|]. exists rows'. rewrite K2, H2. split; [done|].
  rewrite H2 in K3. cbn in K3. clear -H3 K3. revert rows' K3. induction H3 as [|a b l k Hab H IH]; intros rows' K3.
  - by inversion K3.
  - inversion K3 as [|? c ? m Hbc Hl]; subst. constructor; [by eapply report_le_trans|by apply IH].
Qed.
Lemma advanced_ids w w' : advanced w w' -> map SU_ID (support_reports (db w')) = map SU_ID (support_reports (db w)).
Proof.
  intros [_ (rows & -> & H)]. cbn. induction H as [|a b l k [ [Hab _] _] H IH]; [done|]. cbn. congruence.
Qed.
(** A change of the rows with one id, each a step of its life. *)
Lemma touches_advanced F id w w' : touches F id w w' ->
  (forall f r, F f -> r ∈ support_reports (db w) -> SU_ID r = id -> report_le r (f r)) -> advanced w w'.
Proof.
  intros [H1 [H2|(f & Hf & H2)]] Hle; [by apply advanced_refl|]. split; [done|]. eexists. split; [exact H2|].
  unfold update_where. apply Forall2_fmap_r, Forall2_refl_on. intros r Hr.
  change (report_le r (if SU_ID r =? id then f r else r)).
  destruct (SU_ID r =? id) eqn:E; [|apply report_le_refl]. apply Hle; [done..|]. lia.
Qed.
Lemma touches_elsewhere F id w w' r : touches F id w w' ->
  (forall f r, F f -> SU_ID (f r) = SU_ID r) -> SU_ID r <> id -> r ∈ support_reports (db w') -> r ∈ support_reports (db w).
Proof.
  intros [_ [->|(f & Hf & ->)]] Hid Hne Hr; [done|]. cbn in Hr. apply elem_of_update_where in Hr as (r0 & Hr & ->).
  unfold SupportReportStore.is_report in *. destruct (SU_ID r0 =? id) eqn:E; [|done]. rewrite (Hid f) in Hne by done. lia.
Qed.
(** The rows with the id of [rep] are at the given stage and of its kind. *)
Definition at_stage (status : string) (w : World) (rep : SupportReport) : Prop :=
  forall r, r ∈ support_reports (db w) -> SU_ID r = SU_ID rep -> SU_Status r = status /\ SU_Kind r = SU_Kind rep.
Lemma at_stage_elsewhere F status id w w' rep : touches F id w w' -> (forall f r, F f -> SU_ID (f r) = SU_ID r) ->
  SU_ID rep <> id -> at_stage status w rep -> at_stage status w' rep.
Proof. intros Ht Hid Hne Hs r Hr He. apply Hs; [|done]. eapply touches_elsewhere; [exact Ht|done| |done]. congruence. Qed.
Lemma at_stage_quiet status w w' rep : quiet w w' -> at_stage status w rep -> at_stage status w' rep.
Proof. intros [H _] Hs r. rewrite H. apply Hs. Qed.
Lemma send_writes_id kind f r : send_writes kind f -> SU_ID (f r) = SU_ID r.
Proof. by intros [(number & url & t & ->)|(msg & t & ->)]. Qed.
Lemma refreshes_id f r : refreshes f -> SU_ID (f r) = SU_ID r.
Proof. by intros (status & t & _ & ->). Qed.

Lemma send_each_advanced reps w r w' : NoDup (map SU_ID reps) -> (forall rep, rep ∈ reps -> at_stage SupportStatusPending w rep) ->
  send_each settings gh reps w = (r, w') -> advanced w w'.
Proof using Hgh.
  revert w. induction reps as [|rep reps IH]; intros w Hn Hs H.
  - injection H as _ <-. by apply advanced_refl.
  - cbn [map] in Hn. apply NoDup_cons in Hn as [Hne Hn]. cbn [send_each] in H. rewrite M_bind_run in H. unfold try in H.
    pose proof (send_touching rep w) as Ht. destruct (send settings gh rep w) as [x w1]. cbn in Ht.
    eapply advanced_trans; [|apply (IH w1); [done| |exact H] ].
    + eapply touches_advanced; [exact Ht|]. intros f row Hf Hrow Hid.
      destruct (Hs rep (list_elem_of_here _ _) row Hrow Hid) as [H1 H2]. by eapply send_writes_le.
    + intros rep' Hrep'. eapply at_stage_elsewhere; [exact Ht|apply send_writes_id| |apply Hs; by right].
      intros E. apply Hne. rewrite <-E. by apply list_elem_of_fmap_2.
Qed.
Lemma refresh_each_advanced reps w r w' : NoDup (map SU_ID reps) -> (forall rep, rep ∈ reps -> at_stage SupportStatusOpen w rep) ->
  refresh_each gh reps w = (r, w') -> advanced w w'.
Proof using Hgh.
  revert w. induction reps as [|rep reps IH]; intros w Hn Hs H.
  - injection H as _ <-. by apply advanced_refl.
  - cbn [map] in Hn. apply NoDup_cons in Hn as [Hne Hn]. cbn [refresh_each] in H.
    match type of H with (?m ≫= _) _ = _ => assert (touching refreshes (SU_ID rep) m) as Ht end.
    { destruct (SU_Repo rep), (SU_IssueNumber rep); try (intros w0; by apply touches_quiet).
      apply touching_read; [fixed_tac|]. intros [iss|e]; [apply UpdateStatus_touching|intros w0; by apply touches_quiet]. }
    specialize (Ht w). rewrite M_bind_run in H. destruct (_ w) as [x w1]. cbn in Ht.
    assert (advanced w w1) as Ha.
    { eapply touches_advanced; [exact Ht|]. intros f row Hf Hrow Hid.
      destruct (Hs rep (list_elem_of_here _ _) row Hrow Hid) as [H1 H2]. by apply refreshes_le. }
    destruct x as [ [] |e]; [|by injection H as _ <-].
    eapply advanced_trans; [exact Ha|]. apply (IH w1); [done| |exact H].
    intros rep' Hrep'. eapply at_stage_elsewhere; [exact Ht|apply refreshes_id| |apply Hs; by right].
    intros E. apply Hne. rewrite <-E. by apply list_elem_of_fmap_2.
Qed.
End service.

(** ** The service as a whole *)
Lemma filter_split {R} (p : R -> bool) rows : Permutation (select (fun r => negb (p r)) rows ++ select p rows) rows.
Proof.
  unfold select. induction rows as [|r rows IH]; [done|]. cbn [List.filter]. destruct (p r); cbn [negb app].
  - by rewrite <-Permutation_middle, IH.
  - by rewrite IH.
Qed.
Lemma map_NoDup_perm {A B} (f : A -> B) l k : Permutation l k -> NoDup (map f k) -> NoDup (map f l).
Proof. intros H. by rewrite (Permutation_map f H). Qed.
Lemma limit_NoDup {A B} (f : A -> B) n l : NoDup (map f l) -> NoDup (map f (limit n l)).
Proof. unfold limit. rewrite <-(take_drop (Z.to_nat n) l) at 1. rewrite map_app. by intros (? & _)%NoDup_app. Qed.
Lemma elem_of_limit {A} (x : A) n l : x ∈ limit n l -> x ∈ l.
Proof. unfold limit. intros H. rewrite <-(take_drop (Z.to_nat n) l). apply elem_of_app. by left. Qed.
(** The ids are unique and the sequence is ahead of them. *)
Definition next_report (w : World) : Z := default 1 (sequences w !! "support_reports").
Definition reports_wf (w : World) : Prop :=
  NoDup (map SU_ID (support_reports (db w))) /\ forall r, r ∈ support_reports (db w) -> SU_ID r < next_report w.
Lemma listed_at_stage (rows : list SupportReport) (p : SupportReport -> bool) status w : NoDup (map SU_ID (support_reports (db w))) ->
  (forall r, p r = true -> SU_Status r = status) ->
  (forall r, r ∈ rows -> r ∈ support_reports (db w) /\ p r = true) -> forall rep, rep ∈ rows -> at_stage status w rep.
Proof.
  intros Hn Hp Hrows rep [Hin Hrep]%Hrows r Hr He. rewrite (NoDup_key_eq SU_ID _ r rep Hn) by done. split; [by apply Hp|done].
Qed.
Lemma due_pending t r : SupportReportStore.due t r = true -> SU_Status r = SupportStatusPending.
Proof. unfold SupportReportStore.due. by intros [ [H%seqb_spec _]%andb_true_iff _]%andb_true_iff. Qed.
Lemma stale_open t r : SupportReportStore.stale t r = true -> SU_Status r = SupportStatusOpen.
Proof. unfold SupportReportStore.stale. by intros [H%seqb_spec _]%andb_true_iff. Qed.
Lemma ListPending_run n w reps w' : NoDup (map SU_ID (support_reports (db w))) ->
  SupportReportStore.ListPending n w = (Ok reps, w') ->
  quiet w w' /\ NoDup (map SU_ID reps) /\ forall rep, rep ∈ reps -> at_stage SupportStatusPending w rep.
Proof.
  intros Hn H. split; [eapply quiets_run; [|exact H]; unfold SupportReportStore.ListPending; fixed_tac|].
  unfold SupportReportStore.ListPending in H. apply M_bind_Ok in H as (u & w1 & Hs%stmt_Ok_inv & H).
  apply M_bind_Ok in H as (t & w2 & (Hd & _)%now_Ok_inv & [-> _]%gets_Ok_inv). rewrite Hd, Hs. split.
  - apply limit_NoDup. eapply map_NoDup_perm; [apply merge_sort_Permutation|]. by apply NoDup_map_filter.
  - apply (listed_at_stage _ (SupportReportStore.due t)); [done|apply due_pending|].
    intros r Hr%elem_of_limit. rewrite elem_of_order_asc in Hr. by apply elem_of_select in Hr.
Qed.
Lemma ListOpenToSync_run t n w reps w' : NoDup (map SU_ID (support_reports (db w))) ->
  SupportReportStore.ListOpenToSync t n w = (Ok reps, w') ->
  quiet w w' /\ NoDup (map SU_ID reps) /\ forall rep, rep ∈ reps -> at_stage SupportStatusOpen w rep.
Proof.
  intros Hn H. split; [eapply quiets_run; [|exact H]; unfold SupportReportStore.ListOpenToSync; fixed_tac|].
  apply query_Ok_inv in H as [-> _].
  set (rows := select (SupportReportStore.stale t) (support_reports (db w))).
  assert (Permutation (select (fun r => negb (is_some (SU_SyncedAt r))) rows
    ++ order_asc (fun r => default 0 (SU_SyncedAt r)) (select (fun r => is_some (SU_SyncedAt r)) rows)) rows) as Hp.
  { unfold order_asc. rewrite merge_sort_Permutation. apply (filter_split (fun r => is_some (SU_SyncedAt r))). }
  split.
  - apply limit_NoDup. eapply map_NoDup_perm; [exact Hp|]. by apply NoDup_map_filter.
  - apply (listed_at_stage _ (SupportReportStore.stale t)); [done|apply stale_open|].
    intros r Hr%elem_of_limit. rewrite Hp in Hr. by apply elem_of_select in Hr.
Qed.

(** *** A new report *)
Lemma quiet_next w w' : quiet w w' -> next_report w' = next_report w.
Proof. unfold next_report. by intros [_ ->]. Qed.
Definition new_report (id : Z) (ref : string) (userID : Z) (kind title : string) (payload : json) (t : Time) : SupportReport :=
  mkSupport id ref userID kind title payload SupportStatusPending None None None 0 None t t None.
Lemma Create_any ref userID kind title payload w res w' :
  SupportReportStore.Create ref userID kind title payload w = (res, w') ->
  (exists e, res = Fail e /\ db w' = db w /\ next_report w <= next_report w') \/
  exists tc, let rep := new_report (next_report w) ref userID kind title payload tc in
    res = Ok rep /\ clock w <= tc /\ SupportReportStore.report_fits rep = true /\
    db w' = with_reports (support_reports (db w) ++ [rep]) (db w) /\ next_report w' = next_report w + 1.
Proof.
  intros H. unfold SupportReportStore.Create in H. apply M_bind_any in H as [(e & -> & H)|(u & w1 & H1 & H)].
  { left. exists e. pose proof (quiets_run _ _ _ _ (fixed_stmt tables) H) as Hq. rewrite (quiet_next _ _ Hq). destruct Hq. split_and!; [done..|lia]. }
  assert (clock w1 = clock w) as Hc by (rewrite <-(stmt_clock w), H1; done).
  pose proof (quiets_run _ _ _ _ (fixed_stmt tables) H1) as Hq. apply quiet_next in Hq as Hq'. destruct Hq as [Hd1 _].
  apply M_bind_any in H as [(e & _ & [=])|(id & w2 & [= <- <-] & H)]. cbn beta in H. fold (next_report w1) in H.
  set (w2 := on_sequences _ w1) in H. assert (next_report w2 = next_report w + 1) as Hn2.
  { unfold w2, next_report at 1. cbn. rewrite lookup_insert_eq. cbn. fold (next_report w1). lia. }
  apply M_bind_any in H as [(e & _ & H)|(tc & w3 & H3 & H)]; [by apply never_now in H|].
  pose proof (quiets_run _ _ _ _ (fixed_now tables) H3) as Hq3. apply now_Ok_inv in H3 as (Hd3 & Hle & _). apply quiet_next in Hq3.
  cbn [db on_sequences clock] in *. apply M_bind_any in H as [(e & _ & [=])|(ok & w4 & [= <- <-] & H)].
  apply M_bind_any in H as [(e & -> & H)|(v & w4 & [Hok ->]%guard_Ok_inv & H)].
  { left. exists e. unfold guard_err in H. destruct (negb _); [|done]. injection H as _ <-.
    split_and!; [done|by rewrite Hd3, <-Hd1|lia]. }
  apply M_bind_any in H as [(e & _ & [=])|(v2 & w5 & [= _ <-] & [= <- <-])]. right. exists tc.
  apply negb_false_iff, andb_true_iff in Hok as [_ Hfit]. rewrite Hq' in *.
  change (db w2) with (db w1) in Hd3. change (clock w2) with (clock w1) in Hle. cbn [db on_db]. rewrite Hd3, Hd1.
  split_and!; [done|lia|exact Hfit|done|]. change (next_report (on_db _ w3)) with (next_report w3). lia.
Qed.

Section whole.
Context (ogh : option GitHub) (Hgh : forall gh, ogh = Some gh -> GitHubLaws gh) (settings : Settings).
Context (range_closed : list (string * string) -> list (string * string)).
(** Calls during which every report goes its way. *)
Definition unique_reports (w : World) : Prop := NoDup (map SU_ID (support_reports (db w))).
Definition advancing {E A} (m : M World E A) : Prop := forall w, unique_reports w -> advanced settings w (m w).2.
Lemma advanced_unique w w' : advanced settings w w' -> unique_reports w -> unique_reports w'.
Proof. unfold unique_reports. by intros ->%advanced_ids. Qed.
Lemma advancing_quiet {E A} (m : M World E A) : quiets m -> advancing m.
Proof. intros Hm w _. by apply advanced_refl, quiets_at. Qed.
Lemma advancing_bind {E A B} (m : M World E A) (f : A -> M World E B) :
  advancing m -> (forall a, advancing (f a)) -> advancing (m ≫= f).
Proof.
  intros Hm Hf w Hw. rewrite M_bind_run. specialize (Hm w Hw). destruct (m w) as [[a|e] w1]; [|exact Hm].
  eapply advanced_trans; [exact Hm|]. apply Hf. by eapply advanced_unique.
Qed.
Lemma advancing_read {E A B} (m : M World E A) (f : A -> M World E B) : quiets m ->
  (forall w a w1, unique_reports w -> m w = (Ok a, w1) -> advanced settings w1 (f a w1).2) -> advancing (m ≫= f).
Proof.
  intros Hm Hf w Hw. rewrite M_bind_run. pose proof (quiets_at m w Hm) as Hq. destruct (m w) as [[a|e] w1] eqn:E1; [|by apply advanced_refl].
  eapply advanced_trans; [by apply advanced_refl|]. by eapply Hf.
Qed.
Lemma advancing_try {E E' A} (m : M World E A) : advancing m -> advancing (try m : M World E' (res E A)).
Proof. intros Hm w Hw. specialize (Hm w Hw). unfold try. by destruct (m w). Qed.
Lemma sync_work_advancing gh : GitHubLaws gh -> advancing (sync_work settings gh).
Proof.
  intros Ho. apply advancing_read; [unfold st_ListPending; cbn; unfold SupportReportStore.ListPending; fixed_tac|].
  intros w reps w1 Hn (Hq1 & Hn1 & Hs1)%ListPending_run; [|done].
  assert (unique_reports w1) as Hw1 by (unfold unique_reports; by rewrite (proj1 Hq1)). clear Hn.
  assert (advanced settings w1 (send_each settings gh reps w1).2) as Hsend.
  { eapply (send_each_advanced gh settings); [exact Hn1| |apply surjective_pairing].
    intros rep Hrep. eapply at_stage_quiet; [exact Hq1|by apply Hs1]. }
  rewrite M_bind_run. destruct (send_each _ _ _ _) as [[u|e] w2]; [|exact Hsend].
  eapply advanced_trans; [exact Hsend|]. apply (advanced_unique _ _ Hsend) in Hw1. clear Hsend. revert w2 Hw1.
  apply advancing_bind; [apply advancing_quiet; fixed_tac|]. intros t.
  apply advancing_read; [unfold st_ListOpenToSync; cbn; unfold SupportReportStore.ListOpenToSync; fixed_tac|].
  intros w4 open w5 Hn4 (Hq4 & Hno & Hs4)%ListOpenToSync_run; [|done].
  eapply (refresh_each_advanced gh settings); [exact Hno| |apply surjective_pairing].
  intros rep Hrep. eapply at_stage_quiet; [exact Hq4|by apply Hs4].
Qed.
Lemma SyncOnce_advancing : advancing (SyncOnce ogh settings).
Proof using Hgh.
  unfold SyncOnce. destruct ogh as [gh|]; [|apply advancing_quiet; fixed_tac].
  apply advancing_bind; [|intros; apply advancing_quiet; fixed_tac]. apply advancing_try.
  unfold st_WithSyncLock; cbn. unfold SupportReportStore.WithSyncLock.
  repeat (apply advancing_bind; [|intros]); try solve [apply advancing_quiet; fixed_tac].
  apply advancing_try. apply sync_work_advancing, Hgh. done.
Qed.
Lemma with_reports_app rows rows' d : with_reports rows (with_reports rows' d) = with_reports rows d.
Proof. done. Qed.
Lemma update_fresh (rows : list SupportReport) rep f : (forall r, r ∈ rows -> SU_ID r < SU_ID rep) ->
  update_where (SupportReportStore.is_report (SU_ID rep)) f (rows ++ [rep]) = rows ++ [f rep].
Proof.
  intros H. unfold update_where. rewrite map_app. cbn [map]. unfold SupportReportStore.is_report at 2. rewrite Z.eqb_refl. f_equal.
  induction rows as [|r rows IH]; [done|]. cbn [map]. unfold SupportReportStore.is_report at 1.
  assert ((SU_ID r =? SU_ID rep) = false) as -> by (specialize (H r (list_elem_of_here _ _)); lia). f_equal.
  apply IH. intros r' Hr'. apply H. by right.
Qed.
(** A stored report: who, what, when, and how it stands after the first try. *)
Definition filed (user : User) (i' : Input) (t0 : Time) (ref : string) (tc : Time) (row : SupportReport) (w w' : World) : Prop :=
  let rep := new_report (next_report w) ref (U_ID user) (In_Kind i') (In_Title i') (fields_json (In_Fields i')) tc in
  t0 <= tc /\
  count_where (SupportReportStore.recent (U_ID user) (t0 - S_Window settings)) (support_reports (db w)) < S_Limit settings /\
  SupportReportStore.report_fits rep = true /\ report_le settings rep row /\
  db w' = with_reports (support_reports (db w) ++ [row]) (db w) /\ next_report w' = next_report w + 1.
Lemma CountSince_quiets u t : quiets (st_CountSince u t).
Proof. unfold st_CountSince; cbn. unfold SupportReportStore.CountSince. fixed_tac. Qed.
Lemma Submit_any user i w res w' : reports_wf w -> Submit ogh settings range_closed user i w = (res, w') ->
  (db w' = db w /\ next_report w <= next_report w') \/
  exists i' t0 ref tc row, validate range_closed i = Ok i' /\ filed user i' t0 ref tc row w w'.
Proof using Hgh.
  intros [_ Hnext] H. unfold Submit in H.
  assert (forall w0, quiet w w0 -> db w0 = db w /\ next_report w <= next_report w0) as Hquiet.
  { intros w0 Hq. rewrite (quiet_next _ _ Hq). split; [apply Hq|lia]. }
  apply M_bind_any in H as [(e & _ & H)|(i' & w1 & [Hv ->]%lift_Ok_inv & H)].
  { left. apply Hquiet. eapply quiets_run; [|exact H]. fixed_tac. }
  apply M_bind_any in H as [(e & _ & H)|(t0 & w1 & H1 & H)]; [by apply never_now in H|].
  pose proof (quiets_run _ _ _ _ (fixed_now tables) H1) as Hq1. apply now_Ok_inv in H1 as (Hd1 & _ & Hc1).
  apply M_bind_any in H as [(e & _ & H)|([n oldest] & w2 & H2 & H)].
  { left. apply Hquiet. eapply quiet_trans; [exact Hq1|]. eapply quiets_run; [|exact H]. apply fixed_map_err, CountSince_quiets. }
  assert (quiet w w2) as Hq2.
  { eapply quiet_trans; [exact Hq1|]. eapply quiets_run; [|exact H2]. apply fixed_map_err, CountSince_quiets. }
  apply map_err_Ok_inv in H2. apply clock_run in H2 as Hc2; [|unfold st_CountSince; cbn; unfold SupportReportStore.CountSince; since_tac].
  apply query_Ok_inv in H2 as [ [= -> ->] _].
  apply M_bind_any in H as [(e & _ & H)|(u & w3 & [Hlim ->]%guard_Ok_inv & H)].
  { left. apply Hquiet. eapply quiet_trans; [exact Hq2|]. eapply quiets_run; [|exact H]. fixed_tac. }
  assert (quiets NewReportRef) as Href by (unfold NewReportRef; fixed_tac).
  apply M_bind_any in H as [(e & _ & H)|(ref & w3 & H3 & H)].
  { left. apply Hquiet. eapply quiet_trans; [exact Hq2|]. eapply quiets_run; [|exact H]. by apply fixed_map_err. }
  assert (quiet w w3) as Hq3.
  { eapply quiet_trans; [exact Hq2|]. eapply quiets_run; [|exact H3]. by apply fixed_map_err. }
  apply map_err_Ok_inv in H3. apply clock_run in H3; [|unfold NewReportRef; since_tac].
  rewrite Hd1 in Hlim. apply quiet_next in Hq3 as Hn3. destruct Hq3 as [Hd3 _].
  apply M_bind_any in H as [(e & _ & H)|(rep & w4 & H4 & H)].
  { left. unfold map_err in H. destruct (st_Create _ _ _ _ _ w3) as [x w4] eqn:Hx.
    apply Create_any in Hx as [(e' & -> & Hd & Hn)|(tc & -> & _)]; [|done]. injection H as _ <-. rewrite Hd, <-Hn3. by rewrite Hd3. }
  apply map_err_Ok_inv in H4. apply Create_any in H4 as [(e' & [=] & _)|(tc & [= ->] & Hct & Hfit & Hd4 & Hn4)].
  rewrite Hn3 in *. rewrite Hd3 in *. set (rep := new_report _ _ _ _ _ _ _) in *.
  right. exists i', t0, ref, tc.
  assert (forall row, report_le settings rep row -> db w' = with_reports (support_reports (db w) ++ [row]) (db w) ->
    next_report w' = next_report w + 1 -> exists row, validate range_closed i = Ok i' /\ filed user i' t0 ref tc row w w') as Hdone.
  { intros row Hle Hd Hn. exists row. split; [done|]. unfold filed. fold rep. split_and!; [lia| |done..]. unfold count_where. lia. }
  destruct ogh as [gh|].
  - apply M_bind_any in H as [(e & _ & H)|(sent & w5 & H5 & H)]; [by apply never_try in H|]. injection H as _ <-.
    pose proof (@send_touching gh (Hgh gh eq_refl) settings rep w4) as Ht. unfold try in H5. destruct (send _ _ _ _) as [x w6].
    injection H5 as _ <-. cbn [snd] in Ht. destruct Ht as [Hs6 [Hd6|(f & Hf & Hd6)]].
    + eapply (Hdone rep); [apply report_le_refl|congruence|]. unfold next_report in *. by rewrite Hs6.
    + eapply (Hdone (f rep)); [by eapply send_writes_le| |unfold next_report in *; by rewrite Hs6].
      rewrite Hd6, Hd4. change (with_reports (update_where (SupportReportStore.is_report (SU_ID rep)) f
        (support_reports (db w) ++ [rep])) (db w) = with_reports (support_reports (db w) ++ [f rep]) (db w)).
      by rewrite update_fresh.
  - injection H as _ <-. by eapply (Hdone rep); [apply report_le_refl|..].
Qed.

(** *** Steps of the service *)
Inductive SupportStep := StepRequest (o : SupportRoute) (r : Request) | StepSync.
Definition support_step (w : World) (s : SupportStep) : World :=
  match s with
  | StepRequest o r => (serve (support_handler ogh settings range_closed o r) w).2
  | StepSync => (SyncOnce ogh settings w).2
  end.
Definition support_run (w : World) (steps : list SupportStep) : World := foldl support_step w steps.
(** Who filed what in the requests of some steps. *)
Definition asked (steps : list SupportStep) (accounts : list User) (user : User) (i : Input) : Prop :=
  user ∈ accounts /\ exists r, StepRequest RCreateReport r ∈ steps /\ U_Email user = default "" (R_UserEmail r) /\ decode_input r = Some i.
Lemma asked_mono steps steps' accounts user i : (forall s, s ∈ steps -> s ∈ steps') ->
  asked steps accounts user i -> asked steps' accounts user i.
Proof. intros Hs [Hu (r & Hr & H)]. split; [done|]. exists r. split; [by apply Hs|done]. Qed.
Definition moved (by_ : User -> Input -> Prop) (w w' : World) : Prop :=
  advanced settings w w' \/ (db w' = db w /\ next_report w <= next_report w') \/
  exists user i i' t0 ref tc row, by_ user i /\ validate range_closed i = Ok i' /\ filed user i' t0 ref tc row w w'.
Lemma serve_snd (h : HW Resp) w : (serve h w).2 = (h w).2.
Proof. unfold serve. by destruct (h w) as [ [] ]. Qed.
Lemma report_user_quiets r : quiets (report_user r).
Proof. unfold report_user, or_else, need, UserStore.GetUserByEmail. fixed_tac. Qed.
Lemma quiet_moved by_ w w1 w' : quiet w w1 -> moved by_ w1 w' -> moved by_ w w'.
Proof.
  intros Hq. pose proof (quiet_next _ _ Hq) as Hn. unfold moved, filed, advanced. destruct Hq as [-> ->]. by rewrite Hn.
Qed.
Lemma moved_quiet by_ w w1 w' : moved by_ w w1 -> quiet w1 w' -> moved by_ w w'.
Proof.
  intros Hm Hq. pose proof (quiet_next _ _ Hq) as Hn. revert Hm. unfold moved, filed, advanced. destruct Hq as [-> ->]. by rewrite Hn.
Qed.
Lemma quiet_is_moved by_ w w' : quiet w w' -> moved by_ w w'.
Proof. intros H. left. by apply advanced_refl. Qed.
Lemma wf_quiet w w' : quiet w w' -> reports_wf w -> reports_wf w'.
Proof. intros Hq. unfold reports_wf. rewrite (quiet_next _ _ Hq). by destruct Hq as [-> _]. Qed.
Lemma report_user_found r w user w1 : report_user r w = (Ok user, w1) -> user ∈ users (db w) /\ U_Email user = default "" (R_UserEmail r).
Proof.
  intros H. unfold report_user in H. hrun.
  match goal with Hq : UserStore.GetUserByEmail _ _ = _ |- _ => apply query_text_Ok_inv in Hq as [-> _] end.
  by apply res_value_Some, get_row_Ok in H as [Hin Hu%seqb_spec].
Qed.
Lemma create_report_moved r w : reports_wf w ->
  moved (asked [StepRequest RCreateReport r] (users (db w))) w (create_report ogh settings range_closed r w).2.
Proof using Hgh.
  intros Hwf. destruct (create_report _ _ _ r w) as [resp w'] eqn:H. cbn [snd]. unfold create_report in H.
  apply M_bind_any in H as [(e & _ & H)|(user & w1 & H1 & H)].
  { eapply quiet_is_moved, quiets_run; [|exact H]. apply report_user_quiets. }
  pose proof (quiets_run _ _ _ _ (report_user_quiets r) H1) as Hq1. eapply quiet_moved; [exact Hq1|]. apply report_user_found in H1 as [Hu He].
  apply (wf_quiet _ _ Hq1) in Hwf. apply M_bind_any in H as [(e & _ & H)|(i & w2 & [Hi ->]%need_Ok_inv & H)].
  { eapply quiet_is_moved, quiets_run; [|exact H]. unfold need. fixed_tac. }
  apply M_bind_any in H as [(e & _ & H)|(x & w2 & H2 & H)]; [by apply never_try in H|].
  assert (moved (asked [StepRequest RCreateReport r] (users (db w))) w1 w2) as Hm.
  { unfold try in H2. destruct (Submit _ _ _ _ _ w1) as [y w3] eqn:Hs. injection H2 as _ <-.
    apply Submit_any in Hs as [Hs|(i' & t0 & ref & tc & row & Hv & Hf)]; [by right; left| |done].
    right; right. exists user, i, i', t0, ref, tc, row. split; [|done]. split; [done|]. exists r. split; [left|done]. }
  eapply moved_quiet; [exact Hm|]. eapply quiets_run; [|exact H]. destruct x as [|[| | |] ]; fixed_tac.
Qed.
Lemma support_step_moved w s : reports_wf w -> moved (asked [s] (users (db w))) w (support_step w s).
Proof using Hgh.
  intros Hwf. destruct s as [ [|] r|]; cbn [support_step]; [rewrite serve_snd..|].
  - by apply create_report_moved.
  - apply quiet_is_moved, quiets_at. unfold support_handler, list_reports. apply fixed_bind; [apply report_user_quiets|]. intros u.
    unfold or_else, List_, st_ListByUser. cbn. unfold SupportReportStore.ListByUser. fixed_tac.
  - left. apply SyncOnce_advancing, Hwf.
Qed.
Lemma moved_wf by_ w w' : reports_wf w -> moved by_ w w' -> reports_wf w'.
Proof.
  intros [Hn Hid] [Ha|[ [Hd Hle]|(user & i & i' & t0 & ref & tc & row & _ & _ & _ & _ & _ & [Hrow _] & Hd & Hnext)] ].
  - split; [by apply (advanced_unique _ _ Ha)|]. intros r Hr. apply (list_elem_of_fmap_2 SU_ID) in Hr.
    change (SU_ID <$> ?l) with (map SU_ID l) in Hr. rewrite (advanced_ids _ _ _ Ha) in Hr. apply list_elem_of_fmap in Hr as (r0 & -> & Hr0).
    apply Hid in Hr0. unfold next_report in *. by rewrite (proj1 Ha).
  - split; rewrite Hd; [done|]. intros r Hr. apply Hid in Hr. lia.
  - assert (SU_ID row = next_report w) as Hi by apply Hrow. split; rewrite Hd; cbn.
    + rewrite map_app. apply NoDup_app. split_and!; [done| |apply NoDup_singleton]. cbn [map]. intros x Hx ->%list_elem_of_singleton.
      apply list_elem_of_fmap in Hx as (r0 & E & Hr0). apply Hid in Hr0. lia.
    + intros r [Hr| ->%list_elem_of_singleton]%elem_of_app; [apply Hid in Hr|]; lia.
Qed.
Lemma advance_trans rows1 rows2 rows3 : Forall2 (report_le settings) rows1 rows2 -> Forall2 (report_le settings) rows2 rows3 ->
  Forall2 (report_le settings) rows1 rows3.
Proof.
  intros H. revert rows3. induction H as [|a b l k Hab H IH]; intros rows3 H3; inversion H3; subst; constructor;
    [by eapply report_le_trans|by apply IH].
Qed.
(** A row filed on the way: it starts waiting, never tried, with the checked
    text of its author, and has gone its way since. *)
Definition filed_row (by_ : User -> Input -> Prop) (row : SupportReport) : Prop :=
  exists user i i' id ref t, by_ user i /\ validate range_closed i = Ok i' /\
    report_le settings (mkSupport id ref (U_ID user) (In_Kind i') (In_Title i') (fields_json (In_Fields i')) SupportStatusPending
      None None None 0 None t t None) row.
Lemma filed_row_le (by_ by_' : User -> Input -> Prop) a b : (forall user i, by_ user i -> by_' user i) ->
  report_le settings a b -> filed_row by_ a -> filed_row by_' b.
Proof. intros Hby Hab (user & i & i' & id & ref & t & Hi & Hv & Ha). exists user, i, i', id, ref, t. split; [by apply Hby|]. split; [done|]. by eapply report_le_trans. Qed.
Lemma filed_rows_le (by_ by_' : User -> Input -> Prop) rows rows' : (forall user i, by_ user i -> by_' user i) ->
  Forall2 (report_le settings) rows rows' -> Forall (filed_row by_) rows -> Forall (filed_row by_') rows'.
Proof.
  intros Hby. induction 1 as [|a b l k Hab _ IH]; intros H; [constructor|]. apply Forall_cons in H as [Ha H]. constructor; [by eapply (filed_row_le by_)|auto].
Qed.
(** Later rows: those of before, each gone its way, then those filed since. *)
Definition grown (by_ : User -> Input -> Prop) (w w' : World) : Prop :=
  exists rows new, db w' = with_reports (rows ++ new) (db w) /\ Forall2 (report_le settings) (support_reports (db w)) rows /\
    Forall (filed_row by_) new.
Lemma moved_grows by_ w w' : moved by_ w w' -> grown by_ w w'.
Proof.
  intros [ [_ (rows & Hd & H)]|[ [Hd _]|(user & i & i' & t0 & ref & tc & row & Hby & Hv & _ & _ & _ & Hrow & Hd & _)] ].
  - exists rows, []. by rewrite app_nil_r.
  - exists (support_reports (db w)), []. rewrite app_nil_r, Hd. split_and!; [by destruct (db w)| |constructor].
    apply Forall2_refl_on. intros; apply report_le_refl.
  - exists (support_reports (db w)), [row]. split_and!; [done|apply Forall2_refl_on; intros; apply report_le_refl|].
    constructor; [|constructor]. by exists user, i, i', (next_report w), ref, tc.
Qed.
Lemma grown_trans (by1 by2 by_ : User -> Input -> Prop) w1 w2 w3 :
  (forall user i, by1 user i -> by_ user i) -> (forall user i, by2 user i -> by_ user i) ->
  grown by1 w1 w2 -> grown by2 w2 w3 -> grown by_ w1 w3.
Proof.
  intros Hb1 Hb2 (rows1 & new1 & Hd1 & Hle1 & Hn1) (rows & new & Hd & Hle & Hn). rewrite Hd1 in Hle.
  cbn [support_reports with_reports on_support_reports] in Hle.
  apply Forall2_app_inv_l in Hle as (k1 & k2 & Hk1 & Hk2 & ->). exists k1, (k2 ++ new). split_and!.
  - by rewrite Hd, Hd1, <-app_assoc.
  - by eapply advance_trans.
  - apply Forall_app. split; [by eapply (filed_rows_le by1)|]. eapply Forall_impl; [exact Hn|]. intros row. apply filed_row_le; [exact Hb2|apply report_le_refl].
Qed.
(** C23. Whatever is asked, whatever GitHub answers and whichever statement
    fails, a report starts waiting, with the checked text of its author's request,
    and moves one way only: it is recorded as sent once, a bug to the public
    repository and an incident to the private one, and loses its text; it is then
    refreshed until it is resolved or closed, and never changes again. This holds
    of the reports that were there and of those filed on the way, each by an
    account in a request of the run. No report disappears, no id is used twice, no
    other table changes. *)
Theorem report_lifecycle w steps w' : reports_wf w -> support_run w steps = w' ->
  reports_wf w' /\
  exists rows new, db w' = with_reports (rows ++ new) (db w) /\
    Forall2 (report_le settings) (support_reports (db w)) rows /\ Forall (filed_row (asked steps (users (db w)))) new.
Proof using Hgh.
  intros Hwf <-. change (reports_wf (support_run w steps) /\ grown (asked steps (users (db w))) w (support_run w steps)).
  revert w Hwf. induction steps as [|s steps IH]; intros w Hwf.
  - split; [exact Hwf|]. by apply moved_grows, quiet_is_moved.
  - pose proof (support_step_moved w s Hwf) as Hm. destruct (IH _ (moved_wf _ _ _ Hwf Hm)) as [Hwf' Hg]. apply moved_grows in Hm.
    assert (users (db (support_step w s)) = users (db w)) as Hu by (destruct Hm as (rows & new & -> & _); done). rewrite Hu in Hg.
    split; [exact Hwf'|]. eapply grown_trans; [..|exact Hm|exact Hg]; intros user i; apply asked_mono.
    + intros x ->%list_elem_of_singleton. left.
    + intros x Hx. by right.
Qed.

(** *** How many reports an account files *)
Definition in_window (u : Z) (t : Time) (r : SupportReport) : bool :=
  (SU_UserID r =? u) && (t - S_Window settings <? SU_CreatedAt r) && (SU_CreatedAt r <=? t).
Lemma in_window_advance u t rows rows' : Forall2 (report_le settings) rows rows' ->
  count_where (in_window u t) rows' = count_where (in_window u t) rows.
Proof.
  intros H. unfold count_where, select. induction H as [|a b l k [ (_ & _ & Hu & _ & _ & Hc & _) _] H IH]; [done|].
  assert (in_window u t b = in_window u t a) as Hw by (unfold in_window; by rewrite Hu, Hc).
  cbn [List.filter]. rewrite Hw. destruct (in_window u t a); cbn [length]; lia.
Qed.
Lemma count_mono {R} (p q : R -> bool) rows : (forall r, p r = true -> q r = true) -> count_where p rows <= count_where q rows.
Proof.
  intros H. unfold count_where, select. induction rows as [|r rows IH]; [done|]. cbn [List.filter].
  destruct (p r) eqn:E; [rewrite (H r E); cbn [length]; lia|]. destruct (q r); cbn [length]; lia.
Qed.
Lemma count_app {R} (p : R -> bool) a b : count_where p (a ++ b) = count_where p a + count_where p b.
Proof. unfold count_where, select. rewrite List.filter_app, length_app. lia. Qed.
Definition limited (d : DB) : Prop := forall u t, count_where (in_window u t) (support_reports d) <= S_Limit settings.
Lemma moved_limited by_ w w' : moved by_ w w' -> limited (db w) -> limited (db w').
Proof.
  intros [ [_ (rows & -> & H)]|[ [-> _]|(user & i & i' & t0 & ref & tc & row & _ & _ & Ht & Hlt & _ & [Hrow _] & -> & _)] ] Hl;
    [|done|]; intros u t; [cbn; by rewrite (in_window_advance _ _ _ _ H)|].
  change (count_where (in_window u t) (support_reports (db w) ++ [row]) <= S_Limit settings). rewrite count_app.
  specialize (Hl u t). destruct Hrow as (_ & _ & Hu & _ & _ & Hc & _). cbn in Hu, Hc.
  destruct (in_window u t row) eqn:E; unfold count_where at 2, select; cbn [List.filter]; rewrite E; [|cbn; lia].
  apply andb_true_iff in E as [ [E1%Z.eqb_eq E2%Z.ltb_lt]%andb_true_iff E3%Z.leb_le]. cbn [length].
  assert (count_where (in_window u t) (support_reports (db w)) <=
    count_where (SupportReportStore.recent (U_ID user) (t0 - S_Window settings)) (support_reports (db w))) as Hm; [|lia].
  apply count_mono. intros r [ [F1%Z.eqb_eq F2%Z.ltb_lt]%andb_true_iff _]%andb_true_iff.
  unfold SupportReportStore.recent. apply andb_true_iff. split; lia.
Qed.
(** C24. An account files at most the set number of reports in any window of the
    set length, over any run of requests and of the worker. *)
Theorem reports_rate_limited w steps : reports_wf w -> limited (db w) -> limited (db (support_run w steps)).
Proof using Hgh.
  revert w. induction steps as [|s steps IH]; intros w Hwf Hl; [exact Hl|].
  pose proof (support_step_moved w s Hwf) as Hm. apply IH; [by eapply moved_wf|by eapply moved_limited].
Qed.
End whole.

(** ** What GitHub is told *)
(** The client's memory: the token it keeps and the requests it sent. *)
Definition chat (w : World) : (string * Time) * list GHRequest := (gh_token w, gh_log w).
#[export] Instance chat_steady : Steady chat.
Proof. by split. Qed.
Lemma chat_db {E} f : fixed chat (modify (on_db f) : M World E unit).
Proof. by intros w. Qed.
Lemma chat_nextval t : fixed chat (nextval t).
Proof. by intros w. Qed.
#[export] Hint Resolve chat_db chat_nextval : fixed.
Lemma chat_MarkSent id repo n url : fixed chat (SupportReportStore.MarkSent id repo n url).
Proof. unfold SupportReportStore.MarkSent. fixed_tac. Qed.
Lemma chat_MarkFailed id msg : fixed chat (SupportReportStore.MarkFailed id msg).
Proof. unfold SupportReportStore.MarkFailed. fixed_tac. Qed.
Lemma chat_Create ref u k t p : fixed chat (SupportReportStore.Create ref u k t p).
Proof. unfold SupportReportStore.Create. fixed_tac. Qed.
#[export] Hint Resolve chat_MarkSent chat_MarkFailed chat_Create : fixed.

(** Calls that send only requests of [P], keep a token of [K], and answer [Q]. *)
Section tells.
Context (K : string -> Prop) (P : GHRequest -> Prop).
Definition tells {E A} (Q : A -> Prop) (m : M World E A) : Prop :=
  forall w, K (gh_token w).1 ->
    K (gh_token (m w).2).1 /\ (exists new, gh_log (m w).2 = gh_log w ++ new /\ Forall P new) /\
    forall a, (m w).1 = Ok a -> Q a.
Lemma tells_fixed {E A} (m : M World E A) : fixed chat m -> tells (fun _ => True) m.
Proof.
  intros Hm w Hw. specialize (Hm w). injection Hm as -> ->. split; [done|]. split; [|done]. exists []. by rewrite app_nil_r.
Qed.
Lemma tells_ret {E A} (Q : A -> Prop) (a : A) : Q a -> tells Q (mret a : M World E A).
Proof. intros Ha w Hw. split_and!; [done|exists []; by rewrite app_nil_r|by intros ? [= <-] ]. Qed.
Lemma tells_lift {E A} (Q : A -> Prop) (r : res E A) : (forall a, r = Ok a -> Q a) -> tells Q (lift r).
Proof. intros Hr w Hw. split_and!; [done|exists []; by rewrite app_nil_r|exact Hr]. Qed.
Lemma tells_bind {E A B} (R : A -> Prop) (Q : B -> Prop) (m : M World E A) (f : A -> M World E B) :
  tells R m -> (forall a, R a -> tells Q (f a)) -> tells Q (m ≫= f).
Proof.
  intros Hm Hf w Hw. rewrite M_bind_run. destruct (Hm w Hw) as (Hk & (new & Hn & Hp) & Hr).
  destruct (m w) as [[a|e] w1]; cbn [fst snd] in *; [|by split_and!; [done|eauto|intros]]. destruct (Hf a (Hr a eq_refl) w1 Hk) as (Hk' & (new' & Hn' & Hp') & Hq).
  split_and!; [done| |done]. exists (new ++ new'). rewrite Hn', Hn, <-app_assoc. split; [done|]. by apply Forall_app.
Qed.
Lemma tells_gets {E A B} (Q : B -> Prop) (g : World -> A) (f : A -> M World E B) :
  (forall w, K (gh_token w).1 -> tells Q (f (g w))) -> tells Q (gets g ≫= f).
Proof. intros Hf w Hw. exact (Hf w Hw w Hw). Qed.
Lemma tells_then {E A B} (Q : B -> Prop) (m : M World E A) (f : A -> M World E B) :
  fixed chat m -> (forall a, tells Q (f a)) -> tells Q (m ≫= f).
Proof. intros Hm Hf. eapply tells_bind; [by apply tells_fixed|]. auto. Qed.
Lemma tells_impl {E A} (Q R : A -> Prop) (m : M World E A) : (forall a, Q a -> R a) -> tells Q m -> tells R m.
Proof. intros Hi Hm w Hw. destruct (Hm w Hw) as (Hk & Hl & Hq). split_and!; [done|done|]. eauto. Qed.
Lemma tells_try {E E' A} (Q : A -> Prop) (m : M World E A) : tells Q m ->
  tells (fun r => forall a, r = Ok a -> Q a) (try m : M World E' (res E A)).
Proof. intros Hm w Hw. specialize (Hm w Hw). unfold try. destruct (m w) as [r w1]. destruct Hm as (Hk & Hl & Hq). split_and!; [done|done|]. by intros ? [= <-]. Qed.
End tells.

Section told.
Context (app inst base : string) (sign : string -> Time -> Time -> option string).
Context (answers : list GHRequest -> GHRequest -> option (Z * list Z)) (settings : Settings).
Definition client : GitHub := AppClient.github app inst base sign answers.
(** What GitHub answered to a request, and what it decodes to. *)
Definition replied (req : GHRequest) (raw : list Z) : Prop :=
  exists before status body, answers before req = Some (status, body) /\ 200 <= status <= 299 /\ raw = take (2 ^ 20) body.
Definition decodes {A} (d : decoder A) (zero : A) (raw : list Z) (a : A) : Prop :=
  exists j, parse_json raw = Some j /\ d j zero = Some a.
(** The request of an installation token, signed by the application for ten
    minutes; the tokens held: the one [tok0] of the start, or one so obtained. *)
Definition token_request (jwt : string) : GHRequest :=
  mkGHRequest "POST" (base ++ ("/app/installations/" ++ inst ++ "/access_tokens")) jwt None.
Definition signed (jwt : string) : Prop := exists t, sign app (t - 60 * Second) (t + 9 * Minute) = Some jwt.
Definition held (tok0 tok : string) : Prop :=
  tok = tok0 \/ exists jwt raw exp, signed jwt /\ replied (token_request jwt) raw /\
    decodes (dec_struct AppClient.token_fields) ("", 0) raw (tok, exp).
(** The request of an issue: for a bug in the public repository, for an incident
    in the private one, each with its labels and its type or none. *)
Definition issue_request (repo tok title body : string) (labels : list string) (ty : string) : GHRequest :=
  mkGHRequest "POST" (base ++ ("/repos/" ++ repo ++ "/issues")) tok (Some (issue_json (mkIssueInput title body labels ty))).
Inductive issue_of (tok0 kind title body : string) : GHRequest -> Prop :=
  | issue_of_bug tok ty : kind = KindBug -> held tok0 tok -> ty ∈ ["Bug"; ""] ->
      issue_of tok0 kind title body (issue_request (PublicRepo settings) tok title body ["bug"; "via-portal"; "a-valider"] ty)
  | issue_of_incident tok ty : kind = KindIncident -> held tok0 tok -> ty ∈ ["Support"; ""] ->
      issue_of tok0 kind title body (issue_request (PrivateRepo settings) tok title body ["incident"; "via-portal"; "a-valider"] ty).
(** The requests made for one issue: a token, the issue itself, and the place in
    the project of the issue GitHub answered. *)
Inductive told (tok0 kind title body : string) : GHRequest -> Prop :=
  | told_token jwt : signed jwt -> told tok0 kind title body (token_request jwt)
  | told_issue req : issue_of tok0 kind title body req -> told tok0 kind title body req
  | told_project tok req raw iss : held tok0 tok -> issue_of tok0 kind title body req -> replied req raw ->
      decodes (dec_struct issue_fields) zero_issue raw iss -> ProjectID settings <> "" ->
      told tok0 kind title body
        (mkGHRequest "POST" (base ++ "/graphql") tok
           (Some (JObj [("query", JStr AppClient.project_query);
                        ("variables", JObj [("c", JStr (I_NodeID iss)); ("p", JStr (ProjectID settings))])]))).
Context (tok0 kind title body : string).
#[local] Abbreviation P := (told tok0 kind title body).
#[local] Abbreviation K := (held tok0).
Lemma do_tells m p b j : P (mkGHRequest m (base ++ p) b j) ->
  tells K P (replied (mkGHRequest m (base ++ p) b j)) (AppClient.do base answers m p b j).
Proof.
  intros HP w Hw. unfold AppClient.do. set (req := mkGHRequest _ _ _ _) in *.
  rewrite !M_bind_run. cbn [gets modify]. unfold gets, modify. cbn beta iota.
  rewrite M_bind_run. unfold lift. destruct (answers (gh_log w) req) as [[status raw]|] eqn:Ha; cbn [ok_or].
  2: { split; [exact Hw|]. split; [|by intros]. exists [req]. split; [done|by constructor]. }
  rewrite M_bind_run. destruct ((status <? 200) || (299 <? status)) eqn:E.
  all: split; [exact Hw|]; split; [by exists [req]; split; [done|constructor]|].
  - by intros a [= ].
  - intros a. remember (take (2 ^ 20) raw) as cut eqn:Hcut. intros [= <-]. exists (gh_log w), status, raw. apply orb_false_iff in E as [?%Z.ltb_ge ?%Z.ltb_ge]. by split_and!.
Qed.
Lemma Unmarshal_tells {A} (d : decoder A) zero raw : tells K P (decodes d zero raw) (AppClient.Unmarshal d zero raw).
Proof.
  apply tells_lift. intros a. unfold decodes. destruct (parse_json raw) as [j|]; [|done]. cbn. destruct (d j zero) eqn:E; [|done].
  intros [= <-]. by exists j.
Qed.
Lemma appJWT_tells : tells K P signed (AppClient.appJWT app sign).
Proof.
  apply tells_then; [fixed_tac|]. intros t. apply tells_lift. intros jwt. destruct (sign _ _ _) eqn:E; [|done].
  intros [= <-]. by exists t.
Qed.
Lemma installationToken_tells : tells K P K (AppClient.installationToken app inst base sign answers).
Proof.
  unfold AppClient.installationToken. eapply (tells_bind _ _ (fun o => forall tok, o = Some tok -> K tok)).
  - apply tells_gets. intros w Hw. destruct (gh_token w) as [tok exp]. cbn beta iota.
    destruct (is_empty tok); [by apply tells_ret|]. apply tells_then; [fixed_tac|]. intros t. apply tells_ret.
    destruct (Before _ _); [|done]. by intros ? [= <-].
  - intros [tok|] Htok; [by apply tells_ret, Htok|]. eapply tells_bind; [apply appJWT_tells|]. intros jwt Hjwt.
    eapply tells_bind; [by apply do_tells, told_token|]. intros raw Hraw. eapply tells_bind; [apply Unmarshal_tells|]. intros [tok exp] Hout.
    assert (K tok) as Hk by (right; exists jwt, raw, exp; done).
    eapply (tells_bind _ _ (fun _ => True)); [|by intros; apply tells_ret].
    intros w Hw. split_and!; [done|exists []; by rewrite app_nil_r|done].
Qed.
Lemma authed_tells m p j : (forall tok, K tok -> P (mkGHRequest m (base ++ p) tok j)) ->
  tells K P (fun raw => exists tok, K tok /\ replied (mkGHRequest m (base ++ p) tok j) raw)
    (AppClient.authed app inst base sign answers m p j).
Proof.
  intros Hp. eapply tells_bind; [apply installationToken_tells|]. intros tok Htok.
  eapply tells_impl; [|by apply do_tells, Hp]. eauto.
Qed.
(** An issue GitHub answered to a request made for it. *)
Definition opened (iss : Issue) : Prop :=
  exists req raw, issue_of tok0 kind title body req /\ replied req raw /\ decodes (dec_struct issue_fields) zero_issue raw iss.
Lemma post_issue_tells repo labels ty :
  (forall tok, K tok -> issue_of tok0 kind title body (issue_request repo tok title body labels ty)) ->
  tells K P opened (AppClient.post_issue app inst base sign answers repo (mkIssueInput title body labels ty)).
Proof.
  intros Hi. eapply tells_bind; [apply authed_tells; intros tok Htok; by apply told_issue, Hi|].
  intros raw (tok & Htok & Hraw). eapply tells_impl; [|apply Unmarshal_tells]. intros iss Hiss.
  exists (issue_request repo tok title body labels ty), raw. split_and!; [by apply Hi|done..].
Qed.
Lemma CreateIssue_tells repo labels ty :
  (forall tok ty', K tok -> ty' ∈ [ty; ""] -> issue_of tok0 kind title body (issue_request repo tok title body labels ty')) ->
  tells K P opened (CreateIssue client repo (mkIssueInput title body labels ty)).
Proof.
  intros Hi. cbn [CreateIssue client AppClient.github]. unfold AppClient.CreateIssue.
  eapply tells_bind; [apply tells_try, post_issue_tells; intros; apply Hi; [done|left]|].
  intros r Hr. assert (tells K P opened (lift r)) as Hl by by apply tells_lift.
  assert (tells K P opened (AppClient.post_issue app inst base sign answers repo (mkIssueInput title body labels ""))) as Hagain.
  { apply post_issue_tells. intros. apply Hi; [done|right; left]. }
  destruct r as [iss|[status msg|e]]; [exact Hl| |exact Hl]. cbn [II_Type II_Title II_Body II_Labels].
  repeat match goal with |- tells _ _ _ (match ?x with _ => _ end) => destruct x end; exact Hl || exact Hagain.
Qed.
Lemma AddToProject_tells iss : opened iss -> ProjectID settings <> "" ->
  tells K P (fun _ => True) (AddToProject client (ProjectID settings) (I_NodeID iss)).
Proof.
  intros (req & raw & Hreq & Hraw & Hiss) Hne. cbn [AddToProject client AppClient.github].
  eapply tells_bind; [apply authed_tells; intros tok Htok; by eapply told_project|]. intros raw' _.
  eapply tells_bind; [apply Unmarshal_tells|]. intros errors _. apply tells_fixed. fixed_tac.
Qed.
End told.
Definition issue_title (rep : SupportReport) : string := IssueTitle (SU_Kind rep) (SU_Title rep).
Definition issue_body (settings : Settings) (rep : SupportReport) (f : Fields) : string :=
  IssueBody (SU_Kind rep) f (UserPseudonym (PseudonymKey settings) (SU_UserID rep)) (SU_PublicRef rep).
Section sent.
Context (app inst base : string) (sign : string -> Time -> Time -> option string).
Context (answers : list GHRequest -> GHRequest -> option (Z * list Z)) (settings : Settings).
#[local] Abbreviation gh := (client app inst base sign answers).
Lemma send_tells tok0 rep f : SU_Kind rep ∈ [KindBug; KindIncident] -> dec_fields (SU_Payload rep) zero_fields = Some f ->
  tells (held app inst base sign answers tok0)
    (told app inst base sign answers settings tok0 (SU_Kind rep) (issue_title rep) (issue_body settings rep f))
    (fun _ => True) (send settings gh rep).
Proof.
  intros Hk Hf. unfold send. rewrite Hf. unfold st_MarkFailed, st_MarkSent. cbn [support_report_store].
  eapply tells_bind.
  { apply tells_try. unfold issue_input, repoFor. apply CreateIssue_tells. intros tok ty Htok Hty.
    rewrite !elem_of_cons, elem_of_nil in Hk. destruct Hk as [E|[E|[] ] ]; rewrite E in *; by constructor. }
  intros [iss|e] Hiss; [|apply tells_fixed; fixed_tac]. specialize (Hiss iss eq_refl).
  eapply (tells_bind _ _ (fun _ => True)); [|intros; apply tells_fixed; fixed_tac].
  destruct (negb (is_empty (ProjectID settings)) && _) eqn:E; [|by apply tells_ret].
  apply andb_true_iff in E as [E _]. eapply tells_bind; [apply tells_try, AddToProject_tells; [exact Hiss|]|intros; by apply tells_ret].
  intros Hp. by rewrite Hp in E.
Qed.
End sent.

(** ** What may be filed *)
(** A checked input: its shape, and no text the filter speaks of. *)
Definition proper (i : Input) : Prop :=
  let f := In_Fields i in
  In_Kind i ∈ [KindBug; KindIncident] /\ In_Title i = TrimSpace (In_Title i) /\
  0 < RuneCountInString (In_Title i) <= maxTitleLen /\ is_blank (F_Actual f) = false /\
  (In_Kind i = KindBug -> F_App f <> "") /\ (In_Kind i = KindIncident -> F_Impact f <> "") /\
  (forall kv, kv ∈ closed_fields f -> kv.2 = "" \/ allowed kv.1 kv.2 = true) /\
  (forall kv, kv ∈ free_fields f -> RuneCountInString kv.2 <= maxTextLen) /\
  (forall kv, kv ∈ ("title", In_Title i) :: free_fields f -> clean kv.2).
Lemma field_check_Ok bad f why u : field_check bad f why = Ok u -> bad = false.
Proof. by destruct bad. Qed.
Lemma runes_positive s : s <> "" -> 0 < RuneCountInString s.
Proof. destruct s as [|c s]; [done|]. intros _. unfold RuneCountInString, runes. cbn. lia. Qed.
Lemma validate_proper range_closed i i' : (forall l, Permutation (range_closed l) l) -> validate range_closed i = Ok i' ->
  proper i' /\ In_Fields i' = In_Fields i /\ In_Kind i' = In_Kind i /\ In_Title i' = TrimSpace (In_Title i).
Proof.
  intros Hr H. unfold validate in H. cbn [In_Kind In_Title In_Fields] in H.
  repeat (apply res_bind_Ok in H as (? & ?%field_check_Ok & H)).
  apply res_bind_Ok in H as (? & Hc & H). destruct (find closed_bad _) as [|] eqn:Hclosed; [done|].
  repeat (apply res_bind_Ok in H as (? & ?%field_check_Ok & H)).
  apply res_bind_Ok in H as (? & Hl & H). destruct (find too_long _) as [|] eqn:Hlong; [done|].
  destruct (find is_sensitive _) as [|] eqn:Hsens; [done|]. injection H as <-. rewrite find_None in Hclosed, Hlong, Hsens.
  split; [|done]. unfold proper. cbn [In_Kind In_Title In_Fields].
  repeat match goal with
  | Hx : (_ && _) = false |- _ => apply andb_false_iff in Hx
  | Hx : (_ <? _) = false |- _ => apply Z.ltb_ge in Hx
  end. unfold is_blank in *.
  assert (forall t, is_empty t = false -> t <> "") as Hne by (intros t Ht ->; discriminate Ht).
  split_and!; try done.
  all: try (by rewrite TrimSpace_idemp).
  - destruct H0 as [H0|H0]; apply negb_false_iff, seqb_spec in H0; rewrite H0; [left|right; left].
  - by apply runes_positive, Hne.
  - intros Hk. rewrite Hk in H4. destruct H4 as [H4|]; [discriminate H4|auto].
  - intros Hk. rewrite Hk in H5. destruct H5 as [H5|]; [discriminate H5|auto].
  - intros kv Hkv. specialize (Hclosed kv). rewrite Hr in Hclosed. specialize (Hclosed Hkv).
    unfold closed_bad in Hclosed. apply andb_false_iff in Hclosed as [He|He]; apply negb_false_iff in He; [left|by right].
    by apply is_empty_spec.
  - intros kv Hkv%Hlong. unfold too_long in Hkv. lia.
  - intros kv Hkv%Hsens. apply DetectSensitive_clean. unfold is_sensitive in Hkv. apply negb_false_iff in Hkv. by apply is_empty_spec.
Qed.
(** What is stored is read back as it was. *)
Lemma dec_fields_json f : dec_fields (fields_json f) zero_fields = Some f.
Proof.
  destruct f as [a b c d e g h i j].
  destruct a, b, c, d, e, h, i, j; reflexivity.
Qed.
(** The tables, the client's token and what GitHub was told. *)
Definition published (w : World) := (db w, chat w).
#[export] Instance published_steady : Steady published.
Proof. by split. Qed.
Lemma entropy_stmt : fixed entropy stmt.
Proof. intros w. unfold stmt. by destruct (faults w) as [|[] ?]. Qed.
Lemma entropy_now {E} : fixed entropy (@now E).
Proof. intros w. unfold now. by destruct (ticks w). Qed.
Section content.
#[local] Hint Resolve entropy_stmt entropy_now : fixed.
Context (app inst base : string) (sign : string -> Time -> Time -> option string).
Context (answers : list GHRequest -> GHRequest -> option (Z * list Z)) (settings : Settings).
Context (range_closed : list (string * string) -> list (string * string)).
Let gh : GitHub := client app inst base sign answers.
(** What is told of a report: its author is the first characters of a keyed hash
    of the id, the report five random bytes. *)
Definition author_ref (userID : Z) : string :=
  "U-" +:+ str (take 8 (bytes (b32_encode (hmac_sha256 (PseudonymKey settings) (bytes (Itoa userID)))))).
Definition random_ref (pool : list ascii) : string := "R-" +:+ b32_encode (take 5 pool).
Definition told_of (tok0 : string) (i : Input) (userID : Z) (ref : string) : GHRequest -> Prop :=
  told app inst base sign answers settings tok0 (In_Kind i) (IssueTitle (In_Kind i) (In_Title i))
    (IssueBody (In_Kind i) (In_Fields i) (author_ref userID) ref).
Lemma NewReportRef_Ok w ref w' : NewReportRef w = (Ok ref, w') -> ref = random_ref (entropy w).
Proof.
  unfold NewReportRef. intros (buf & w1 & H & [= <- <-])%M_bind_Ok. unfold rand_read in H.
  destruct (_ =? _)%nat; [|done]. by injection H as <- _.
Qed.
Lemma Submit_published user i w res w' : Submit (Some gh) settings range_closed user i w = (res, w') ->
  match res with
  | Fail _ => published w' = published w
  | Ok rep => exists i' new, validate range_closed i = Ok i' /\ In_Kind i' ∈ [KindBug; KindIncident] /\
      gh_log w' = gh_log w ++ new /\ Forall (told_of (gh_token w).1 i' (U_ID user) (random_ref (entropy w))) new
  end.
Proof.
  intros H. unfold Submit in H.
  apply M_bind_any in H as [(e & -> & H)|(i' & w1 & [Hv ->]%lift_Ok_inv & H)]; [by injection H as _ <-|].
  apply M_bind_any in H as [(e & _ & H)|(t0 & w1 & H1 & H)]; [by apply never_now in H|].
  pose proof (fixed_run entropy _ _ _ _ entropy_now H1) as He1. apply (fixed_run published) in H1; [|fixed_tac].
  assert (forall s, fixed published (map_err StoreError (st_CountSince (U_ID user) s))) as Hcount.
  { intros s. apply fixed_map_err. unfold st_CountSince; cbn. unfold SupportReportStore.CountSince. fixed_tac. }
  assert (forall s, fixed entropy (map_err StoreError (st_CountSince (U_ID user) s))) as Hcount'.
  { intros s. apply fixed_map_err. unfold st_CountSince; cbn. unfold SupportReportStore.CountSince, query. fixed_tac. }
  apply M_bind_any in H as [(e & -> & H)|([n oldest] & w2 & H2 & H)]; [apply (fixed_run published) in H; [congruence|done]|].
  pose proof (fixed_run entropy _ _ _ _ (Hcount' _) H2) as He2. apply (fixed_run published) in H2; [|apply Hcount].
  apply M_bind_any in H as [(e & -> & H)|(u & w3 & [_ ->]%guard_Ok_inv & H)]; [apply (fixed_run published) in H; [congruence|fixed_tac]|].
  assert (fixed published (map_err StoreError NewReportRef)) as Href by (unfold NewReportRef; fixed_tac).
  apply M_bind_any in H as [(e & -> & H)|(ref & w3 & H3 & H)]; [apply (fixed_run published) in H; [congruence|done]|].
  pose proof (map_err_Ok_inv _ _ _ _ _ H3) as Hr. apply NewReportRef_Ok in Hr. rewrite He2, He1 in Hr.
  apply (fixed_run published) in H3; [|exact Href].
  pose proof (eq_trans H3 (eq_trans H2 H1)) as H03. clear H1 H2 H3 He1 He2.
  pose proof (chat_Create ref (U_ID user) (In_Kind i') (In_Title i') (fields_json (In_Fields i'))) as Hchat.
  apply M_bind_any in H as [(e & -> & H)|(rep & w4 & H4 & H)].
  { rewrite <-H03. unfold map_err in H. destruct (st_Create _ _ _ _ _ w3) as [x w4] eqn:Hx. cbn in Hx.
    pose proof (fixed_run chat _ _ _ _ Hchat Hx) as Hc. apply Create_any in Hx as [(e' & -> & Hd & _)|(tc & -> & _)]; [|done].
    injection H as _ <-. unfold published. by rewrite Hd, Hc. }
  apply map_err_Ok_inv in H4. cbn in H4. apply (fixed_run chat _ _ _ _ Hchat) in H4 as Hc4. injection H03 as _ Ht3 Hl3. injection Hc4 as Ht4 Hl4.
  apply Create_any in H4 as [(e' & [=] & _)|(tc & [= ->] & _ & Hfit & _)]. set (rep := new_report _ _ _ _ _ _ _) in *.
  assert (In_Kind i' ∈ [KindBug; KindIncident]) as Hk.
  { unfold SupportReportStore.report_fits in Hfit. repeat apply andb_true_iff in Hfit as [Hfit ?].
    match goal with Hb : bool_decide _ = true |- _ => by apply bool_decide_eq_true in Hb end. }
  apply M_bind_any in H as [(e & _ & H)|(sent & w5 & H5 & H)]; [by apply never_try in H|]. injection H as <- <-.
  destruct (send_tells app inst base sign answers settings (gh_token w).1 rep (In_Fields i') Hk (dec_fields_json _) w4)
    as (_ & (new & Hnew & Htold) & _); [left; congruence|].
  unfold try in H5. fold gh in Hnew. destruct (send settings gh rep w4) as [x w6]. injection H5 as _ <-. cbn [snd] in Hnew.
  exists i', new. rewrite <-Hr. split_and!; [done|done|congruence|exact Htold].
Qed.
End content.

Section served.
Context (app inst base : string) (sign : string -> Time -> Time -> option string).
Context (answers : list GHRequest -> GHRequest -> option (Z * list Z)) (settings : Settings).
Context (range_closed : list (string * string) -> list (string * string)).
Lemma report_user_run r w user w1 : report_user r w = (Ok user, w1) ->
  published w1 = published w /\ entropy w1 = entropy w /\ user ∈ users (db w) /\ U_Email user = default "" (R_UserEmail r).
Proof.
  intros H. assert (fixed published (report_user r)) as Hf.
  { unfold report_user, or_else, need, UserStore.GetUserByEmail. fixed_tac. }
  assert (fixed entropy (report_user r)) as He.
  { pose proof entropy_stmt. unfold report_user, or_else, need, UserStore.GetUserByEmail, query_text. fixed_tac. }
  split; [by eapply fixed_run|]. split; [by eapply fixed_run|]. by apply report_user_found in H.
Qed.
(** C22. A report that is answered 201 has passed the filter: its shape is right
    and none of its texts looks like a password, a secret or an address. All that
    GitHub is sent for it is: the request of a token, signed by the application;
    its issue, a bug in the public repository and an incident in the private one,
    with the labels and the type of its kind, a title and a body made of its
    checked texts, the keyed hash of its author's id and a random reference; and
    the place in the project of the issue GitHub answered. Each request bears the
    token the client held or one GitHub just answered. Any other answer leaves the
    tables as they were and sends GitHub nothing. *)
Theorem report_content_confined r w resp w' : (forall l, Permutation (range_closed l) l) ->
  serve (create_report (Some (client app inst base sign answers)) settings range_closed r) w = (resp, w') ->
  (Status resp <> 201 /\ db w' = db w /\ gh_log w' = gh_log w) \/
  exists user i i' new, Status resp = 201 /\
    user ∈ users (db w) /\ U_Email user = default "" (R_UserEmail r) /\
    decode_input r = Some i /\ proper i' /\ In_Kind i' = In_Kind i /\ In_Title i' = TrimSpace (In_Title i) /\
    In_Fields i' = In_Fields i /\ gh_log w' = gh_log w ++ new /\
    Forall (told_of app inst base sign answers settings (gh_token w).1 i' (U_ID user) (random_ref (entropy w))) new.
Proof.
  intros Hr H. apply serve_bind in H as [(user & w1 & H1 & H)|H].
  2: { left. assert (throws (fun e => Status e <> 201) (report_user r)) as Ht by (unfold report_user; throws_tac; done).
       split; [by eapply Ht|]. apply (fixed_run published) in H; [by injection H as -> _ ->|].
       unfold report_user, or_else, need, UserStore.GetUserByEmail. fixed_tac. }
  apply report_user_run in H1 as (Hp & Hent & Hu & He). injection Hp as Hd Ht Hl.
  apply serve_bind in H as [(i & w2 & [Hi ->]%need_Ok_inv & H)|H].
  2: { left. unfold need in H. destruct (decode_input r); [done|]. injection H as <- <-. done. }
  apply serve_bind in H as [(x & w2 & H2 & H)|H]; [|by apply never_try in H].
  unfold try in H2. destruct (Submit _ _ _ _ _ w1) as [y w3] eqn:Hs. injection H2 as <- <-. apply Submit_published in Hs.
  destruct y as [rep|e].
  - destruct Hs as (i' & new & Hv & _ & Hnew & Htold). injection H as <- <-. right. exists user, i, i', new.
    apply validate_proper in Hv as (Hproper & Hf & Hk & Htitle); [|exact Hr].
    rewrite Hl in Hnew. rewrite Ht, Hent in Htold. by split_and!.
  - left. rewrite <-Hd, <-Hl. injection Hs as Hd3 _ Hl3. rewrite <-Hd3, <-Hl3.
    destruct e as [f why|f cat|at_|e]; try (by injection H as <- <-).
    apply serve_bind in H as [(t & w4 & H4 & H)|H]; [|by apply never_now in H].
    apply (fixed_run published) in H4; [|fixed_tac]. injection H4 as <- _ <-. by injection H as <- <-.
Qed.
End served.

(** *** A concrete service *)
Definition demo_settings : Settings := with_defaults (mkSettings (bytes "key") "org/public" "org/private" "" 0 0).
Definition demo_member (k v : string) : string := (qt ++ k ++ qt ++ ":" ++ qt ++ v ++ qt)%string.
(** A token, then issues. *)
Definition demo_answers (before : list GHRequest) (req : GHRequest) : option (Z * list Z) :=
  Some (201, quote (match GH_Body req with
    | None => "{" ++ demo_member "token" "t1" ++ "," ++ demo_member "expires_at" "2030-01-01T00:00:00Z" ++ "}"
    | Some _ => "{" ++ qt ++ "number" ++ qt ++ ":7," ++ demo_member "html_url" "https://x/7" ++ "," ++ demo_member "state" "open" ++ "}"
    end)%string).
Abbreviation demo_client := (client "app" "1" "https://api" (fun _ _ _ => Some "jwt") demo_answers).
Definition demo_reporter : User := mkUser 7 "a@b.c" "h" "user" "" "" "email" "" 0 0 None None None None None None None.
Definition demo_world : World :=
  on_db (on_users (fun _ => [demo_reporter])) (empty_world (Date 2026 1 1 0 0 0 0) (map chr (seqZ 0 64))).
Definition demo_report (kind actual : string) : Request :=
  mkRequest "POST" (Some "a@b.c") (Some "user") None ∅ ∅ ∅ "10.0.0.1:1"
    (Some (mkBody (JObj [("kind", JStr kind); ("title", JStr " Volet "); ("app", JStr "web"); ("impact", JStr "local");
                         ("actual", JStr actual)]) 120 None)).
Abbreviation demo_serve kind actual :=
  (serve (create_report (Some demo_client) demo_settings (fun l => l) (demo_report kind actual)) demo_world).
Example report_answers :
  map (fun ka => Status (demo_serve ka.1 ka.2).1) [("bug", "bloqué"); ("incident", "bloqué"); ("bug", "mdp: tulipe"); ("idea", "x")] =
  [201; 201; 422; 400].
Proof. vm_compute. reflexivity. Qed.
Example incident_urls : map GH_URL (gh_log (demo_serve "incident" "bloqué").2) =
  ["https://api/app/installations/1/access_tokens"; "https://api/repos/org/private/issues"].
Proof. vm_compute. reflexivity. Qed.
Definition demo_steps : list SupportStep := [StepRequest RCreateReport (demo_report "bug" "bloqué"); StepSync].
Definition demo_gh : option GitHub := Some demo_client.
Lemma demo_laws g : demo_gh = Some g -> GitHubLaws g.
Proof. intros [= <-]. apply app_client_laws. Qed.
Lemma demo_wf : reports_wf demo_world.
Proof. split; [constructor|]. intros r Hr. by apply elem_of_nil in Hr. Qed.
Lemma report_lifecycle_witness :
  let run := support_run demo_gh demo_settings (fun l => l) in
  reports_wf (run demo_world (demo_steps ++ demo_steps)) /\
  map SU_Status (support_reports (db (run demo_world demo_steps))) = ["open"] /\
  exists rows new, db (run demo_world (demo_steps ++ demo_steps)) = with_reports (rows ++ new) (db (run demo_world demo_steps)) /\
    Forall2 (report_le demo_settings) (support_reports (db (run demo_world demo_steps))) rows /\
    Forall (filed_row demo_settings (fun l => l) (asked demo_steps (users (db (run demo_world demo_steps))))) new.
Proof.
  intros run.
  destruct (report_lifecycle demo_gh demo_laws demo_settings (fun l => l) demo_world demo_steps _ demo_wf eq_refl) as [Hwf _].
  destruct (report_lifecycle demo_gh demo_laws demo_settings (fun l => l) _ demo_steps _ Hwf eq_refl) as [Hwf' Hrows].
  assert (run demo_world (demo_steps ++ demo_steps) = run (run demo_world demo_steps) demo_steps) as -> by apply foldl_app.
  split; [exact Hwf'|]. split; [vm_compute; reflexivity|exact Hrows].
Defined.
Lemma reports_rate_limited_witness :
  let w := support_run demo_gh demo_settings (fun l => l) demo_world (mjoin (replicate 7 demo_steps)) in
  limited demo_settings (db w) /\ length (support_reports (db w)) = 5%nat.
Proof.
  split; [|vm_compute; reflexivity].
  apply (reports_rate_limited demo_gh demo_laws demo_settings (fun l => l) demo_world); [apply demo_wf|].
  intros u t. vm_compute. intros H. discriminate H.
Defined.
Lemma report_content_confined_witness :
  let served := demo_serve "incident" "bloqué" in
  Status served.1 = 201 /\ length (gh_log served.2) = 2%nat /\
  exists user i i' new, Status served.1 = 201 /\ user ∈ users (db demo_world) /\
    U_Email user = default "" (R_UserEmail (demo_report "incident" "bloqué")) /\
    decode_input (demo_report "incident" "bloqué") = Some i /\ proper i' /\ In_Kind i' = In_Kind i /\
    In_Title i' = TrimSpace (In_Title i) /\ In_Fields i' = In_Fields i /\ gh_log served.2 = gh_log demo_world ++ new /\
    Forall (told_of "app" "1" "https://api" (fun _ _ _ => Some "jwt") demo_answers demo_settings (gh_token demo_world).1 i' (U_ID user)
      (random_ref (entropy demo_world))) new.
Proof.
  intros served. assert (Status served.1 = 201) as Hs by (vm_compute; reflexivity).
  split; [exact Hs|]. split; [vm_compute; reflexivity|].
  assert (demo_serve "incident" "bloqué" = (served.1, served.2)) as E by apply surjective_pairing.
  clearbody served. destruct (report_content_confined _ _ _ _ _ _ _ _ _ _ _ (fun l => Permutation_refl l) E) as [[H _]|H]; [destruct (H Hs)|exact H].
Defined.
(** A message cut inside a character is refused by the database: the failure is
    not counted and the next round tries again at once. *)
Example failure_not_counted :
  let msg := String.concat "" (repeat "é" 200) in
  let mark m := SupportReportStore.MarkFailed 1 m (demo_serve "bug" "bloqué").2 in
  ((mark ("x" ++ msg)%string).1, map SU_Attempts (support_reports (db (mark ("x" ++ msg)%string).2)),
   map SU_Attempts (support_reports (db (mark msg).2))) = (Fail ErrDB, [1], [2]).
Proof. vm_compute. reflexivity. Qed.
(** The issue is opened before it is recorded: when the recording fails, the next
    round opens a second one. *)
Example issue_opened_twice :
  let failing := on_faults (fun _ => [false; false; false; true]) demo_world in
  let w := support_run demo_gh demo_settings (fun l => l) failing demo_steps in
  (map SU_Status (support_reports (db w)), length (List.filter (fun r => is_some (GH_Body r)) (gh_log w))) = (["open"], 2%nat).
Proof. vm_compute. reflexivity. Qed.
