(* ===== verification/Administration.v ===== *)
(** * What the administration guarantees

    Theorems about [Admin]: who may act on which account, what a local
    administrator can reach, that a deletion leaves a global administrator,
    that a temporary password lets its owner in, and what stands before the
    routes. *)
From S2P Require Import Prelude GoStr Json Exchange Accounts Lights World Mail AuditStore Crypto PortalStore.
From S2P Require Import Inventory LegacyStore AccountStore Http Newsletter Portal Orders SyncStore GatewayApi Middleware.
From S2P Require Import Identity OAuth Admin Credentials.
#[global] Open Scope Z_scope.

#[export] Instance action_eq_dec : EqDecision AdminAction.
Proof. solve_decision. Defined.
#[export] Instance newsletter_op_eq_dec : EqDecision NewsletterOp.
Proof. solve_decision. Defined.
#[export] Instance route_eq_dec : EqDecision AdminRoute.
Proof. solve_decision. Defined.
(** ** The rule of authorization *)
Definition global_admins (d : DB) : Z := count_where (fun u => seqb (U_Role u) RoleAdminGlobal) (users d).
(** A global administrator may do anything, except lock or remove itself and
    remove the last of its kind; a local administrator may act on the guests
    and users of its own cabinet, and give no other role. *)
Definition permitted (d : DB) (caller target : User) (action : AdminAction) (newRole : string) : Prop :=
  (U_Role caller = RoleAdminGlobal /\
   (action ∈ [ActionForbid; ActionUnforbid; ActionDelete] -> U_ID caller <> U_ID target) /\
   (action = ActionDelete -> U_Role target = RoleAdminGlobal -> 1 < global_admins d)) \/
  (U_Role caller = RoleAdminLocal /\
   (exists m, U_LinkedMachineID caller = Some m /\ U_LinkedMachineID target = Some m) /\
   isPrivilegedRole (U_Role target) = false /\
   if decide (action = ActionUpdateRole) then isLocalManageableRole newRole = true
   else isLocalManageableRole (U_Role target) = true).
Lemma callerOwnsTarget_spec caller target : callerOwnsTarget caller target = true <->
  exists m, U_LinkedMachineID caller = Some m /\ U_LinkedMachineID target = Some m.
Proof.
  unfold callerOwnsTarget. destruct (U_LinkedMachineID caller), (U_LinkedMachineID target); split; try done;
    try (by intros (m & [=] & [=])).
  - intros ->%Z.eqb_eq. by eexists.
  - intros (m & [= ->] & [= ->]). apply Z.eqb_refl.
Qed.
Lemma seqb_false a b : seqb a b = false <-> a <> b.
Proof. rewrite <-not_true_iff_false, seqb_spec. done. Qed.
Lemma authorize_reads I caller id action role : preserves (db_inv I) (AuthorizeAdminTarget caller id action role).
Proof.
  unfold AuthorizeAdminTarget, user_by_id, count_admin_global, admin_user_store, UserStore.CountAdminGlobal. preserves_tac.
Qed.
#[export] Hint Resolve authorize_reads : preserves.
Lemma authorize_run caller id action role w target w' : AuthorizeAdminTarget caller id action role w = (Ok target, w') ->
  db w' = db w /\ get_row (is_user id) (users (db w)) = Ok target /\ permitted (db w) caller target action role.
Proof.
  intros H. split; [eapply keeps_run; [apply authorize_reads|exact H]|].
  unfold AuthorizeAdminTarget, user_by_id, count_admin_global, admin_user_store, UserStore.GetUserByID, UserStore.CountAdminGlobal in H.
  apply M_bind_Ok in H as (found & w1 & [-> Hd]%query_Ok_inv & H). apply M_bind_Ok in H as (t & w2 & [Ht ->]%lift_Ok_inv & H).
  assert (get_row (is_user id) (users (db w)) = Ok t) as Hrow.
  { destruct (get_row _ _); [|done]. by injection Ht as ->. }
  destruct (seqb (U_Role caller) RoleAdminGlobal) eqn:Eg; [apply seqb_spec in Eg|].
  - apply M_bind_Ok in H as (u & w3 & Hg & [= <- _]). split; [done|]. left. split; [done|]. clear Ht.
    destruct action; (split; [intros Ha | intros Ha Hr]); try done;
      try (rewrite !elem_of_cons, elem_of_nil in Ha; destruct Ha as [?|[?|[?|[] ] ] ]; discriminate).
    all: try (apply M_bind_Ok in Hg as (u1 & w4 & Hs & Hg)).
    all: try (apply guard_Ok_inv in Hg as [Hg _]; apply Z.eqb_neq in Hg; done).
    + apply guard_Ok_inv in Hs as [Hs _]. by apply Z.eqb_neq in Hs.
    + apply guard_Ok_inv in Hs as [_ ->]. rewrite Hr, seqb_refl in Hg. apply M_bind_Ok in Hg as (n & w5 & [-> _]%query_Ok_inv & Hg).
      apply guard_Ok_inv in Hg as [Hg _]. rewrite Hd in Hg. unfold global_admins. lia.
  - destruct (seqb (U_Role caller) RoleAdminLocal) eqn:El; [apply seqb_spec in El|done].
    apply M_bind_Ok in H as (u & w3 & [Ho ->]%guard_Ok_inv & H). apply M_bind_Ok in H as (u' & w4 & [Hp ->]%guard_Ok_inv & H).
    apply M_bind_Ok in H as (u2 & w5 & Ha & [= <- _]). apply negb_false_iff in Ho. split; [done|]. right.
    split_and!; [done|by apply callerOwnsTarget_spec|done|].
    destruct action; apply guard_Ok_inv in Ha as [Ha%negb_false_iff _]; done.
Qed.
(** C16. Without a failing statement, [AuthorizeAdminTarget] grants exactly what
    the rule permits, on the account of the given id: a global administrator
    acts on anyone but may not lock or delete itself nor delete the last of
    its kind, a local administrator only acts on guests and users of its own
    cabinet and hands out only these two roles, and nobody else acts at all. *)
Theorem authorization_spec caller id action role w target : faults w = [] ->
  (exists w', AuthorizeAdminTarget caller id action role w = (Ok target, w')) <->
  get_row (is_user id) (users (db w)) = Ok target /\ permitted (db w) caller target action role.
Proof.
  intros Hf. split; [intros (w' & H); apply authorize_run in H; tauto|]. intros [Hrow Hp]. exists w.
  assert (forall A (f : DB -> A), query f w = (Ok (f (db w)), w)) as Hq by (intros; by apply query_ok).
  unfold AuthorizeAdminTarget, user_by_id, count_admin_global, admin_user_store, UserStore.GetUserByID, UserStore.CountAdminGlobal.
  rewrite M_bind_run, Hq, Hrow. cbn [res_value ok_or]. rewrite M_bind_run. cbn [lift].
  destruct Hp as [(Hg & Hself & Hlast)|(Hl & Ho & Hpriv & Hrole)].
  - assert (action ∈ [ActionForbid; ActionUnforbid; ActionDelete] -> (U_ID caller =? U_ID target) = false) as Hne
      by (intros H%Hself; by apply Z.eqb_neq).
    rewrite !elem_of_cons in Hne. rewrite Hg, seqb_refl, M_bind_run.
    destruct action; [done|done|rewrite guard_run, Hne by auto; done|rewrite guard_run, Hne by auto; done|].
    rewrite M_bind_run, guard_run, Hne by auto. cbn iota beta.
    destruct (seqb (U_Role target) RoleAdminGlobal) eqn:E; [|done].
    apply seqb_spec in E. rewrite M_bind_run, Hq, guard_run. specialize (Hlast eq_refl E). unfold global_admins in Hlast.
    assert ((count_where (fun u => seqb (U_Role u) RoleAdminGlobal) (users (db w)) <=? 1) = false) as -> by lia. done.
  - rewrite Hl. change (seqb RoleAdminLocal RoleAdminGlobal) with false. rewrite seqb_refl.
    apply callerOwnsTarget_spec in Ho. rewrite M_bind_run, guard_run, Ho. cbn [negb]. rewrite M_bind_run, guard_run, Hpriv, M_bind_run.
    destruct action; cbn in Hrole; rewrite guard_run, Hrole; done.
Qed.
Definition local_admin : User :=
  mkUser 7 "a@b.c" "" RoleAdminLocal "" "" "email" "" 0 0 None (Some 4) None None None None None.
Definition guest_of_4 : User :=
  mkUser 8 "g@b.c" "" RoleGuestLocal "" "" "email" "" 0 0 None (Some 4) None None None None None.
Definition global_admin : User :=
  mkUser 9 "root@b.c" "" RoleAdminGlobal "" "" "email" "" 0 0 None None None None None None None.
Definition admin_demo : World :=
  on_db (on_users (fun _ => [local_admin; guest_of_4; global_admin])) (empty_world 100 (repeat "A"%char 256)).
Lemma authorization_spec_witness :
  exists w', AuthorizeAdminTarget local_admin 8 ActionForbid "" admin_demo = (Ok guest_of_4, w').
Proof.
  apply (proj2 (authorization_spec local_admin 8 ActionForbid "" admin_demo guest_of_4 eq_refl)).
  split; [reflexivity|]. right. split_and!; [reflexivity|by exists 4|reflexivity|reflexivity].
Defined.

(** ** What the side effects of a request leave alone *)
Section side.
(** A property of the tables that the audit log, the mail log and the
    addresses of the machines do not touch. *)
Context (I : DB -> Prop) (deps : Deps)
  (Haudit : forall d f, I d -> I (on_audit_logs f d)) (Hmachines : forall d f, I d -> I (on_machines f d))
  (Hlog : forall d f, I d -> I (on_email_send_log f d)).
Lemma side_audit id em a ty res ip d : preserves (db_inv I) (logAudit deps id em a ty res ip d).
Proof using Haudit.
  unfold logAudit, ignore, attempt. destruct (negb _); preserves_tac. by apply CreateAuditLog_preserves.
Qed.
Lemma side_backfill_keys id keys : preserves (db_inv I) (AdminInventoryStore.backfill_keys id keys).
Proof using Hmachines.
  induction keys as [|k keys IH]; cbn [AdminInventoryStore.backfill_keys]; preserves_tac; try exact IH;
    apply preserves_exec; intros; by apply Hmachines.
Qed.
Lemma side_machines : preserves (db_inv I) AdminInventoryStore.GetMachines.
Proof using Hmachines.
  unfold AdminInventoryStore.GetMachines. apply preserves_bind; [auto with preserves|]. intros rows.
  induction rows as [|[m x] rows IH]; cbn [AdminInventoryStore.backfillMissingMACs]; preserves_tac; try exact IH.
  apply side_backfill_keys.
Qed.
Lemma side_log_send a b c e i : preserves (db_inv I) (EmailTemplateStore.LogSend a b c e i).
Proof using Hlog. unfold EmailTemplateStore.LogSend. preserves_tac. apply preserves_modify. intros w Hw. by apply Hlog. Qed.
Lemma side_Send mail to_ s b : preserves (db_inv I) (Send mail to_ s b).
Proof using Type. unfold Send. preserves_tac. intros w Hw. exact Hw. Qed.
Lemma side_SendTemplate mail slug rcp vars a e : preserves (db_inv I) (SendTemplate mail slug rcp vars a e).
Proof using Hlog.
  unfold SendTemplate, logFailure, template_log, template_get, template_store, EmailTemplateStore.Get. preserves_tac;
    first [apply side_log_send|apply side_Send].
Qed.
Lemma side_vars user pwd : preserves (db_inv I) (buildTemplateVars deps user pwd).
Proof using Hmachines.
  unfold buildTemplateVars, enrichDeviceVars, AdminInventoryStore.GetGateways. handler_tac; apply side_machines.
Qed.
Lemma side_mail slug user pwd extra id em ip e :
  preserves (db_inv I) (sendTemplateEmailWithVars deps slug user pwd extra id em ip e).
Proof using Haudit Hmachines Hlog.
  unfold sendTemplateEmailWithVars, EmailTemplateStore.Get. handler_tac;
    first [apply side_vars|apply side_SendTemplate|apply side_audit].
Qed.
Lemma side_auto slug user pwd id em ip : preserves (db_inv I) (tryAutoSend deps slug user pwd id em ip).
Proof using Haudit Hmachines Hlog. unfold tryAutoSend, EmailTemplateStore.Get, sendTemplateEmail. handler_tac; apply side_mail. Qed.
Lemma side_bind m a g : preserves (db_inv I) (bindArmoireForPortalDelivery deps m a g).
Proof using Hmachines.
  unfold bindArmoireForPortalDelivery, AdminInventoryStore.HashedPkeyByInventoryID, LegacyIoTStore.BindMachineForPortalDelivery.
  preserves_tac; apply preserves_exec; intros; by apply Hmachines.
Qed.
End side.

(** ** The requests that change an account *)
Definition action_of (o : AdminRoute) : option AdminAction :=
  match o with
  | RRole => Some ActionUpdateRole | RLinks => Some ActionUpdateLinks | RForbid => Some ActionForbid
  | RUnforbid => Some ActionUnforbid | RDelete => Some ActionDelete | _ => None
  end.
Definition account_of_request (r : Request) (d : DB) : res err User :=
  get_row (fun u => seqb (U_Email u) (caller_email r)) (users d).
(** What an action does to the rows of the accounts. *)
Definition carried_out (action : AdminAction) (id : Z) (newRole : string) (d : DB) (rows' : list User) : Prop :=
  match action with
  | ActionUpdateRole => rows' = update_where (is_user id) (set_Role newRole) (users d)
  | ActionUpdateLinks => exists m g a, rows' = update_where (is_user id) (fun u =>
      set_LinkedArmoireID a (set_LinkedGatewayID g (set_LinkedMachineID m u))) (users d)
  | ActionForbid => exists t, rows' = update_where (is_user id) (set_ForbiddenAt (Some t)) (users d)
  | ActionUnforbid => rows' = update_where (is_user id) (set_ForbiddenAt None) (users d)
  | ActionDelete => rows' = users (UserStore.delete_user id d)
  end.
Definition granted (action : AdminAction) (r : Request) (d d' : DB) : Prop :=
  exists caller id target newRole, account_of_request r d = Ok caller /\ Atoi (URLParam r "id") = Some id /\
    get_row (is_user id) (users d) = Ok target /\ permitted d caller target action newRole /\
    carried_out action id newRole d (users d').
Lemma serve_read {A} (m : HW A) k w resp w' : (forall I, preserves (db_inv I) m) -> serve (m ≫= k) w = (resp, w') ->
  db w' = db w \/ exists a w1, m w = (Ok a, w1) /\ db w1 = db w /\ serve (k a) w1 = (resp, w').
Proof.
  intros Hm H. apply serve_bind in H as [(a & w1 & Ha & H)|H].
  - right. exists a, w1. split_and!; [done| |done]. by eapply keeps_run.
  - left. by eapply keeps_run.
Qed.
(** The rest of a handler after the statement that changed the accounts. *)
Lemma serve_rest (h : HW Resp) w resp w' : (forall b, preserves (db_inv (fixes users b)) h) -> serve h w = (resp, w') ->
  users (db w') = users (db w).
Proof. intros Hh H. exact (preserves_serve _ _ _ _ _ (Hh (users (db w))) eq_refl H). Qed.
Lemma current_user_reads I r : preserves (db_inv I) (current_user r).
Proof. unfold current_user. handler_tac. Qed.
Lemma target_id_reads I r : preserves (db_inv I) (target_id r).
Proof. unfold target_id. auto with preserves. Qed.
#[export] Hint Resolve current_user_reads target_id_reads : preserves.
Lemma authorizeUserAction_reads I r a : preserves (db_inv I) (authorizeUserAction r a).
Proof. unfold authorizeUserAction. handler_tac. Qed.
#[export] Hint Resolve authorizeUserAction_reads : preserves.
Lemma current_user_run r w u w' : current_user r w = (Ok u, w') -> account_of_request r (db w) = Ok u.
Proof.
  unfold current_user. intros H. hrun. unfold account_of_request. apply res_value_Some.
  match goal with H : UserStore.GetUserByEmail _ _ = (?x, _) |- _ => destruct x as [o|e]; [apply query_text_Ok_inv in H as [-> _]|done] end.
  done.
Qed.
Lemma authorizeUserAction_run r a w caller target w' : authorizeUserAction r a w = (Ok (caller, target), w') ->
  exists id, account_of_request r (db w) = Ok caller /\ Atoi (URLParam r "id") = Some id /\
    get_row (is_user id) (users (db w)) = Ok target /\ permitted (db w) caller target a "" /\ U_ID target = id.
Proof.
  unfold authorizeUserAction, target_id. intros H. hrun.
  match goal with H : (_, _) = (_, _) |- _ => injection H as -> -> end.
  match goal with H : current_user _ _ = _ |- _ => pose proof H as Hc; apply current_user_run in Hc;
    apply keeps_run in H; [|apply current_user_reads] end.
  match goal with H : AuthorizeAdminTarget _ _ _ _ _ = _ |- _ => apply authorize_run in H as (_ & Hrow & Hp) end.
  match goal with H : db _ = db w |- _ => rewrite H in * end.
  eexists. split_and!; [done|done|done|done|]. by apply get_row_Ok in Hrow as [_ ->%Z.eqb_eq].
Qed.
Lemma serve_store {A} (m : MW A) f k w resp w' : fails_clean m -> serve (or_else m f ≫= k) w = (resp, w') ->
  db w' = db w \/ exists a w1, m w = (Ok a, w1) /\ serve (k a) w1 = (resp, w').
Proof.
  intros Hm H. apply serve_bind in H as [(a & w1 & Ha%or_else_Ok_inv & H)|H]; [right; by exists a, w1|].
  left. by eapply clean_or_else.
Qed.
Section account_requests.
Context (deps : Deps).
Lemma audit_fixes_users b id em a ty res ip d : preserves (db_inv (fixes users b)) (logAudit deps id em a ty res ip d).
Proof. apply side_audit. done. Qed.
Lemma auto_fixes_users b slug user pwd id em ip : preserves (db_inv (fixes users b)) (tryAutoSend deps slug user pwd id em ip).
Proof. apply side_auto; done. Qed.
Lemma bind_fixes_users b m a g : preserves (db_inv (fixes users b)) (bindArmoireForPortalDelivery deps m a g).
Proof. apply side_bind. done. Qed.
Hint Resolve audit_fixes_users auto_fixes_users bind_fixes_users : preserves.
Lemma ForbidUser_served r w resp w' : serve (ForbidUser deps r) w = (resp, w') ->
  users (db w') = users (db w) \/ granted ActionForbid r (db w) (db w').
Proof.
  intros H. unfold ForbidUser in H. apply serve_read in H as [->|([caller target] & w1 & Ha & Hd & H)]; [by left| |intros; auto with preserves].
  apply authorizeUserAction_run in Ha as (id & Hc & Hid & Hrow & Hp & <-).
  apply serve_read in H as [->|(u & w2 & _ & Hd2 & H)]; [left; by rewrite Hd| |intros; auto with preserves].
  apply serve_store in H as [->|(u2 & w3 & Hs & H)]; [left; by rewrite Hd2, Hd| |].
  2:{ unfold UserStore.ForbidUser. apply clean_bind; [intros; auto with preserves|]. intros t. apply exec_clean. }
  apply serve_rest in H; [|intros; handler_tac]. right. exists caller, (U_ID target), target, "". split_and!; try done.
  unfold UserStore.ForbidUser in Hs. mrun. exists x. rewrite H.
  match goal with H : db w3 = _ |- _ => rewrite H end. cbn. by repeat match goal with H : db _ = db _ |- _ => rewrite H; clear H end.
Qed.
Lemma UnforbidUser_served r w resp w' : serve (UnforbidUser deps r) w = (resp, w') ->
  users (db w') = users (db w) \/ granted ActionUnforbid r (db w) (db w').
Proof.
  intros H. unfold UnforbidUser in H. apply serve_read in H as [->|([caller target] & w1 & Ha & Hd & H)]; [by left| |intros; auto with preserves].
  apply authorizeUserAction_run in Ha as (id & Hc & Hid & Hrow & Hp & <-).
  apply serve_read in H as [->|(u & w2 & _ & Hd2 & H)]; [left; by rewrite Hd| |intros; auto with preserves].
  apply serve_store in H as [->|(u2 & w3 & Hs & H)]; [left; by rewrite Hd2, Hd| |apply exec_clean].
  apply serve_rest in H; [|intros; handler_tac]. right. exists caller, (U_ID target), target, "". split_and!; try done.
  apply exec_Ok_inv in Hs. cbn. by rewrite H, Hs, Hd2, Hd.
Qed.
Lemma DeleteUser_served r w resp w' : serve (DeleteUser deps r) w = (resp, w') ->
  users (db w') = users (db w) \/ granted ActionDelete r (db w) (db w').
Proof.
  intros H. unfold DeleteUser in H. apply serve_read in H as [->|([caller target] & w1 & Ha & Hd & H)]; [by left| |intros; auto with preserves].
  apply authorizeUserAction_run in Ha as (id & Hc & Hid & Hrow & Hp & <-).
  apply serve_store in H as [->|(u2 & w3 & Hs & H)]; [left; by rewrite Hd| |apply exec_clean].
  apply serve_rest in H; [|intros; handler_tac]. right. exists caller, (U_ID target), target, "". split_and!; try done.
  apply exec_Ok_inv in Hs. unfold carried_out. by rewrite H, Hs, Hd.
Qed.
Lemma UpdateUserRole_served r w resp w' : serve (UpdateUserRole deps r) w = (resp, w') ->
  users (db w') = users (db w) \/ granted ActionUpdateRole r (db w) (db w').
Proof.
  intros H. unfold UpdateUserRole in H.
  apply serve_read in H as [->|(caller & w1 & Hc & Hd1 & H)]; [by left| |intros; auto with preserves].
  apply serve_read in H as [->|(id & w2 & Hid & Hd2 & H)]; [left; congruence| |intros; auto with preserves].
  apply serve_read in H as [->|(role & w3 & _ & Hd3 & H)]; [left; congruence| |intros; auto with preserves].
  apply serve_read in H as [->|(target & w4 & Ha & Hd4 & H)]; [left; congruence| |intros; handler_tac].
  apply serve_store in H as [->|(u & w5 & Hs & H)]; [left; congruence| |apply put_user_clean].
  apply serve_rest in H; [|intros; handler_tac]. right.
  apply current_user_run in Hc. apply need_Ok_inv in Hid as [Hid _].
  apply or_else_Ok_inv, authorize_run in Ha as (_ & Hrow & Hp).
  assert (db w3 = db w) as Hd by congruence. rewrite Hd in *. exists caller, id, target, role. split_and!; try done.
  apply put_user_run in Hs as [Hs _]. rewrite H, Hs. cbn. congruence.
Qed.
Lemma UpdateUserLinks_served r w resp w' : serve (UpdateUserLinks deps r) w = (resp, w') ->
  users (db w') = users (db w) \/ granted ActionUpdateLinks r (db w) (db w').
Proof.
  intros H. unfold UpdateUserLinks in H.
  apply serve_read in H as [->|(caller & w1 & Hc & Hd1 & H)]; [by left| |intros; auto with preserves].
  apply serve_read in H as [->|(id & w2 & Hid & Hd2 & H)]; [left; congruence| |intros; auto with preserves].
  apply serve_read in H as [->|(target & w3 & Ha & Hd3 & H)]; [left; congruence| |intros; handler_tac].
  apply serve_read in H as [->|(req & w4 & _ & Hd4 & H)]; [left; congruence| |intros; auto with preserves].
  apply serve_read in H as [->|(u1 & w5 & _ & Hd5 & H)]; [left; congruence| |intros; auto with preserves].
  apply serve_read in H as [->|(u2 & w6 & _ & Hd6 & H)]; [left; congruence| |intros; handler_tac].
  apply serve_read in H as [->|(u3 & w7 & _ & Hd7 & H)]; [left; congruence| |intros; handler_tac].
  apply serve_read in H as [->|(u4 & w8 & _ & Hd8 & H)]; [left; congruence| |intros; auto with preserves].
  apply serve_store in H as [->|(u & w9 & Hs & H)]; [left; congruence| |apply put_user_clean].
  apply serve_rest in H; [|intros; handler_tac]. right.
  apply current_user_run in Hc. apply need_Ok_inv in Hid as [Hid _].
  apply or_else_Ok_inv, authorize_run in Ha as (_ & Hrow & Hp).
  assert (db w2 = db w) as Hd by congruence. assert (db w8 = db w) as Hd' by congruence. rewrite Hd in *.
  exists caller, id, target, "". split_and!; try done.
  apply put_user_run in Hs as [Hs _]. rewrite H, Hs. eexists _, _, _. cbn. do 2 f_equal. congruence.
Qed.
(** The five requests at once. *)
Lemma account_served gen o action r w resp w' : action_of o = Some action ->
  serve (admin_handler deps gen o r) w = (resp, w') ->
  users (db w') = users (db w) \/ granted action r (db w) (db w').
Proof.
  intros Ha H. destruct o; try done; injection Ha as <-; cbn [admin_handler] in H;
    [by eapply UpdateUserRole_served|by eapply UpdateUserLinks_served|by eapply ForbidUser_served
    |by eapply UnforbidUser_served|by eapply DeleteUser_served].
Qed.
End account_requests.

Definition admin_deps : Deps :=
  mkDeps true true true true true true true (mkMailService (fun _ => "") (fun _ _ _ _ _ _ => None) map_to_list) "".
Definition admin_request (email id : string) (body : option json) : Request :=
  mkRequest "POST" (Some email) None None {["id" := id]} ∅ ∅ "10.0.0.1:5000" (option_map (fun j => mkBody j 20 None) body).

(** ** The last global administrator *)
Lemma count_delete (p : User -> bool) rows target : NoDup (map U_ID rows) -> target ∈ rows ->
  count_where p (delete_where (is_user (U_ID target)) rows) + (if p target then 1 else 0) = count_where p rows.
Proof.
  intros Hn Hin. unfold count_where, select, delete_where. induction rows as [|u rows IH]; [by apply elem_of_nil in Hin|].
  cbn [map] in Hn. apply NoDup_cons in Hn as [Hu Hn]. cbn [List.filter].
  destruct (decide (U_ID u = U_ID target)) as [He|He].
  - assert (is_user (U_ID target) u = true) as -> by (unfold is_user; lia). cbn [negb].
    assert (target = u) as ->.
    { apply elem_of_cons in Hin as [->|Hin]; [done|]. exfalso. apply Hu. rewrite He. by apply list_elem_of_fmap_2. }
    assert (List.filter (fun r => negb (is_user (U_ID u) r)) rows = rows) as ->; [|destruct (p u); cbn [length]; lia].
    clear -Hu. induction rows as [|v rows IH]; [done|]. cbn [List.filter map] in *. apply not_elem_of_cons in Hu as [Hv Hu].
    assert (is_user (U_ID u) v = false) as -> by (unfold is_user; lia). cbn [negb]. by rewrite IH.
  - assert (is_user (U_ID target) u = false) as -> by (unfold is_user; lia). cbn [negb List.filter].
    apply elem_of_cons in Hin as [->|Hin]; [done|]. specialize (IH Hn Hin). destruct (p u); cbn [length]; lia.
Qed.
(** C19. Linking, forbidding, re-enabling and deleting an account never take the
    last global administrator away: if there was one before the request there
    is one after it, whoever asked and whatever failed. *)
Theorem last_global_admin_kept deps gen o action r w resp w' :
  action_of o = Some action -> action <> ActionUpdateRole -> NoDup (map U_ID (users (db w))) ->
  0 < global_admins (db w) -> serve (admin_handler deps gen o r) w = (resp, w') ->
  0 < global_admins (db w').
Proof.
  intros Ha Hne Hn Hpos H. unfold global_admins in *. apply (account_served deps gen o action) in H as [->|H]; [done| |done].
  destruct H as (caller & id & target & role & Hc & _ & Hrow & Hp & Hdone).
  pose proof Hrow as [Hin Hid%Z.eqb_eq]%get_row_Ok. subst id. unfold global_admins in Hp.
  destruct action; cbn in Hdone; [done| | | |].
  - destruct Hdone as (m & g & a & ->). by rewrite count_update.
  - destruct Hdone as (t & ->). by rewrite count_update.
  - rewrite Hdone. by rewrite count_update.
  - rewrite Hdone, count_update by done. pose proof (count_delete (fun u => seqb (U_Role u) RoleAdminGlobal) _ _ Hn Hin) as Hcount.
    destruct (seqb (U_Role target) RoleAdminGlobal) eqn:E; [|lia]. apply seqb_spec in E.
    destruct Hp as [(_ & _ & Hlast)|(_ & _ & Hpriv & _)].
    + specialize (Hlast eq_refl E). unfold global_admins in Hlast. lia.
    + rewrite E in Hpriv. discriminate Hpriv.
Qed.
Definition two_admins : World :=
  on_db (on_users (fun l => l ++ [mkUser 10 "root2@b.c" "" RoleAdminGlobal "" "" "email" "" 0 0 None None None None None None None]))
    admin_demo.
Lemma last_global_admin_kept_witness :
  let served := serve (admin_handler admin_deps (fun _ _ => None) RDelete (admin_request "root@b.c" "10" None)) two_admins in
  Status served.1 = 204 /\ global_admins (db two_admins) = 2 /\ 0 < global_admins (db served.2).
Proof.
  intros served. split; [vm_compute; reflexivity|]. split; [vm_compute; reflexivity|].
  apply (last_global_admin_kept admin_deps (fun _ _ => None) RDelete ActionDelete (admin_request "root@b.c" "10" None) two_admins
    served.1 served.2); [reflexivity|discriminate| |vm_compute; reflexivity|apply surjective_pairing].
  apply (bool_decide_unpack _). vm_compute. exact I.
Defined.
(** The role of the last one can be taken away, by itself. *)
Example role_update_removes_last_admin :
  let r := admin_request "root@b.c" "9" (Some (JObj [("role", JStr "user")])) in
  let served := serve (UpdateUserRole admin_deps r) admin_demo in
  Status served.1 = 200 /\ global_admins (db admin_demo) = 1 /\ global_admins (db served.2) = 0.
Proof. vm_compute. done. Qed.
(** A local administrator can hand its guest any other cabinet. *)
Example local_admin_links_elsewhere :
  let r := admin_request "a@b.c" "8" (Some (JObj [("linked_machine_id", JNum "99"); ("linked_armoire_id", JNum "99")])) in
  let served := serve (UpdateUserLinks admin_deps r) admin_demo in
  Status served.1 = 200 /\ map U_LinkedMachineID (users (db served.2)) = [Some 4; Some 99; None].
Proof. vm_compute. done. Qed.
(** ** A temporary password *)
Definition temporary (hash : string) (t expires : Time) (issuer : Z) (u : User) : User :=
  set_TempPasswordIssuedBy (Some issuer) (set_TempPasswordExpiresAt (Some expires)
    (set_PasswordChangeRequiredAt (Some t) (set_PasswordHash hash u))).
Lemma current_user_throws r : throws not_ok (current_user r).
Proof. unfold current_user. throws_tac. Qed.
Lemma target_user_throws r : throws not_ok (target_user r).
Proof. unfold target_user, target_id. throws_tac. Qed.
Lemma logAudit_throws P deps id em a ty res ip d : throws P (logAudit deps id em a ty res ip d).
Proof. unfold logAudit. throws_tac. Qed.
Lemma sendTemplate_throws P deps slug user pwd extra id em ip e :
  throws P (sendTemplateEmailWithVars deps slug user pwd extra id em ip e).
Proof.
  unfold sendTemplateEmailWithVars, buildTemplateVars, enrichDeviceVars. throws_tac. all: apply logAudit_throws.
Qed.
#[local] Hint Resolve current_user_throws target_user_throws logAudit_throws sendTemplate_throws : throws.
Lemma temporary_throws deps gen r : throws not_ok (IssueTemporaryPassword deps gen r).
Proof. unfold IssueTemporaryPassword, requireAdminGlobal, GenerateFromPassword. throws_tac. Qed.
Lemma target_user_run r w u w' : target_user r w = (Ok u, w') ->
  get_row (is_user (U_ID u)) (users (db w)) = Ok u /\ db w' = db w.
Proof.
  unfold target_user, target_id. intros H. hrun.
  match goal with H : UserStore.GetUserByID _ _ = (?x, _) |- _ => destruct x as [o|e]; [|done]; apply query_Ok_inv in H as [-> Hd] end.
  match goal with H : res_value _ = Some _ |- _ => apply res_value_Some in H as Hrow end.
  split; [|done]. apply get_row_Ok in Hrow as Hid. destruct Hid as [_ Hid%Z.eqb_eq]. by rewrite Hid.
Qed.
Lemma temporary_set id hash expires issuer w u w' : UserStore.SetTemporaryPassword id hash expires issuer w = (Ok u, w') ->
  exists t, users (db w') = update_where (is_user id) (temporary hash t expires issuer) (users (db w)).
Proof. destruct u. intros [t Hd]%write_credential_run. exists t. by rewrite Hd. Qed.
Lemma issue_run deps gen r w resp w' : serve (IssueTemporaryPassword deps gen r) w = (resp, w') -> Status resp = 200 ->
  exists admin target plain salt hash t expires sent reason,
    get_row (is_user (U_ID target)) (users (db w)) = Ok target /\ U_ForbiddenAt target = None /\ gen plain salt = Some hash /\ text_ok (U_Email target) = true /\
    users (db w') = update_where (is_user (U_ID target)) (temporary hash t expires admin) (users (db w)) /\
    resp = writeJSON 200 (OObj ([("email_sent", OBool sent); ("expires_at", rfc3339 expires); ("password", OStr plain)] ++ reason)).
Proof.
  intros H Hs. eapply serve_Ok in H; [|apply temporary_throws|by intros ?].
  unfold IssueTemporaryPassword, GenerateFromPassword in H.
  apply M_bind_Ok in H as (admin & w1 & Ha & H). apply M_bind_Ok in H as (target & w2 & Ht & H).
  apply M_bind_Ok in H as (u & w3 & [Hf ->]%check_Ok_inv & H). apply M_bind_Ok in H as (plain & w4 & Hp%or_else_Ok_inv & H).
  apply M_bind_Ok in H as (h & w5 & Hh & H). apply M_bind_Ok in H as (hash & w6 & [Hhash ->]%need_Ok_inv & H).
  apply M_bind_Ok in H as (t & w7 & [Hd7 _]%now_Ok_inv & H). apply M_bind_Ok in H as (u2 & w8 & Hset & H).
  apply or_else_Ok_inv in Hset. pose proof (fun u Hu Hid => write_credential_fits _ _ _ _ _ u Hset Hu Hid (fun _ => eq_refl)) as Hfits.
  apply temporary_set in Hset as (t2 & Hset). apply temporary_password_shape in Hp as (_ & Hd4 & _).
  apply keeps_run in Ha; [|intros; unfold requireAdminGlobal; handler_tac; apply current_user_reads].
  apply target_user_run in Ht as (Hrow & Hd2). apply M_bind_Ok in Hh as (salt & w9 & Hsalt%attempt_Ok_inv & Hh).
  apply mret_Ok_inv in Hh as [-> ->]. apply keeps_run in Hsalt; [|intros; auto with preserves].
  assert (db w7 = db w) as Hd by congruence. rewrite Hd in Hset, Hfits.
  assert (users (db w') = users (db w8) /\ exists sent reason, resp = writeJSON 200 (OObj ([("email_sent", OBool sent);
    ("expires_at", rfc3339 (t + temporaryPasswordValidity)); ("password", OStr plain)] ++ reason))) as (Hu & sent & reason & ->).
  { split.
    - eapply (fixes_run users); [|exact H]. intros b. destruct (d_Resets deps), (default false _); handler_tac;
        first [apply side_audit; done|apply side_mail; done|unfold PasswordResetStore.InvalidateForUser; handler_tac; done].
    - apply M_bind_Ok in H as (u3 & w10 & _ & H). apply M_bind_Ok in H as (u4 & w11 & _ & H).
      destruct (default false _); [|apply mret_Ok_inv in H as [-> _]; by exists false, []].
      apply M_bind_Ok in H as ([sent [e|]] & w12 & _ & H); apply mret_Ok_inv in H as [-> _]; by eexists _, _. }
  destruct salt as [salt|e]; [|done]. cbn in Hhash. destruct (gen plain salt) as [h0|] eqn:Hg; [|done].
  injection Hhash as ->. rewrite Hu, Hset. rewrite Ha in Hrow.
  exists (U_ID admin), target, plain, salt, hash, t2, (t + temporaryPasswordValidity), sent, reason.
  split_and!; [exact Hrow| |exact Hg| |done..]; [unfold IsUserForbidden in Hf; by destruct (U_ForbiddenAt target)|].
  apply Hfits; [by apply get_row_Ok in Hrow as [Hin _]|done].
Qed.
(** What the account [user] may do in [w1] with the password [plain] until [expires]. *)
Definition may_change_password (cmp : string -> string -> bool) (user : User) (plain : string) (expires : Time) (w1 : World) : Prop :=
  forall cfg sign r2, (forall claims, sign claims <> None) ->
    Decode (dec_struct login_fields) (mkLogin "" "" false) r2 = Some (mkLogin (U_Email user) plain false) ->
    ((forall t w2, @now Resp w1 = (Ok t, w2) -> t <= expires) -> Status (serve (Login cfg cmp sign r2) w1).1 = 200) /\
    (expires < clock w1 -> (serve (Login cfg cmp sign r2) w1).1 = error_json 401 "temporary_password_expired") /\
    (enforceActiveUser (U_Email user) w1).1 = Fail WritePasswordChangeRequired /\
    exists u, (enforceActiveUserAllowPasswordChange (U_Email user) w1).1 = Ok (Some u) /\ U_ID u = U_ID user.
Lemma temporary_account rows (target u : User) hash t e b : NoDup (map U_Email rows) ->
  get_row (is_user (U_ID target)) rows = Ok target -> u = temporary hash t e b target ->
  get_row (fun x => seqb (U_Email x) (U_Email target)) (update_where (is_user (U_ID target)) (temporary hash t e b) rows) = Ok u.
Proof.
  intros Hn Hrow ->. apply get_row_Ok in Hrow as [Hin Hid].
  change (U_Email target) with (U_Email (temporary hash t e b target)). apply (get_row_unique U_Email).
  - replace (map U_Email (update_where _ _ rows)) with (map U_Email rows); [done|].
    unfold update_where. rewrite map_map. apply map_ext. intros x. by destruct (is_user _ x).
  - apply elem_of_update_where. exists target. split; [done|]. by rewrite Hid.
Qed.
Lemma resolve_known email u w : email <> "" -> text_ok email = true -> faults w = [] ->
  get_row (fun x => seqb (U_Email x) email) (users (db w)) = Ok u -> U_ForbiddenAt u = None ->
  resolveActiveUser email w = (Ok (Some u), w).
Proof.
  intros He Ht Hf Hrow Hforb. unfold resolveActiveUser. destruct email; [done|]. cbn [is_empty].
  rewrite M_bind_run. unfold or_else, map_err, store_user_by_email, user_store, UserStore.GetUserByEmail.
  rewrite query_text_ok, Hrow by done. cbn [res_value is_some]. rewrite check_true by done.
  rewrite check_true by (unfold IsUserForbidden; by rewrite Hforb). done.
Qed.
(** C29. A temporary password lets its owner in and nowhere else: when one is
    issued the answer shows it with its end, and from then on, as long as the
    accounts are as the request left them and the database answers, a login with
    that password succeeds until the end and is refused after it, the routes that
    need an active account answer that the password must be changed, and the one
    route that changes it is open. *)
Theorem temporary_password_lets_in (deps : Deps) (gen : string -> list ascii -> option string) (cmp : string -> string -> bool)
    (r : Request) (w w' : World) (resp : Resp) :
  bcrypt_laws gen cmp -> NoDup (map U_Email (users (db w))) ->
  serve (IssueTemporaryPassword deps gen r) w = (resp, w') -> Status resp = 200 ->
  exists user plain expires sent reason,
    user ∈ users (db w) /\
    resp = writeJSON 200 (OObj ([("email_sent", OBool sent); ("expires_at", rfc3339 expires); ("password", OStr plain)] ++ reason)) /\
    forall w1, U_Email user <> "" -> users (db w1) = users (db w') -> faults w1 = [] -> may_change_password cmp user plain expires w1.
Proof.
  intros Hlaws Hn H Hs. apply issue_run in H as (admin & user & plain & salt & hash & t0 & expires & sent & reason & Hrow & Hf & Hg & Htext & Hu & Hr); [|done].
  exists user, plain, expires, sent, reason. split_and!; [by apply get_row_Ok in Hrow as [Hin _]|done|].
  intros w1 He Hw Hfaults. destruct (Hlaws _ _ _ Hg) as [Hcmp Hne]. rewrite Hu in Hw.
  pose proof (temporary_account _ user _ hash t0 expires admin Hn Hrow eq_refl) as Hrow1. rewrite <-Hw in Hrow1.
  intros cfg sign r2 Hsign Hdec.
  split_and!.
  - intros Ht. eapply login_enters; try done. intros t w2 Hnow%Ht. unfold TempPasswordExpired, After. cbn. lia.
  - intros Ht. by eapply login_expired.
  - unfold enforceActiveUser. rewrite M_bind_run, (resolve_known _ _ _ He Htext Hfaults Hrow1 Hf). done.
  - unfold enforceActiveUserAllowPasswordChange. rewrite (resolve_known _ _ _ He Htext Hfaults Hrow1 Hf). by eexists.
Qed.

Definition temporary_demo : Resp * World :=
  serve (IssueTemporaryPassword admin_deps demo_hash (admin_request "root@b.c" "8" None)) admin_demo.
Lemma temporary_password_lets_in_witness :
  Status temporary_demo.1 = 200 /\
  exists user plain expires, user ∈ users (db admin_demo) /\ may_change_password demo_compare user plain expires temporary_demo.2.
Proof.
  assert (Status temporary_demo.1 = 200) as Hs by (vm_compute; reflexivity). split; [exact Hs|].
  destruct (temporary_password_lets_in admin_deps demo_hash demo_compare (admin_request "root@b.c" "8" None) admin_demo
    temporary_demo.2 temporary_demo.1) as (user & plain & expires & sent & reason & Hin & _ & H);
    [exact demo_bcrypt|by apply (bool_decide_unpack _); vm_compute|apply surjective_pairing|exact Hs|].
  exists user, plain, expires. split; [exact Hin|]. apply H; [|reflexivity|vm_compute; reflexivity].
  intros E. unfold admin_demo in Hin. cbn in Hin.
  repeat (apply elem_of_cons in Hin as [->|Hin]; [discriminate|]). by apply elem_of_nil in Hin.
Defined.

(** ** What stands before the routes *)
(** Who comes through, and the request its handler gets: the static token; a
    verified token with a role of the administration that names no account; one
    that names an account that may act, whose own role is handed on. *)
Inductive admitted (deps : Deps) (jwt_Parse : (string -> bool) -> string -> option (gmap string json)) (r : Request) (d : DB) :
    Request -> Prop :=
  | admitted_static : ADMIN_TOKEN deps <> "" -> bearer r = ADMIN_TOKEN deps -> admitted deps jwt_Parse r d r
  | admitted_nameless claims r' : jwt_Parse hmac_method (bearer r) = Some claims ->
      admin_role (claim_string claims "role") = true -> claim_string claims "sub" = "" ->
      (r' = r \/ r' = withUserContext r "" (claim_string claims "role")) -> admitted deps jwt_Parse r d r'
  | admitted_account claims u : jwt_Parse hmac_method (bearer r) = Some claims ->
      admin_role (claim_string claims "role") = true -> claim_string claims "sub" <> "" ->
      get_row (fun x => seqb (U_Email x) (claim_string claims "sub")) (users d) = Ok u -> active u ->
      admitted deps jwt_Parse r d (withUserContext r (claim_string claims "sub") (U_Role u)).
Definition denials : list Resp :=
  [http_Error "Unauthorized Admin Access" 401; http_Error "Forbidden: Insufficient Permissions" 403;
   http_Error "Internal Server Error" 500; unauthorized; WriteAccountForbidden; WritePasswordChangeRequired; panicked].
Definition denial (resp : Resp) : Prop := resp ∈ denials.
#[local] Hint Extern 1 (denial _) => repeat (apply list_elem_of_here || apply list_elem_of_further) : throws.
Lemma enforceActiveUser_throws email : throws denial (enforceActiveUser email).
Proof. unfold enforceActiveUser, resolveActiveUser. throws_tac. Qed.
#[local] Hint Resolve enforceActiveUser_throws : throws.
(** The handler behind the check of the account. *)
Lemma active_gate next r w resp w' :
  serve (if is_empty (default "" (R_UserEmail r)) then next r else with_active_user enforceActiveUser next r) w = (resp, w') ->
  (denial resp /\ db w' = db w) \/
  (default "" (R_UserEmail r) = "" /\ serve (next r) w = (resp, w')) \/
  exists u w1, default "" (R_UserEmail r) <> "" /\
    get_row (fun x => seqb (U_Email x) (default "" (R_UserEmail r))) (users (db w)) = Ok u /\ active u /\ db w1 = db w /\
    serve (next (withUserContext r (default "" (R_UserEmail r)) (U_Role u))) w1 = (resp, w').
Proof.
  destruct (is_empty _) eqn:He.
  { intros H. right; left. split; [by destruct (default "" _)|done]. }
  intros H. unfold with_active_user in H. early denial H as (user & w1 & Hu & Hd & H).
  early denial H as (u & w2 & [-> _]%must_Ok_inv & Hd2 & H). apply enforceActiveUser_run in Hu as (_ & Hu & Ha).
  right; right. exists u, w2. split_and!; try done. by intros E; rewrite E in He.
Qed.
(** C21. No handler of the administration runs for a request that is not
    admitted: either the answer is one of the denials and nothing changed, or the
    request carries the static token, or a verified token with a role of the
    administration which names no account or an account that may act, and then
    the handler runs for that account with the role of its row. *)
Theorem admin_routes_guarded deps gen jwt_Parse o r w resp w' :
  R_UserEmail r = None -> serve (admin_route deps gen jwt_Parse o r) w = (resp, w') ->
  (denial resp /\ db w' = db w) \/
  exists r' w1, admitted deps jwt_Parse r (db w) r' /\ db w1 = db w /\ serve (admin_handler deps gen o r') w1 = (resp, w').
Proof.
  intros Hr0 H. unfold admin_route, AdminAuthWithStore, AdminAuth in H.
  destruct (negb (is_empty (ADMIN_TOKEN deps)) && seqb (bearer r) (ADMIN_TOKEN deps)) eqn:Hs.
  - right. rewrite Hr0 in H. exists r, w. split_and!; [|done|exact H].
    apply andb_true_iff in Hs as [Ht Hb%seqb_spec]. constructor; [|done]. by intros E; rewrite E in Ht.
  - early denial H as (u & w1 & _ & Hd & H). early denial H as (claims & w2 & [Hc _]%need_Ok_inv & Hd2 & H).
    early denial H as (u2 & w3 & [Hr _]%check_Ok_inv & Hd3 & H).
    assert (claim_string claims "sub" = match claims !! "sub" with Some (JStr sub) => sub | _ => "" end) as Hsub by done.
    destruct (claims !! "sub") as [ [] |]; try
      (rewrite Hr0 in H; right; exists r, w3; split_and!; [|done|exact H]; by eapply admitted_nameless; eauto).
    apply active_gate in H as [[Hx Hy]|[[He H]|(v & w4 & Hne & Hv & Ha & Hd4 & H)]]; cbn in *.
    + left. split; [done|congruence].
    + right. eexists _, w3. split_and!; [|done|exact H]. eapply admitted_nameless; [done..|congruence|right; by rewrite He].
    + right. eexists _, w4. split_and!; [|congruence|exact H]. rewrite <-Hsub in *. rewrite Hd3 in Hv.
      change (admitted deps jwt_Parse r (db w) (withUserContext r (claim_string claims "sub") (U_Role v))).
      by apply admitted_account.
Qed.
Definition bearing (token : string) : Request :=
  mkRequest "GET" None None None ∅ ∅ (<["Authorization" := ("Bearer " ++ token)%string]> ∅) "10.0.0.1:5000" None.
(** The token of an administrator whose account is gone, and of one who is there. *)
Lemma admin_routes_guarded_witness :
  let route email := serve (admin_route admin_deps (fun _ _ => None)
    (fun _ _ => Some (token_claims email RoleAdminGlobal 100)) RAudit (bearing "jwt")) admin_demo in
  denial (route "gone@b.c").1 /\
  exists r' w1, serve (admin_handler admin_deps (fun _ _ => None) RAudit r') w1 = route "root@b.c" /\
    Status (route "root@b.c").1 = 200.
Proof.
  intros route. split.
  - destruct (admin_routes_guarded admin_deps (fun _ _ => None) (fun _ _ => Some (token_claims "gone@b.c" RoleAdminGlobal 100))
      RAudit (bearing "jwt") admin_demo (route "gone@b.c").1 (route "gone@b.c").2 eq_refl (surjective_pairing _))
      as [[H _]|(r' & w1 & Ha & _)]; [exact H|exfalso].
    inversion Ha as [|claims ? Hc ? Hs|claims u Hc _ _ Hrow]; [discriminate|..]; injection Hc as <-;
      [vm_compute in Hs|vm_compute in Hrow]; discriminate.
  - destruct (admin_routes_guarded admin_deps (fun _ _ => None) (fun _ _ => Some (token_claims "root@b.c" RoleAdminGlobal 100))
      RAudit (bearing "jwt") admin_demo (route "root@b.c").1 (route "root@b.c").2 eq_refl (surjective_pairing _))
      as [[H _]|(r' & w1 & _ & _ & H)].
    + exfalso. assert (Status (route "root@b.c").1 = 200) as E by (vm_compute; reflexivity). revert E.
      repeat (apply elem_of_cons in H as [->|H]; [discriminate|]). by apply elem_of_nil in H.
    + exists r', w1. rewrite H. split; [by destruct (route _)|vm_compute; reflexivity].
Defined.
(** A token that names no account passes the check of the account. *)
Example empty_address_is_admin :
  let parse := fun _ _ => Some (token_claims "" RoleAdminGlobal 100) in
  let w := (google_demo (fun _ => "") (page "{}")).2 in
  Status (serve (admin_route admin_deps (fun _ _ => None) parse RSubscribers (bearing "jwt")) w).1 = 200.
Proof. vm_compute. done. Qed.
(** The role that counts is the one of the token: one who is an administrator no more reads the subscribers. *)
Example former_admin_reads_subscribers :
  let parse := fun _ _ => Some (token_claims "u@b.c" RoleAdminGlobal 100) in
  let w := on_db (on_users (fun _ => [mkUser 3 "u@b.c" "" RoleUser "" "" "email" "" 0 0 None None None None None None None])) admin_demo in
  Status (serve (admin_route admin_deps (fun _ _ => None) parse RSubscribers (bearing "jwt")) w).1 = 200.
Proof. vm_compute. done. Qed.
