(* ===== verification/AdminRace.v ===== *)
(** * Deletions of accounts under simultaneous requests

    [DeleteUser] of [Admin] cut into its statements and interleaved with others
    of its kind: who can lose its account, and what the check of the last
    global administrator is worth then. *)
From S2P Require Import Prelude GoStr Json Exchange Accounts Lights World Interleaving Mail AuditStore Crypto PortalStore.
From S2P Require Import Inventory LegacyStore AccountStore Http Newsletter Portal Orders SyncStore GatewayApi Middleware.
From S2P Require Import Identity OAuth Admin Credentials Administration.
#[global] Open Scope Z_scope.

(** ** The request, statement by statement *)
(** [AuthorizeAdminTarget] for a deletion: the account is read, and the
    administrators are counted, each in a statement of its own. *)
Definition authorize_delete (caller : User) (targetUserID : Z) : Proc err User :=
  found ← call (UserStore.GetUserByID targetUserID);
  target ← pure (ok_or found errNotFound);
  if seqb (U_Role caller) RoleAdminGlobal then
    _ ← pure (if U_ID caller =? U_ID target then Fail errSelfAction else Ok tt);
    _ ← (if seqb (U_Role target) RoleAdminGlobal then
           count ← call UserStore.CountAdminGlobal;
           pure (if count <=? 1 then Fail errLastAdmin else Ok tt)
         else mret tt);
    mret target
  else if seqb (U_Role caller) RoleAdminLocal then
    _ ← pure (if negb (callerOwnsTarget caller target) then Fail errForbidden else Ok tt);
    _ ← pure (if isPrivilegedRole (U_Role target) then Fail errForbidden else Ok tt);
    _ ← pure (if negb (isLocalManageableRole (U_Role target)) then Fail errForbidden else Ok tt);
    mret target
  else pure (Fail errForbidden).
Definition delete_proc (deps : Deps) (r : Request) : Proc Resp Resp :=
  caller ← call (current_user r);
  targetID ← call (target_id r);
  target ← proc_map_err writeAuthzError (authorize_delete caller targetID);
  _ ← call (or_else (UserStore.DeleteUser (U_ID target)) (fun _ => internal_error));
  _ ← call (logAudit deps (U_ID caller) (U_Email caller) "DELETE_USER" "USER" (URLParam r "id") (clientIP r)
              ("Deleted user " ++ U_Email target));
  mret no_content.
(** With no other request beside it, the request cut into statements is the handler. *)
Lemma authorize_delete_alone caller id w :
  alone (authorize_delete caller id) w = AuthorizeAdminTarget caller id ActionDelete "" w.
Proof.
  apply alone_step; intros [target|] w1; [|done]. cbn [ok_or]. rewrite M_bind_run. cbn [pure mbind Proc_bind proc_bind lift].
  destruct (seqb (U_Role caller) RoleAdminGlobal).
  - rewrite !M_bind_run, guard_run. destruct (_ =? _); [done|]. cbn [proc_bind]. destruct (seqb (U_Role target) RoleAdminGlobal); [|done].
    rewrite M_bind_run, alone_bind, M_bind_run, alone_bind, M_bind_run, alone_call. unfold count_admin_global, admin_user_store.
    destruct (UserStore.CountAdminGlobal w1) as [ [n|e] w2]; [|done]. rewrite guard_run. by destruct (n <=? 1).
  - destruct (seqb (U_Role caller) RoleAdminLocal); [|done].
    rewrite M_bind_run, guard_run. destruct (negb _); [done|]. rewrite M_bind_run, guard_run. destruct (isPrivilegedRole _); [done|].
    rewrite M_bind_run, guard_run. by destruct (negb _).
Qed.
Lemma delete_proc_alone deps r w : alone (delete_proc deps r) w = Admin.DeleteUser deps r w.
Proof.
  unfold Admin.DeleteUser, authorizeUserAction. rewrite !M_bind_run. unfold delete_proc. rewrite alone_bind, M_bind_run, alone_call.
  destruct (current_user r w) as [ [caller|e] w1]; [|done]. rewrite alone_bind, !M_bind_run, alone_call.
  destruct (target_id r w1) as [ [id|e] w2]; [|done]. rewrite alone_bind, !M_bind_run, alone_map_err. unfold or_else at 2, map_err at 2.
  unfold map_err at 1. rewrite authorize_delete_alone. destruct (AuthorizeAdminTarget _ _ _ _ w2) as [ [target|e] w3]; [|done].
  apply alone_step; intros _ w4. by apply alone_step.
Qed.

(** ** Who can lose its account *)
(** Equal up to who issued the temporary password, which a deletion clears. *)
Definition same_account (u v : User) : Prop := set_TempPasswordIssuedBy None u = set_TempPasswordIssuedBy None v.
Section accounts.
Context (rows0 : list User) (rs : list Request).
(** The account behind [r] is entitled to delete [u]. *)
Definition entitled (r : Request) (u : User) : Prop :=
  exists caller, caller ∈ rows0 /\ U_Email caller = caller_email r /\ Atoi (URLParam r "id") = Some (U_ID u) /\
    ((U_Role caller = RoleAdminGlobal /\ U_ID caller <> U_ID u) \/
     (U_Role caller = RoleAdminLocal /\ (exists m, U_LinkedMachineID caller = Some m /\ U_LinkedMachineID u = Some m) /\
      isLocalManageableRole (U_Role u) = true)).
Definition accounts_inv (w : World) : Prop :=
  (forall u, u ∈ users (db w) -> exists u0, u0 ∈ rows0 /\ same_account u0 u) /\
  (forall u0, u0 ∈ rows0 -> (exists u, u ∈ users (db w) /\ same_account u0 u) \/ exists r, r ∈ rs /\ entitled r u0).
Lemma same_fields u v : same_account u v -> U_ID u = U_ID v /\ U_Email u = U_Email v /\ U_Role u = U_Role v /\ U_LinkedMachineID u = U_LinkedMachineID v.
Proof. destruct u, v. unfold same_account. cbn. by intros [= -> -> -> -> -> -> -> -> -> -> -> -> -> -> -> ->]. Qed.
Lemma delete_rows id d u : u ∈ users (UserStore.delete_user id d) ->
  exists v, v ∈ users d /\ U_ID v <> id /\ same_account v u.
Proof.
  unfold UserStore.delete_user. cbn [users on_support_reports on_remember_sessions on_password_reset_tokens on_users].
  intros (v & Hv & ->)%elem_of_update_where. unfold delete_where in Hv. rewrite list_elem_of_In, filter_In, <-list_elem_of_In in Hv.
  destruct Hv as [Hv Hn]. exists v. unfold is_user in Hn. split_and!; [done|lia|]. by destruct (bool_decide _).
Qed.
Lemma delete_keeps id d u : u ∈ users d -> U_ID u <> id -> exists v, v ∈ users (UserStore.delete_user id d) /\ same_account u v.
Proof.
  intros Hu Hn. exists (if bool_decide (U_TempPasswordIssuedBy u = Some id) then set_TempPasswordIssuedBy None u else u).
  split; [|by destruct (bool_decide _)]. cbn. apply elem_of_update_where. exists u. split; [|done].
  unfold delete_where. rewrite list_elem_of_In, filter_In, <-list_elem_of_In. split; [done|]. unfold is_user. lia.
Qed.
Lemma accounts_inv_users w w' : users (db w') = users (db w) -> accounts_inv w -> accounts_inv w'.
Proof. intros H. unfold accounts_inv. by rewrite H. Qed.
Lemma accounts_inv_db w w' : db w' = db w -> accounts_inv w -> accounts_inv w'.
Proof. intros H. apply accounts_inv_users. by rewrite H. Qed.
Lemma exec_any f w r w' : exec f w = (r, w') -> db w' = db w \/ db w' = f (db w).
Proof.
  unfold exec. intros [(e & _ & H)|(u & w1 & Hs & [= _ <-])]%M_bind_any; [left|right]; pose proof (stmt_db w) as Hd.
  - by rewrite H in Hd.
  - rewrite Hs in Hd. cbn in *. by rewrite Hd.
Qed.
Lemma or_else_any {A} (m : MW A) f w r w' : or_else m f w = (r, w') -> exists r1, m w = (r1, w').
Proof. unfold or_else, map_err. destruct (m w) as [ [a|e] w1]; intros [= _ <-]; eauto. Qed.
Lemma read_db {E A} (m : M World E A) w r w' : (forall I, preserves (db_inv I) m) -> m w = (r, w') -> db w' = db w.
Proof. intros H E1. pose proof (H (fun d => d = db w) w eq_refl) as Hd. unfold db_inv in Hd. by rewrite E1 in Hd. Qed.
Lemma authorize_returns r caller id : r ∈ rs -> Atoi (URLParam r "id") = Some id ->
  (exists c0, c0 ∈ rows0 /\ same_account c0 caller) -> U_Email caller = caller_email r ->
  returns accounts_inv (fun target => exists u0, u0 ∈ rows0 /\ U_ID u0 = U_ID target /\ entitled r u0) (authorize_delete caller id).
Proof.
  intros Hr Hid (c0 & Hc0 & Hc) He. unfold authorize_delete. apply returns_call. intros w res w' Hw H.
  pose proof H as Hd. apply read_db in Hd; [|intros; apply preserves_query]. split; [by apply (accounts_inv_db w)|].
  intros found ->. apply query_Ok_inv in H as [-> _]. destruct (res_value _) as [target|] eqn:Et; [|done].
  apply res_value_Some in Et. apply get_row_Ok in Et as [Hin Ht%Z.eqb_eq]. destruct (proj1 Hw target Hin) as (u0 & Hu0 & Hs).
  apply same_fields in Hs as (Hs1 & _ & Hs3 & Hs4). apply same_fields in Hc as (Hc1 & Hc2 & Hc3 & Hc4). cbn [ok_or pure].
  assert ((U_Role c0 = RoleAdminGlobal /\ U_ID c0 <> U_ID u0) \/
     (U_Role c0 = RoleAdminLocal /\ (exists m, U_LinkedMachineID c0 = Some m /\ U_LinkedMachineID u0 = Some m) /\
      isLocalManageableRole (U_Role u0) = true) -> exists u0, u0 ∈ rows0 /\ U_ID u0 = U_ID target /\ entitled r u0) as Hq.
  { intros Hq. exists u0. split_and!; [done|done|]. exists c0. split_and!; [done|congruence|congruence|done]. }
  change (pure (Ok target) ≫= ?f) with (f target). cbv beta. destruct (seqb (U_Role caller) RoleAdminGlobal) eqn:Eg; [apply seqb_spec in Eg|].
  - apply returns_guard. intros Hne%Z.eqb_neq.
    assert (exists u0, u0 ∈ rows0 /\ U_ID u0 = U_ID target /\ entitled r u0) as Hok by (apply Hq; left; split; congruence).
    destruct (seqb (U_Role target) RoleAdminGlobal); [|exact Hok].
    intros w2 Hw2. destruct (UserStore.CountAdminGlobal w2) as [n w3] eqn:E. apply read_db in E; [|intros; apply preserves_query].
    split; [by apply (accounts_inv_db w2)|]. destruct n as [n|e]; [|done]. cbn. by destruct (n <=? 1).
  - destruct (seqb (U_Role caller) RoleAdminLocal) eqn:El; [apply seqb_spec in El|done].
    apply returns_guard. intros Eo%negb_false_iff. apply returns_guard. intros _. apply returns_guard. intros Em%negb_false_iff.
    apply Hq. right. apply callerOwnsTarget_spec in Eo as (m & Hm1 & Hm2). split_and!; [congruence|exists m; split; congruence|congruence].
Qed.
Lemma delete_maintains deps r : NoDup (map U_ID rows0) -> r ∈ rs -> maintains accounts_inv (delete_proc deps r).
Proof.
  intros Hn Hr. unfold delete_proc. apply maintains_call. intros w res w' Hw H.
  pose proof H as Hd. apply read_db in Hd; [|intros; auto with preserves]. split; [by apply (accounts_inv_db w)|].
  intros caller ->. apply current_user_run, get_row_Ok in H as [Hin He%seqb_spec]. pose proof (proj1 Hw caller Hin) as Hc.
  apply maintains_call. intros w1 res w2 Hw1 H. pose proof H as Hd1. apply read_db in Hd1; [|intros; auto with preserves].
  split; [by apply (accounts_inv_db w1)|]. intros id ->. apply need_Ok_inv in H as [Hid _].
  eapply maintains_bind; [by apply returns_map_err, authorize_returns|]. intros target (u0 & Hu0 & Ht & Hent).
  apply maintains_call. intros w3 res w4 Hw3 H. split.
  - apply or_else_any in H as (res1 & H). unfold UserStore.DeleteUser in H. apply exec_any in H as [H|H]; [by apply (accounts_inv_db w3)|].
    destruct Hw3 as [H1 H2]. unfold accounts_inv. rewrite H. split.
    + intros u (v & Hv & _ & Hs)%delete_rows. destruct (H1 v Hv) as (v0 & Hv0 & Hs0). exists v0. split; [done|].
      unfold same_account in *. congruence.
    + intros v0 Hv0. destruct (decide (U_ID v0 = U_ID target)) as [Hv|Hv].
      * right. exists r. split; [done|]. assert (v0 = u0) as -> by (eapply (NoDup_key_eq U_ID); eauto; congruence). done.
      * destruct (H2 v0 Hv0) as [(v & Hv' & Hs)|?]; [left|by right].
        destruct (delete_keeps (U_ID target) (db w3) v Hv') as (v2 & Hv2 & Hs2).
        { apply same_fields in Hs as (Hs & _). congruence. }
        exists v2. split; [done|]. unfold same_account in *. congruence.
  - intros _ _. apply maintains_call. intros w5 res5 w6 Hw5 H5. split; [|done].
    apply (accounts_inv_users w5); [|done]. pose proof (side_audit (fun d => users d = users (db w5)) deps (fun _ _ H => H)
      (U_ID caller) (U_Email caller) "DELETE_USER" "USER" (URLParam r "id") (clientIP r) ("Deleted user " ++ U_Email target)%string w5 eq_refl) as Ha.
    unfold db_inv in Ha. by rewrite H5 in Ha.
Qed.
End accounts.

(** C20. Deletions that run at the same time, interleaved statement by statement
    in any way, some failing: an account that is gone was the target of one of
    the requests, made by another account that was a global administrator, or
    a local one of the same cabinet when the target was a guest or a user of it;
    no account deletes itself, no other account changes (but for the reference
    to who issued its temporary password), none appears. *)
Theorem delete_race (deps : Deps) (rs : list Request) (schedule : list nat) (w : World) :
  let w' := (interleave schedule (map (delete_proc deps) rs, w)).2 in
  NoDup (map U_ID (users (db w))) ->
  (forall u, u ∈ users (db w') -> exists u0, u0 ∈ users (db w) /\ same_account u0 u) /\
  (forall u0, u0 ∈ users (db w) ->
    (exists u, u ∈ users (db w') /\ same_account u0 u) \/ exists r, r ∈ rs /\ entitled (users (db w)) r u0).
Proof.
  intros w' Hn. apply (interleave_maintains (accounts_inv (users (db w)) rs)).
  - apply Forall_forall. intros p (r & -> & Hr)%list_elem_of_fmap. by apply delete_maintains.
  - split; intros u Hu; [|left]; by exists u.
Qed.
(** Two global administrators delete each other, a turn each. *)
Definition each_other : list Request := [admin_request "root@b.c" "10" None; admin_request "root2@b.c" "9" None].
Definition both_deleted : Pool Resp Resp * World :=
  interleave (round_robin 2 6) (map (delete_proc admin_deps) each_other, two_admins).
Lemma delete_race_witness :
  map U_ID (users (db both_deleted.2)) = [7; 8] /\
  exists r, r ∈ each_other /\ entitled (users (db two_admins)) r global_admin.
Proof.
  assert (map U_ID (users (db both_deleted.2)) = [7; 8]) as He by (vm_compute; reflexivity). split; [exact He|]. revert He.
  generalize (delete_race admin_deps each_other (round_robin 2 6) two_admins : let w' := both_deleted.2 in _). cbv zeta.
  generalize both_deleted. intros s H He. destruct H as [_ H].
  - apply (bool_decide_unpack _). vm_compute. exact I.
  - destruct (H global_admin) as [(u & Hu & Hs)|Hr]; [by do 2 right; left| |exact Hr].
    apply same_fields in Hs as (Hs & _). apply (list_elem_of_fmap_2 U_ID) in Hu.
    change (U_ID <$> users (db s.2)) with (map U_ID (users (db s.2))) in Hu. rewrite He, <-Hs in Hu.
    apply (bool_decide_pack _) in Hu. destruct Hu.
Defined.
(** Each of the two counted the other: both deletions are answered with success
    and no global administrator is left.  One after the other, the second is
    refused. *)
Example last_admin_race :
  map (fun p => match p with Return a => match a with Ok x => Status x | Fail x => Status x end | _ => 0 end) both_deleted.1 = [204; 204] /\
  global_admins (db both_deleted.2) = 0.
Proof. vm_compute. split; reflexivity. Qed.
