(* ===== verification/Router.v ===== *)
(** * The routes of the server and its start

    Models [internal/api/router.go], [internal/portal/routes.go],
    [internal/gateway/routes.go], the routes of the other [Mount] functions and
    the wiring of [cmd/server/main.go].  A route is a method, a pattern and its
    endpoint behind its middlewares; matching a request to a pattern belongs to
    chi.  The stores are there, as [main] gives them.  The libraries and the
    services outside are fields of [Externals]; the address of a client, the
    log, the recovery of panics, CORS and the New Relic agent of each request
    are left out. *)
From S2P Require Import Prelude GoStr Json JsonText Geo Exchange Scenario Accounts World Mail Crypto Inventory LegacyStore AccountStore Config Http.
From S2P Require Import Newsletter Portal ScenarioApi LightNames Orders Session GatewayApi Middleware Legacy Support Identity OAuth Admin Credentials.
#[global] Open Scope Z_scope.

(** ** Routes *)
(** What answers a route: a handler, one that reads the bytes of the body, the
    callback of a sign-in, the start of a sign-in. *)
Inductive Endpoint :=
  | Serves (h : Handler) | ServesBody (h : option (list Z) -> Handler)
  | CallsBack (h : Callback -> HW Resp) | Starts (h : HW SignInStart).
Record Route := mkRoute { RT_Method : string; RT_Pattern : string; RT_Endpoint : Endpoint }.
Definition Get (pattern : string) (h : Handler) : Route := mkRoute "GET" pattern (Serves h).
Definition Post (pattern : string) (h : Handler) : Route := mkRoute "POST" pattern (Serves h).
Definition Put (pattern : string) (h : Handler) : Route := mkRoute "PUT" pattern (Serves h).
Definition Delete (pattern : string) (h : Handler) : Route := mkRoute "DELETE" pattern (Serves h).
Definition Patch (pattern : string) (h : Handler) : Route := mkRoute "PATCH" pattern (Serves h).
(** [r.Route(prefix, ...)] *)
Definition under (prefix : string) : list Route -> list Route :=
  map (fun rt => mkRoute (RT_Method rt) (prefix ++ RT_Pattern rt) (RT_Endpoint rt)).
(** [r.Use(mw)] in a group; only handlers stand in a group. *)
Definition Use (mw : Handler -> Handler) : list Route -> list Route :=
  map (fun rt => mkRoute (RT_Method rt) (RT_Pattern rt)
    match RT_Endpoint rt with
    | Serves h => Serves (mw h) | ServesBody f => ServesBody (fun body => mw (f body)) | e => e
    end).

(** ** Everything outside the program *)
Record OAuthClients := mkOAuthClients {
  google_AuthCodeURL : string -> string; apple_AuthCodeURL : string -> string;
  google_Exchange : string -> option string; google_userinfo : string -> option (list Z);
  apple_key : option string; apple_SignedString : string -> Time -> Time -> option string;
  apple_token : string -> string -> option (Z * option (list Z));
  jwt_ParseUnverified : string -> option (gmap string json) }.
Record Externals := mkExternals {
  x_mail : MailService; x_ErrorText : err -> string;
  x_jwt_Parse : (string -> bool) -> string -> option (gmap string json);
  x_jwt_Sign : gmap string json -> option string;
  x_bcrypt_Generate : string -> list ascii -> option string; x_bcrypt_Compare : string -> string -> bool;
  x_siteverify : string -> string -> string -> option (Z * list Z);
  (** The bytes of the page of an address, as far as they come. *)
  x_http_Get : string -> option (list Z);
  x_range_closed : list (string * string) -> list (string * string);
  (** The signer of the key in a file, when the file is there and readable. *)
  x_AppKey : string -> option (string -> Time -> Time -> option string);
  x_github : list GHRequest -> GHRequest -> option (Z * list Z);
  x_oauth : OAuthClients }.

(** ** geo/ipapi.go: the answer of the service *)
Definition ipAPIBase : string := "http://ip-api.com/json/".
Definition geo_answer_fields : fields geoAPIResponse :=
  [("status", set_field GA_Status (fun s p => mkGeoAPI s (GA_Country p) (GA_City p) (GA_ISP p) (GA_Lat p) (GA_Lon p)) dec_string);
   ("country", set_field GA_Country (fun s p => mkGeoAPI (GA_Status p) s (GA_City p) (GA_ISP p) (GA_Lat p) (GA_Lon p)) dec_string);
   ("city", set_field GA_City (fun s p => mkGeoAPI (GA_Status p) (GA_Country p) s (GA_ISP p) (GA_Lat p) (GA_Lon p)) dec_string);
   ("isp", set_field GA_ISP (fun s p => mkGeoAPI (GA_Status p) (GA_Country p) (GA_City p) s (GA_Lat p) (GA_Lon p)) dec_string);
   ("lat", set_field GA_Lat (fun s p => mkGeoAPI (GA_Status p) (GA_Country p) (GA_City p) (GA_ISP p) s (GA_Lon p)) dec_float);
   ("lon", set_field GA_Lon (fun s p => mkGeoAPI (GA_Status p) (GA_Country p) (GA_City p) (GA_ISP p) (GA_Lat p) s) dec_float)].
(** The first value of the page. *)
Definition ask_ip_api (http_Get : string -> option (list Z)) (host : string) : option geoAPIResponse :=
  body ← http_Get (ipAPIBase ++ host)%string;
  '(payload, _) ← value (2 * length body + 2) 0 body;
  dec_struct geo_answer_fields payload (mkGeoAPI "" "" "" "" "0" "0").

Section router.
Context (x : Externals).
Definition x_Getenv : string -> string := Mail.Getenv (x_mail x).

(** ** portal/routes.go and gateway/routes.go *)
Definition portal_Mount (exchangeStaleTTL : Duration) : list Route :=
  under "/portal" (
    [Get "/health" Health] ++
    Use (UserJWTWithStore (x_jwt_Parse x)) (
      [Post "/link-request" CreateLinkRequestHandler;
       Get "/link-request/status" LinkRequestStatus;
       Get "/session" (PortalSession true);
       Get "/gateway/status" GatewayStatus] ++
      Use injectLimiter
        [Post "/inject" Inject;
         Post "/inject/batch" InjectBatch] ++
      [Get "/exchange" (GetExchange exchangeStaleTTL);
       Get "/history/latest" GetHistoryLatest;
       Post "/web/actions" PostWebActions;
       Get "/lights/timers" GetLightTimers;
       Get "/lights/names" GetLightNames;
       Get "/scenarios" ListScenarios;
       Get "/scenarios/meta/bitmasks" GetScenarioBitmasks;
       Get "/scenarios/{slot}" GetScenario;
       Put "/scenarios/{slot}" PutScenario] ++
      Use injectLimiter
        [Post "/scenarios/{slot}/launch" LaunchScenario;
         Post "/scenarios/{slot}/restore" RestoreScenario] ++
      under "/admin" (Use (AdminJWTWithStore (x_jwt_Parse x))
        [Get "/link-requests" ListPendingLinkRequests;
         Put "/link-requests/{id}" ReviewLinkRequest;
         Get "/gateway-sessions" ListGatewaySessionsHandler;
         Post "/gateways/register" RegisterGateway;
         Put "/lights/timers/{id}" PutLightTimer;
         Put "/lights/names/{id}" PutLightName]))).
Definition gateway_Mount : list Route :=
  under "/gateway" (Use GatewayAuth
    [Get "/pending-actions" PendingActions;
     Post "/actions/{guid}/done" ActionDone;
     Post "/heartbeat" Heartbeat;
     Post "/exchange" PushExchange;
     Get "/sync-config" SyncConfig;
     Post "/sync-runs" SyncRunCreate;
     Post "/sync-runs/{id}/start" SyncRunStart;
     Post "/sync-runs/{id}/progress" SyncRunProgress;
     Post "/lights/names/sync" SyncLightNames;
     Patch "/sync-profiles/scenarios" PatchScenariosSyncProfile]).

(** ** The routes of the consolidated mode *)
(** What [Mount] builds of the configuration; the siteverify client is there
    when its secret is not blank. *)
Definition identity_settings (cfg : Config) (remember : bool) : Identity.Settings :=
  Identity.mkSettings (TurnstileEnforced cfg) (negb (is_empty (TrimSpace (TurnstileSecretKey cfg)))) true remember true true
    (x_mail x) (x_ErrorText x).
Definition turnstile_client (cfg : Config) (token ip : string) : bool :=
  is_Ok (Verify (x_siteverify x) (TurnstileSecretKey cfg) token ip).
Definition identity_Mount (cfg : Config) (remember : bool) : list Route :=
  let route := identity_route (identity_settings cfg remember) (x_bcrypt_Generate x) (x_bcrypt_Compare x) (x_jwt_Sign x)
                 (turnstile_client cfg) (x_jwt_Parse x) (RegisterRateLimit cfg) (RegisterRateWindow cfg) in
  let o := x_oauth x in
  [Post "/auth/register" (route PostRegister);
   Post "/auth/login" (route PostLogin);
   Post "/auth/password/forgot" (route PostForgot);
   Get "/auth/password/reset/validate" (route GetValidate);
   Post "/auth/password/reset" (route PostReset);
   Post "/auth/logout" (route PostLogout);
   Post "/auth/remember/refresh" (route PostRefresh);
   mkRoute "GET" "/auth/google/login" (Starts (GoogleLogin (google_AuthCodeURL o)));
   mkRoute "GET" "/auth/google/callback"
     (CallsBack (GoogleCallback x_Getenv (x_jwt_Sign x) (google_Exchange o) (google_userinfo o)));
   mkRoute "GET" "/auth/apple/login" (Starts (AppleLogin (apple_AuthCodeURL o)));
   mkRoute "POST" "/auth/apple/callback"
     (CallsBack (AppleCallback x_Getenv (x_jwt_Sign x) (apple_key o) (apple_SignedString o) (apple_token o) (jwt_ParseUnverified o)));
   Get "/profile" (route GetProfileRoute);
   Put "/profile" (route PutProfile);
   Delete "/profile" (route DeleteProfileRoute);
   Put "/profile/links" (route PutProfileLinks);
   Get "/devices/nearby" (route GetNearby);
   Post "/auth/password/change" (route PostChange)].
Definition admin_deps_of : Deps := mkDeps true true true true true true true (x_mail x) (x_Getenv "ADMIN_TOKEN").
Definition admin_Mount : list Route :=
  let route := admin_route admin_deps_of (x_bcrypt_Generate x) (x_jwt_Parse x) in
  [Post "/newsletter/subscribe" (open_admin_route admin_deps_of OSubscribe);
   Post "/admin/login" (open_admin_route admin_deps_of OAdminLogin);
   Get "/admin/stats" (route RStats);
   Get "/admin/audit" (route RAudit);
   Get "/admin/machines" (route RMachines);
   Get "/admin/gateways" (route RGateways);
   Get "/admin/subscribers" (route RSubscribers);
   Post "/admin/subscribers" (route RAddSubscriber);
   Delete "/admin/subscribers" (route RDeleteSubscriber);
   Get "/admin/newsletters" (route RNewsletters);
   Post "/admin/newsletters" (route (RNewsletter NLCreate));
   Put "/admin/newsletters/{id}" (route (RNewsletter NLUpdate));
   Delete "/admin/newsletters/{id}" (route (RNewsletter NLDelete));
   Post "/admin/newsletters/{id}/send" (route (RNewsletter NLSend));
   Get "/admin/users" (route RGetUsers);
   Post "/admin/users" (route RCreateUser);
   Put "/admin/users/{id}/role" (route RRole);
   Put "/admin/users/{id}/links" (route RLinks);
   Post "/admin/users/{id}/forbid" (route RForbid);
   Post "/admin/users/{id}/unforbid" (route RUnforbid);
   Delete "/admin/users/{id}" (route RDelete);
   Post "/admin/users/{id}/resend-email" (route RResendEmail);
   Post "/admin/users/{id}/password-reset" (route RPasswordReset);
   Post "/admin/users/{id}/temporary-password" (route RTemporaryPassword);
   Get "/admin/email/health" (route REmailHealth);
   Get "/admin/email-templates" (route RListTemplates);
   Get "/admin/email-templates/{slug}" (route RGetTemplate);
   Put "/admin/email-templates/{slug}" (route RPutTemplate);
   Post "/admin/email-templates/{slug}/preview" (route RPreview);
   Post "/admin/email-templates/test" (route RTestEmail);
   Get "/admin/sync-profiles" (route RListSync);
   Post "/admin/sync-profiles" (route RCreateSync);
   Put "/admin/sync-profiles/{id}" (route RUpdateSync);
   Delete "/admin/sync-profiles/{id}" (route RDeleteSync);
   Post "/admin/sync-profiles/{id}/run" (route RRunSync);
   Get "/admin/sync-profiles/{id}/runs" (route RSyncRuns);
   Get "/admin/sync-runs/{runId}" (route RSyncRun)].
Definition legacy_Mount : list Route :=
  let route := legacy_route (ask_ip_api (x_http_Get x)) true in
  [Get "/myactions" (route GetMyActions);
   Post "/done/{guid}" (route PostDone);
   Get "/serverinfos" (route GetServerInfos);
   mkRoute "POST" "/mystatus" (ServesBody (fun body => route (PostMyStatus body)));
   Post "/infos" (route PostInfos)].
Definition support_Mount (svc : option GitHub * Support.Settings) : list Route :=
  let route := support_route svc.1 svc.2 (x_range_closed x) (x_jwt_Parse x) in
  [Post "/support/reports" (route RCreateReport);
   Get "/support/reports" (route RListReports)].

(** ** api/router.go *)
Definition NewRouter (cfg : Config) (support : option (option GitHub * Support.Settings)) (remember : bool) : list Route :=
  under "/api" (
    portal_Mount (NewHandler_TTL (ExchangeStaleTTL cfg)) ++ gateway_Mount ++
    (if ConsolidatedMode cfg then
       identity_Mount cfg remember ++ admin_Mount ++ legacy_Mount ++
       match support with Some svc => support_Mount svc | None => [] end
     else [])).

(** ** cmd/server/main.go *)
Definition newSupportService (cfg : Config) : option GitHub * Support.Settings :=
  let key := bytes (SupportPseudonymKey cfg) in
  let key := if (length key =? 0)%nat then sha256 (bytes ("support-pseudonym:" ++ JWTSecret cfg)) else key in
  let gh := if GitHubAppConfigured cfg then
              pk ← x_AppKey x (GitHubAppKeyFile cfg);
              Some (AppClient.NewAppClient (GitHubAppID cfg) (GitHubInstallation cfg) (GitHubAPIURL cfg) pk (x_github x))
            else None in
  (gh, with_defaults (Support.mkSettings key (SupportPublicRepo cfg) (SupportPrivateRepo cfg) (SupportProjectID cfg) 0 0)).
(** The routes the process serves, or the error it stops with. *)
Definition server : res err (list Route) :=
  let cfg := Load x_Getenv in
  match Validate cfg with
  | Some e => Fail e
  | None =>
      Ok (if ConsolidatedMode cfg then NewRouter cfg (Some (newSupportService cfg)) true else NewRouter cfg None false)
  end.
End router.

(** ** What an anonymous request reaches *)
Definition route_key (rt : Route) : string := (RT_Method rt ++ " " ++ RT_Pattern rt)%string.
(** The routes meant for requests without credentials. *)
Definition public_routes : list string :=
  ["GET /api/portal/health"; "POST /api/auth/register"; "POST /api/auth/login"; "POST /api/auth/password/forgot";
   "GET /api/auth/password/reset/validate"; "POST /api/auth/password/reset"; "POST /api/auth/logout";
   "POST /api/auth/remember/refresh"; "GET /api/auth/google/login"; "GET /api/auth/google/callback";
   "GET /api/auth/apple/login"; "POST /api/auth/apple/callback"; "POST /api/newsletter/subscribe"; "POST /api/admin/login";
   "GET /api/serverinfos"; "POST /api/mystatus"; "POST /api/infos"].
(** A handler that turns an anonymous request away: 401, or 429 behind a limit
    by address; the tables stay. *)
Definition turns_away (h : Handler) : Prop := forall r w resp w',
  Header r "Authorization" = "" -> serve (h r) w = (resp, w') -> (Status resp = 401 \/ Status resp = 429) /\ db w' = db w.
Definition endpoint_closed (e : Endpoint) : Prop :=
  match e with Serves h => turns_away h | ServesBody f => forall body, turns_away (f body) | _ => False end.
Lemma bearer_empty r : Header r "Authorization" = "" -> bearer r = "".
Proof. unfold bearer. by intros ->. Qed.
Lemma UserJWT_closed jwt next : turns_away (UserJWT jwt next).
Proof. intros r w resp w' Hr. unfold UserJWT. rewrite bearer_empty by done. intros [= <- <-]. auto. Qed.
Lemma GatewayAuth_closed next : turns_away (GatewayAuth next).
Proof.
  intros r w resp w' Hr. unfold GatewayAuth. rewrite bearer_empty by done. rewrite andb_false_r. intros [= <- <-]. auto.
Qed.
Lemma AdminAuth_closed jwt token next : turns_away (AdminAuth jwt token next).
Proof.
  intros r w resp w' Hr. unfold AdminAuth. rewrite bearer_empty by done.
  replace (negb (is_empty token) && seqb "" token) with false by (by destruct token). intros [= <- <-]. auto.
Qed.
Lemma BasicAuth_closed `{LegacyMachineStore} next : turns_away (BasicAuth true next).
Proof. intros r w resp w' Hr. unfold BasicAuth. rewrite Hr. intros [= <- <-]. auto. Qed.
Lemma Allow_answers name lim window key w resp w' : Allow name lim window key w <> (Fail resp, w').
Proof.
  unfold Allow. rewrite M_bind_run. unfold now. destruct (ticks w); rewrite M_bind_run; cbn [gets]; by destruct (allow_step _ _ _ _).
Qed.
Lemma limited_closed name lim window refused next : Status refused = 429 -> turns_away next ->
  turns_away (limited name lim window refused next).
Proof.
  intros Hs Hn r w resp w' Hr H. unfold limited in H. apply serve_bind in H as [(ok & w1 & Ha & H)|H].
  - assert (db w1 = db w) as Hd by (eapply keeps_run; [intros; apply Allow_keeps|exact Ha]). destruct ok.
    + rewrite <-Hd. by eapply Hn.
    + injection H as <- <-. auto.
  - by apply Allow_answers in H.
Qed.
Create HintDb closed.
#[local] Hint Resolve UserJWT_closed GatewayAuth_closed AdminAuth_closed BasicAuth_closed limited_closed : closed.
Lemma endpoint_Use mw e : (forall h, turns_away (mw h)) ->
  (exists h, e = Serves h) \/ (exists f, e = ServesBody f) ->
  endpoint_closed (match e with Serves h => Serves (mw h) | ServesBody f => ServesBody (fun body => mw (f body)) | e => e end).
Proof. intros Hmw [[h ->]|[f ->]]; cbn; eauto. Qed.

(** What a table of routes keeps apart and closed. *)
Definition confined (routes : list Route) : Prop :=
  Forall (fun rt => route_key rt ∈ public_routes \/ endpoint_closed (RT_Endpoint rt)) routes.
Ltac confined_tac :=
  repeat (apply Forall_cons; split;
    [first [left; apply (bool_decide_unpack _); vm_compute; exact I | right; cbn; intros; eauto with closed]|]);
  apply Forall_nil_2.
Ltac mount_tac := unfold confined; cbn [under Use map app RT_Endpoint RT_Method RT_Pattern Get Post Put Delete Patch]; confined_tac.
Lemma portal_confined x ttl : confined (under "/api" (portal_Mount x ttl)).
Proof. unfold portal_Mount. mount_tac. Qed.
Lemma gateway_confined : confined (under "/api" gateway_Mount).
Proof. unfold gateway_Mount. mount_tac. Qed.
Lemma identity_confined x cfg remember : confined (under "/api" (identity_Mount x cfg remember)).
Proof. unfold identity_Mount. mount_tac. Qed.
Lemma admin_confined x : confined (under "/api" (admin_Mount x)).
Proof. unfold admin_Mount. mount_tac. Qed.
Lemma legacy_confined x : confined (under "/api" (legacy_Mount x)).
Proof. unfold legacy_Mount. mount_tac. Qed.
Lemma support_confined x svc : confined (under "/api" (support_Mount x svc)).
Proof. unfold support_Mount. mount_tac. Qed.
Lemma under_app p l l' : under p (l ++ l') = under p l ++ under p l'.
Proof. apply map_app. Qed.
Lemma router_confined x cfg svc remember : confined (NewRouter x cfg svc remember).
Proof.
  pose proof portal_confined. pose proof gateway_confined. pose proof identity_confined. pose proof admin_confined.
  pose proof legacy_confined. pose proof support_confined. unfold confined in *.
  unfold NewRouter. rewrite !under_app, !Forall_app. split_and!; [done|done|]. destruct (ConsolidatedMode cfg); [|by apply Forall_nil_2].
  rewrite !under_app, !Forall_app. split_and!; [done..|]. destruct svc; [done|by apply Forall_nil_2].
Qed.
Lemma router_distinct x cfg svc remember : NoDup (map route_key (NewRouter x cfg svc remember)).
Proof.
  apply (bool_decide_unpack _). unfold NewRouter. destruct (ConsolidatedMode cfg), svc; vm_compute; exact I.
Qed.
Lemma plain_patterns x cfg svc remember rt : ConsolidatedMode cfg = false -> rt ∈ NewRouter x cfg svc remember ->
  HasPrefix (RT_Pattern rt) "/api/portal/" = true \/ HasPrefix (RT_Pattern rt) "/api/gateway/" = true.
Proof.
  intros E Hin. assert (forallb (fun p => HasPrefix p "/api/portal/" || HasPrefix p "/api/gateway/")
    (map RT_Pattern (NewRouter x cfg svc remember)) = true) as H by (unfold NewRouter; rewrite E; vm_compute; reflexivity).
  rewrite forallb_elem in H. apply orb_true_iff, H. by apply list_elem_of_fmap_2.
Qed.

(** The orders of [Orders] are mounted as [portal_route] has them. *)
Definition order_index (o : Order) : nat :=
  match o with
  | OInject => 5 | OInjectBatch => 6 | OWebActions => 9 | OPutScenario => 15 | OLaunchScenario => 16 | ORestoreScenario => 17
  | OPutLightTimer => 22 | OPutLightName => 23
  end.
Lemma orders_mounted x ttl o : RT_Endpoint <$> portal_Mount x ttl !! order_index o = Some (Serves (portal_route (x_jwt_Parse x) o)).
Proof. by destruct o. Qed.

(** C8. The surface of a started server: its routes have distinct methods and
    patterns; outside the explicit list of public routes, a request without an
    [Authorization] header is answered 401 (or 429 behind a limit by address)
    and changes no table, whatever the state, the request and the services
    outside; and without the consolidated mode only the routes of the portal and
    of the gateways are there. *)
Theorem unauthenticated_confined (x : Externals) (routes : list Route) : server x = Ok routes ->
  NoDup (map route_key routes) /\
  (forall rt, rt ∈ routes -> route_key rt ∉ public_routes -> endpoint_closed (RT_Endpoint rt)) /\
  (ConsolidatedMode (Load (x_Getenv x)) = false -> forall rt, rt ∈ routes ->
    HasPrefix (RT_Pattern rt) "/api/portal/" = true \/ HasPrefix (RT_Pattern rt) "/api/gateway/" = true).
Proof.
  unfold server. generalize (Load (x_Getenv x)). intros cfg. destruct (Validate cfg); [done|]. intros [= <-].
  split_and!; destruct (ConsolidatedMode cfg) eqn:E; try done.
  1, 2: apply router_distinct.
  1, 2: intros rt Hin Hk; match goal with H : _ ∈ NewRouter ?y ?c ?svc ?rem |- _ =>
    pose proof (router_confined y c svc rem) as Hc end; unfold confined in Hc; rewrite Forall_forall in Hc;
    by destruct (Hc _ Hin).
  intros _ rt. by apply plain_patterns.
Qed.
(** A production process with every secret set. *)
Definition demo_environment (name : string) : string :=
  if seqb name "ENV" then "Production" else if seqb name "CONSOLIDATED_MODE" then "yes"
  else if bool_decide (name ∈ ["JWT_SECRET"; "ADMIN_TOKEN"; "TURNSTILE_SECRET_KEY"; "SUPPORT_PSEUDONYM_KEY"]) then "0123456789abcdef"
  else "".
Definition demo_externals : Externals :=
  mkExternals (mkMailService demo_environment (fun _ _ _ _ _ _ => None) map_to_list) (fun _ => "")
    demo_jwt (fun _ => Some "jwt") (fun _ _ => Some "hash") (fun _ _ => true)
    (fun secret token _ => if seqb token "human" then Some (200, map ord (bytes ("{" ++ q ++ "success" ++ q ++ ":true}"))) else None)
    (fun _ => None) (fun l => l) (fun _ => None) (fun _ _ => None)
    (mkOAuthClients (fun s => s) (fun s => s) (fun _ => None) (fun _ => None) None (fun _ _ _ => None) (fun _ _ => None) (fun _ => None)).
Abbreviation demo_config := (Load demo_environment).
Abbreviation demo_routes := (NewRouter demo_externals demo_config (Some (newSupportService demo_externals demo_config)) true).
Lemma demo_server : server demo_externals = Ok demo_routes.
Proof. unfold server. by replace (Validate _) with (@None err) by (vm_compute; reflexivity). Qed.
(** Without a token nobody deletes an account; the surface has 95 routes. *)
Lemma unauthenticated_confined_witness :
  server demo_externals = Ok demo_routes /\ length demo_routes = 95%nat /\ NoDup (map route_key demo_routes) /\
  endpoint_closed (Serves (admin_route (admin_deps_of demo_externals) (fun _ _ => Some "hash") demo_jwt RDelete)).
Proof.
  destruct (unauthenticated_confined demo_externals demo_routes demo_server) as (H1 & H2 & _).
  split_and!; [exact demo_server|reflexivity|exact H1|].
  apply (H2 (mkRoute "DELETE" "/api/admin/users/{id}"
    (Serves (admin_route (admin_deps_of demo_externals) (fun _ _ => Some "hash") demo_jwt RDelete)))).
  - by apply (list_elem_of_lookup_2 _ 71).
  - apply (bool_decide_unpack _). vm_compute. exact I.
Defined.

(** ** Registration in production *)
(** What a registration does to the tables: nothing, or one new guest account
    after every check of the request. *)
Definition registered (cfg : Identity.Settings) (verify : string -> string -> bool) (r : Request) (d d' : DB) : Prop :=
  exists req row, Decode (dec_struct register_request_fields) (mkRegister "" "" "" "" "" "") r = Some req /\
    TrimSpace (RR_Website req) = "" /\
    captcha_verdict cfg verify (RR_TurnstileToken req) (ClientIP r) (message 400 "Captcha verification required")
      (message 403 "Captcha verification failed") = Ok tt /\
    (forall u, u ∈ users d -> U_Email u <> RR_Email req) /\ U_Email row = RR_Email req /\ U_Role row = RoleGuestLocal /\
    U_LinkedMachineID row = None /\ U_LinkedGatewayID row = None /\ U_LinkedArmoireID row = None /\
    d' = on_users (fun rows => rows ++ [row]) d.
Definition not_created (resp : Resp) : Prop := Status resp <> 201.
#[local] Hint Extern 1 (not_created _) => discriminate : throws.
#[local] Hint Unfold captcha_ok GenerateFromPassword : handler.
Lemma registration_run cfg gen verify r w resp w' : serve (Register cfg gen verify r) w = (resp, w') ->
  (not_created resp /\ db w' = db w) \/ (Status resp = 201 /\ registered cfg verify r (db w) (db w')).
Proof.
  intros H. unfold Register in H.
  early not_created H as (req & w1 & [Hreq _]%need_Ok_inv & Hd1 & H).
  early not_created H as (u1 & w2 & _ & Hd2 & H).
  early not_created H as (u2 & w3 & [Hweb _]%check_Ok_inv & Hd3 & H).
  early not_created H as (u3 & w4 & Hcap & Hd4 & H).
  early not_created H as (found & w5 & [-> Hd5']%or_else_Ok_inv%query_text_Ok_inv & Hd5 & H).
  early not_created H as (u5 & w6 & [Hno _]%check_Ok_inv & Hd6 & H).
  early not_created H as (h & w7 & _ & Hd7 & H). early not_created H as (hashed & w8 & _ & Hd8 & H).
  early not_created H as (created & w9 & _ & Hd9 & H). early not_created H as (login & w10 & _ & Hd10 & H).
  apply serve_bind in H as [(id & w11 & Hu%or_else_Ok_inv & H)|H].
  - right. injection H as <- <-. split; [done|]. apply create_user_row in Hu as (row & H1 & H2 & _ & H3 & H4 & H5 & H6).
    exists req, row. rewrite Hd10 in H6. split_and!; try done.
    + by destruct (TrimSpace (RR_Website req)).
    + pose proof (captcha_settles cfg verify (RR_TurnstileToken req) (ClientIP r) (message 400 "Captcha verification required")
        (message 403 "Captcha verification failed") (fun _ => mret tt)) as Hs.
      rewrite <-(Hs (fun _ => never_ret _) w3), Hcap. by destruct u3.
    + rewrite <-Hd4. apply no_row. apply negb_true_iff in Hno. by destruct (res_value _).
  - left. split.
    + revert H. apply (throws_or_else not_created). intros e. discriminate.
    + rewrite <-Hd10. revert H. apply clean_or_else, create_user_clean.
Qed.
Lemma register_mounted x cfg svc remember rt : ConsolidatedMode cfg = true -> rt ∈ NewRouter x cfg svc remember ->
  route_key rt = "POST /api/auth/register" ->
  RT_Endpoint rt = Serves (identity_route (identity_settings x cfg remember) (x_bcrypt_Generate x) (x_bcrypt_Compare x) (x_jwt_Sign x)
    (turnstile_client x cfg) (x_jwt_Parse x) (RegisterRateLimit cfg) (RegisterRateWindow cfg) PostRegister).
Proof.
  intros E Hin Hk. set (h := identity_route _ _ _ _ _ _ _ _ _).
  rewrite (NoDup_key_eq route_key (NewRouter x cfg svc remember) rt (Post "/api/auth/register" h)); [done| |done| |done].
  - apply router_distinct.
  - apply (list_elem_of_lookup_2 _ 34). unfold NewRouter. rewrite E. reflexivity.
Qed.

(** C9. In a started production process in consolidated mode, nobody gets an
    account through the registration route without a captcha that the
    verification service accepts: the answer is not 201 and no table changes,
    or the posted token, trimmed, was verified with the configured secret for
    the address of the client, the decoy field was blank, no account had that
    address, and exactly one account was added, a guest without links. *)
Theorem production_registration_verified (x : Externals) (routes : list Route) (rt : Route) (h : Handler) (r : Request)
    (w w' : World) (resp : Resp) :
  let cfg := Load (x_Getenv x) in
  server x = Ok routes -> IsProduction cfg = true -> ConsolidatedMode cfg = true ->
  rt ∈ routes -> route_key rt = "POST /api/auth/register" -> RT_Endpoint rt = Serves h -> serve (h r) w = (resp, w') ->
  (Status resp <> 201 /\ db w' = db w) \/
  exists req row, Decode (dec_struct register_request_fields) (mkRegister "" "" "" "" "" "") r = Some req /\
    Verify (x_siteverify x) (TurnstileSecretKey cfg) (TrimSpace (RR_TurnstileToken req)) (ClientIP r) = Ok tt /\
    TrimSpace (RR_Website req) = "" /\ (forall u, u ∈ users (db w) -> U_Email u <> RR_Email req) /\
    U_Email row = RR_Email req /\ U_Role row = RoleGuestLocal /\
    U_LinkedMachineID row = None /\ U_LinkedGatewayID row = None /\ U_LinkedArmoireID row = None /\
    db w' = on_users (fun rows => rows ++ [row]) (db w).
Proof.
  unfold server. generalize (Load (x_Getenv x)). intros cfg. cbn zeta. destruct (Validate cfg); [done|]. intros [= <-] Hprod Hcons.
  rewrite Hcons. intros Hin Hk Hh H. pose proof (register_mounted x cfg _ _ rt Hcons Hin Hk) as Hm. rewrite Hh in Hm. injection Hm as ->.
  cbn [identity_route identity_handler] in H. unfold registerRateLimitMiddleware, limited in H.
  apply serve_bind in H as [(ok & w1 & Ha & H)|H]; [|by apply Allow_answers in H].
  assert (db w1 = db w) as Hd by (eapply keeps_run; [intros; apply Allow_keeps|exact Ha]).
  destruct ok; [|by left; injection H as <- <-].
  change (serve (Register (identity_settings x cfg true) (x_bcrypt_Generate x) (turnstile_client x cfg) r) w1 = (resp, w')) in H.
  apply registration_run in H as [[H1 H2]|[_ H]]; [left; split; [exact H1|congruence]|right].
  destruct H as (req & row & H1 & H2 & H3 & H4 & H5). rewrite Hd in H4, H5. exists req, row. split; [exact H1|]. split; [|tauto].
  revert H3. unfold captcha_verdict, identity_settings. cbn [turnstileEnforced hasTurnstile].
  replace (TurnstileEnforced cfg) with true by (unfold TurnstileEnforced; by rewrite Hprod). cbn [negb].
  destruct (is_empty _); [done|]. destruct (negb (negb _) || negb _) eqn:E; [done|]. intros _.
  apply orb_false_iff in E as [_ E%negb_false_iff]. unfold turnstile_client in E. by destruct (Verify _ _ _ _) as [ [] |].
Qed.
(** A person registers; a program without a token does not. *)
Definition demo_registration (token : string) : Request :=
  mkRequest "POST" None None None ∅ ∅ ∅ "10.0.0.1:5000"
    (Some (mkBody (JObj [("email", JStr "n@b.c"); ("password", JStr "long-password"); ("turnstile_token", JStr token)]) 80 None)).
Abbreviation demo_register := (identity_route (identity_settings demo_externals demo_config true) (fun _ _ => Some "hash") (fun _ _ => true)
  (fun _ => Some "jwt") (turnstile_client demo_externals demo_config) demo_jwt (RegisterRateLimit demo_config)
  (RegisterRateWindow demo_config) PostRegister).
Definition register_world : World := empty_world 10 (repeat "A"%char 32).
Example register_without_token : serve (demo_register (demo_registration "")) register_world =
  (message 400 "Captcha verification required", (serve (demo_register (demo_registration "")) register_world).2).
Proof. vm_compute. reflexivity. Qed.
Lemma production_registration_verified_witness :
  let served := serve (demo_register (demo_registration " human ")) register_world in
  Status served.1 = 201 /\ exists row, db served.2 = on_users (fun rows => rows ++ [row]) (db register_world) /\ U_Role row = RoleGuestLocal.
Proof.
  intros served. assert (Status served.1 = 201) as Hs by (vm_compute; reflexivity). split; [exact Hs|].
  destruct (production_registration_verified demo_externals demo_routes (Post "/api/auth/register" demo_register) demo_register
    (demo_registration " human ") register_world served.2 served.1)
    as [ [H _]|(req & row & _ & _ & _ & _ & _ & Hr & _ & _ & _ & H)].
  - exact demo_server.
  - vm_compute. reflexivity.
  - vm_compute. reflexivity.
  - by apply (list_elem_of_lookup_2 _ 34).
  - vm_compute. reflexivity.
  - reflexivity.
  - apply surjective_pairing.
  - by destruct H.
  - by exists row.
Defined.

(** ** The limits that are configured *)
(** Whatever the environment holds, the server runs with positive limits:
    the registrations are limited to the configured number, five without a
    readable positive one; the window of that limit and the stale time of the
    exchange table are as many seconds as their texts say up to 9223372036, an
    hour and two minutes without a readable positive text; beyond, the product
    wraps around and the setting is never what its text says, [18446744074]
    seconds being a window of 0.29 seconds. *)
Lemma configured_limits (Getenv : string -> string) :
  let cfg := Load Getenv in
  let window := if RegisterRateWindow cfg <=? 0 then Hour else RegisterRateWindow cfg in
  let ttl := NewHandler_TTL (ExchangeStaleTTL cfg) in
  let says key value fb := (forall n, readable Getenv key n -> (value = n * Second <-> n <= max_seconds)) /\
                           ((forall n, ~ readable Getenv key n) -> value = fb) in
  0 < RegisterRateLimit cfg /\ 0 < window /\ 0 < ttl /\
  (readable Getenv "REGISTER_RATE_LIMIT" (RegisterRateLimit cfg) \/
   ((forall n, ~ readable Getenv "REGISTER_RATE_LIMIT" n) /\ RegisterRateLimit cfg = 5)) /\
  says "REGISTER_RATE_WINDOW_SECONDS" (RegisterRateWindow cfg) Hour /\
  says "EXCHANGE_STALE_TTL_SECONDS" (ExchangeStaleTTL cfg) (120 * Second) /\
  RegisterRateWindow (Load (fun name => if seqb name "REGISTER_RATE_WINDOW_SECONDS" then "18446744074" else "")) = 290448384.
Proof.
  intros cfg window ttl says.
  assert (readable Getenv "REGISTER_RATE_LIMIT" (RegisterRateLimit cfg) \/
    ((forall n, ~ readable Getenv "REGISTER_RATE_LIMIT" n) /\ RegisterRateLimit cfg = 5)) as Hlim by exact (proj1 (envInt_spec _ _ _ _) eq_refl).
  split_and!.
  - by destruct Hlim as [[_ ?]|[_ ->]].
  - unfold window. destruct (_ <=? 0) eqn:E; [done|lia].
  - unfold ttl, NewHandler_TTL. destruct (ExchangeStaleTTL cfg <=? 0) eqn:E; [done|lia].
  - done.
  - by apply envDurationSeconds_spec.
  - by apply envDurationSeconds_spec.
  - vm_compute. reflexivity.
Qed.
